(* ===== verification/_CoqProject ===== *)
-Q . S2P
Prelude.v
Config.v
Paths.v
Request.v
XSync.v
DataCache.v
AdapterPool.v
Inode.v
Heap.v
Node.v
NodeContext.v
Tree.v
FileSystem.v
FileSystemSpec.v
FileCreation.v
NodeRegistry.v
NodeLog.v
Reachable.v
FileSystemSamples.v
Fuse.v
Bridge.v
FuseSpec.v
FuseTheorems.v
FuseFiles.v
FuseSamples.v
EnsureRace.v
MkdirRace.v
RaceSamples.v
Json.v
Decode.v
Registry.v
Requests.v
RequestsSpec.v
Http.v
HttpSpec.v
Loading.v
LoadingSpec.v
LoadingTree.v
LoadingServes.v
Session.v
Logger.v
Main.v
MainSpec.v
ServeAsync.v
HttpSamples.v
LoadingSamples.v
MainSamples.v
