(* ===== verification/Prelude.v ===== *)
(** * WebFS

    A development about webfs, a filesystem in user space whose files are
    fetched from remote sources: a definitions file names directories and
    files, every file has a list of sources (today: HTTP), and the kernel reads
    the tree through go-fuse. The Go sources are under src/.

    ** The program and its model

    The program starts in main (src/cmd/wfs/main.go): it makes a registry of
    adapter providers, a configuration and a filesystem, decodes the
    definitions into requests, adds directories and then files, and mounts.
    From then on the kernel's requests arrive at FuseRaw (src/fuse/server.go),
    which works on nodes through identifiers and locked node contexts; a read
    goes to the node's inode, which answers from its cache or asks its pool of
    adapters, the first healthy one first.

    Stateful code is a function in the state monad [GoM S A], that is
    [S -> outcome (A * S)]: besides returning, a run can panic, block for ever
    on a mutex, or exhaust the fuel of a recursion. Go's [(T, error)] is
    [result T]. Machine integers are [Z] with the wrap-around written at the
    operation ([+i], [-i] on int64, [+u] on uint64). Pointers are addresses in
    a heap ([loc]), mutexes are entries of a table of locks in that heap, and
    the world (clock, network) is a type [W] that effects thread through.

    File by file, with the code each models:

    - Prelude: outcomes, errors, the monad, integers, slices, shared lemmas.
    - Config: src/config/config.go, the levels of src/internal/util/logger.go,
      the verbosity flag of main.
    - Paths: path.Join and path.Split as the code uses them.
    - Request: src/request.go, src/adapter.go (requests, sources, providers).
    - XSync: the interface of xsync.Map, with an instance on finite maps.
    - DataCache, AdapterPool, Inode: the three parts of
      src/filesystem/inode.go; FileAdapter (src/adapter.go) is the class
      [FileAdapterOps].
    - Heap, Node, NodeContext, Tree: src/filesystem/node.go and context.go on
      the heap, with the well-formedness of the tree; NodeLog: the two log
      builders of context.go.
    - FileSystem: src/filesystem/fs.go and consts.go. FileSystemSpec (paths and
      mkdir -p), FileCreation (files), NodeRegistry (identifiers) and Reachable
      (every reachable state) hold its theorems; FileSystemSamples a concrete
      filesystem.
    - Fuse: src/fuse/server.go, written against the class [ServerBridger] as
      the Go code is written against the interface of that name. Bridge states
      the laws of the interface ([BridgerLaws]) and proves that the filesystem
      keeps them; FuseSpec and FuseTheorems verify the handlers against the
      laws alone; FuseFiles adds what needs the filesystem; FuseSamples.
    - EnsureRace, MkdirRace, RaceSamples: EnsureNodeID and AddDirNode of fs.go as
      steps of any number of goroutines.
    - Json, Decode: encoding/json as the program uses it. Registry:
      src/adapters/registry.go. Requests, RequestsSpec: src/requests.
    - Http, HttpSpec, HttpSamples: src/adapters/http.go.
    - Loading: src/adapters/builtins.go, the WebFS struct of
      src/server/webfs.go and the loading part of main. LoadingSpec (every run
      returns), LoadingTree (the tree it makes, against an abstract loader that
      maps paths to entries) and LoadingServes (what its files read as) hold its
      theorems; LoadingSamples.
    - Session: a path looked up, opened and read through the FUSE adapter.
    - Logger: src/internal/util/logger.go. Main: the methods of WebFS and main
      itself; MainSpec, MainSamples. ServeAsync: the goroutine of
      src/server/webfs.go and its channel.

    ** What the theorems show

    From end to end, [MainSpec.main_mounts]: what the program mounts is the tree
    the definitions ask for, and with honest servers a file found by its path
    through the FUSE adapter reads as exactly its content, or EIO. It is put
    together from: decoding ([UnmarshalFileRequest_spec]), loading
    ([load_nodes_complete]: the tree is the one the abstract loader computes,
    directories and files as such; [load_nodes_faithful]: they read as their
    contents), the HTTP adapter as an implementation of the
    contract [serves] of an adapter ([http_file_read]), the read path of an
    inode as a refinement of the file's contents ([Read_refines_file]), and
    Session.v.

    The filesystem: [fs_invariant] (every reachable state is well formed),
    [AddDirNode_mkdir_p] (a refinement of mkdir -p), [AddFileNode_creates] and
    its error cases, [Path_resolve] (a path leads back to its node),
    [EnsureNodeID_unique] (an identifier names one node for the rest of the
    session, whatever steps follow), [ForgetNodeID_stale], [LogNodeTree_total].

    The FUSE adapter: every request, reads of files included, is answered
    without panic or deadlock and gives its locks back, as long as reads are in
    the range of int64 and adapters keep the bounds of their buffers, as the HTTP
    adapter does whatever its server sends ([handle_safe], [http_bounded]); a
    directory listed page by page shows every entry once when no child of the
    snapshot is deleted ([list_dir_complete]), and repeats entries when one is
    and the last child is not ([ReadDir_repeats]); handles are fresh
    ([open_handles]).

    Concurrency: [EnsureNodeID_race] and [EnsureNodeID_window] over every
    interleaving of EnsureNodeID; [AddDirNode_race_loses] over those of two
    calls of AddDirNode; [ServeAsync_reports] over every interleaving
    of the goroutine with its readers.

    Caches ([store_get]: what a later request inside a stored range gets), pools,
    configuration, the logger and the HTTP adapter have their functional
    theorems in their own files, the failures included: overflow of int64 in
    the cache, backups that are never retried, transfers that are cut off,
    responses without a length.

    ** Bounds and fuel

    Node.Path recurses through parents, whose addresses are smaller than their
    children's: the address of the node plus one is enough fuel. The log
    builder recurses through children, whose addresses are larger: the next
    free address is enough. The JSON parser and the unquoting of strings
    consume at least one byte per unit of fuel and get the length of the text
    (plus one). Theorems about allocation assume that the counters do not wrap
    ([lastIno], [lastNodeID], the handle counters below 2^64), and reads assume
    an offset and size whose sum is an int64 ([valid_request]) and a buffer that
    can be allocated ([maxAlloc]).

    ** Not modelled

    - The network, URL and date parsing, the generator of uuids, the JSON form
      of times, go-fuse's server and reply buffers, xsync.Map, the YAML
      decoder, zerolog's sink and the operating system are parameters (classes)
      with the laws the code relies on; samples instantiate them.
    - encoding/json: the limit of 10000 nested values, and the reuse of a
      slice's capacity when a key is repeated.
    - Log lines, except the writer behind standard loggers and the tree
      builders; FuseRaw.Init, OnUnmount and String, which only log or keep a
      pointer; the wait for a debugger and the declaration of flags in main.
    - Goroutines run to completion one at a time, except in EnsureRace,
      MkdirRace and ServeAsync; the refresh of metadata is a queued task that may run at any
      point between two operations. A writer waiting for a mutex does not hold
      up new readers, as it would in Go.
    - src/internal/mocks (test doubles), src/internal/util/util.go (the address
      of a value) and src/node.go (interfaces nothing goes through). *)

From Stdlib Require Import ZArith Lia.
From Stdlib Require Export Strings.Byte.
From stdpp Require Export base gmap strings list fin_maps.

Declare Scope webfs_scope.
Delimit Scope webfs_scope with webfs.
#[global] Open Scope Z_scope.
#[global] Open Scope webfs_scope.

(** ** Go values *)

Abbreviation bytes := (list byte).

#[export] Instance byte_eq_dec : EqDecision byte := Byte.byte_eq_dec.

(** Go's fixed-width integers are kept as [Z] together with the wrap-around
    of the operation that produced them. *)
Definition wrap64 (z : Z) : Z := (z + 2 ^ 63) mod 2 ^ 64 - 2 ^ 63.
Definition wrap32 (z : Z) : Z := (z + 2 ^ 31) mod 2 ^ 32 - 2 ^ 31.
Definition u64 (z : Z) : Z := z mod 2 ^ 64.
Definition u32 (z : Z) : Z := z mod 2 ^ 32.

Definition in_i64 (z : Z) : Prop := - 2 ^ 63 <= z < 2 ^ 63.
Definition in_u64 (z : Z) : Prop := 0 <= z < 2 ^ 64.

Notation "x +i y" := (wrap64 (x + y)) (at level 50, left associativity) : webfs_scope.
Notation "x -i y" := (wrap64 (x - y)) (at level 50, left associativity) : webfs_scope.
Notation "x +u y" := (u64 (x + y)) (at level 50, left associativity) : webfs_scope.

Lemma wrap64_id z : in_i64 z -> wrap64 z = z.
Proof. unfold in_i64, wrap64. intros H. rewrite Z.mod_small; lia. Qed.

Lemma wrap64_range z : in_i64 (wrap64 z).
Proof.
  unfold in_i64, wrap64. pose proof (Z.mod_pos_bound (z + 2 ^ 63) (2 ^ 64)). lia.
Qed.

Lemma wrap32_id z : - 2 ^ 31 <= z < 2 ^ 31 -> wrap32 z = z.
Proof. unfold wrap32. intros H. rewrite Z.mod_small; lia. Qed.

Lemma u64_id z : in_u64 z -> u64 z = z.
Proof. unfold in_u64, u64. intros H. apply Z.mod_small. lia. Qed.

Lemma u64_range z : in_u64 (u64 z).
Proof. unfold in_u64, u64. apply Z.mod_pos_bound. lia. Qed.

(** ** Outcomes and errors *)

(** What running a piece of Go code can do: return, panic, block for ever on a
    mutex held by the same goroutine, or recurse past the fuel of the model. *)
Inductive outcome (A : Type) : Type :=
  | Ret (a : A)
  | Panic
  | Blocked
  | OutOfFuel.
Arguments Ret {_} _.
Arguments Panic {_}.
Arguments Blocked {_}.
Arguments OutOfFuel {_}.

#[export] Instance outcome_ret : MRet outcome := @Ret.
#[export] Instance outcome_bind : MBind outcome := fun A B f m =>
  match m with
  | Ret a => f a
  | Panic => Panic
  | Blocked => Blocked
  | OutOfFuel => OutOfFuel
  end.

(** The errors the program builds ([fmt.Errorf], [errors.New]) and the ones it
    passes on from code outside the repository. *)
Inductive GoError : Type :=
  | ErrNoAdapters                        (* inode.go: adapter pool not set *)
  | ErrNilInode                          (* node.go: cannot create node with nil inode *)
  | ErrDeletedNode (name : string)
  | ErrDetachedNode (name : string)
  | ErrFileExists (path : string)
  | ErrNoValidAdapters
  | ErrCreateNode (cause : GoError)
  | ErrNodeNotFound (id : Z)
  | ErrExternal (msg : string).

#[export] Instance GoError_eq_dec : EqDecision GoError.
Proof. solve_decision. Defined.

(** A Go call returning [(T, error)] of which exactly one is meaningful. *)
Inductive result (A : Type) : Type :=
  | Ok (a : A)
  | Err (e : GoError).
Arguments Ok {_} _.
Arguments Err {_} _.

(** ** The state monad of the program *)

Definition GoM (S A : Type) : Type := S -> outcome (A * S).

#[export] Instance GoM_ret {S} : MRet (GoM S) := fun A a s => Ret (a, s).
#[export] Instance GoM_bind {S} : MBind (GoM S) := fun A B f m s =>
  match m s with
  | Ret (a, s') => f a s'
  | Panic => Panic
  | Blocked => Blocked
  | OutOfFuel => OutOfFuel
  end.

Definition get_state {S} : GoM S S := fun s => Ret (s, s).
Definition modify {S} (f : S -> S) : GoM S unit := fun s => Ret (tt, f s).
Definition go_panic {S A} : GoM S A := fun _ => Panic.
Definition go_block {S A} : GoM S A := fun _ => Blocked.
Definition no_fuel {S A} : GoM S A := fun _ => OutOfFuel.

(** Reading through an address: a nil or dangling dereference panics. *)
Definition deref {S A} (o : option A) : GoM S A :=
  match o with Some a => mret a | None => go_panic end.

(** Running code of a component on the part of the state it owns. *)
Definition zoom {S T A} (get : S -> T) (put : T -> S -> S) (m : GoM T A) : GoM S A :=
  fun s => match m (get s) with
           | Ret (a, t) => Ret (a, put t s)
           | Panic => Panic
           | Blocked => Blocked
           | OutOfFuel => OutOfFuel
           end.

Section monad_lemmas.
Context {S A B : Type}.
Implicit Types (s : S) (m : GoM S A) (k : A -> GoM S B).

Lemma bind_run m k s a s' : m s = Ret (a, s') -> (m ≫= k) s = k a s'.
Proof. intros H. unfold mbind, GoM_bind. by rewrite H. Qed.

Lemma bind_mret (a : A) k s : (mret a ≫= k) s = k a s.
Proof. done. Qed.

Lemma bind_inv m k s b s' :
  (m ≫= k) s = Ret (b, s') -> exists a s1, m s = Ret (a, s1) /\ k a s1 = Ret (b, s').
Proof.
  unfold mbind, GoM_bind. intros H.
  destruct (m s) as [[a s1]| | |]; [by exists a, s1 | done..].
Qed.

Lemma zoom_run {T} (get : S -> T) put (c : GoM T A) s a t :
  c (get s) = Ret (a, t) -> zoom get put c s = Ret (a, put t s).
Proof. intros H. unfold zoom. by rewrite H. Qed.
End monad_lemmas.

(** [go_step H] runs the first action of the computation in the goal with the
    equation [H] for it; [go_simpl] runs the actions that need none. *)
Ltac go_step H := erewrite bind_run; [| eapply H]; cbn beta iota.
Ltac go_simpl :=
  repeat first
    [ rewrite bind_mret
    | progress cbn [get_state modify deref mret GoM_ret]
    | erewrite bind_run by reflexivity ]; cbn beta iota.

(** ** Slices *)

(** [data[lo:hi]] of a slice whose capacity is its length: [None] is Go's
    bounds-check panic. *)
Definition slice {A} (l : list A) (lo hi : Z) : option (list A) :=
  if decide (0 <= lo <= hi /\ hi <= Z.of_nat (length l))
  then Some (take (Z.to_nat (hi - lo)) (drop (Z.to_nat lo) l))
  else None.

Lemma slice_some {A} (l : list A) lo hi :
  0 <= lo <= hi -> hi <= Z.of_nat (length l) ->
  slice l lo hi = Some (take (Z.to_nat (hi - lo)) (drop (Z.to_nat lo) l)).
Proof. intros. unfold slice. by rewrite decide_True. Qed.

Lemma slice_none {A} (l : list A) lo hi :
  ~ (0 <= lo <= hi /\ hi <= Z.of_nat (length l)) -> slice l lo hi = None.
Proof. intros. unfold slice. by rewrite decide_False. Qed.

Lemma slice_length {A} (l d : list A) lo hi :
  slice l lo hi = Some d -> Z.of_nat (length d) = hi - lo.
Proof.
  unfold slice. case_decide as H; [|done]. intros [= <-].
  rewrite length_take, length_drop. lia.
Qed.

(** The bytes of a file of content [c] that a read of [size] bytes at
    [offset] should deliver: as many as the file has, none past its end. *)
Definition file_bytes (c : bytes) (offset size : Z) : bytes :=
  take (Z.to_nat size) (drop (Z.to_nat offset) c).

Lemma file_bytes_length c offset size :
  0 <= offset -> 0 <= size ->
  Z.of_nat (length (file_bytes c offset size))
  = Z.max 0 (Z.min size (Z.of_nat (length c) - offset)).
Proof. intros. unfold file_bytes. rewrite length_take, length_drop. lia. Qed.

(** A read is determined by the bytes it delivers. *)
Lemma file_bytes_self c offset size :
  file_bytes c offset (Z.of_nat (length (file_bytes c offset size))) = file_bytes c offset size.
Proof.
  unfold file_bytes. set (l := drop _ c). rewrite Nat2Z.id, length_take.
  destruct (decide (Z.to_nat size <= length l)%nat).
  - f_equal. lia.
  - rewrite !take_ge; [done | lia..].
Qed.

(** A sub-range of a file range is a range of the file. *)
Lemma file_bytes_sub c start len offset size :
  0 <= start <= offset -> 0 <= size -> offset + size <= start + len ->
  take (Z.to_nat size) (drop (Z.to_nat (offset - start)) (file_bytes c start len))
  = file_bytes c offset size.
Proof.
  intros Hs Hz Hle. unfold file_bytes.
  rewrite skipn_firstn_comm, take_take, drop_drop.
  f_equal; [lia|]. f_equal. lia.
Qed.

Create HintDb webfs.
Create Rewrite HintDb webfs.
#[export] Hint Resolve wrap64_range u64_range : webfs.
#[export] Hint Rewrite @bind_mret : webfs.

(** Case analysis on the scrutinee of a [match] in a hypothesis or the goal. *)
Ltac split_match :=
  match goal with
  | H : context [match ?x with _ => _ end] |- _ => destruct x eqn:?
  | |- context [match ?x with _ => _ end] => destruct x eqn:?
  end; simplify_eq/=; try done.
