(* ===== verification/Config.v ===== *)
(** Configuration (src/config/config.go) and the log levels of
    src/internal/util/logger.go: defaults, merging of overrides, loading of an
    override file, and what src/cmd/wfs/main.go makes of its verbosity flag. *)

From Stdlib Require Import SpecFloat Ascii.
From S2P Require Import Prelude.

(** ** Log levels *)

Definition TraceLevel : Z := 0.
Definition DebugLevel : Z := 1.
Definition InfoLevel : Z := 2.
Definition WarnLevel : Z := 3.
Definition ErrorLevel : Z := 4.

(** zerolog's levels, as [InitializeLogger] and [NewLogLogger] map to them. *)
Inductive zerologLevel := ZTrace | ZDebug | ZInfo | ZWarn | ZError.

Definition zerolog_of (level : Z) : zerologLevel :=
  if level =? TraceLevel then ZTrace
  else if level =? DebugLevel then ZDebug
  else if level =? InfoLevel then ZInfo
  else if level =? WarnLevel then ZWarn
  else if level =? ErrorLevel then ZError
  else ZInfo.

(** ** Data *)

(** A float64 is its binary64 datum. *)
Definition float64 := spec_float.
Definition f64_one : float64 := S754_finite false 4503599627370496 (-52).

#[export] Instance float64_eq_dec : EqDecision float64.
Proof. unfold float64. solve_decision. Defined.

Definition MB : Z := 1024 * 1024.
Definition DefaultMaxFH : Z := Z.shiftl 1 31 - 1.
Definition DefaultChunkSize : Z := 1 * MB.
Definition DefaultCacheMaxSize : Z := 200 * MB.
Definition DefaultMaxPrefetchAhead : Z := 100 * MB.
Definition DefaultPrefetchBatchSize : Z := 3.
Definition DefaultMaxWrite : Z := 1 * MB.
Definition DefaultAttrTimeout : float64 := f64_one.
Definition DefaultEntryTimeout : float64 := f64_one.
Definition DefaultDirectIO : bool := true.
Definition DefaultLogLvl : Z := InfoLevel.
Definition DefaultFsName : string := "webfs".
Definition DefaultName : string := "webfs".

Record MountOptions := mkMountOptions { FsName : string; Name : string }.

(** The int fields are 64-bit. *)
Record Config := mkConfig {
  mountOptions : MountOptions;
  ChunkSize : Z;
  CacheMaxSize : Z;
  MaxPrefetchAhead : Z;
  PrefetchBatchSize : Z;
  LogLvl : Z;
  MaxFH : Z;
  MaxWrite : Z;
  AttrTimeout : float64;
  EntryTimeout : float64;
  DirectIO : bool
}.

(** Pointer fields: [None] is nil. *)
Record ConfigOverride := mkOverride {
  o_ChunkSize : option Z;
  o_CacheMaxSize : option Z;
  o_MaxPrefetchAhead : option Z;
  o_PrefetchBatchSize : option Z;
  o_MaxFH : option Z;
  o_MaxWrite : option Z;
  o_AttrTimeout : option float64;
  o_EntryTimeout : option float64;
  o_DirectIO : option bool;
  o_LogLvl : option Z;
  o_FsName : option string;
  o_Name : option string
}.

Definition empty_override : ConfigOverride :=
  mkOverride None None None None None None None None None None None None.

Definition ErrorVerbose : Z := 1.
Definition WarnVerbose : Z := 2.
Definition InfoVerbose : Z := 3.
Definition DebugVerbose : Z := 4.
Definition TraceVerbose : Z := 5.

(** ** Operations *)

(** Go's [/] truncates towards zero; the quotient of the least int by -1 wraps. *)
Definition NumCacheChunks (c : Config) : Z :=
  if ChunkSize c =? 0 then 0
  else wrap64 (Z.quot (CacheMaxSize c) (ChunkSize c)).

(** The five-element table of levels, indexed by verbosity minus one; an index
    outside it panics. *)
Definition logLvls : list Z := [ErrorLevel; WarnLevel; InfoLevel; DebugLevel; TraceLevel].

Definition index {A} (l : list A) (i : Z) : outcome A :=
  if decide (0 <= i < Z.of_nat (length l))
  then match l !! Z.to_nat i with Some x => Ret x | None => Panic end
  else Panic.

Definition verbosity_level (v : Z) : outcome Z :=
  let verbose := Z.min (Z.max v ErrorVerbose) TraceVerbose in
  index logLvls (verbose - 1).

Definition override_with {A} (o : option A) (old : A) : A :=
  match o with Some v => v | None => old end.

(** [None] is the nil override. *)
Definition merge (c : Config) (override : option ConfigOverride) : outcome Config :=
  match override with
  | None => Ret c
  | Some o =>
      lvl ← match o_LogLvl o with
            | Some v => verbosity_level v
            | None => Ret (LogLvl c)
            end;
      Ret {| mountOptions := {| FsName := override_with (o_FsName o) (FsName (mountOptions c));
                                Name := override_with (o_Name o) (Name (mountOptions c)) |};
             ChunkSize := override_with (o_ChunkSize o) (ChunkSize c);
             CacheMaxSize := override_with (o_CacheMaxSize o) (CacheMaxSize c);
             MaxPrefetchAhead := override_with (o_MaxPrefetchAhead o) (MaxPrefetchAhead c);
             PrefetchBatchSize := override_with (o_PrefetchBatchSize o) (PrefetchBatchSize c);
             LogLvl := lvl;
             MaxFH := override_with (o_MaxFH o) (MaxFH c);
             MaxWrite := override_with (o_MaxWrite o) (MaxWrite c);
             AttrTimeout := override_with (o_AttrTimeout o) (AttrTimeout c);
             EntryTimeout := override_with (o_EntryTimeout o) (EntryTimeout c);
             DirectIO := override_with (o_DirectIO o) (DirectIO c) |}
  end.

Definition defaultConfig : Config :=
  {| mountOptions := {| FsName := DefaultFsName; Name := DefaultName |};
     ChunkSize := DefaultChunkSize;
     CacheMaxSize := DefaultCacheMaxSize;
     MaxPrefetchAhead := DefaultMaxPrefetchAhead;
     PrefetchBatchSize := DefaultPrefetchBatchSize;
     LogLvl := DefaultLogLvl;
     MaxFH := DefaultMaxFH;
     MaxWrite := DefaultMaxWrite;
     AttrTimeout := DefaultAttrTimeout;
     EntryTimeout := DefaultEntryTimeout;
     DirectIO := DefaultDirectIO |}.

Definition NewConfig (override : option ConfigOverride) : outcome Config :=
  merge defaultConfig override.

(** *** Loading an override file *)

(** [filepath.Ext]: the suffix from the last dot of the last path element,
    scanned from the end. *)
Fixpoint ext_scan (rev_path : list Ascii.ascii) (acc : list Ascii.ascii) : list Ascii.ascii :=
  match rev_path with
  | [] => []
  | c :: rest =>
      if decide (c = "/"%char) then []
      else if decide (c = "."%char) then c :: acc
      else ext_scan rest (c :: acc)
  end.

Definition Ext (path : string) : string :=
  String.string_of_list_ascii (ext_scan (reverse (String.list_ascii_of_string path)) []).

(** [strings.ToLower] on the ASCII letters, the only ones that matter to the
    comparison with ".yaml", ".yml" and ".json" (no letter outside ASCII has
    one of theirs as its lower case). *)
Definition lower_ascii (c : Ascii.ascii) : Ascii.ascii :=
  let n := Ascii.nat_of_ascii c in
  if decide (65 <= n <= 90)%nat then Ascii.ascii_of_nat (n + 32) else c.

Definition ToLower (s : string) : string :=
  String.string_of_list_ascii (lower_ascii <$> String.list_ascii_of_string s).

Inductive ConfigError :=
  | ErrReadFile (msg : string)
  | ErrUnmarshal (cause : string)
  | ErrUnknownExtension (path : string).

(** The file system and the two decoders are outside the repository (yaml.v3)
    or act on the machine (os.ReadFile). *)
Section load.
Context (ReadFile : string -> bytes + string)
        (yaml_Unmarshal json_Unmarshal : bytes -> ConfigOverride + string).

Definition LoadConfigOverrideFile (path : string) : ConfigOverride + ConfigError :=
  match ReadFile path with
  | inr msg => inr (ErrReadFile msg)
  | inl data =>
      let ext := ToLower (Ext path) in
      if decide (ext = ".yaml" \/ ext = ".yml") then
        match yaml_Unmarshal data with
        | inl override => inl override
        | inr e => inr (ErrUnmarshal e)
        end
      else if decide (ext = ".json") then
        match json_Unmarshal data with
        | inl override => inl override
        | inr e => inr (ErrUnmarshal e)
        end
      else inr (ErrUnknownExtension path)
  end.

Definition NewConfigFromFile (path : string) : outcome (Config + ConfigError) :=
  match LoadConfigOverrideFile path with
  | inr e => Ret (inr e)
  | inl override => cfg ← NewConfig (Some override); Ret (inl cfg)
  end.
End load.

(** *** The verbosity flag of main.go *)

(** [logLvl] of [main], which initialises the logger. *)
Definition main_logLvl (verbose : Z) : outcome Z :=
  let verbose := if verbose <? 1 then 1 else verbose in
  let verbose := if 5 <? verbose then 5 else verbose in
  index logLvls (verbose - 1).

(** [cfg] of [main]. *)
Definition main_config (verbose : Z) : outcome Config :=
  logLvl ← main_logLvl verbose;
  NewConfig (Some (mkOverride None None None None None None None None None (Some logLvl) None None)).

(** The [Debug] mount option of [WebFS.Serve] (src/server/webfs.go). *)
Definition serve_debug (cfg : Config) : bool := LogLvl cfg =? TraceLevel.

(** ** Properties *)

Lemma index_run {A} (l : list A) i x :
  0 <= i -> l !! Z.to_nat i = Some x -> index l i = Ret x.
Proof.
  intros Hi Hl. unfold index. rewrite Hl, decide_True; [done|].
  apply lookup_lt_Some in Hl. lia.
Qed.

(** The table lookup as arithmetic. *)
Lemma logLvls_lookup i : 0 <= i <= 4 -> index logLvls i = Ret (4 - i).
Proof.
  intros Hi. apply index_run; [lia|].
  assert (i = 0 \/ i = 1 \/ i = 2 \/ i = 3 \/ i = 4) as [-> | [-> | [-> | [-> | ->]]]] by lia; done.
Qed.

Lemma verbosity_level_run v : verbosity_level v = Ret (5 - Z.max 1 (Z.min 5 v)).
Proof.
  unfold verbosity_level, ErrorVerbose, TraceVerbose.
  rewrite logLvls_lookup by lia. f_equal. lia.
Qed.

Lemma main_logLvl_run v : main_logLvl v = Ret (5 - Z.max 1 (Z.min 5 v)).
Proof.
  unfold main_logLvl. destruct (v <? 1) eqn:E1; cbn.
  - apply Z.ltb_lt in E1. rewrite logLvls_lookup by lia. f_equal. lia.
  - apply Z.ltb_ge in E1. destruct (5 <? v) eqn:E2.
    + apply Z.ltb_lt in E2. rewrite logLvls_lookup by lia. f_equal. lia.
    + apply Z.ltb_ge in E2. rewrite logLvls_lookup by lia. f_equal. lia.
Qed.

(** C40: [NewConfig] never panics (the index into the level table stays in
    bounds for every int), sets exactly the overridden fields, keeps the
    defaults elsewhere, and maps the verbosity, clamped to 1..5, to the
    internal level 5 - verbosity. *)
Theorem NewConfig_override (o : ConfigOverride) :
  exists c, NewConfig (Some o) = Ret c /\
    c = {| mountOptions := mkMountOptions (default "webfs" (o_FsName o)) (default "webfs" (o_Name o));
           ChunkSize := default (1024 * 1024) (o_ChunkSize o);
           CacheMaxSize := default (200 * 1024 * 1024) (o_CacheMaxSize o);
           MaxPrefetchAhead := default (100 * 1024 * 1024) (o_MaxPrefetchAhead o);
           PrefetchBatchSize := default 3 (o_PrefetchBatchSize o);
           LogLvl := match o_LogLvl o with
                     | Some v => 5 - Z.max 1 (Z.min 5 v)
                     | None => 2
                     end;
           MaxFH := default (2 ^ 31 - 1) (o_MaxFH o);
           MaxWrite := default (1024 * 1024) (o_MaxWrite o);
           AttrTimeout := default f64_one (o_AttrTimeout o);
           EntryTimeout := default f64_one (o_EntryTimeout o);
           DirectIO := default true (o_DirectIO o) |}.
Proof.
  eexists. split; [|done]. unfold NewConfig, merge.
  destruct (o_LogLvl o) as [v|]; [rewrite verbosity_level_run|]; reflexivity.
Qed.

(** The override that has the effect of [o1] followed by [o2]. *)
Definition combine_override (o1 o2 : ConfigOverride) : ConfigOverride :=
  let c {A} (x y : option A) := match y with Some _ => y | None => x end in
  mkOverride (c (o_ChunkSize o1) (o_ChunkSize o2)) (c (o_CacheMaxSize o1) (o_CacheMaxSize o2))
    (c (o_MaxPrefetchAhead o1) (o_MaxPrefetchAhead o2))
    (c (o_PrefetchBatchSize o1) (o_PrefetchBatchSize o2))
    (c (o_MaxFH o1) (o_MaxFH o2)) (c (o_MaxWrite o1) (o_MaxWrite o2))
    (c (o_AttrTimeout o1) (o_AttrTimeout o2)) (c (o_EntryTimeout o1) (o_EntryTimeout o2))
    (c (o_DirectIO o1) (o_DirectIO o2)) (c (o_LogLvl o1) (o_LogLvl o2))
    (c (o_FsName o1) (o_FsName o2)) (c (o_Name o1) (o_Name o2)).

(** A later override wins field by field: merging two overrides one after
    the other is merging their combination, on every configuration. *)
Theorem merge_merge (c : Config) (o1 o2 : ConfigOverride) :
  (merge c (Some o1) ≫= fun c' => merge c' (Some o2)) = merge c (Some (combine_override o1 o2)).
Proof.
  assert (Hc : forall {A} (x y : option A) old,
    override_with (match y with Some _ => y | None => x end) old
    = override_with y (override_with x old)) by by intros ? ? [].
  unfold merge, combine_override. cbn [o_ChunkSize o_CacheMaxSize o_MaxPrefetchAhead
    o_PrefetchBatchSize o_MaxFH o_MaxWrite o_AttrTimeout o_EntryTimeout o_DirectIO o_LogLvl
    o_FsName o_Name]. rewrite !Hc.
  destruct (o_LogLvl o1), (o_LogLvl o2); cbn -[verbosity_level]; by rewrite ?verbosity_level_run.
Qed.

(** The quotient of [NumCacheChunks] for positive sizes is the number of
    whole chunks that fit the cache, and a zero chunk size does not divide. *)
Theorem NumCacheChunks_spec (c : Config) :
  0 <= ChunkSize c < 2 ^ 63 -> 0 <= CacheMaxSize c < 2 ^ 63 ->
  (ChunkSize c = 0 -> NumCacheChunks c = 0) /\
  (0 < ChunkSize c ->
     NumCacheChunks c * ChunkSize c <= CacheMaxSize c < (NumCacheChunks c + 1) * ChunkSize c).
Proof.
  intros Hk Hm. unfold NumCacheChunks. split.
  - intros ->. done.
  - intros Hpos. rewrite (proj2 (Z.eqb_neq _ _)) by lia.
    rewrite Z.quot_div_nonneg by lia.
    pose proof (Z.mul_div_le (CacheMaxSize c) (ChunkSize c) Hpos).
    pose proof (Z.mul_succ_div_gt (CacheMaxSize c) (ChunkSize c) Hpos).
    pose proof (Z.div_pos (CacheMaxSize c) (ChunkSize c) ltac:(lia) Hpos).
    rewrite wrap64_id; [nia|]. unfold in_i64.
    assert (CacheMaxSize c / ChunkSize c <= CacheMaxSize c) by (apply Z.div_le_upper_bound; nia).
    lia.
Qed.

(** [main] passes its internal log level where a verbosity is expected.
    Whatever the flag, the configuration ends up with a level other than the
    one the logger was given, and never with the trace level, so [Serve] never
    turns on the go-fuse debugging it reserves for that level. *)
Theorem main_config_level (verbose : Z) :
  exists cfg lvl, main_config verbose = Ret cfg /\ main_logLvl verbose = Ret lvl /\
    LogLvl cfg = 5 - Z.max 1 lvl /\ LogLvl cfg <> lvl /\ serve_debug cfg = false.
Proof.
  unfold main_config. rewrite main_logLvl_run. cbn -[verbosity_level].
  unfold NewConfig, merge. cbn -[verbosity_level]. rewrite verbosity_level_run.
  eexists _, _. split; [reflexivity|]. split; [reflexivity|]. cbn [LogLvl].
  unfold serve_debug, TraceLevel. cbn [LogLvl]. split_and!; [| |apply Z.eqb_neq]; lia.
Qed.

(** *** File extensions *)

Definition plain (c : Ascii.ascii) : Prop := c <> "/"%char /\ c <> "."%char.

Lemma ext_scan_plain (l rest acc : list Ascii.ascii) :
  Forall plain l -> ext_scan (l ++ rest) acc = ext_scan rest (reverse l ++ acc).
Proof.
  intros Hl. revert acc. induction Hl as [|c l [Hc1 Hc2] _ IH]; intros acc; [done|].
  cbn [app ext_scan]. rewrite !decide_False by done. rewrite IH, reverse_cons. by rewrite <-(assoc (++)).
Qed.

Lemma list_ascii_of_string_app (a b : string) :
  String.list_ascii_of_string (a +:+ b)
  = String.list_ascii_of_string a ++ String.list_ascii_of_string b.
Proof.
  induction a as [|c a IH]; [done|].
  change (c :: String.list_ascii_of_string (a +:+ b)
          = c :: String.list_ascii_of_string a ++ String.list_ascii_of_string b).
  by rewrite IH.
Qed.

Lemma Ext_dot (base ext : string) :
  Forall plain (String.list_ascii_of_string ext) ->
  Ext (base +:+ "." +:+ ext) = "." +:+ ext.
Proof.
  intros He. unfold Ext. rewrite list_ascii_of_string_app, reverse_app.
  change (String.list_ascii_of_string ("." +:+ ext))
    with ("."%char :: String.list_ascii_of_string ext).
  rewrite reverse_cons, <-(assoc (++)), ext_scan_plain by by apply Forall_reverse.
  rewrite reverse_involutive, (right_id_L [] (++)). cbn [app ext_scan].
  rewrite decide_False, decide_True by done.
  change ("." +:+ ext) with (String "."%char ext). cbn. by rewrite String.string_of_list_ascii_of_string.
Qed.

(** The format of an override file is chosen by the extension of its last
    path element, in any case; a read error and a decoding error are passed
    on; every other extension is refused. *)
Theorem LoadConfigOverrideFile_dispatch ReadFile yaml json (base ext : string) :
  Forall plain (String.list_ascii_of_string ext) ->
  let path := base +:+ "." +:+ ext in
  LoadConfigOverrideFile ReadFile yaml json path =
  match ReadFile path with
  | inr msg => inr (ErrReadFile msg)
  | inl data =>
      let decode (f : bytes -> ConfigOverride + string) :=
        match f data with inl o => inl o | inr e => inr (ErrUnmarshal e) end in
      if decide (ToLower ext = "yaml" \/ ToLower ext = "yml") then decode yaml
      else if decide (ToLower ext = "json") then decode json
      else inr (ErrUnknownExtension path)
  end.
Proof.
  intros He path. unfold LoadConfigOverrideFile. destruct (ReadFile path) as [data|msg]; [|done].
  unfold path. rewrite Ext_dot by done.
  assert (Hlow : forall s, ToLower ("." +:+ ext) = String "."%char s <-> ToLower ext = s).
  { intros s. change (ToLower ("." +:+ ext)) with (String "."%char (ToLower ext)).
    split; [by intros [= ?] | by intros ->]. }
  cbv zeta. repeat case_decide; try done; exfalso; rewrite ?Hlow in *; tauto.
Qed.

(** ** Witnesses *)

Lemma NumCacheChunks_spec_witness :
  (1024 * 1024 = 0 -> NumCacheChunks defaultConfig = 0) /\
  (0 < 1024 * 1024 ->
     NumCacheChunks defaultConfig * (1024 * 1024) <= 200 * (1024 * 1024)
       < (NumCacheChunks defaultConfig + 1) * (1024 * 1024)).
Proof. apply (NumCacheChunks_spec defaultConfig); vm_compute; split; congruence. Defined.

Lemma LoadConfigOverrideFile_dispatch_witness :
  LoadConfigOverrideFile (fun _ => inl []) (fun _ => inl empty_override) (fun _ => inr "bad")
    ("conf.d/webfs" +:+ "." +:+ "YmL") = inl empty_override.
Proof.
  apply (LoadConfigOverrideFile_dispatch (fun _ => inl []) (fun _ => inl empty_override)
           (fun _ => inr "bad") "conf.d/webfs" "YmL").
  repeat constructor; discriminate.
Defined.
