(* ===== verification/Paths.v ===== *)
(** The string functions the filesystem parses paths with: [strings.Split] on
    the slash and [path.Split] (used by src/filesystem/fs.go), the components
    of a path, and the round trip between components and joined paths. *)

From Stdlib Require Import Ascii.
From S2P Require Import Prelude.

Definition slash : ascii := "/"%char.

(** [strings.Split(s, "/")]: one more piece than there are slashes. *)
Fixpoint split_slash (s : string) : list string :=
  match s with
  | EmptyString => [""]
  | String c s' =>
      if decide (c = slash) then "" :: split_slash s'
      else match split_slash s' with
           | p :: ps => String c p :: ps
           | [] => [String c ""]
           end
  end.

(** [path.Split]: everything up to the last slash, and the rest. *)
Fixpoint path_Split (s : string) : string * string :=
  match s with
  | EmptyString => ("", "")
  | String c s' =>
      let '(dir, file) := path_Split s' in
      if decide (dir = "") then
        if decide (c = slash) then ("/", file) else ("", String c file)
      else (String c dir, file)
  end.

(** The pieces that name something: [AddDirNode] skips the empty ones. *)
Definition nonempty (s : string) : bool := bool_decide (s <> "").
Definition components (s : string) : list string := List.filter nonempty (split_slash s).

Fixpoint has_slash (s : string) : bool :=
  match s with
  | EmptyString => false
  | String c s' => bool_decide (c = slash) || has_slash s'
  end.

(** A name a component of a path can be. *)
Definition valid_name (s : string) : Prop := s <> "" /\ has_slash s = false.

(** The path of a node below a parent whose path is [p], and the path so
    built from a list of names ([Node.Path], src/filesystem/node.go). *)
Definition join (p name : string) : string :=
  if decide (p = "") then p +:+ name else p +:+ "/" +:+ name.
Definition join_path (names : list string) : string := foldl join "" names.

(** ** Lemmas *)

Lemma append_nil_r (s : string) : s +:+ "" = s.
Proof. induction s as [|c s IH]; [done|]. change (String c (s +:+ "") = String c s). by rewrite IH. Qed.

Lemma append_assoc (a b c : string) : (a +:+ b) +:+ c = a +:+ (b +:+ c).
Proof.
  induction a as [|x a IH]; [done|].
  change (String x ((a +:+ b) +:+ c) = String x (a +:+ (b +:+ c))). by rewrite IH.
Qed.

Lemma append_cons x (a b : string) : String x a +:+ b = String x (a +:+ b).
Proof. done. Qed.

Lemma append_empty (a b : string) : a +:+ b = "" -> a = "" /\ b = "".
Proof. destruct a; [done|]. by rewrite append_cons. Qed.

Lemma has_slash_app a b : has_slash (a +:+ b) = has_slash a || has_slash b.
Proof. induction a as [|c a IH]; [done|]. rewrite append_cons. cbn. by rewrite IH, orb_assoc. Qed.

Lemma split_slash_ne s : split_slash s <> [].
Proof. destruct s as [|c s]; cbn; [done|]. case_decide; [done|]. by destruct (split_slash s). Qed.

Lemma split_slash_no_slash s : Forall (fun p => has_slash p = false) (split_slash s).
Proof.
  induction s as [|c s IH]; cbn; [by constructor|]. case_decide as Hc.
  - by constructor.
  - destruct (split_slash s) as [|p ps]; constructor; try done.
    + cbn. by rewrite bool_decide_false.
    + apply Forall_cons in IH as [Hp _]. cbn. by rewrite bool_decide_false.
    + by apply Forall_cons in IH as [_ ?].
Qed.

(** Splitting after a slash. *)
Lemma split_slash_app a b :
  split_slash (a +:+ String slash b) = split_slash a ++ split_slash b.
Proof.
  induction a as [|c a IH]; [done|].
  rewrite append_cons. cbn. rewrite IH. case_decide; [done|].
  pose proof (split_slash_ne a). by destruct (split_slash a).
Qed.

Lemma split_slash_single s : has_slash s = false -> split_slash s = [s].
Proof.
  induction s as [|c s IH]; [done|]. cbn. intros [Hc Hs]%orb_false_iff.
  apply bool_decide_eq_false in Hc. by rewrite decide_False, IH.
Qed.

Lemma nonempty_spec s : nonempty s = true <-> s <> "".
Proof. apply bool_decide_eq_true. Qed.

Lemma components_app a b : components (a +:+ String slash b) = components a ++ components b.
Proof. unfold components. by rewrite split_slash_app, List.filter_app. Qed.

Lemma components_valid s : Forall valid_name (components s).
Proof.
  pose proof (split_slash_no_slash s) as Hs. apply Forall_forall. intros p Hp.
  apply list_elem_of_In, filter_In in Hp as [Hin Hne].
  split; [by apply nonempty_spec|].
  rewrite Forall_forall in Hs. apply Hs. by apply list_elem_of_In.
Qed.

Lemma components_single s : valid_name s -> components s = [s].
Proof.
  intros [Hne Hs]. unfold components. rewrite split_slash_single by done. cbn.
  by rewrite (proj2 (nonempty_spec s)).
Qed.

Lemma components_empty : components "" = [].
Proof. done. Qed.

(** [path.Split] cuts the string in two, right after its last slash. *)
Lemma path_Split_spec s dir file :
  path_Split s = (dir, file) ->
  s = dir +:+ file /\ has_slash file = false /\
  (dir = "" \/ exists d, dir = d +:+ String slash "").
Proof.
  revert dir file. induction s as [|c s IH]; intros dir file; cbn.
  - intros [= <- <-]. auto.
  - destruct (path_Split s) as [d f]. destruct (IH d f eq_refl) as (-> & Hf & Hd).
    repeat case_decide; intros [= <- <-]; subst.
    + split_and!; [done | done |]. right. by exists "".
    + split_and!; [done | cbn; by rewrite bool_decide_false | auto].
    + destruct Hd as [?|[d' ->]]; [done|]. split_and!; [done | done |].
      right. by exists (String c d').
Qed.

(** The components of a path are those of its directory part and its file. *)
Lemma path_Split_components s dir file :
  path_Split s = (dir, file) ->
  components s = components dir ++ (if decide (file = "") then [] else [file]).
Proof.
  intros E. apply path_Split_spec in E as (-> & Hf & Hd).
  assert (Hfile : components file = if decide (file = "") then [] else [file]).
  { case_decide; [by subst|]. by apply components_single. }
  destruct Hd as [->|[d ->]]; [done|].
  rewrite append_assoc. change (String slash "" +:+ file) with (String slash file).
  rewrite !components_app, components_empty, app_nil_r. by rewrite Hfile.
Qed.

(** ** Joining *)

Lemma join_ne p name : name <> "" -> join p name <> "".
Proof. intros Hn. unfold join. case_decide; intros [? ?]%append_empty; by subst. Qed.

Lemma components_join p name :
  valid_name name -> components (join p name) = components p ++ [name].
Proof.
  intros Hn. unfold join. case_decide as Hp.
  - subst. by apply components_single.
  - change ("/" +:+ name) with (String slash name).
    by rewrite components_app, (components_single name).
Qed.

Lemma components_join_path names :
  Forall valid_name names -> components (join_path names) = names.
Proof.
  unfold join_path. induction names as [|name names IH] using rev_ind; [done|].
  intros [Hs Hn]%Forall_app. apply Forall_cons in Hn as [Hn _]. rewrite foldl_snoc.
  rewrite components_join by done. by rewrite IH.
Qed.
