(* ===== verification/Request.v ===== *)
(** The requests that create nodes (src/request.go) and their sources
    (src/adapter.go). *)

From S2P Require Import Prelude.

Inductive NodeCreateRequestType := FileNodeType | DirNodeType | OtherNodeType (s : string).

Definition node_type (s : string) : NodeCreateRequestType :=
  if decide (s = "file") then FileNodeType
  else if decide (s = "dir") then DirNodeType
  else OtherNodeType s.

(** Times are nanoseconds since the epoch; the other numbers are unsigned. *)
Record NodeRequest := mkNodeRequest {
  rq_Path : string;
  rq_Type : NodeCreateRequestType;
  rq_UUID : string;
  rq_Size : Z;
  rq_Atime : Z;
  rq_Mtime : Z;
  rq_Ctime : Z;
  rq_Perms : Z;
  rq_OwnerUID : Z;
  rq_OwnerGID : Z;
  rq_Blksize : Z
}.

Definition with_path (p : string) (r : NodeRequest) : NodeRequest :=
  mkNodeRequest p (rq_Type r) (rq_UUID r) (rq_Size r) (rq_Atime r) (rq_Mtime r) (rq_Ctime r)
    (rq_Perms r) (rq_OwnerUID r) (rq_OwnerGID r) (rq_Blksize r).

(** A source names a provider, its raw configuration and a priority. *)
Record FileSource (P : Type) := mkSource {
  Provider : P;
  SourceConfig : bytes;
  Priority : Z
}.
Arguments mkSource {_} _ _ _.
Arguments Provider {_} _.
Arguments SourceConfig {_} _.
Arguments Priority {_} _.

Record FileCreateRequest (P : Type) := mkFileRequest {
  fr_node : NodeRequest;
  Sources : list (FileSource P)
}.
Arguments mkFileRequest {_} _ _.
Arguments fr_node {_} _.
Arguments Sources {_} _.

Record DirCreateRequest := mkDirRequest { dr_node : NodeRequest }.

(** [webfs.AdapterProvider]: a factory of adapters, which may act on the world. *)
Class AdapterProvider (W P A : Type) :=
  provider_Adapter : P -> bytes -> W -> result A * W.

Definition source_Adapter {W P A} `{AdapterProvider W P A} (s : FileSource P) : W -> result A * W :=
  provider_Adapter (Provider s) (SourceConfig s).
