(* ===== verification/XSync.v ===== *)
(** The interface of [xsync.Map] (github.com/puzpuzpuz/xsync): the operations
    the program calls, their documented laws, and finite maps as an
    implementation. Clients are written and proved against the interface. *)

From S2P Require Import Prelude.

(** [Range] lists the entries in the order the callback sees them, which the
    package leaves open. [LoadAndDelete] is atomic. *)
Class XSync := {
  XMap : forall (K : Type) `{Countable K}, Type -> Type;
  NewMap : forall {K} `{Countable K} {V}, XMap K V;
  Load : forall {K} `{Countable K} {V}, XMap K V -> K -> option V;
  Store : forall {K} `{Countable K} {V}, XMap K V -> K -> V -> XMap K V;
  Delete : forall {K} `{Countable K} {V}, XMap K V -> K -> XMap K V;
  LoadAndDelete : forall {K} `{Countable K} {V}, XMap K V -> K -> option V * XMap K V;
  Range : forall {K} `{Countable K} {V}, XMap K V -> list (K * V)
}.

Class XSyncLaws {X : XSync} : Prop := {
  Load_NewMap : forall {K} `{Countable K} {V} (k : K),
    Load (NewMap (V := V)) k = None;
  Load_Store : forall {K} `{Countable K} {V} (m : XMap K V) k k' v,
    Load (Store m k v) k' = if decide (k = k') then Some v else Load m k';
  Load_Delete : forall {K} `{Countable K} {V} (m : XMap K V) k k',
    Load (Delete m k) k' = if decide (k = k') then None else Load m k';
  LoadAndDelete_spec : forall {K} `{Countable K} {V} (m : XMap K V) k,
    LoadAndDelete m k = (Load m k, Delete m k);
  Range_NoDup : forall {K} `{Countable K} {V} (m : XMap K V), NoDup (Range m).*1;
  elem_of_Range : forall {K} `{Countable K} {V} (m : XMap K V) k v,
    (k, v) ∈ Range m <-> Load m k = Some v
}.

(** ** Derived laws *)

Section laws.
Context {X : XSync} `{!XSyncLaws} {K : Type} `{Countable K} {V : Type}.
Implicit Types m : XMap K V.

Lemma Load_Store_eq m k v : Load (Store m k v) k = Some v.
Proof. rewrite Load_Store. by rewrite decide_True. Qed.

Lemma Load_Store_ne m k k' v : k <> k' -> Load (Store m k v) k' = Load m k'.
Proof. intros. rewrite Load_Store. by rewrite decide_False. Qed.

Lemma Load_Delete_eq m k : Load (Delete m k) k = None.
Proof. rewrite Load_Delete. by rewrite decide_True. Qed.

Lemma Load_Delete_ne m k k' : k <> k' -> Load (Delete m k) k' = Load m k'.
Proof. intros. rewrite Load_Delete. by rewrite decide_False. Qed.
End laws.

Create Rewrite HintDb xsync.
#[export] Hint Rewrite @Load_NewMap @LoadAndDelete_spec @Load_Store_eq @Load_Delete_eq using typeclasses eauto : xsync.

(** Two maps that answer every lookup alike, whatever their history. *)
Definition xequiv {X : XSync} {K} `{Countable K} {V} (m1 m2 : XMap K V) : Prop :=
  forall k, Load m1 k = Load m2 k.

#[export] Instance xequiv_equivalence {X : XSync} {K} `{Countable K} {V} :
  Equivalence (xequiv (K := K) (V := V)).
Proof.
  split.
  - by intros m k.
  - intros m1 m2 E k. by rewrite E.
  - intros m1 m2 m3 E1 E2 k. by rewrite E1.
Qed.

#[export] Instance Load_proper {X : XSync} {K} `{Countable K} {V} :
  Proper (xequiv ==> eq ==> eq) (Load (K := K) (V := V)).
Proof. intros m1 m2 E k ? <-. apply E. Qed.

#[export] Instance Store_proper {X : XSync} `{!XSyncLaws} {K} `{Countable K} {V} :
  Proper (xequiv ==> eq ==> eq ==> xequiv) (Store (K := K) (V := V)).
Proof. intros m1 m2 E k ? <- v ? <- k'. rewrite !Load_Store. by rewrite E. Qed.

#[export] Instance Delete_proper {X : XSync} `{!XSyncLaws} {K} `{Countable K} {V} :
  Proper (xequiv ==> eq ==> xequiv) (Delete (K := K) (V := V)).
Proof. intros m1 m2 E k ? <- k'. rewrite !Load_Delete. by rewrite E. Qed.

(** Storing and deleting again leaves the other entries. *)
Lemma Delete_Store {X : XSync} `{!XSyncLaws} {K} `{Countable K} {V} (m : XMap K V) k v :
  xequiv (Delete (Store m k v) k) (Delete m k).
Proof. intros k'. rewrite !Load_Delete. case_decide; [done|]. by rewrite Load_Store_ne. Qed.

(** ** Finite maps implement the interface *)

#[global] Instance xsync_gmap : XSync := {|
  XMap K _ _ V := gmap K V;
  NewMap K _ _ V := ∅;
  Load K _ _ V m k := m !! k;
  Store K _ _ V m k v := <[k := v]> m;
  Delete K _ _ V m k := delete k m;
  LoadAndDelete K _ _ V m k := (m !! k, delete k m);
  Range K _ _ V m := map_to_list m
|}.

#[global] Instance xsync_gmap_laws : XSyncLaws (X := xsync_gmap).
Proof.
  split; intros; cbn.
  - apply lookup_empty.
  - apply lookup_insert.
  - apply lookup_delete.
  - done.
  - apply NoDup_fst_map_to_list.
  - apply elem_of_map_to_list.
Qed.
