(* ===== verification/DataCache.v ===== *)
(** The per-inode data cache ([dataCache] of src/filesystem/inode.go): its
    operations on int64 offsets, the coherence of the cached ranges with the
    file, and when a lookup hits, misses or panics. *)

From S2P Require Import Prelude.

(** ** Data and operations *)

Record CachedRange := mkRange { start : Z; end_ : Z; data : bytes }.

#[export] Instance CachedRange_eq_dec : EqDecision CachedRange.
Proof. solve_decision. Defined.

Record dataCache := mkCache { ranges : list CachedRange }.

Definition newDataCache : dataCache := {| ranges := [] |}.

(** The test of the loops of [get] and [isCached]. *)
Definition covers (r : CachedRange) (offset end' : Z) : bool :=
  (start r <=? offset) && (end_ r >=? end').

Fixpoint get_loop (rs : list CachedRange) (offset size end' : Z) : outcome (option bytes) :=
  match rs with
  | [] => Ret None
  | r :: rs' =>
      if covers r offset end' then
        let startIdx := offset -i start r in
        let endIdx := startIdx +i size in
        match slice (data r) startIdx endIdx with
        | Some d => Ret (Some d)
        | None => Panic
        end
      else get_loop rs' offset size end'
  end.

(** [None] is the nil slice of a miss. *)
Definition get (dc : dataCache) (offset size : Z) : outcome (option bytes) :=
  let end' := offset +i size in
  get_loop (ranges dc) offset size end'.

Definition store (dc : dataCache) (offset : Z) (d : bytes) : dataCache :=
  match d with
  | [] => dc
  | _ :: _ =>
      let newRange := {| start := offset;
                         end_ := offset +i Z.of_nat (length d);
                         data := d |} in
      {| ranges := ranges dc ++ [newRange] |}
  end.

Fixpoint isCached_loop (rs : list CachedRange) (offset end' : Z) : bool :=
  match rs with
  | [] => false
  | r :: rs' => if covers r offset end' then true else isCached_loop rs' offset end'
  end.

Definition isCached (dc : dataCache) (offset size : Z) : bool :=
  let end' := offset +i size in
  isCached_loop (ranges dc) offset end'.

Definition getRanges (dc : dataCache) : list CachedRange := ranges dc.

Definition clear (dc : dataCache) : dataCache := {| ranges := take 0 (ranges dc) |}.

(** ** Well-formedness and coherence *)

(** A range of the cache as [store] builds it: a non-empty buffer at an
    offset of the file, whose exclusive end does not overflow. *)
Definition range_wf (r : CachedRange) : Prop :=
  0 <= start r /\ end_ r = start r + Z.of_nat (length (data r)) /\
  start r < end_ r < 2 ^ 63.

Definition cache_wf (dc : dataCache) : Prop := Forall range_wf (ranges dc).

(** The range holds the bytes of the file [c]. *)
Definition range_coherent (c : bytes) (r : CachedRange) : Prop :=
  range_wf r /\ data r = file_bytes c (start r) (end_ r - start r).

Definition coherent (c : bytes) (dc : dataCache) : Prop :=
  Forall (range_coherent c) (ranges dc).

(** A request the cache is meant for: non-negative, and without overflow. *)
Definition valid_request (offset size : Z) : Prop :=
  0 <= offset /\ 0 <= size /\ offset + size < 2 ^ 63.

#[export] Instance valid_request_dec offset size : Decision (valid_request offset size).
Proof. unfold valid_request. apply _. Defined.

Lemma coherent_wf c dc : coherent c dc -> cache_wf dc.
Proof. intros H. eapply Forall_impl; [exact H|]. by intros r [? _]. Qed.

Lemma covers_spec r offset end' :
  covers r offset end' = true <-> start r <= offset /\ end' <= end_ r.
Proof. unfold covers. rewrite andb_true_iff, Z.leb_le, Z.geb_le. lia. Qed.

(** The slice a covering range delivers. *)
Lemma covers_slice r offset size :
  range_wf r -> valid_request offset size -> covers r offset (offset + size) = true ->
  slice (data r) (offset -i start r) (offset -i start r +i size)
  = Some (take (Z.to_nat size) (drop (Z.to_nat (offset - start r)) (data r))).
Proof.
  intros (Hs & He & Hlt) (Ho & Hz & Hb) [Hl Hr]%covers_spec.
  rewrite (wrap64_id (offset - start r)) by (unfold in_i64; lia).
  rewrite wrap64_id by (unfold in_i64; lia).
  rewrite slice_some by lia. do 2 f_equal. lia.
Qed.

Lemma valid_request_end offset size :
  valid_request offset size -> offset +i size = offset + size.
Proof. intros (?&?&?). apply wrap64_id. unfold in_i64. lia. Qed.

Lemma get_loop_total rs offset size :
  Forall range_wf rs -> valid_request offset size ->
  exists o, get_loop rs offset size (offset + size) = Ret o /\
    (isCached_loop rs offset (offset + size) = true <-> is_Some o).
Proof.
  intros Hwf Hv. induction Hwf as [|r rs Hr _ IH]; cbn.
  - exists None. split; [done|]. split; [done | by intros [? [=]]].
  - destruct (covers r offset (offset + size)) eqn:E; [|done].
    rewrite (covers_slice r) by done. eexists. split; [done|]. split; [by eexists | done].
Qed.

Lemma get_loop_coherent c rs offset size d :
  Forall (range_coherent c) rs -> valid_request offset size ->
  get_loop rs offset size (offset + size) = Ret (Some d) ->
  d = file_bytes c offset size.
Proof.
  intros Hco Hv. induction Hco as [|r rs [Hwf Hdata] _ IH]; cbn; [done|].
  destruct (covers r offset (offset + size)) eqn:E; [|done].
  rewrite (covers_slice r) by done. intros [= <-].
  apply covers_spec in E. destruct Hwf as (?&?&?), Hv as (?&?&?).
  rewrite Hdata. apply file_bytes_sub; lia.
Qed.

Lemma store_ranges dc offset d :
  ranges (store dc offset d)
  = ranges dc ++ match d with [] => [] | _ :: _ => [mkRange offset (offset +i Z.of_nat (length d)) d] end.
Proof. destruct d; cbn; by rewrite ?app_nil_r. Qed.

Lemma store_coherent c dc offset d :
  coherent c dc -> 0 <= offset -> offset + Z.of_nat (length d) < 2 ^ 63 ->
  d = file_bytes c offset (Z.of_nat (length d)) ->
  coherent c (store dc offset d).
Proof.
  intros Hco Ho Hb Hd. unfold coherent. rewrite store_ranges.
  apply Forall_app. split; [done|]. destruct d as [|b d']; [constructor|].
  assert (Hw : wrap64 (offset + Z.of_nat (length (b :: d'))) = offset + Z.of_nat (length (b :: d')))
    by (apply wrap64_id; unfold in_i64; lia).
  apply Forall_singleton. unfold range_coherent, range_wf. cbn [start end_ data].
  rewrite Hw. cbn [length] in *. split_and!; [lia..|].
  rewrite Hd at 1. f_equal. lia.
Qed.

Lemma store_wf dc offset d :
  cache_wf dc -> 0 <= offset -> offset + Z.of_nat (length d) < 2 ^ 63 -> cache_wf (store dc offset d).
Proof.
  intros Hwf Ho Hb. unfold cache_wf. rewrite store_ranges. apply Forall_app. split; [done|].
  destruct d as [|b d']; [constructor|]. apply Forall_singleton. unfold range_wf. cbn [start end_ data].
  rewrite wrap64_id by (unfold in_i64; lia). cbn [length] in *. lia.
Qed.

Lemma isCached_loop_app rs rs' offset end' :
  isCached_loop (rs ++ rs') offset end'
  = isCached_loop rs offset end' || isCached_loop rs' offset end'.
Proof. induction rs as [|r rs IH]; cbn; [done|]. by destruct (covers _ _ _). Qed.

(** A request inside a cached one is cached. *)
Lemma isCached_loop_sub rs offset end1 offset' end2 :
  isCached_loop rs offset end1 = true -> offset <= offset' -> end2 <= end1 ->
  isCached_loop rs offset' end2 = true.
Proof.
  intros H Hl Hr. induction rs as [|r rs IH]; cbn in *; [done|].
  destruct (covers r offset end1) eqn:E; [|rewrite IH by done; by destruct (covers r offset' end2)].
  apply covers_spec in E. by rewrite (proj2 (covers_spec _ _ _)) by lia.
Qed.

(** Dropping the buffers of the ranges that no request hits changes nothing:
    what [get] answers is the first covering range in insertion order. *)
Lemma get_loop_app rs rs' offset size end' :
  get_loop (rs ++ rs') offset size end'
  = if isCached_loop rs offset end' then get_loop rs offset size end'
    else get_loop rs' offset size end'.
Proof. induction rs as [|r rs IH]; cbn; [done|]. by destruct (covers _ _ _). Qed.

(** One more [store], its arguments as a pair, for runs of several. *)
Definition store_one (dc : dataCache) (w : Z * bytes) : dataCache := store dc w.1 w.2.

Lemma get_hit_cached rs offset size end' d :
  get_loop rs offset size end' = Ret (Some d) -> isCached_loop rs offset end' = true.
Proof. induction rs as [|r rs IH]; cbn; [done|]. by destruct (covers _ _ _). Qed.

(** A hit is stable: what a request was answered from the cache stays its
    answer after any later [store], even of an overlapping range. *)
Lemma get_stores_stable later dc offset size d :
  get dc offset size = Ret (Some d) ->
  get (foldl store_one dc later) offset size = Ret (Some d).
Proof.
  revert dc. induction later as [|[o' d'] later IH]; intros dc Hg; [done|]. apply IH.
  unfold store_one, get in *. cbn [fst snd].
  rewrite store_ranges, get_loop_app. by rewrite (get_hit_cached _ _ _ _ _ Hg).
Qed.

(** The answer to a request inside the range just stored. *)
Lemma get_store_new dc offset d offset' size old :
  0 <= offset -> offset + Z.of_nat (length d) < 2 ^ 63 -> d <> [] ->
  offset <= offset' -> 0 <= size -> offset' + size <= offset + Z.of_nat (length d) ->
  get dc offset' size = Ret old ->
  (isCached_loop (ranges dc) offset' (offset' +i size) = true <-> is_Some old) ->
  get (store dc offset d) offset' size
  = Ret (Some (default (take (Z.to_nat size) (drop (Z.to_nat (offset' - offset)) d)) old)).
Proof.
  intros Ho Hb Hne Hl Hs Hr Hold Hhit.
  assert (Hv : valid_request offset' size) by (unfold valid_request; lia).
  unfold get in *. rewrite store_ranges, get_loop_app.
  destruct (isCached_loop (ranges dc) offset' (offset' +i size)) eqn:E.
  - destruct (proj1 Hhit eq_refl) as [o ->]. exact Hold.
  - destruct old as [o|]; [exfalso; cut (false = true); [done | apply Hhit; by eexists]|]. cbn [default].
    assert (Hlen : 0 < Z.of_nat (length d)) by (destruct d; [done | cbn; lia]).
    assert (Hw : offset +i Z.of_nat (length d) = offset + Z.of_nat (length d))
      by (apply wrap64_id; unfold in_i64; lia).
    set (r := mkRange offset (offset +i Z.of_nat (length d)) d).
    replace (match d with [] => [] | _ :: _ => [r] end) with [r] by (by destruct d).
    rewrite valid_request_end by done. cbn [get_loop].
    assert (Hc : covers r offset' (offset' + size) = true)
      by (apply covers_spec; cbn [r start end_]; lia).
    rewrite Hc. rewrite covers_slice; [done| |done|done].
    unfold r, range_wf. cbn [start end_ data]. rewrite Hw. lia.
Qed.

#[export] Hint Resolve coherent_wf store_coherent : webfs.

(** ** Properties *)

(** On a well-formed cache a lookup of a valid request never panics, and
    it hits exactly when [isCached] says so. *)
Theorem get_isCached (dc : dataCache) offset size :
  cache_wf dc -> valid_request offset size ->
  exists o, get dc offset size = Ret o /\ (isCached dc offset size = true <-> is_Some o).
Proof.
  intros Hwf Hv. unfold get, isCached. rewrite valid_request_end by done.
  by apply get_loop_total.
Qed.

(** C37: what the cache answers after [store], for any well-formed cache,
    whatever it already holds: a request inside the stored range is a hit from
    then on, through every later [store]; it delivers what the cache answered
    to that request before when it already answered (an older range wins, even
    one with other bytes), and the corresponding slice of the stored bytes
    otherwise.  When the older ranges and the stored bytes are bytes of one
    file, the cache stays coherent with it and the answer is the file's bytes. *)
Theorem store_get dc offset d offset' size :
  cache_wf dc -> 0 <= offset -> offset + Z.of_nat (length d) < 2 ^ 63 -> d <> [] ->
  offset <= offset' -> 0 <= size -> offset' + size <= offset + Z.of_nat (length d) ->
  exists old answer, get dc offset' size = Ret old /\
    answer = default (take (Z.to_nat size) (drop (Z.to_nat (offset' - offset)) d)) old /\
    (forall later, get (foldl store_one (store dc offset d) later) offset' size
                   = Ret (Some answer)) /\
    (forall c, coherent c dc -> d = file_bytes c offset (Z.of_nat (length d)) ->
       coherent c (store dc offset d) /\ answer = file_bytes c offset' size).
Proof.
  intros Hwf Ho Hb Hne Hl Hs Hr.
  assert (Hv : valid_request offset' size) by (unfold valid_request; lia).
  destruct (get_loop_total (ranges dc) offset' size) as (old & Hold & Hhit); [done..|].
  rewrite <- (valid_request_end _ _ Hv) in Hold, Hhit. exists old. eexists.
  split; [exact Hold|]. split; [reflexivity|].
  assert (Hnew : get (store dc offset d) offset' size
                 = Ret (Some (default (take (Z.to_nat size) (drop (Z.to_nat (offset' - offset)) d)) old))).
  { by apply get_store_new. }
  split; [intros later; by apply get_stores_stable|].
  intros c Hco Hd. assert (Hco' : coherent c (store dc offset d)) by auto with webfs.
  split; [done|]. unfold get in Hnew. rewrite valid_request_end in Hnew by done.
  by eapply get_loop_coherent.
Qed.

(** C38: the bounds of [get]: when [offset+size] leaves int64 and some range
    starts at or before [offset], the wrapped end passes the test of the loop
    and the slice expression of the first such range panics. *)
Theorem get_overflow_panics dc offset size :
  cache_wf dc -> in_i64 offset -> in_i64 size -> 2 ^ 63 <= offset + size ->
  Exists (fun r => start r <= offset) (ranges dc) ->
  get dc offset size = Panic.
Proof.
  unfold get, in_i64. intros Hwf Ho Hs Hov Hex.
  assert (offset +i size = offset + size - 2 ^ 64) as ->.
  { unfold wrap64. rewrite (Z.mod_eq _ (2 ^ 64)) by lia.
    replace ((offset + size + 2 ^ 63) / 2 ^ 64) with 1; [lia|].
    apply Z.div_unique with (offset + size + 2 ^ 63 - 2 ^ 64); lia. }
  induction Hwf as [|r rs (Hr0 & He & Hlt) _ IH]; [by inv Hex|]. cbn.
  destruct (covers r offset (offset + size - 2 ^ 64)) eqn:E.
  - apply covers_spec in E as [E _].
    rewrite (wrap64_id (offset - start r)) by (unfold in_i64; lia).
    rewrite slice_none; [done|]. intros [[H1 H2] H3]. revert H2 H3.
    destruct (decide (offset - start r + size < 2 ^ 63)).
    + rewrite wrap64_id by (unfold in_i64; lia). lia.
    + pose proof (wrap64_range (offset - start r + size)). unfold wrap64, in_i64 in *.
      rewrite (Z.mod_eq _ (2 ^ 64)) by lia.
      replace ((offset - start r + size + 2 ^ 63) / 2 ^ 64) with 1; [lia|].
      apply Z.div_unique with (offset - start r + size + 2 ^ 63 - 2 ^ 64); lia.
  - apply IH. inv Hex as [? ? Hx|]; [|done].
    rewrite (proj2 (covers_spec _ _ _)) in E by lia. done.
Qed.

(** ** Witnesses *)

Definition sample_file : bytes := [x61; x62; x63; x64; x65; x66]%byte.

Definition sample_cache : dataCache :=
  store (store newDataCache 0 [x61; x62; x63; x64]%byte) 2 [x63; x64; x65]%byte.

Lemma sample_cache_coherent : coherent sample_file sample_cache.
Proof. repeat constructor; cbn; lia. Qed.

Lemma get_isCached_witness :
  exists o, get sample_cache 1 3 = Ret o /\ (isCached sample_cache 1 3 = true <-> is_Some o).
Proof.
  apply (get_isCached sample_cache 1 3).
  - exact (coherent_wf _ _ sample_cache_coherent).
  - vm_compute. repeat split; congruence.
Defined.

(** The request hits an older range, of bytes that differ. *)
Lemma store_get_witness :
  exists old answer, get sample_cache 1 3 = Ret old /\
    answer = default (take 3 (drop 1 [x00; x00; x00; x00]%byte)) old /\
    (forall later, get (foldl store_one (store sample_cache 0 [x00; x00; x00; x00]%byte) later) 1 3
                   = Ret (Some answer)) /\
    (forall c, coherent c sample_cache ->
       [x00; x00; x00; x00]%byte = file_bytes c 0 4 ->
       coherent c (store sample_cache 0 [x00; x00; x00; x00]%byte) /\
       answer = file_bytes c 1 3).
Proof.
  apply (store_get sample_cache 0 [x00; x00; x00; x00]%byte 1 3);
    [exact (coherent_wf _ _ sample_cache_coherent) | done ..].
Defined.

(** The answer there, computed: the older bytes. *)
Example store_get_older :
  get (store sample_cache 0 [x00; x00; x00; x00]%byte) 1 3 = Ret (Some [x62; x63; x64]%byte).
Proof. reflexivity. Qed.

Lemma get_overflow_panics_witness :
  get sample_cache (2 ^ 63 - 1) 10 = Panic.
Proof.
  apply (get_overflow_panics sample_cache (2 ^ 63 - 1) 10).
  - exact (coherent_wf _ _ sample_cache_coherent).
  - vm_compute. split; congruence.
  - vm_compute. split; congruence.
  - vm_compute. congruence.
  - left. vm_compute. congruence.
Defined.
