(* ===== verification/AdapterPool.v ===== *)
(** The adapter pool of an inode ([inodeAdapter], [adapterPool] of
    src/filesystem/inode.go): health tracking, back-off, and failover of an
    operation from the primary adapter to the backups. *)

From S2P Require Import Prelude.

(** ** Time

    [time.Now] is an effect of the state the code runs in; a [time.Time] is a
    number of nanoseconds since the Unix epoch. *)

Class Clock (S : Type) := time_now : S -> Z * S.

Definition Second : Z := 10 ^ 9.

(** The zero [time.Time]: January 1, year 1. *)
Definition zero_time : Z := -62135596800 * Second.

(** [t.Sub(u)] saturates at the limits of [time.Duration] (an int64). *)
Definition time_sub (t u : Z) : Z :=
  Z.max (- 2 ^ 63) (Z.min (2 ^ 63 - 1) (t - u)).

Lemma time_sub_id t u : in_i64 (t - u) -> time_sub t u = t - u.
Proof. unfold time_sub, in_i64. lia. Qed.

(** ** Data *)

Record inodeAdapter (A : Type) := mkAdapter {
  FileAdapter : A;
  isHealthy : bool;
  failCount : Z;        (* int32 *)
  maxRetries : Z;       (* int32 *)
  lastAttempt : Z
}.
Arguments mkAdapter {_} _ _ _ _ _.
Arguments FileAdapter {_} _.
Arguments isHealthy {_} _.
Arguments failCount {_} _.
Arguments maxRetries {_} _.
Arguments lastAttempt {_} _.

Record adapterPool (A : Type) := mkPool {
  primary : inodeAdapter A;
  backups : list (inodeAdapter A);
  retryDelay : Z
}.
Arguments mkPool {_} _ _ _.
Arguments primary {_} _.
Arguments backups {_} _.
Arguments retryDelay {_} _.

Definition defaultMaxRetries : Z := 3.
Definition defaultRetryDelay : Z := 30 * Second.

(** The pointers the code passes around: the primary or one of the backups. *)
Inductive aref := Primary | Backup (i : nat).

#[export] Instance aref_eq_dec : EqDecision aref.
Proof. solve_decision. Defined.

Definition all_refs {A} (p : adapterPool A) : list aref :=
  Primary :: (Backup <$> seq 0 (length (backups p))).

Definition pool_get {A} (p : adapterPool A) (r : aref) : option (inodeAdapter A) :=
  match r with Primary => Some (primary p) | Backup i => backups p !! i end.

Definition pool_set {A} (p : adapterPool A) (r : aref) (a : inodeAdapter A) : adapterPool A :=
  match r with
  | Primary => mkPool a (backups p) (retryDelay p)
  | Backup i => mkPool (primary p) (<[i := a]> (backups p)) (retryDelay p)
  end.

(** ** Operations *)

Definition newInodeAdapter {A} (a : A) : inodeAdapter A :=
  {| FileAdapter := a; isHealthy := true; failCount := 0;
     maxRetries := defaultMaxRetries; lastAttempt := zero_time |}.

(** [None] is the nil pool. *)
Definition newAdapterPool {A} (adapters : list A) : option (adapterPool A) :=
  match adapters with
  | [] => None
  | a :: rest => Some {| primary := newInodeAdapter a;
                         backups := newInodeAdapter <$> rest;
                         retryDelay := defaultRetryDelay |}
  end.

Section operations.
Context {A S : Type} {clk : Clock S}.

Definition Now : GoM S Z := fun s => Ret (time_now s).

Definition markFailed (a : inodeAdapter A) : GoM S (inodeAdapter A) :=
  now ← Now;
  mret {| FileAdapter := FileAdapter a; isHealthy := false;
          failCount := wrap32 (failCount a + 1);
          maxRetries := maxRetries a; lastAttempt := now |}.

Definition markHealthy (a : inodeAdapter A) : inodeAdapter A :=
  {| FileAdapter := FileAdapter a; isHealthy := true; failCount := 0;
     maxRetries := maxRetries a; lastAttempt := lastAttempt a |}.

Definition shouldRetry (a : inodeAdapter A) : GoM S bool :=
  if isHealthy a then mret true
  else if failCount a >=? maxRetries a then mret false
  else now ← Now;
       mret (time_sub now (lastAttempt a) >? wrap64 (failCount a * Second)).

Definition eligible (a : inodeAdapter A) : GoM S bool :=
  if isHealthy a then mret true else shouldRetry a.

Fixpoint healthy_backups (i : nat) (bs : list (inodeAdapter A)) : GoM S (list aref) :=
  match bs with
  | [] => mret []
  | b :: bs' =>
      ok ← eligible b;
      rest ← healthy_backups (Datatypes.S i) bs';
      mret (if ok : bool then Backup i :: rest else rest)
  end.

(** The list of adapters to try, with the primary as the last resort. *)
Definition candidates (p : adapterPool A) : GoM S (list aref) :=
  ok ← eligible (primary p);
  rest ← healthy_backups 0 (backups p);
  let adapters := if ok : bool then Primary :: rest else rest in
  mret (match adapters with [] => [Primary] | _ :: _ => adapters end).

(** [ctx_err] is [ctx.Err()] when [ctx.Done()] is closed. *)
Context (ctx_err : S -> option GoError)
        (operation : inodeAdapter A -> GoM S (option GoError)).

Fixpoint try_loop (cs : list aref) (lastErr : option GoError) (p : adapterPool A) :
    GoM S (adapterPool A * option GoError) :=
  match cs with
  | [] => mret (p, lastErr)
  | c :: cs' =>
      s ← get_state;
      match ctx_err s with
      | Some e => mret (p, Some e)
      | None =>
          a ← deref (pool_get p c);
          err ← operation a;
          match err with
          | Some e =>
              a' ← markFailed a;
              try_loop cs' (Some e) (pool_set p c a')
          | None => mret (pool_set p c (markHealthy a), None)
          end
      end
  end.

Definition tryOperation (p : adapterPool A) : GoM S (adapterPool A * option GoError) :=
  cs ← candidates p;
  try_loop cs None p.
End operations.

(** ** Invariant *)

Definition adapter_wf {A} (a : inodeAdapter A) : Prop :=
  maxRetries a = defaultMaxRetries /\ (isHealthy a = true -> failCount a = 0).

Definition pool_all {A} (G : inodeAdapter A -> Prop) (p : adapterPool A) : Prop :=
  forall r a, pool_get p r = Some a -> G a.

Definition pool_wf {A} (p : adapterPool A) : Prop := pool_all adapter_wf p.

(** An adapter the pool has given up on. *)
Definition dead {A} (a : inodeAdapter A) : Prop :=
  isHealthy a = false /\ maxRetries a <= failCount a.

Section lemmas.
Context {A S : Type} {clk : Clock S}.
Implicit Types (p : adapterPool A) (a b : inodeAdapter A) (bs : list (inodeAdapter A)) (s : S) (r : aref).

(** *** The pool as a finite map of references *)

Lemma elem_of_all_refs p r : r ∈ all_refs p <-> is_Some (pool_get p r).
Proof.
  unfold all_refs. rewrite elem_of_cons, list_elem_of_fmap. destruct r as [|i]; cbn.
  - split; [by eexists | by left].
  - rewrite lookup_lt_is_Some. split.
    + intros [[=]|(j & [= ->] & [_ Hj]%elem_of_seq)]. lia.
    + intros Hi. right. exists i. split; [done|]. apply elem_of_seq. lia.
Qed.

Lemma all_refs_set p r a : all_refs (pool_set p r a) = all_refs p.
Proof. destruct r; cbn; [done|]. unfold all_refs. cbn. by rewrite length_insert. Qed.

Lemma pool_get_set_eq p r a : r ∈ all_refs p -> pool_get (pool_set p r a) r = Some a.
Proof.
  rewrite elem_of_all_refs. destruct r as [|i]; cbn; [done|].
  intros Hi%lookup_lt_is_Some. by apply list_lookup_insert_eq.
Qed.

Lemma pool_get_set_ne p r r' a : r <> r' -> pool_get (pool_set p r a) r' = pool_get p r'.
Proof.
  destruct r as [|i], r' as [|j]; cbn; try done.
  intros Hne. apply list_lookup_insert_ne. congruence.
Qed.

Lemma pool_all_set G p r a : pool_all G p -> G a -> pool_all G (pool_set p r a).
Proof.
  intros Hp Ha r' a' Hr'. destruct (decide (r = r')) as [<-|Hne].
  - rewrite pool_get_set_eq in Hr' by (rewrite <-(all_refs_set p r a); apply elem_of_all_refs; eauto).
    congruence.
  - rewrite pool_get_set_ne in Hr' by done. eauto.
Qed.

Lemma markHealthy_wf a : adapter_wf a -> adapter_wf (markHealthy a).
Proof. intros [? _]. by split; cbn. Qed.

Definition failed_at (now : Z) a : inodeAdapter A :=
  {| FileAdapter := FileAdapter a; isHealthy := false;
     failCount := wrap32 (failCount a + 1);
     maxRetries := maxRetries a; lastAttempt := now |}.

Lemma markFailed_run a s :
  markFailed a s = Ret (failed_at (time_now s).1 a, (time_now s).2).
Proof. unfold markFailed, Now, mbind, GoM_bind. by destruct (time_now s). Qed.

Lemma failed_at_wf now a : adapter_wf a -> adapter_wf (failed_at now a).
Proof. intros [? _]. by split; cbn. Qed.

(** *** Selection *)

Lemma eligible_run a s :
  exists ok s', eligible a s = Ret (ok, s') /\
    (s' = s \/ s' = (time_now s).2) /\
    (isHealthy a = true -> ok = true) /\ (dead a -> ok = false).
Proof.
  unfold eligible, shouldRetry, dead. destruct (isHealthy a) eqn:E.
  - exists true, s. split_and!; [done | by left | done | by intros [[=] _]].
  - destruct (failCount a >=? maxRetries a) eqn:E2.
    + exists false, s. by split_and!; [|left|..].
    + unfold Now, mbind, GoM_bind. destruct (time_now s) as [now s'] eqn:Es.
      eexists _, s'. split_and!; [done | by right | done |].
      rewrite Z.geb_leb in E2. apply Z.leb_gt in E2. lia.
Qed.

(** The states reached by reading the clock. *)
Definition ticks : relation S := rtc (fun s s' => s' = (time_now s).2).

Lemma eligible_ticks a s ok s' : eligible a s = Ret (ok, s') -> ticks s s'.
Proof.
  intros E. destruct (eligible_run a s) as (ok' & s1 & E' & Hs & _).
  rewrite E in E'. simplify_eq. destruct Hs as [->| ->]; [done|]. by apply rtc_once.
Qed.

Lemma healthy_backups_run bs i s :
  exists cs s', healthy_backups i bs s = Ret (cs, s') /\ ticks s s' /\
    cs `sublist_of` (Backup <$> seq i (length bs)) /\
    forall j b, bs !! j = Some b ->
      (isHealthy b = true -> Backup (i + j) ∈ cs) /\ (dead b -> Backup (i + j) ∉ cs).
Proof.
  revert i s. induction bs as [|b bs IH]; intros i s; cbn.
  { eexists [], s. split_and!; [done | done | constructor | done]. }
  destruct (eligible_run b s) as (ok & s1 & E & _ & Hhl & Hdead).
  pose proof (eligible_ticks _ _ _ _ E) as Ht.
  destruct (IH (Datatypes.S i) s1) as (cs & s2 & E2 & Ht2 & Hsub & Hmem).
  rewrite (bind_run _ _ _ _ _ E), (bind_run _ _ _ _ _ E2).
  assert (Hi : Backup i ∉ cs).
  { intros Hin. pose proof (elem_of_sublist _ _ _ Hin Hsub) as Hin'.
    apply list_elem_of_fmap in Hin' as (j & [= <-] & [? _]%elem_of_seq). lia. }
  eexists _, s2. split; [done|]. split; [by etrans|]. split.
  { destruct ok; by constructor. }
  intros [|j] b' Hb; cbn in Hb.
  - injection Hb as <-. rewrite Nat.add_0_r. split.
    + intros ->%Hhl. by left.
    + intros ->%Hdead. done.
  - destruct (Hmem j b' Hb) as [Hh Hd]. rewrite <-Nat.add_succ_comm in *.
    split; [intros ?%Hh | intros ?%Hd]; destruct ok; rewrite ?elem_of_cons; auto.
    intros [[= ?]|?]; [lia | done].
Qed.

Lemma NoDup_all_refs p : NoDup (all_refs p).
Proof.
  unfold all_refs. constructor.
  - by intros (? & ? & _)%list_elem_of_fmap.
  - apply NoDup_fmap_2; [by intros ?? [=]|]. apply NoDup_seq.
Qed.

(** What [candidates] selects: some adapter, each at most once and in the
    order of the pool; every healthy one and no abandoned backup. *)
Lemma candidates_run p s :
  exists cs s', candidates p s = Ret (cs, s') /\ ticks s s' /\ cs <> [] /\
    cs `sublist_of` all_refs p /\
    (forall r a, pool_get p r = Some a -> isHealthy a = true -> r ∈ cs) /\
    (forall i b, backups p !! i = Some b -> dead b -> Backup i ∉ cs).
Proof.
  unfold candidates.
  destruct (eligible_run (primary p) s) as (ok & s1 & E & _ & Hhl & _).
  pose proof (eligible_ticks _ _ _ _ E) as Ht.
  destruct (healthy_backups_run (backups p) 0 s1) as (cs & s2 & E2 & Ht2 & Hsub & Hmem).
  rewrite (bind_run _ _ _ _ _ E), (bind_run _ _ _ _ _ E2).
  assert (Hprim : Primary ∉ cs).
  { intros Hin. pose proof (elem_of_sublist _ _ _ Hin Hsub) as Hin'.
    by apply list_elem_of_fmap in Hin' as (j & [=] & _). }
  eexists _, s2. split; [done|]. split; [by etrans|].
  split; [by destruct ok, cs|]. split.
  { unfold all_refs. destruct ok; [by constructor|]. destruct cs; [|by constructor].
    constructor. apply sublist_nil_l. }
  split.
  - intros [|i] a Ha Hok; cbn in Ha.
    + injection Ha as <-. rewrite (Hhl Hok). by left.
    + destruct (Hmem i a Ha) as [Hin _]. specialize (Hin Hok).
      destruct ok; [by right|]. destruct cs; [by apply not_elem_of_nil in Hin | done].
  - intros i b Hb Hd. destruct (Hmem i b Hb) as [_ Hin]. specialize (Hin Hd).
    destruct ok, cs; rewrite ?elem_of_cons in *; naive_solver.
Qed.

(** *** Failover *)

Context (ctx_err : S -> option GoError)
        (operation : inodeAdapter A -> GoM S (option GoError)).

Definition has_failed p p' r : Prop :=
  exists a now, pool_get p r = Some a /\ pool_get p' r = Some (failed_at now a).

(** How the adapters of the list [cs] fared in a run of [tryOperation] that
    took the pool from [p] to [p'] and returned the error of the index. *)
Inductive verdict (p p' : adapterPool A) : list aref -> option GoError -> Prop :=
  | verdict_success pre c post a s s' :
      (forall r, r ∈ pre -> has_failed p p' r) ->
      pool_get p c = Some a -> operation a s = Ret (None, s') ->
      pool_get p' c = Some (markHealthy a) ->
      (forall r, r ∉ pre ++ [c] -> pool_get p' r = pool_get p r) ->
      verdict p p' (pre ++ c :: post) None
  | verdict_cancelled pre c post s e :
      (forall r, r ∈ pre -> has_failed p p' r) ->
      ctx_err s = Some e ->
      (forall r, r ∉ pre -> pool_get p' r = pool_get p r) ->
      verdict p p' (pre ++ c :: post) (Some e)
  | verdict_exhausted pre c a s s' e :
      (forall r, r ∈ pre ++ [c] -> has_failed p p' r) ->
      pool_get p c = Some a -> operation a s = Ret (Some e, s') ->
      (forall r, r ∉ pre ++ [c] -> pool_get p' r = pool_get p r) ->
      verdict p p' (pre ++ [c]) (Some e).

Lemma verdict_cons p p' c a now cs e :
  pool_get p c = Some a -> c ∉ cs ->
  verdict (pool_set p c (failed_at now a)) p' cs e -> verdict p p' (c :: cs) e.
Proof.
  intros Ha Hc Hv.
  assert (Hcr : c ∈ all_refs p) by (apply elem_of_all_refs; eauto).
  set (p1 := pool_set p c (failed_at now a)) in *.
  assert (Hhere : pool_get p' c = pool_get p1 c -> has_failed p p' c).
  { intros Heq. exists a, now. split; [done|]. rewrite Heq. by apply pool_get_set_eq. }
  assert (Hthere : forall r, r <> c -> has_failed p1 p' r -> has_failed p p' r).
  { intros r Hne (a' & n & Hr & Hr'). exists a', n. split; [|done].
    unfold p1 in Hr. by rewrite pool_get_set_ne in Hr. }
  assert (Helse : forall r, r <> c -> pool_get p1 r = pool_get p r).
  { intros r Hne. unfold p1. by apply pool_get_set_ne. }
  destruct Hv as [pre c' post a' s s' Hpre Ha' Hop Hc' Hrest
                 |pre c' post s e Hpre He Hrest|pre c' a' s s' e Hpre Ha' Hop Hrest].
  - apply (verdict_success p p' (c :: pre) c' post a' s s'); try done.
    + intros r [->|Hr]%elem_of_cons; [apply Hhere, Hrest; set_solver|].
      apply Hthere; [set_solver | by apply Hpre].
    + rewrite <-Helse; [done | set_solver].
    + intros r Hr. rewrite Hrest, Helse; set_solver.
  - apply (verdict_cancelled p p' (c :: pre) c' post s e); try done.
    + intros r [->|Hr]%elem_of_cons; [apply Hhere, Hrest; set_solver|].
      apply Hthere; [set_solver | by apply Hpre].
    + intros r Hr. rewrite Hrest, Helse; set_solver.
  - apply (verdict_exhausted p p' (c :: pre) c' a' s s' e); try done.
    + intros r [->|Hr]%elem_of_cons; [apply Hhere, Hrest; set_solver|].
      apply Hthere; [set_solver | by apply Hpre].
    + rewrite <-Helse; [done | set_solver].
    + intros r Hr. rewrite Hrest, Helse; set_solver.
Qed.

Lemma try_loop_verdict cs lastErr p s p' e s' :
  cs <> [] -> NoDup cs -> cs ⊆ all_refs p ->
  try_loop ctx_err operation cs lastErr p s = Ret ((p', e), s') -> verdict p p' cs e.
Proof.
  revert lastErr p s. induction cs as [|c cs IH]; intros lastErr p s Hne Hnd Hsub; [done|].
  cbn. apply NoDup_cons in Hnd as [Hc Hnd].
  assert (is_Some (pool_get p c)) as [a Ha] by (apply elem_of_all_refs, Hsub; by left).
  rewrite (bind_run get_state _ s s s) by done.
  destruct (ctx_err s) as [e0|] eqn:Hctx.
  { intros [= <- <- <-]. apply (verdict_cancelled p p [] c cs s e0); [|done..].
    by intros r ?%not_elem_of_nil. }
  rewrite Ha. cbn [deref]. rewrite bind_mret.
  intros ([e1|] & s1 & Hop & Hk)%bind_inv.
  - rewrite (bind_run _ _ _ _ _ (markFailed_run a s1)) in Hk.
    destruct cs as [|c' cs'].
    { cbn in Hk. injection Hk as <- <- <-.
      apply (verdict_exhausted p _ [] c a s s1 e1); cbn; try done.
      - intros r ->%list_elem_of_singleton. exists a, (time_now s1).1.
        rewrite pool_get_set_eq by (apply Hsub; by left). done.
      - intros r Hr. apply pool_get_set_ne. set_solver. }
    eapply verdict_cons; [done.. |].
    eapply IH; [done | done | | exact Hk]. rewrite all_refs_set. set_solver.
  - injection Hk as <- <- <-. apply (verdict_success p _ [] c cs a s s1); try done.
    + by intros r ?%not_elem_of_nil.
    + apply pool_get_set_eq, Hsub. by left.
    + intros r Hr. apply pool_get_set_ne. set_solver.
Qed.

(** The Hoare rule of the loop: [P] holds as long as attempts fail, [Q] once
    one succeeded; [G] is what is known of the adapters of the pool. *)
Context (G : A -> Prop) (P Q : S -> Prop).
Context (clock_P : forall s, P s -> P (time_now s).2).
Context (operation_PQ : forall a s, G (FileAdapter a) -> P s ->
  exists e s', operation a s = Ret (e, s') /\
    match e with None => Q s' | Some _ => P s' end).

Lemma ticks_P s s' : P s -> ticks s s' -> P s'.
Proof using clock_P. induction 2 as [|s s1 s' -> _ IH]; auto. Qed.

Lemma try_loop_run cs lastErr p s :
  P s -> pool_all (G ∘ FileAdapter) p -> cs ⊆ all_refs p -> cs <> [] ->
  exists p' e s', try_loop ctx_err operation cs lastErr p s = Ret ((p', e), s') /\
    pool_all (G ∘ FileAdapter) p' /\ match e with None => Q s' | Some _ => P s' end.
Proof using clock_P operation_PQ.
  revert lastErr p s.
  induction cs as [|c cs IH]; intros lastErr p s HP HG Hsub Hne; [done|]. cbn.
  assert (is_Some (pool_get p c)) as [a Ha] by (apply elem_of_all_refs, Hsub; by left).
  rewrite (bind_run get_state _ s s s) by done.
  destruct (ctx_err s) as [e0|]; [eexists _, _, _; split; [done | by split] |].
  rewrite Ha. cbn [deref]. rewrite bind_mret.
  destruct (operation_PQ a s) as (e & s1 & Hop & He); [by eapply HG | done |].
  rewrite (bind_run _ _ _ _ _ Hop). destruct e as [e|].
  - rewrite (bind_run _ _ _ _ _ (markFailed_run a s1)).
    assert (HG' : pool_all (G ∘ FileAdapter) (pool_set p c (failed_at (time_now s1).1 a))).
    { apply pool_all_set; [done|]. exact (HG c a Ha). }
    destruct cs as [|c' cs']; [cbn; eexists _, _, _; split; [done | split; [done | by apply clock_P]] |].
    apply IH; [by apply clock_P | done | rewrite all_refs_set; set_solver | done].
  - eexists _, _, _. split; [done|]. split; [|done].
    apply pool_all_set; [done|]. exact (HG c a Ha).
Qed.

(** The same loop when the operation of one adapter always succeeds. *)
Lemma try_loop_available (x : A) cs lastErr p s :
  (forall s, ctx_err s = None) ->
  (forall a s, FileAdapter a = x -> P s -> exists s', operation a s = Ret (None, s')) ->
  P s -> pool_all (G ∘ FileAdapter) p -> cs ⊆ all_refs p ->
  (exists c a, c ∈ cs /\ pool_get p c = Some a /\ FileAdapter a = x) ->
  exists p' s', try_loop ctx_err operation cs lastErr p s = Ret ((p', None), s').
Proof using clock_P operation_PQ.
  intros Hctx Hx. revert lastErr p s.
  induction cs as [|c cs IH]; intros lastErr p s HP HG Hsub (c' & a' & Hin & Ha' & Hxa).
  { by apply not_elem_of_nil in Hin. }
  cbn. assert (is_Some (pool_get p c)) as [a Ha] by (apply elem_of_all_refs, Hsub; by left).
  rewrite (bind_run get_state _ s s s) by done. rewrite Hctx, Ha. cbn [deref]. rewrite bind_mret.
  destruct (operation_PQ a s) as ([e|] & s1 & Hop & He); [by eapply HG | done | |];
    rewrite (bind_run _ _ _ _ _ Hop); [|eauto].
  rewrite (bind_run _ _ _ _ _ (markFailed_run a s1)).
  assert (c' <> c) as Hne.
  { intros ->. rewrite Ha in Ha'. injection Ha' as <-.
    destruct (Hx a s Hxa HP) as [s2 Hop']. congruence. }
  apply IH; [by apply clock_P | | rewrite all_refs_set; set_solver |].
  - apply pool_all_set; [done|]. exact (HG c a Ha).
  - exists c', a'. rewrite pool_get_set_ne by congruence. set_solver.
Qed.
End lemmas.

Section try_operation.
Context {A S : Type} {clk : Clock S}.
Context (ctx_err : S -> option GoError)
        (operation : inodeAdapter A -> GoM S (option GoError)).
Implicit Types (p : adapterPool A) (s : S).

Lemma candidates_subset p s cs s' :
  candidates p s = Ret (cs, s') -> cs <> [] /\ NoDup cs /\ cs ⊆ all_refs p /\ ticks s s'.
Proof.
  intros E. destruct (candidates_run p s) as (cs' & s1 & E' & Ht & Hne & Hsub & _).
  rewrite E in E'. simplify_eq. split_and!; [done | | | done].
  - eapply sublist_NoDup; [exact (NoDup_all_refs p) | exact Hsub].
  - intros r Hr. by eapply elem_of_sublist.
Qed.

(** A run that returns is explained by a verdict on the candidates. *)
Lemma tryOperation_verdict p s p' e s' :
  tryOperation ctx_err operation p s = Ret ((p', e), s') ->
  exists cs s0, candidates p s = Ret (cs, s0) /\ verdict ctx_err operation p p' cs e.
Proof.
  intros (cs & s0 & Hc & Hl)%bind_inv. exists cs, s0. split; [done|].
  apply candidates_subset in Hc as (? & ? & ? & _). by eapply try_loop_verdict.
Qed.

Lemma tryOperation_run (G : A -> Prop) (P Q : S -> Prop) p s :
  (forall s, P s -> P (time_now s).2) ->
  (forall a s, G (FileAdapter a) -> P s ->
     exists e s', operation a s = Ret (e, s') /\
       match e with None => Q s' | Some _ => P s' end) ->
  P s -> pool_all (G ∘ FileAdapter) p ->
  exists p' e s', tryOperation ctx_err operation p s = Ret ((p', e), s') /\
    pool_all (G ∘ FileAdapter) p' /\ match e with None => Q s' | Some _ => P s' end.
Proof.
  intros HcP Hop HP HG. unfold tryOperation.
  destruct (candidates_run p s) as (cs & s1 & E & _).
  rewrite (bind_run _ _ _ _ _ E).
  apply candidates_subset in E as (? & _ & ? & ?).
  eapply (try_loop_run ctx_err operation G P Q); try done. by eapply (ticks_P P).
Qed.

Lemma verdict_wf p p' cs e :
  pool_wf p -> verdict ctx_err operation p p' cs e -> pool_wf p'.
Proof.
  intros Hwf Hv r a Ha.
  assert (Hfail : has_failed p p' r -> adapter_wf a).
  { intros (b & now & Hb & Hb'). rewrite Ha in Hb'. injection Hb' as ->.
    apply failed_at_wf. by eapply Hwf. }
  assert (Hsame : pool_get p' r = pool_get p r -> adapter_wf a).
  { intros Heq. rewrite Ha in Heq. by eapply Hwf. }
  destruct Hv as [pre c post b s s' Hpre Hb Hop Hc Hrest
                 |pre c post s e Hpre He Hrest|pre c b s s' e Hpre Hb Hop Hrest].
  - destruct (decide (r ∈ pre)); [auto|]. destruct (decide (r = c)) as [->|].
    + rewrite Ha in Hc. injection Hc as ->. apply markHealthy_wf. by eapply Hwf.
    + apply Hsame, Hrest. rewrite elem_of_app, list_elem_of_singleton. tauto.
  - destruct (decide (r ∈ pre)); auto.
  - destruct (decide (r ∈ pre ++ [c])); auto.
Qed.

(** What is outside the list is left alone. *)
Lemma verdict_other p p' cs e r :
  r ∉ cs -> verdict ctx_err operation p p' cs e -> pool_get p' r = pool_get p r.
Proof.
  intros Hr Hv; revert Hr;
    destruct Hv as [pre c post b s s' _ _ _ _ Hrest|pre c post s e' _ _ Hrest
                   |pre c b s s' e' _ _ _ Hrest]; intros Hr;
    apply Hrest; intros Hin; apply Hr; revert Hin;
    rewrite ?elem_of_app, ?elem_of_cons, ?elem_of_nil; tauto.
Qed.

(** If one adapter of the pool is healthy and its operation always succeeds,
    [tryOperation] succeeds, however the others fare. *)
Lemma tryOperation_available (G : A -> Prop) (P : S -> Prop) p s r a :
  (forall s, P s -> P (time_now s).2) ->
  (forall a s, G (FileAdapter a) -> P s ->
     exists e s', operation a s = Ret (e, s') /\ match e with None => True | Some _ => P s' end) ->
  (forall s, ctx_err s = None) ->
  (forall b s, FileAdapter b = FileAdapter a -> P s -> exists s', operation b s = Ret (None, s')) ->
  P s -> pool_all (G ∘ FileAdapter) p ->
  pool_get p r = Some a -> isHealthy a = true ->
  exists p' s', tryOperation ctx_err operation p s = Ret ((p', None), s').
Proof.
  intros HcP Hop Hctx Hx HP HG Ha Hh. unfold tryOperation.
  destruct (candidates_run p s) as (cs & s0 & E & _ & _ & _ & Hin & _).
  rewrite (bind_run _ _ _ _ _ E). apply candidates_subset in E as (_ & _ & Hsub & Ht).
  eapply (try_loop_available _ _ G P (fun _ => True) HcP Hop (FileAdapter a)); try done.
  - by eapply (ticks_P P).
  - exists r, a. split_and!; [by eapply Hin | done | done].
Qed.
End try_operation.

(** One call of [tryOperation], by any client (a [Read], a [RefreshMeta]). *)
Inductive pool_step {A} (p p' : adapterPool A) : Prop :=
  pool_step_intro (S : Type) (clk : Clock S) (ctx_err : S -> option GoError)
    (operation : inodeAdapter A -> GoM S (option GoError)) s e s'
    (Hrun : tryOperation ctx_err operation p s = Ret ((p', e), s')).

(** ** Properties *)

(** C31: failover. With operations that return, [tryOperation] returns, and the
    verdict on its candidate list (some adapter at least, each once) explains
    the result: nil when some candidate succeeded, after every candidate
    before it failed, the candidate being marked healthy and those before it
    failed; otherwise the error of the cancelled context or of the last
    candidate; every other adapter is untouched. *)
Theorem tryOperation_failover {A S} {clk : Clock S} (ctx_err : S -> option GoError)
    (operation : inodeAdapter A -> GoM S (option GoError)) (p : adapterPool A) (s : S) :
  (forall a s, exists e s', operation a s = Ret (e, s')) ->
  exists cs s0 p' e s',
    candidates p s = Ret (cs, s0) /\ cs <> [] /\ cs `sublist_of` all_refs p /\
    tryOperation ctx_err operation p s = Ret ((p', e), s') /\
    verdict ctx_err operation p p' cs e.
Proof.
  intros Htot.
  destruct (candidates_run p s) as (cs & s0 & E & _ & Hne & Hsub & _).
  destruct (tryOperation_run ctx_err operation (fun _ => True) (fun _ => True) (fun _ => True) p s)
    as (p' & e & s' & Hrun & _); [done | | done | intros ? ? ?; exact I |].
  { intros a s1 _ _. destruct (Htot a s1) as (e & s' & ->). exists e, s'. by destruct e. }
  exists cs, s0, p', e, s'. split_and!; try done.
  apply tryOperation_verdict in Hrun as (cs' & s1 & E' & Hv).
  rewrite E in E'. by simplify_eq.
Qed.

(** C32: the pool invariant. A new pool satisfies it (a healthy adapter has a
    zero failure count and the retry bound is the default) and every call of
    [tryOperation] preserves it. *)
Theorem pool_wf_invariant {A} (adapters : list A) (p0 p : adapterPool A) :
  newAdapterPool adapters = Some p0 -> rtc pool_step p0 p -> pool_wf p.
Proof.
  intros Hnew Hsteps. assert (Hwf : pool_wf p0).
  { destruct adapters as [|a rest]; [done|]. injection Hnew as <-.
    intros [|i] b; cbn; [by intros [= <-]|].
    rewrite list_lookup_fmap, fmap_Some. by intros (x & _ & ->). }
  clear Hnew. induction Hsteps as [|p1 p2 p3 [S clk ctx op s e s' Hrun] _ IH]; [done|].
  apply IH. apply tryOperation_verdict in Hrun as (cs & s0 & _ & Hv). by eapply verdict_wf.
Qed.

(** C33: an abandoned backup stays abandoned. Once a backup is unhealthy with
    [failCount >= maxRetries], no sequence of later operations on the pool
    tries it again: its record never changes ([retryDelay] is never read). *)
Theorem dead_backup_forever {A} (p p' : adapterPool A) i b :
  rtc pool_step p p' -> backups p !! i = Some b -> dead b -> backups p' !! i = Some b.
Proof.
  intros Hsteps Hb Hdead.
  induction Hsteps as [|p1 p2 p3 [S clk ctx op s e s' Hrun] _ IH]; [done|].
  apply IH. apply tryOperation_verdict in Hrun as (cs & s0 & E & Hv).
  destruct (candidates_run p1 s) as (cs' & s1 & E' & _ & _ & _ & _ & Hout).
  rewrite E in E'. simplify_eq.
  pose proof (verdict_other _ _ _ _ _ _ (Backup i) (Hout i b Hb Hdead) Hv) as Heq.
  cbn in Heq. congruence.
Qed.

(** Back-off. An unhealthy adapter is retried only below the retry bound
    and when more than [failCount] seconds have passed since its last failure;
    in that range the int64 duration arithmetic does not overflow. *)
Theorem shouldRetry_backoff {A S} {clk : Clock S} (a : inodeAdapter A) (s : S) :
  adapter_wf a -> isHealthy a = false -> 0 <= failCount a ->
  in_i64 ((time_now s).1 - lastAttempt a) ->
  exists s', shouldRetry a s =
    Ret (bool_decide (failCount a < 3 /\
                      failCount a * Second < (time_now s).1 - lastAttempt a), s').
Proof.
  intros [Hmax _] Hh Hf Ht. unfold shouldRetry. rewrite Hh, Hmax.
  change defaultMaxRetries with 3. destruct (failCount a >=? 3) eqn:E.
  - exists s. rewrite bool_decide_false; [done|]. apply Z.geb_le in E. lia.
  - unfold Now, mbind, GoM_bind. destruct (time_now s) as [now s'] eqn:Es. cbn in Ht.
    exists s'. unfold mret, GoM_ret. cbn. do 2 f_equal. rewrite time_sub_id by done.
    rewrite Z.geb_leb in E. apply Z.leb_gt in E.
    assert (in_i64 (failCount a * Second)) by (unfold in_i64, Second; lia).
    rewrite wrap64_id by done. rewrite Z.gtb_ltb.
    case_bool_decide as Hd; [apply Z.ltb_lt; lia | apply Z.ltb_ge; lia].
Qed.

(** ** Witnesses

    A world with a clock that advances a second per reading, and adapters that
    either work or fail. *)

Definition toy_clock : Clock Z := fun now => (now, now + Second).

Definition toy_operation (a : inodeAdapter bool) : GoM Z (option GoError) := fun now =>
  Ret (if FileAdapter a then None else Some (ErrExternal "mock adapter failure"), now).

Definition toy_pool : adapterPool bool :=
  mkPool (newInodeAdapter false) [newInodeAdapter false; newInodeAdapter true] defaultRetryDelay.

Lemma toy_total (a : inodeAdapter bool) s :
  exists e s', toy_operation a s = Ret (e, s').
Proof. by eexists _, _. Qed.

Lemma tryOperation_failover_witness :
  exists cs s0 p' e s',
    candidates (clk := toy_clock) toy_pool 0 = Ret (cs, s0) /\ cs <> [] /\
    cs `sublist_of` all_refs toy_pool /\
    tryOperation (clk := toy_clock) (fun _ => None) toy_operation toy_pool 0 = Ret ((p', e), s') /\
    verdict (fun _ => None) toy_operation toy_pool p' cs e.
Proof.
  apply (tryOperation_failover (clk := toy_clock) (fun _ => None) toy_operation toy_pool 0).
  exact toy_total.
Defined.

Definition toy_pool_after : adapterPool bool :=
  match tryOperation (clk := toy_clock) (fun _ => None) toy_operation toy_pool 0 with
  | Ret ((p, _), _) => p
  | _ => toy_pool
  end.

Lemma toy_step : pool_step toy_pool toy_pool_after.
Proof.
  apply (pool_step_intro _ _ Z toy_clock (fun _ => None) toy_operation 0 None
           (2 * Second)).
  vm_compute. reflexivity.
Qed.

Lemma pool_wf_invariant_witness : pool_wf toy_pool_after.
Proof.
  apply (pool_wf_invariant [false; false; true] toy_pool); [reflexivity|].
  exact (rtc_once _ _ toy_step).
Defined.

Definition dead_adapter : inodeAdapter bool := mkAdapter true false 3 3 0.
Definition dead_pool : adapterPool bool := mkPool (newInodeAdapter false) [dead_adapter] 0.
Definition dead_pool_after : adapterPool bool :=
  mkPool (failed_at 0 (newInodeAdapter false)) [dead_adapter] 0.

Lemma dead_step : pool_step dead_pool dead_pool_after.
Proof.
  apply (pool_step_intro _ _ Z toy_clock (fun _ => None) toy_operation 0
           (Some (ErrExternal "mock adapter failure")) Second).
  vm_compute. reflexivity.
Qed.

Lemma dead_backup_forever_witness : backups dead_pool_after !! 0%nat = Some dead_adapter.
Proof.
  apply (dead_backup_forever dead_pool dead_pool_after);
    [exact (rtc_once _ _ dead_step) | reflexivity |].
  split; [reflexivity | vm_compute; congruence].
Defined.

Lemma shouldRetry_backoff_witness :
  exists s', shouldRetry (clk := toy_clock) (mkAdapter true false 2 3 0) (5 * Second)
    = Ret (bool_decide (2 < 3 /\ 2 * Second < 5 * Second - 0), s').
Proof.
  apply (shouldRetry_backoff (clk := toy_clock) (mkAdapter true false 2 3 0) (5 * Second)).
  - by split.
  - reflexivity.
  - vm_compute. congruence.
  - vm_compute. split; congruence.
Defined.
