(* ===== verification/Inode.v ===== *)
(** Inodes (src/filesystem/inode.go): the attributes, the adapter interface of
    src/adapter.go that the pool drives, and the cached read path
    ([Inode.Read]) with its refinement to reading the file itself. *)

From S2P Require Import Prelude DataCache AdapterPool.

(** ** go-fuse attributes

    [fuse.Attr] is a struct of the go-fuse package: its fields, and the
    [SetTimes] method the program calls on it as a parameter with its
    documented frame (it only touches the six time fields). *)

Record Attr := mkAttr {
  Ino : Z; Size : Z; Blocks : Z;
  Atime : Z; Mtime : Z; Ctime : Z;
  Atimensec : Z; Mtimensec : Z; Ctimensec : Z;
  Mode : Z; Nlink : Z; Uid : Z; Gid : Z;
  Rdev : Z; Blksize : Z; Padding : Z
}.

#[export] Instance Attr_eq_dec : EqDecision Attr.
Proof. solve_decision. Defined.

Class FuseLib := SetTimes : Attr -> option Z -> option Z -> option Z -> Attr.

(** What is not a timestamp. *)
Definition attr_key (a : Attr) : list Z :=
  [Ino a; Size a; Blocks a; Mode a; Nlink a; Uid a; Gid a; Rdev a; Blksize a; Padding a].

Class FuseLibLaws {FL : FuseLib} : Prop :=
  SetTimes_frame : forall a t1 t2 t3, attr_key (SetTimes a t1 t2 t3) = attr_key a.

Definition set_Mode (m : Z) (a : Attr) : Attr :=
  mkAttr (Ino a) (Size a) (Blocks a) (Atime a) (Mtime a) (Ctime a) (Atimensec a)
    (Mtimensec a) (Ctimensec a) m (Nlink a) (Uid a) (Gid a) (Rdev a) (Blksize a) (Padding a).
Definition set_Nlink (n : Z) (a : Attr) : Attr :=
  mkAttr (Ino a) (Size a) (Blocks a) (Atime a) (Mtime a) (Ctime a) (Atimensec a)
    (Mtimensec a) (Ctimensec a) (Mode a) n (Uid a) (Gid a) (Rdev a) (Blksize a) (Padding a).
Definition set_Size (n : Z) (a : Attr) : Attr :=
  mkAttr (Ino a) n (Blocks a) (Atime a) (Mtime a) (Ctime a) (Atimensec a)
    (Mtimensec a) (Ctimensec a) (Mode a) (Nlink a) (Uid a) (Gid a) (Rdev a) (Blksize a) (Padding a).
Definition set_Owner (u g : Z) (a : Attr) : Attr :=
  mkAttr (Ino a) (Size a) (Blocks a) (Atime a) (Mtime a) (Ctime a) (Atimensec a)
    (Mtimensec a) (Ctimensec a) (Mode a) (Nlink a) u g (Rdev a) (Blksize a) (Padding a).

(** ** The adapter interface *)

(** A [context.Context], as far as it is used: whether it is done in a state
    of the world, and with which error. *)
Definition Ctx (W : Type) : Type := W -> option GoError.
Definition Background {W} : Ctx W := fun _ => None.

Record FileMetadata := mkMeta {
  meta_Size : Z;                   (* uint64 *)
  LastModified : option Z;
  Version : string;
  TTL : option Z
}.

(** The methods of [webfs.FileAdapter] that the filesystem calls. [Read]
    returns the count, the error and the buffer as it leaves it; it may panic. *)
Class FileAdapterOps (W A : Type) := {
  fa_Read : A -> Ctx W -> Z -> Z -> bytes -> GoM W (Z * option GoError * bytes);
  fa_GetMeta : A -> Ctx W -> W -> result FileMetadata * W
}.

(** ** Inodes *)

Abbreviation loc := nat.

Record Inode (A : Type) := mkInode {
  i_attr : Attr;
  i_adapterPool : option (adapterPool A);
  i_hLinks : list loc;
  i_sLinks : list loc;
  i_dataCache : dataCache
}.
Arguments mkInode {_} _ _ _ _ _.
Arguments i_attr {_} _.
Arguments i_adapterPool {_} _.
Arguments i_hLinks {_} _.
Arguments i_sLinks {_} _.
Arguments i_dataCache {_} _.

Definition with_attr {A} (f : Attr -> Attr) (i : Inode A) : Inode A :=
  mkInode (f (i_attr i)) (i_adapterPool i) (i_hLinks i) (i_sLinks i) (i_dataCache i).
Definition with_pool {A} (p : adapterPool A) (i : Inode A) : Inode A :=
  mkInode (i_attr i) (Some p) (i_hLinks i) (i_sLinks i) (i_dataCache i).
Definition with_cache {A} (dc : dataCache) (i : Inode A) : Inode A :=
  mkInode (i_attr i) (i_adapterPool i) (i_hLinks i) (i_sLinks i) dc.

Definition NewInode {A} (a : Attr) (adapters : list A) : Inode A :=
  {| i_attr := a; i_adapterPool := newAdapterPool adapters;
     i_hLinks := []; i_sLinks := []; i_dataCache := newDataCache |}.

(** The body of [addHardLinkLocked]; [Nlink] is a uint32. *)
Definition addHardLinkLocked {A} (node : loc) (i : Inode A) : Inode A :=
  {| i_attr := set_Nlink (u32 (Nlink (i_attr i) + 1)) (i_attr i);
     i_adapterPool := i_adapterPool i;
     i_hLinks := i_hLinks i ++ [node]; i_sLinks := i_sLinks i;
     i_dataCache := i_dataCache i |}.

Definition IsCached {A} (i : Inode A) (offset size : Z) : bool :=
  isCached (i_dataCache i) offset size.

Definition GetCachedRanges {A} (i : Inode A) : list CachedRange := getRanges (i_dataCache i).

Definition ClearCache {A} (i : Inode A) : Inode A := with_cache (clear (i_dataCache i)) i.

(** ** Reading *)

(** [make([]byte, n)] panics on a negative length and above the allocation
    limit of the runtime (2^48 bytes on 64-bit Linux). *)
Definition maxAlloc : Z := 2 ^ 48.
Definition make_bytes {S} (n : Z) : GoM S bytes :=
  if decide (0 <= n <= maxAlloc) then mret (replicate (Z.to_nat n) x00) else go_panic.

Definition lift_outcome {S A} (o : outcome A) : GoM S A := fun s =>
  match o with
  | Ret a => Ret (a, s)
  | Panic => Panic
  | Blocked => Blocked
  | OutOfFuel => OutOfFuel
  end.

(** Runs [m] with local variables initialised to [x]. *)
Definition with_locals {S L A} (x : L) (m : GoM (S * L) A) : GoM S (A * L) := fun s =>
  match m (s, x) with
  | Ret (a, (s', x')) => Ret ((a, x'), s')
  | Panic => Panic
  | Blocked => Blocked
  | OutOfFuel => OutOfFuel
  end.

#[export] Instance clock_locals {S L} {clk : Clock S} : Clock (S * L) := fun s =>
  let '(now, w) := time_now s.1 in (now, (w, s.2)).

Section read.
Context {W A : Type} {clk : Clock W} {FA : FileAdapterOps W A}.

(** The closure [Read] hands to [tryOperation]; its captured variables are
    the buffer and [bytesRead]. *)
Definition read_operation (ctx : Ctx W) (offset size : Z) (adapter : inodeAdapter A) :
    GoM (W * (bytes * Z)) (option GoError) := fun s =>
  let '(w, (buf, _)) := s in
  '(n, err, buf', w') ← fa_Read (FileAdapter adapter) ctx offset size buf w;
  Ret (err, (w', (buf', n))).

Definition Read (i : Inode A) (ctx : Ctx W) (offset size : Z) : GoM W (result bytes * Inode A) :=
  match i_adapterPool i with
  | None => mret (Err ErrNoAdapters, i)
  | Some pool =>
      cached ← lift_outcome (DataCache.get (i_dataCache i) offset size);
      match cached with
      | Some d => mret (Ok d, i)
      | None =>
          buf ← make_bytes size;
          '(pool', err, (buf', bytesRead)) ←
            with_locals (buf, 0)
              (tryOperation (fun s => ctx s.1) (read_operation ctx offset size) pool);
          match err with
          | Some e => mret (Err e, with_pool pool' i)
          | None =>
              d ← deref (slice buf' 0 bytesRead);
              mret (Ok d, with_cache (store (i_dataCache i) offset d) (with_pool pool' i))
          end
      end
  end.
End read.

(** ** Refinement of the read path *)

Section read_spec.
Context {W A : Type} {clk : Clock W} {FA : FileAdapterOps W A}.

(** The contract of [FileAdapter.Read] on a file of content [c]: it returns,
    the buffer keeps its size, and a nil error means that exactly the bytes of the file
    at [offset] (up to [size], fewer at its end) are in front of it. *)
Definition serves (c : bytes) (a : A) : Prop :=
  forall ctx offset size buf w, valid_request offset size -> Z.of_nat (length buf) = size ->
  exists n err buf' w', fa_Read a ctx offset size buf w = Ret ((n, err, buf'), w') /\
    length buf' = length buf /\
    (err = None -> 0 <= n /\ slice buf' 0 n = Some (file_bytes c offset size)).

(** An inode whose adapters serve [c] and whose cache agrees with it. *)
Definition inode_serves (c : bytes) (i : Inode A) : Prop :=
  coherent c (i_dataCache i) /\
  forall p, i_adapterPool i = Some p -> pool_all (serves c ∘ FileAdapter) p.

Definition same_meta (i i' : Inode A) : Prop :=
  i_attr i' = i_attr i /\ i_hLinks i' = i_hLinks i /\ i_sLinks i' = i_sLinks i /\
  (i_adapterPool i' = None <-> i_adapterPool i = None).

(** The part of the contract that says nothing about the bytes: [Read] returns,
    keeps the size of the buffer and counts no more bytes than it has room for. *)
Definition bounded (a : A) : Prop :=
  forall ctx offset size buf w, valid_request offset size -> Z.of_nat (length buf) = size ->
  exists n err buf' w', fa_Read a ctx offset size buf w = Ret ((n, err, buf'), w') /\
    length buf' = length buf /\ (err = None -> 0 <= n <= size).

Definition inode_bounded (i : Inode A) : Prop :=
  cache_wf (i_dataCache i) /\
  forall p, i_adapterPool i = Some p -> pool_all (bounded ∘ FileAdapter) p.

Lemma serves_bounded c a : serves c a -> bounded a.
Proof.
  intros Hs ctx offset size buf w Hv Hlen.
  destruct (Hs ctx offset size buf w Hv Hlen) as (n & err & buf' & w' & E & Hl & Hok).
  exists n, err, buf', w'. split_and!; [done | done |]. intros [Hn Hsl]%Hok. split; [done|].
  destruct (decide (n <= Z.of_nat (length buf'))); [lia|]. by rewrite slice_none in Hsl by lia.
Qed.

Lemma inode_serves_bounded c i : inode_serves c i -> inode_bounded i.
Proof.
  intros [Hco Hp]. split; [by eapply coherent_wf|]. intros p Ep r a Ha.
  eapply serves_bounded, Hp; done.
Qed.

Lemma lift_outcome_bind {S B X} (o : outcome X) (k : X -> GoM S B) x s :
  o = Ret x -> (lift_outcome o ≫= k) s = k x s.
Proof. by intros ->. Qed.

Lemma with_locals_run {S L X} (x : L) (m : GoM (S * L) X) s r s' x' :
  m (s, x) = Ret (r, (s', x')) -> with_locals x m s = Ret ((r, x'), s').
Proof. unfold with_locals. by intros ->. Qed.

Lemma clock_locals_snd {S L} `{Clock S} (s : S * L) : (time_now s).2.2 = s.2.
Proof. destruct s as [s x]. unfold time_now, clock_locals. cbn. by destruct (time_now s). Qed.

Lemma make_bytes_run {S} n (s : S) :
  0 <= n <= maxAlloc -> make_bytes n s = Ret (replicate (Z.to_nat n) x00, s).
Proof. intros H. unfold make_bytes. by rewrite decide_True. Qed.

Lemma make_bytes_inv {S} n (s s' : S) b :
  make_bytes n s = Ret (b, s') -> b = replicate (Z.to_nat n) x00 /\ 0 <= n.
Proof. unfold make_bytes. case_decide; [|done]. intros [= <- _]. split; [done | lia]. Qed.

(** The attempts of one [Read] on a pool of adapters with the property [G],
    when a call on such an adapter returns, keeps the buffer's size and with a
    nil error leaves a buffer and a count that satisfy [K]. *)
Lemma read_attempts_with (G : A -> Prop) (K : bytes -> Z -> Prop) (ctx : Ctx W) offset size p (w : W) :
  0 <= size -> pool_all (G ∘ FileAdapter) p ->
  (forall a buf w, G a -> Z.of_nat (length buf) = size ->
     exists n err buf' w', fa_Read a ctx offset size buf w = Ret ((n, err, buf'), w') /\
       length buf' = length buf /\ (err = None -> K buf' n)) ->
  exists p' e w' buf' n,
    with_locals (replicate (Z.to_nat size) x00, 0)
      (tryOperation (fun s => ctx s.1) (read_operation ctx offset size) p) w
    = Ret ((p', e, (buf', n)), w') /\
    pool_all (G ∘ FileAdapter) p' /\ (e = None -> K buf' n).
Proof.
  intros Hs Hp HG.
  destruct (tryOperation_run (fun s => ctx s.1) (read_operation ctx offset size) G
    (fun s => Z.of_nat (length s.2.1) = size) (fun s => K s.2.1 s.2.2)
    p (w, (replicate (Z.to_nat size) x00, 0)))
    as (p' & e & [w' [buf' n]] & Hrun & Hp' & He).
  - intros s1. by rewrite clock_locals_snd.
  - intros a [w1 [b n]] Ha Hb. cbn in Hb. unfold read_operation.
    destruct (HG (FileAdapter a) b w1 Ha Hb) as (n' & err & b' & w2 & E & Hlen & Hok).
    cbn in E. rewrite E. eexists err, _. split; [done|]. destruct err; cbn; [by rewrite Hlen | by apply Hok].
  - cbn. rewrite length_replicate. lia.
  - done.
  - exists p', e, w', buf', n. split; [by apply with_locals_run|]. split; [done|]. by intros ->.
Qed.

Lemma read_attempts (c : bytes) (ctx : Ctx W) offset size p (w : W) :
  valid_request offset size -> pool_all (serves c ∘ FileAdapter) p ->
  exists p' e w' buf' n,
    with_locals (replicate (Z.to_nat size) x00, 0)
      (tryOperation (fun s => ctx s.1) (read_operation ctx offset size) p) w
    = Ret ((p', e, (buf', n)), w') /\
    pool_all (serves c ∘ FileAdapter) p' /\
    (e = None -> slice buf' 0 n = Some (file_bytes c offset size)).
Proof.
  intros Hv Hp. apply read_attempts_with; [destruct Hv as (? & ? & ?); lia | done |].
  intros a buf w1 Ha Hlen. destruct (Ha ctx offset size buf w1 Hv Hlen) as (n & err & buf' & w2 & E & Hl & Hok).
  exists n, err, buf', w2. split_and!; [done | done |]. intros He. by apply Hok.
Qed.

(** [Read] returns on every valid request, leaves the metadata alone, keeps the
    inode serving [c], and a nil error comes with exactly the file's bytes. *)
Lemma Read_run (c : bytes) i (ctx : Ctx W) offset size (w : W) :
  inode_serves c i -> valid_request offset size -> size <= maxAlloc ->
  exists r i' w', Read i ctx offset size w = Ret ((r, i'), w') /\
    inode_serves c i' /\ same_meta i i' /\
    forall d, r = Ok d -> d = file_bytes c offset size.
Proof.
  intros [Hco Hp] Hv Hmax. unfold Read.
  destruct (i_adapterPool i) as [pool|] eqn:Epool.
  2:{ eexists _, i, w. split; [done|]. split; [by split; rewrite ?Epool|]. by split. }
  specialize (Hp pool eq_refl).
  destruct (get_loop_total (ranges (i_dataCache i)) offset size) as (o & Hget & _);
    [by eapply coherent_wf | done |].
  assert (Hget' : DataCache.get (i_dataCache i) offset size = Ret o).
  { unfold DataCache.get. by rewrite valid_request_end. }
  rewrite (lift_outcome_bind _ _ _ _ Hget'). destruct o as [d|].
  { eexists _, i, w. split; [done|]. split.
    { split; [done|]. rewrite Epool. by intros ? [= <-]. }
    split; [by repeat split|]. intros d' [= <-]. by eapply get_loop_coherent. }
  pose proof Hv as (Ho & Hs & Hb).
  rewrite (bind_run _ _ _ _ _ (make_bytes_run size w (conj Hs Hmax))).
  destruct (read_attempts c ctx offset size pool w) as (p' & e & w' & buf' & n & Hrun & Hp' & Hok);
    [done.. |].
  rewrite (bind_run _ _ _ _ _ Hrun). destruct e as [e|].
  { eexists _, _, w'. split; [done|]. split.
    { split; [done|]. by intros ? [= <-]. }
    split; [|done]. split_and!; try done. cbn. by rewrite Epool. }
  specialize (Hok eq_refl). rewrite Hok. cbn [deref]. rewrite bind_mret.
  eexists _, _, w'. split; [done|]. split.
  { split; [|by intros ? [= <-]]. cbn [with_cache i_dataCache with_pool].
    pose proof (file_bytes_length c offset size Ho Hs) as Hlen.
    apply store_coherent; [done | done | lia |]. by rewrite file_bytes_self. }
  split; [|by intros ? [= <-]].
  split_and!; try done. cbn. by rewrite Epool.
Qed.

(** On adapters that are only known to keep their bounds, [Read] still returns,
    and the inode it leaves is as good as the one it found. *)
Lemma Read_total i (ctx : Ctx W) offset size (w : W) :
  inode_bounded i -> valid_request offset size -> size <= maxAlloc ->
  exists r i' w', Read i ctx offset size w = Ret ((r, i'), w') /\ inode_bounded i' /\ same_meta i i'.
Proof.
  intros [Hwf Hp] Hv Hmax. unfold Read.
  destruct (i_adapterPool i) as [pool|] eqn:Epool.
  2:{ eexists _, i, w. split; [done|]. split; [split; [done | by rewrite Epool] | by split]. }
  destruct (get_isCached (i_dataCache i) offset size Hwf Hv) as (o & Hget & _).
  rewrite (lift_outcome_bind _ _ _ _ Hget). destruct o as [d|].
  { eexists _, i, w. split; [done|]. split; [split; [done | by rewrite Epool] | by split]. }
  pose proof Hv as (Ho & Hs & Hb). rewrite (bind_run _ _ _ _ _ (make_bytes_run size w (conj Hs Hmax))).
  destruct (read_attempts_with bounded (fun buf n => 0 <= n <= size /\ Z.of_nat (length buf) = size)
    ctx offset size pool w) as (p' & e & w' & buf' & n & Hrun & Hp' & Hok); [done | by apply Hp | |].
  { intros a buf w1 Ha Hlen. destruct (Ha ctx offset size buf w1 Hv Hlen) as (n & err & buf' & w2 & E & Hl & Hn).
    exists n, err, buf', w2. split_and!; [done | done |]. intros He. split; [by apply Hn | lia]. }
  rewrite (bind_run _ _ _ _ _ Hrun). destruct e as [e|].
  { eexists _, _, w'. split; [done|]. split; [split; [done|]; by intros ? [= <-]|].
    split_and!; try done. cbn. by rewrite Epool. }
  destruct (Hok eq_refl) as [Hn Hl]. rewrite slice_some by lia. cbn [deref]. rewrite bind_mret.
  eexists _, _, w'. split; [done|]. split.
  { split; [|by intros ? [= <-]]. cbn [with_cache i_dataCache with_pool]. apply store_wf; [done | done |].
    rewrite length_take, length_drop. lia. }
  split_and!; try done. cbn. by rewrite Epool.
Qed.
End read_spec.

(** ** Properties *)

(** What can happen to an inode between two reads: other reads and the
    [ClearCache] of a deletion. *)
Inductive inode_step {W A} `{Clock W, FileAdapterOps W A} :
    relation (Inode A * W) :=
  | step_read i w ctx offset size r i' w' :
      valid_request offset size -> size <= maxAlloc ->
      Read i ctx offset size w = Ret ((r, i'), w') -> inode_step (i, w) (i', w')
  | step_clear i w : inode_step (i, w) (ClearCache i, w)
  | step_world i w w' : inode_step (i, w) (i, w').

Lemma NewInode_serves {W A} `{FileAdapterOps W A} c a (adapters : list A) :
  Forall (serves c) adapters -> inode_serves c (NewInode a adapters).
Proof.
  intros Hall. split; [constructor|]. cbn. intros p Hp r b Hb.
  destruct adapters as [|a0 rest]; [done|]. injection Hp as <-.
  apply Forall_cons in Hall as [H0 Hrest]. destruct r as [|i]; cbn in Hb.
  - by injection Hb as <-.
  - rewrite list_lookup_fmap, fmap_Some in Hb. destruct Hb as (x & Hx & ->).
    by eapply (Forall_lookup_1 _ _ _ _ Hrest).
Qed.

Lemma inode_step_serves {W A} `{Clock W, FileAdapterOps W A} c (s s' : Inode A * W) :
  inode_step s s' -> inode_serves c s.1 -> inode_serves c s'.1.
Proof.
  intros [i w ctx o z r i' w' Hv Hm Hr | i w | i w w'] Hs; cbn in *; [|split; [constructor|apply Hs]|done].
  destruct (Read_run c i ctx o z w Hs Hv Hm) as (r1 & i1 & w1 & Hr1 & Hs1 & _). congruence.
Qed.

Lemma inode_steps_serve {W A} `{Clock W, FileAdapterOps W A} c a (adapters : list A) w0 i w :
  Forall (serves c) adapters -> rtc inode_step (NewInode a adapters, w0) (i, w) -> inode_serves c i.
Proof.
  intros Hall Hsteps. change (inode_serves c (i, w).1).
  remember (i, w) as s1 eqn:E1. remember (NewInode a adapters, w0) as s0 eqn:E0.
  assert (inode_serves c s0.1) by (subst; by apply NewInode_serves).
  clear E0 E1. induction Hsteps; eauto using inode_step_serves.
Qed.

(** C9: reading through the cache and the pool refines reading the file. Take
    an inode built by [NewInode] on adapters that serve a file of content [c],
    after any history of reads and cache clears: [Read] returns (it neither
    panics nor blocks), and a nil error comes with exactly the bytes of the
    file at the requested range, from the cache or not. *)
Theorem Read_refines_file {W A} `{Clock W, FileAdapterOps W A} (c : bytes)
    a (adapters : list A) w0 i w (ctx : Ctx W) offset size :
  Forall (serves c) adapters ->
  rtc inode_step (NewInode a adapters, w0) (i, w) ->
  valid_request offset size -> size <= maxAlloc ->
  exists r i' w', Read i ctx offset size w = Ret ((r, i'), w') /\
    forall d, r = Ok d -> d = file_bytes c offset size.
Proof.
  intros Hall Hsteps Hv Hm. pose proof (inode_steps_serve c _ _ _ _ _ Hall Hsteps) as Hs.
  destruct (Read_run c i ctx offset size w Hs Hv Hm) as (r & i' & w' & ? & _ & _ & ?).
  by exists r, i', w'.
Qed.

(** The adapter answers every read of this range without an error. *)
Definition answers {W A} `{FileAdapterOps W A} (a : A) (offset size : Z) : Prop :=
  forall buf w, Z.of_nat (length buf) = size ->
    exists n buf' w', fa_Read a Background offset size buf w = Ret ((n, None, buf'), w').

(** One healthy adapter that answers is enough. *)
Lemma Read_answers {W A} `{Clock W, FileAdapterOps W A} (c : bytes) i p r a
    offset size (w : W) :
  inode_serves c i -> i_adapterPool i = Some p ->
  pool_get p r = Some a -> isHealthy a = true -> answers (FileAdapter a) offset size ->
  valid_request offset size -> size <= maxAlloc ->
  exists i' w', Read i Background offset size w = Ret ((Ok (file_bytes c offset size), i'), w').
Proof.
  intros Hs Hp Ha Hh Hans Hv Hm.
  destruct (Read_run c i Background offset size w Hs Hv Hm) as (res & i' & w' & Hrun & _ & _ & Hok).
  destruct res as [d|e].
  { exists i', w'. by rewrite <-(Hok d eq_refl). }
  exfalso. revert Hrun. unfold Read. rewrite Hp. intros (o & w1 & _ & Hk)%bind_inv.
  destruct o as [d|]; [done|]. apply bind_inv in Hk as (buf & w2 & Hbuf & Hk).
  apply bind_inv in Hk as ([[p' err] [buf' n]] & w3 & Hrun & Hk).
  destruct err as [e'|]; [|by apply bind_inv in Hk as (? & ? & _ & ?)].
  unfold with_locals in Hrun.
  destruct (tryOperation_available (fun s => Background s.1) (read_operation Background offset size)
    (serves c) (fun s => Z.of_nat (length s.2.1) = size) p (w2, (buf, 0)) r a) as (p1 & s1 & Hok1);
    try done.
  - intros s1. by rewrite clock_locals_snd.
  - intros b [w4 [b1 n1]] Hb Hlen. cbn in Hlen. unfold read_operation.
    destruct (Hb Background offset size b1 w4) as (n' & err & b' & w5 & -> & Hl & _); [exact Hv | done |].
    eexists _, _. split; [done|]. destruct err; cbn; [by rewrite Hl | done].
  - intros b [w4 [b1 n1]] Hb Hlen. unfold read_operation. rewrite Hb.
    destruct (Hans b1 w4 Hlen) as (n' & b' & w5 & ->). by eexists.
  - apply make_bytes_inv in Hbuf as [-> ?]. cbn. rewrite length_replicate. lia.
  - by apply Hs.
  - rewrite Hok1 in Hrun. destruct s1 as [w4 [b1 n1]]. congruence.
Qed.

(** C24: availability of reads. An inode built on adapters of which one always
    answers, while the others may fail or serve nothing: as long as its adapter
    is still marked healthy after any history of reads and cache clears, a
    [Read] that is not cancelled delivers the file's bytes. *)
Theorem Read_available {W A} `{Clock W, FileAdapterOps W A} (c : bytes) a (adapters : list A)
    w0 i w p r b offset size :
  Forall (serves c) adapters ->
  rtc inode_step (NewInode a adapters, w0) (i, w) ->
  i_adapterPool i = Some p -> pool_get p r = Some b -> isHealthy b = true ->
  (forall ctx o z buf w, exists n buf' w', fa_Read (FileAdapter b) ctx o z buf w = Ret ((n, None, buf'), w')) ->
  valid_request offset size -> size <= maxAlloc ->
  exists i' w', Read i Background offset size w = Ret ((Ok (file_bytes c offset size), i'), w').
Proof.
  intros Hall Hsteps Hp Hb Hh Hans Hv Hm.
  eapply Read_answers; [by eapply (inode_steps_serve c _ _ _ _ _ Hall Hsteps) | done.. | | done | done].
  intros buf w1 _. apply Hans.
Qed.

(** C25: caching. Once a [Read] has delivered all the bytes it asked for, any
    later [Read] inside that range is answered from the cache: the same bytes
    of the file, with no adapter called (the world and the inode unchanged). *)
Theorem Read_cached {W A} `{Clock W, FileAdapterOps W A} (c : bytes) i ctx ctx'
    offset size (w w' w'' : W) d i' offset' size' :
  inode_serves c i -> valid_request offset size -> size <= maxAlloc -> 0 < size ->
  Read i ctx offset size w = Ret ((Ok d, i'), w') -> Z.of_nat (length d) = size ->
  offset <= offset' -> 0 <= size' -> offset' + size' <= offset + size ->
  Read i' ctx' offset' size' w'' = Ret ((Ok (file_bytes c offset' size'), i'), w'').
Proof.
  intros Hs Hv Hm Hpos Hrun Hlen Hl Hs' Hr.
  destruct (Read_run c i ctx offset size w Hs Hv Hm) as (res & i1 & w1 & Hrun1 & [Hco' Hp'] & Hmeta & Hok).
  rewrite Hrun in Hrun1. injection Hrun1 as <- <- <-.
  assert (Hv' : valid_request offset' size') by (destruct Hv as (?&?&?); unfold valid_request; lia).
  destruct (get_loop_total (ranges (i_dataCache i')) offset' size') as (o & Hget & Hiff);
    [by eapply coherent_wf | done |].
  assert (isCached_loop (ranges (i_dataCache i')) offset' (offset' + size') = true) as Hc.
  { revert Hrun. unfold Read. destruct (i_adapterPool i) as [p|]; [|done].
    intros (o1 & w1 & Hget1 & Hk)%bind_inv. destruct o1 as [d1|].
    - injection Hk as -> -> ->.
      unfold lift_outcome, DataCache.get in Hget1. rewrite valid_request_end in Hget1 by done.
      destruct (get_loop_total (ranges (i_dataCache i')) offset size) as (o2 & E2 & Hiff2);
        [by eapply coherent_wf | done |]. rewrite E2 in Hget1. injection Hget1 as -> ->.
      assert (is_Some (Some d)) as Hd by eauto. apply Hiff2 in Hd.
      eapply isCached_loop_sub; [exact Hd | done..].
    - apply bind_inv in Hk as (buf & w2 & _ & Hk).
      apply bind_inv in Hk as ([[p1 err] [buf' n]] & w3 & _ & Hk). destruct err; [done|].
      apply bind_inv in Hk as (d2 & w4 & _ & Hk). injection Hk as -> <- ->. cbn.
      rewrite store_ranges, isCached_loop_app. apply orb_true_iff. right.
      destruct d as [|x d]; [cbn in Hlen; lia|]. destruct Hv as (?&?&?).
      rewrite wrap64_id by (unfold in_i64; lia). cbn [isCached_loop].
      by rewrite (proj2 (covers_spec _ _ _)) by (cbn [start end_]; lia). }
  apply Hiff in Hc as [d' ->].
  unfold Read. destruct (i_adapterPool i') as [p'|] eqn:Ep'.
  - assert (Hget' : DataCache.get (i_dataCache i') offset' size' = Ret (Some d')).
    { unfold DataCache.get. by rewrite valid_request_end. }
    rewrite (lift_outcome_bind _ _ _ _ Hget').
    unfold mret, GoM_ret. do 4 f_equal. by eapply get_loop_coherent.
  - exfalso. destruct Hmeta as (_ & _ & _ & [Hn _]). specialize (Hn Ep').
    unfold Read in Hrun. by rewrite Hn in Hrun.
Qed.

(** ** Witnesses: in-memory adapters

    An adapter that serves the bytes it holds, or fails, in a world that is a
    clock. *)

Module Sample.

Definition adapter : Type := option bytes.

Definition copy_into (buf d : bytes) : bytes := d ++ drop (length d) buf.

#[global] Instance clock : Clock Z := toy_clock.

#[global] Instance adapter_ops : FileAdapterOps Z adapter := {
  fa_Read a ctx offset size buf w :=
    match a with
    | Some c => let d := file_bytes c offset size in
                Ret ((Z.of_nat (length d), None, copy_into buf d), w)
    | None => Ret ((0, Some (ErrExternal "mock adapter failure"), buf), w)
    end;
  fa_GetMeta a ctx w :=
    (match a with
     | Some c => Ok (mkMeta (Z.of_nat (length c)) (Some w) "" None)
     | None => Err (ErrExternal "mock adapter failure")
     end, w)
}.

Lemma serves_some (c : bytes) : serves c (Some c : adapter).
Proof.
  intros ctx offset size buf w (Ho & _ & _) Hl. cbn. eexists _, _, _, _. split; [reflexivity|].
  pose proof (file_bytes_length c offset size Ho ltac:(lia)) as Hd.
  unfold copy_into. rewrite length_app, length_drop. split; [lia|].
  intros _. split; [lia|]. rewrite slice_some by (rewrite ?length_app; lia).
  rewrite Z.sub_0_r, Nat2Z.id. change (Z.to_nat 0) with 0%nat.
  by rewrite drop_0, take_app_length.
Qed.

Lemma serves_none (c : bytes) : serves c (None : adapter).
Proof. intros ctx offset size buf w _ _. cbn. by eexists _, _, _, _. Qed.

Definition attr0 : Attr := mkAttr 7 0 0 0 0 0 0 0 0 0 1 0 0 0 4096 0.

(** A failing primary and a working backup. *)
Definition inode0 : Inode adapter := NewInode attr0 [None; Some sample_file].

Lemma inode0_adapters : Forall (serves sample_file) [None; Some sample_file : adapter].
Proof. apply Forall_cons; split; [apply serves_none|]. apply Forall_singleton, serves_some. Qed.

Lemma inode0_serves : inode_serves sample_file inode0.
Proof. apply NewInode_serves, inode0_adapters. Qed.

(** The inode after one read of four bytes. *)
Definition inode1 : Inode adapter :=
  match Read inode0 Background 1 4 0 with Ret ((_, i), _) => i | _ => inode0 end.
Definition world1 : Z := Second.

Lemma read1 : Read inode0 Background 1 4 0 = Ret ((Ok [x62; x63; x64; x65]%byte, inode1), world1).
Proof. vm_compute. reflexivity. Qed.

Lemma valid14 : valid_request 1 4.
Proof. vm_compute. repeat split; congruence. Qed.

Lemma small4 : 4 <= maxAlloc.
Proof. vm_compute. congruence. Qed.

End Sample.

Lemma Read_refines_file_witness :
  exists r i' w', Read Sample.inode1 Background 2 3 Sample.world1 = Ret ((r, i'), w') /\
    forall d, r = Ok d -> d = file_bytes sample_file 2 3.
Proof.
  apply (Read_refines_file sample_file Sample.attr0 [None; Some sample_file] 0
           Sample.inode1 Sample.world1 Background 2 3).
  - exact Sample.inode0_adapters.
  - apply rtc_once. exact (step_read _ _ _ _ _ _ _ _ Sample.valid14 Sample.small4 Sample.read1).
  - vm_compute. repeat split; congruence.
  - vm_compute. congruence.
Defined.

Lemma Read_available_witness :
  exists i' w', Read Sample.inode0 Background 1 4 0
    = Ret ((Ok (file_bytes sample_file 1 4), i'), w').
Proof.
  apply (Read_available sample_file Sample.attr0 [None; Some sample_file] 0 Sample.inode0 0
           (mkPool (newInodeAdapter None) [newInodeAdapter (Some sample_file)] defaultRetryDelay)
           (Backup 0) (newInodeAdapter (Some sample_file)) 1 4).
  - exact Sample.inode0_adapters.
  - apply rtc_refl.
  - reflexivity.
  - reflexivity.
  - reflexivity.
  - intros ctx o z buf w. by eexists _, _, _.
  - exact Sample.valid14.
  - exact Sample.small4.
Defined.

Lemma Read_cached_witness :
  Read Sample.inode1 Background 2 2 99 = Ret ((Ok (file_bytes sample_file 2 2), Sample.inode1), 99).
Proof.
  apply (Read_cached sample_file Sample.inode0 Background Background 1 4 0 Sample.world1 99
           [x62; x63; x64; x65]%byte Sample.inode1 2 2
           Sample.inode0_serves Sample.valid14 Sample.small4 ltac:(lia) Sample.read1);
    [reflexivity | lia..].
Defined.
