(* ===== verification/Heap.v ===== *)
(** The heap the filesystem works on: nodes (src/filesystem/node.go), inodes,
    and the table of their mutexes, with the locking primitives and the inode
    methods that take the inode's mutex (src/filesystem/inode.go). *)

From S2P Require Import Prelude XSync DataCache AdapterPool Inode.

(** ** Mutexes

    A [sync.RWMutex] is absent from the table when free. The code is run as
    one goroutine among others that hold the locks of the initial table: an
    acquisition that would wait is the outcome [Blocked], an unlock of a free
    mutex is the runtime's fatal error. *)

Inductive lockid := NodeMu (l : loc) | InodeMu (l : loc).
Inductive lockst := RLocked (readers : positive) | WLocked.

#[export] Instance lockid_eq_dec : EqDecision lockid.
Proof. solve_decision. Defined.
#[export] Instance lockst_eq_dec : EqDecision lockst.
Proof. solve_decision. Defined.
#[export] Instance lockid_countable : Countable lockid.
Proof.
  refine (inj_countable' (fun k => match k with NodeMu l => inl l | InodeMu l => inr l end)
    (fun s => match s with inl l => NodeMu l | inr l => InodeMu l end) _).
  by intros [].
Defined.

Abbreviation locktable := (gmap lockid lockst).

Definition rlock (k : lockid) (t : locktable) : outcome locktable :=
  match t !! k with
  | None => Ret (<[k := RLocked 1]> t)
  | Some (RLocked n) => Ret (<[k := RLocked (Pos.succ n)]> t)
  | Some WLocked => Blocked
  end.

Definition runlock (k : lockid) (t : locktable) : outcome locktable :=
  match t !! k with
  | Some (RLocked n) => Ret (if decide (n = 1%positive) then delete k t
                             else <[k := RLocked (Pos.pred n)]> t)
  | _ => Panic
  end.

Definition wlock (k : lockid) (t : locktable) : outcome locktable :=
  match t !! k with
  | None => Ret (<[k := WLocked]> t)
  | Some _ => Blocked
  end.

Definition wunlock (k : lockid) (t : locktable) : outcome locktable :=
  match t !! k with
  | Some WLocked => Ret (delete k t)
  | _ => Panic
  end.

(** A reader can enter: nobody holds the mutex for writing. *)
Definition readable (t : locktable) (k : lockid) : Prop := t !! k <> Some WLocked.
Definition no_writers (t : locktable) : Prop := forall k, readable t k.

Definition rlocked (k : lockid) (t : locktable) : locktable :=
  match t !! k with
  | Some (RLocked n) => <[k := RLocked (Pos.succ n)]> t
  | _ => <[k := RLocked 1]> t
  end.

Lemma rlock_run k t : readable t k -> rlock k t = Ret (rlocked k t).
Proof. unfold readable, rlock, rlocked. destruct (t !! k) as [[n|]|]; done. Qed.

Lemma runlock_rlocked k t : readable t k -> runlock k (rlocked k t) = Ret t.
Proof.
  unfold readable, runlock, rlocked. intros Hr.
  destruct (t !! k) as [[n|]|] eqn:E; [|done|]; rewrite lookup_insert_eq.
  - rewrite decide_False by lia. rewrite insert_insert_eq, Pos.pred_succ. by rewrite insert_id.
  - rewrite decide_True by done. by rewrite delete_insert_id.
Qed.

Lemma rlocked_no_writers k t : no_writers t -> no_writers (rlocked k t).
Proof.
  intros Hn k'. unfold readable, rlocked. destruct (decide (k = k')) as [<-|Hne].
  - destruct (t !! k) as [[n|]|]; by rewrite lookup_insert_eq.
  - destruct (t !! k) as [[n|]|]; rewrite lookup_insert_ne by done; apply Hn.
Qed.

Lemma no_writers_empty : no_writers ∅.
Proof. intros k. unfold readable. by rewrite lookup_empty. Qed.

(** ** Nodes and the heap *)

Section heap.
Context {X : XSync} {W A : Type}.

Record Node := mkNode {
  n_name : string;
  n_parent : option loc;
  n_nodeID : Z;                     (* uint64; 0 if not registered *)
  n_children : XMap string loc;
  n_isDel : bool;
  n_inode : loc
}.

Record heap := mkHeap {
  h_nodes : gmap loc Node;
  h_inodes : gmap loc (Inode A);
  h_next : loc;                     (* the next address to allocate *)
  h_tasks : list loc;               (* RefreshMeta goroutines not yet run *)
  h_locks : locktable;
  h_world : W
}.

(** Where the program starts. *)
Definition empty_heap (w : W) : heap := mkHeap ∅ ∅ 0%nat [] ∅ w.

Definition set_nodes (m : gmap loc Node) (h : heap) : heap :=
  mkHeap m (h_inodes h) (h_next h) (h_tasks h) (h_locks h) (h_world h).
Definition set_inodes (m : gmap loc (Inode A)) (h : heap) : heap :=
  mkHeap (h_nodes h) m (h_next h) (h_tasks h) (h_locks h) (h_world h).
Definition set_locks (t : locktable) (h : heap) : heap :=
  mkHeap (h_nodes h) (h_inodes h) (h_next h) (h_tasks h) t (h_world h).
Definition set_tasks (ts : list loc) (h : heap) : heap :=
  mkHeap (h_nodes h) (h_inodes h) (h_next h) ts (h_locks h) (h_world h).
Definition set_world (w : W) (h : heap) : heap :=
  mkHeap (h_nodes h) (h_inodes h) (h_next h) (h_tasks h) (h_locks h) w.

Abbreviation M := (GoM heap).

(** *** Locking *)

Definition on_locks (f : locktable -> outcome locktable) : M unit := fun h =>
  match f (h_locks h) with
  | Ret t => Ret (tt, set_locks t h)
  | Panic => Panic
  | Blocked => Blocked
  | OutOfFuel => OutOfFuel
  end.

Definition RLock (k : lockid) : M unit := on_locks (rlock k).
Definition RUnlock (k : lockid) : M unit := on_locks (runlock k).
Definition Lock (k : lockid) : M unit := on_locks (wlock k).
Definition Unlock (k : lockid) : M unit := on_locks (wunlock k).

(** [mu.RLock(); defer mu.RUnlock(); body] and its writing counterpart. *)
Definition with_rlock {B} (k : lockid) (body : M B) : M B :=
  RLock k;; x ← body; RUnlock k;; mret x.
Definition with_lock {B} (k : lockid) (body : M B) : M B :=
  Lock k;; x ← body; Unlock k;; mret x.

(** *** Memory *)

Definition read_node (l : loc) : M Node := h ← get_state; deref (h_nodes h !! l).
Definition read_inode (l : loc) : M (Inode A) := h ← get_state; deref (h_inodes h !! l).
Definition update_node (l : loc) (f : Node -> Node) : M unit :=
  n ← read_node l; modify (fun h => set_nodes (<[l := f n]> (h_nodes h)) h).
Definition update_inode (l : loc) (f : Inode A -> Inode A) : M unit :=
  i ← read_inode l; modify (fun h => set_inodes (<[l := f i]> (h_inodes h)) h).

Definition alloc_node (n : Node) : M loc := fun h =>
  Ret (h_next h,
       mkHeap (<[h_next h := n]> (h_nodes h)) (h_inodes h) (S (h_next h)) (h_tasks h)
         (h_locks h) (h_world h)).
Definition alloc_inode (i : Inode A) : M loc := fun h =>
  Ret (h_next h,
       mkHeap (h_nodes h) (<[h_next h := i]> (h_inodes h)) (S (h_next h)) (h_tasks h)
         (h_locks h) (h_world h)).

Definition set_parent (p : option loc) (n : Node) : Node :=
  mkNode (n_name n) p (n_nodeID n) (n_children n) (n_isDel n) (n_inode n).
Definition set_nodeID (id : Z) (n : Node) : Node :=
  mkNode (n_name n) (n_parent n) id (n_children n) (n_isDel n) (n_inode n).
Definition set_children (m : XMap string loc) (n : Node) : Node :=
  mkNode (n_name n) (n_parent n) (n_nodeID n) m (n_isDel n) (n_inode n).
Definition set_isDel (b : bool) (n : Node) : Node :=
  mkNode (n_name n) (n_parent n) (n_nodeID n) (n_children n) b (n_inode n).

#[export] Instance heap_clock {clk : Clock W} : Clock heap := fun h =>
  let '(now, w) := clk (h_world h) in (now, set_world w h).

(** ** The inode methods that lock *)

Definition AddHardLink (i : loc) (node : loc) : M unit :=
  with_lock (InodeMu i) (update_inode i (addHardLinkLocked node)).

Definition CopyAttr (i : loc) : M Attr :=
  with_rlock (InodeMu i) (ino ← read_inode i; mret (i_attr ino)).

(** [NewInode] on the heap. *)
Definition new_inode (a : Attr) (adapters : list A) : M loc := alloc_inode (NewInode a adapters).

(** [RefreshMeta] starts a goroutine, which runs [refresh_body] at some later
    point. *)
Definition RefreshMeta (i : loc) : M unit :=
  ino ← read_inode i;
  match i_adapterPool ino with
  | None => mret tt
  | Some _ => modify (fun h => set_tasks (h_tasks h ++ [i]) h)
  end.

Definition refresh_operation `{FuseLib, FileAdapterOps W A} (i : loc)
    (adapter : inodeAdapter A) : M (option GoError) := fun h =>
  let '(r, w) := fa_GetMeta (FileAdapter adapter) Background (h_world h) in
  match r with
  | Err e => Ret (Some e, set_world w h)
  | Ok meta =>
      with_lock (InodeMu i)
        (update_inode i (with_attr (fun a =>
           SetTimes (set_Size (meta_Size meta) a) None (LastModified meta) None));;
         mret None) (set_world w h)
  end.

(** The goroutine; its error is only logged. The pool is updated in place. *)
Definition refresh_body `{FuseLib, FileAdapterOps W A} {clk : Clock W} (i : loc) : M unit :=
  ino ← read_inode i;
  pool ← deref (i_adapterPool ino);
  '(pool', _) ← tryOperation (fun h => Background (h_world h)) (refresh_operation i) pool;
  update_inode i (with_pool pool').
End heap.
Arguments Node {X}.
Arguments heap {X} W A.

(** ** Running the primitives *)

Section heap_lemmas.
Context {X : XSync} {W A : Type}.
Implicit Types (h : heap W A) (l i : loc) (k : lockid).

Lemma set_locks_id h : set_locks (h_locks h) h = h.
Proof. by destruct h. Qed.

Lemma set_locks_twice t t' h : set_locks t (set_locks t' h) = set_locks t h.
Proof. done. Qed.

(** A body that gives back the locks it took is not affected by the reader
    lock around it. *)
Lemma with_rlock_run {B} k (body : GoM (heap W A) B) h b h' :
  readable (h_locks h) k ->
  body (set_locks (rlocked k (h_locks h)) h) = Ret (b, h') ->
  h_locks h' = rlocked k (h_locks h) ->
  with_rlock k body h = Ret (b, set_locks (h_locks h) h').
Proof.
  intros Hr Hb Hl. unfold with_rlock, RLock, RUnlock, on_locks.
  unfold mbind, GoM_bind. rewrite (rlock_run _ _ Hr), Hb, Hl, runlock_rlocked by done. done.
Qed.

Lemma with_rlock_ro {B} k (body : GoM (heap W A) B) h b :
  readable (h_locks h) k ->
  body (set_locks (rlocked k (h_locks h)) h) = Ret (b, set_locks (rlocked k (h_locks h)) h) ->
  with_rlock k body h = Ret (b, h).
Proof.
  intros Hr Hb. rewrite (with_rlock_run k body h b _ Hr Hb eq_refl).
  by rewrite set_locks_twice, set_locks_id.
Qed.

Lemma with_lock_run {B} k (body : GoM (heap W A) B) h b h' :
  h_locks h !! k = None ->
  body (set_locks (<[k := WLocked]> (h_locks h)) h) = Ret (b, h') ->
  h_locks h' = <[k := WLocked]> (h_locks h) ->
  with_lock k body h = Ret (b, set_locks (h_locks h) h').
Proof.
  intros Hk Hb Hl. unfold with_lock, Lock, Unlock, on_locks, wlock, wunlock.
  unfold mbind, GoM_bind. rewrite Hk, Hb, Hl, lookup_insert_eq, delete_insert_id by done. done.
Qed.

Lemma read_node_run h l n : h_nodes h !! l = Some n -> read_node l h = Ret (n, h).
Proof. intros H. unfold read_node, mbind, GoM_bind, get_state. by rewrite H. Qed.

Lemma read_inode_run h l (ino : Inode A) :
  h_inodes h !! l = Some ino -> read_inode l h = Ret (ino, h).
Proof. intros H. unfold read_inode, mbind, GoM_bind, get_state. by rewrite H. Qed.

Lemma update_node_run h l n f :
  h_nodes h !! l = Some n -> update_node l f h = Ret (tt, set_nodes (<[l := f n]> (h_nodes h)) h).
Proof. intros H. unfold update_node. by rewrite (bind_run _ _ _ _ _ (read_node_run _ _ _ H)). Qed.

Lemma update_inode_run h l (i : Inode A) f :
  h_inodes h !! l = Some i ->
  update_inode l f h = Ret (tt, set_inodes (<[l := f i]> (h_inodes h)) h).
Proof. intros H. unfold update_inode. by rewrite (bind_run _ _ _ _ _ (read_inode_run _ _ _ H)). Qed.

Lemma CopyAttr_run h l (i : Inode A) :
  h_inodes h !! l = Some i -> readable (h_locks h) (InodeMu l) ->
  CopyAttr l h = Ret (i_attr i, h).
Proof.
  intros Hi Hr. apply with_rlock_ro; [done|].
  by rewrite (bind_run _ _ _ _ _ (read_inode_run (set_locks _ h) _ _ Hi)).
Qed.

Lemma AddHardLink_run h l (i : Inode A) node :
  h_inodes h !! l = Some i -> h_locks h !! InodeMu l = None ->
  AddHardLink l node h
  = Ret (tt, set_inodes (<[l := addHardLinkLocked node i]> (h_inodes h)) h).
Proof.
  intros Hi Hl. unfold AddHardLink.
  rewrite (with_lock_run _ _ _ _ _ Hl (update_inode_run (set_locks _ h) _ _ _ Hi) eq_refl).
  by destruct h.
Qed.
End heap_lemmas.

#[export] Hint Resolve read_node_run read_inode_run CopyAttr_run : webfs.
#[export] Hint Resolve rlocked_no_writers no_writers_empty : webfs.
