(* ===== verification/Node.v ===== *)
(** Nodes (src/filesystem/node.go): creation, the parent/child links, deletion
    and path reconstruction, on the heap with its mutexes. *)

From S2P Require Import Prelude Paths XSync DataCache AdapterPool Inode Heap.

(** ** Operations *)

Section node_ops.
Context {X : XSync} {W A : Type}.
Abbreviation M := (GoM (heap W A)).

(** [None] is the nil inode. *)
Definition NewNode (name : string) (inode : option loc) : M (result loc) :=
  match inode with
  | None => mret (Err ErrNilInode)
  | Some i =>
      node ← alloc_node {| n_name := name; n_parent := None; n_nodeID := 0;
                           n_children := NewMap; n_isDel := false; n_inode := i |};
      AddHardLink i node;;
      mret (Ok node)
  end.

Definition NodeID (l : loc) : M Z := n ← read_node l; mret (n_nodeID n).

Definition isRootLocked (l : loc) : M bool :=
  n ← read_node l;
  match n_parent n with
  | None => with_rlock (InodeMu (n_inode n))
              (i ← read_inode (n_inode n); mret (Ino (i_attr i) =? 1))
  | Some _ => mret false
  end.

Definition IsRoot (l : loc) : M bool := with_rlock (NodeMu l) (isRootLocked l).

(** The recursion of [Path] up the parent pointers, in the order in which it
    takes the locks; the fuel bounds the length of the parent chain. *)
Fixpoint pathLocked (fuel : nat) (l : loc) : M (string * option GoError) :=
  match fuel with
  | O => no_fuel
  | S fuel' =>
      root ← isRootLocked l;
      if root : bool then mret ("", None)
      else
        n ← read_node l;
        if n_isDel n then mret ("", Some (ErrDeletedNode (n_name n)))
        else
          match n_parent n with
          | None => mret (n_name n, Some (ErrDetachedNode (n_name n)))
          | Some p =>
              '(pPath, err) ← with_rlock (NodeMu p) (pathLocked fuel' p);
              mret (join pPath (n_name n), err)
          end
  end.

Definition Path (fuel : nat) (l : loc) : M (string * option GoError) :=
  with_rlock (NodeMu l) (pathLocked fuel l).

Definition Del (l : loc) : M unit :=
  with_lock (NodeMu l)
    (update_node l (set_isDel true);;
     update_node l (set_parent None);;
     n ← read_node l;
     update_inode (n_inode n) ClearCache).

Definition AddChild (l child : loc) : M unit :=
  c ← read_node child;
  n ← read_node l;
  let '(existing, m) := LoadAndDelete (n_children n) (n_name c) in
  update_node l (set_children m);;
  match existing with
  | Some existingChild => Del existingChild
  | None => mret tt
  end;;
  update_node l (fun n => set_children (Store (n_children n) (n_name c) child) n);;
  with_lock (NodeMu child) (update_node child (set_parent (Some l))).

Definition GetChild (l : loc) (name : string) : M (option loc) :=
  n ← read_node l; mret (Load (n_children n) name).

Definition RemoveChild (l : loc) (name : string) : M bool :=
  n ← read_node l;
  let '(existing, m) := LoadAndDelete (n_children n) name in
  update_node l (set_children m);;
  match existing with
  | Some child => with_lock (NodeMu child) (update_node child (set_parent None));; mret true
  | None => mret false
  end.

Definition nameLocked (l : loc) : M string := n ← read_node l; mret (n_name n).
Definition Name (l : loc) : M string := with_rlock (NodeMu l) (nameLocked l).
Definition NameSafe (l : loc) : M string := with_rlock (NodeMu l) (nameLocked l).
Definition IsDel (l : loc) : M bool := n ← read_node l; mret (n_isDel n).
Definition node_Inode (l : loc) : M loc := n ← read_node l; mret (n_inode n).
End node_ops.

(** ** The path as a relation *)

Section path.
Context {X : XSync} {W A : Type}.
Implicit Types (h : heap W A) (l p : loc) (n : Node) (ino : Inode A).

(** The nodes at which the recursion stops: the root, a deleted node, a
    detached node; [None] for a node it goes on from. *)
Definition top_result h (n : Node) : option (string * option GoError) :=
  match n_parent n with
  | Some _ => if n_isDel n then Some ("", Some (ErrDeletedNode (n_name n))) else None
  | None =>
      if decide (Ino ∘ i_attr <$> h_inodes h !! n_inode n = Some 1) then Some ("", None)
      else if n_isDel n then Some ("", Some (ErrDeletedNode (n_name n)))
      else Some (n_name n, Some (ErrDetachedNode (n_name n)))
  end.

(** [path_rel h l r d]: [d] steps above [l] is a node where the recursion
    stops, and [r] is the path from there with the verdict on that node. *)
Inductive path_rel h : loc -> string * option GoError -> nat -> Prop :=
  | path_top l n r :
      h_nodes h !! l = Some n -> is_Some (h_inodes h !! n_inode n) ->
      top_result h n = Some r -> path_rel h l r 0
  | path_up l n p s e d :
      h_nodes h !! l = Some n -> top_result h n = None -> n_parent n = Some p ->
      path_rel h p (s, e) d -> path_rel h l (join s (n_name n), e) (S d).

Lemma isRootLocked_run h l n :
  h_nodes h !! l = Some n -> is_Some (h_inodes h !! n_inode n) -> no_writers (h_locks h) ->
  isRootLocked l h = Ret (bool_decide (n_parent n = None /\
    Ino ∘ i_attr <$> h_inodes h !! n_inode n = Some 1), h).
Proof.
  intros Hn [ino Hi] Hw. unfold isRootLocked.
  rewrite (bind_run _ _ _ _ _ (read_node_run _ _ _ Hn)).
  destruct (n_parent n) as [p|] eqn:Ep; [rewrite bool_decide_false; [done | by intros [[=] _]]|].
  apply with_rlock_ro; [apply Hw|].
  rewrite (bind_run _ _ _ _ _ (read_inode_run (set_locks _ h) _ _ Hi)). rewrite Hi. cbn.
  unfold mret, GoM_ret. do 2 f_equal.
  case_bool_decide as Hd; cbn in Hd.
  - destruct Hd as [_ [= ->]]. done.
  - apply Z.eqb_neq. intros E. apply Hd. by rewrite E.
Qed.

(** [Path] computes the relation, with fuel above the depth, whatever readers
    hold the locks, and leaves the heap as it found it. *)
Lemma pathLocked_run h l r d t fuel :
  path_rel h l r d -> (d < fuel)%nat -> no_writers t ->
  pathLocked fuel l (set_locks t h) = Ret (r, set_locks t h).
Proof.
  intros Hp. revert t fuel.
  induction Hp as [l n r Hn Hi Ht|l n p s e d Hn Ht Hpar Hp IH]; intros t [|fuel] Hf Hw;
    [lia | | lia |]; cbn [pathLocked].
  - rewrite (bind_run _ _ _ _ _ (isRootLocked_run (set_locks t h) l n Hn Hi Hw)).
    unfold top_result in Ht. cbn [h_inodes set_locks].
    destruct (n_parent n) as [p|] eqn:Ep.
    + rewrite bool_decide_false by (by intros [[=] _]).
      rewrite (bind_run _ _ _ _ _ (read_node_run (set_locks t h) _ _ Hn)).
      destruct (n_isDel n); by simplify_eq.
    + case_decide as Hino.
      { rewrite bool_decide_true by done. by simplify_eq. }
      rewrite bool_decide_false by (by intros [_ ?]).
      rewrite (bind_run _ _ _ _ _ (read_node_run (set_locks t h) _ _ Hn)). rewrite Ep.
      destruct (n_isDel n); by simplify_eq.
  - assert (Hroot : isRootLocked l (set_locks t h) = Ret (false, set_locks t h)).
    { unfold isRootLocked. rewrite (bind_run _ _ _ _ _ (read_node_run (set_locks t h) _ _ Hn)).
      by rewrite Hpar. }
    rewrite (bind_run _ _ _ _ _ Hroot).
    rewrite (bind_run _ _ _ _ _ (read_node_run (set_locks t h) _ _ Hn)).
    unfold top_result in Ht. rewrite Hpar in *. destruct (n_isDel n); [done|].
    rewrite (bind_run _ _ _ (s, e) (set_locks t h)); [done|].
    apply with_rlock_ro; [apply Hw|].
    rewrite set_locks_twice. apply IH; [lia | by apply rlocked_no_writers].
Qed.

Lemma Path_run h l r d fuel :
  path_rel h l r d -> (d < fuel)%nat -> no_writers (h_locks h) -> Path fuel l h = Ret (r, h).
Proof.
  intros Hp Hf Hw. apply with_rlock_ro; [apply Hw|].
  apply (pathLocked_run _ _ _ d); [done | done | by apply rlocked_no_writers].
Qed.

(** Parent pointers that go to older nodes: the recursion stops, within as
    many steps as the address of the node. *)
Definition parents_older h : Prop :=
  forall l n, h_nodes h !! l = Some n ->
    is_Some (h_inodes h !! n_inode n) /\
    forall p, n_parent n = Some p -> (p < l)%nat /\ is_Some (h_nodes h !! p).

Lemma path_rel_total h l n :
  parents_older h -> h_nodes h !! l = Some n ->
  exists r d, path_rel h l r d /\ (d <= l)%nat.
Proof.
  intros Hold. revert n. induction (lt_wf l) as [l _ IH]. intros n Hn.
  destruct (Hold l n Hn) as [Hi Hp]. destruct (top_result h n) as [r|] eqn:Ht.
  { exists r, 0%nat. split; [by eapply path_top | lia]. }
  destruct (n_parent n) as [p|] eqn:Ep.
  - destruct (Hp p eq_refl) as [Hlt [pn Hpn]].
    destruct (IH p Hlt pn Hpn) as ([s e] & d & Hrel & Hd).
    exists (join s (n_name n), e), (S d). split; [by eapply path_up | lia].
  - exfalso. unfold top_result in Ht. rewrite Ep in Ht. repeat case_match; done.
Qed.
End path.

(** ** Running the operations *)

Section node_runs.
Context {X : XSync} `{!XSyncLaws} {W A : Type}.
Implicit Types (h : heap W A) (l c e : loc) (n : Node) (ino : Inode A).

Definition deleted (n : Node) : Node := set_parent None (set_isDel true n).

(** The parent's node once [c] is linked under [name]. *)
Definition linked (name : string) (c : loc) (n : Node) : Node :=
  set_children (Store (Delete (n_children n) name) name c) n.

Lemma Del_run h l n ino :
  h_nodes h !! l = Some n -> h_inodes h !! n_inode n = Some ino ->
  h_locks h !! NodeMu l = None ->
  Del l h = Ret (tt, set_inodes (<[n_inode n := ClearCache ino]> (h_inodes h))
                       (set_nodes (<[l := deleted n]> (h_nodes h)) h)).
Proof.
  intros Hn Hi Hl. set (t := <[NodeMu l := WLocked]> (h_locks h)).
  unfold Del. rewrite (with_lock_run _ _ _ tt
    (set_inodes (<[n_inode n := ClearCache ino]> (h_inodes h))
       (set_nodes (<[l := deleted n]> (h_nodes h)) (set_locks t h))) Hl); [by destruct h | | done].
  rewrite (bind_run _ _ _ _ _ (update_node_run (set_locks _ h) _ _ _ Hn)).
  rewrite (bind_run _ _ _ _ _ (update_node_run (set_nodes _ _) _ _ _ (lookup_insert_eq _ _ _))).
  cbn [h_nodes set_nodes set_locks]. rewrite insert_insert_eq.
  rewrite (bind_run _ _ _ _ _ (read_node_run (set_nodes _ _) _ _ (lookup_insert_eq _ _ _))).
  by rewrite (update_inode_run (set_nodes _ _) _ ino).
Qed.

Lemma GetChild_run h l n name :
  h_nodes h !! l = Some n -> GetChild l name h = Ret (Load (n_children n) name, h).
Proof. intros Hn. unfold GetChild. by rewrite (bind_run _ _ _ _ _ (read_node_run _ _ _ Hn)). Qed.

Lemma set_parent_run h c n p :
  h_nodes h !! c = Some n -> h_locks h !! NodeMu c = None ->
  with_lock (NodeMu c) (update_node c (set_parent p)) h
  = Ret (tt, set_nodes (<[c := set_parent p n]> (h_nodes h)) h).
Proof.
  intros Hn Hl.
  rewrite (with_lock_run _ _ _ _ _ Hl (update_node_run (set_locks _ h) _ _ _ Hn) eq_refl).
  by destruct h.
Qed.

Lemma AddChild_run_fresh h l c n cn :
  h_nodes h !! l = Some n -> h_nodes h !! c = Some cn -> l <> c ->
  Load (n_children n) (n_name cn) = None -> h_locks h !! NodeMu c = None ->
  AddChild l c h
  = Ret (tt, set_nodes (<[c := set_parent (Some l) cn]>
               (<[l := linked (n_name cn) c n]> (h_nodes h))) h).
Proof.
  intros Hn Hc Hne Hfree Hl. unfold AddChild.
  rewrite (bind_run _ _ _ _ _ (read_node_run _ _ _ Hc)).
  rewrite (bind_run _ _ _ _ _ (read_node_run _ _ _ Hn)).
  rewrite LoadAndDelete_spec, Hfree.
  rewrite (bind_run _ _ _ _ _ (update_node_run _ _ _ _ Hn)), bind_mret.
  rewrite (bind_run _ _ _ _ _ (update_node_run (set_nodes _ _) _ _ _ (lookup_insert_eq _ _ _))).
  cbn [h_nodes set_nodes]. rewrite insert_insert_eq.
  rewrite (set_parent_run _ c cn); [done | | done].
  cbn [h_nodes set_nodes]. by rewrite lookup_insert_ne.
Qed.

Lemma AddChild_run_replace h l c e n cn en ino :
  h_nodes h !! l = Some n -> h_nodes h !! c = Some cn -> h_nodes h !! e = Some en ->
  l <> c -> l <> e -> e <> c -> h_inodes h !! n_inode en = Some ino ->
  Load (n_children n) (n_name cn) = Some e ->
  h_locks h !! NodeMu c = None -> h_locks h !! NodeMu e = None ->
  AddChild l c h
  = Ret (tt, set_nodes (<[c := set_parent (Some l) cn]> (<[l := linked (n_name cn) c n]>
                (<[e := deleted en]> (h_nodes h))))
              (set_inodes (<[n_inode en := ClearCache ino]> (h_inodes h)) h)).
Proof.
  intros Hn Hc He Hlc Hle Hec Hi Hload Hkc Hke. unfold AddChild.
  rewrite (bind_run _ _ _ _ _ (read_node_run _ _ _ Hc)).
  rewrite (bind_run _ _ _ _ _ (read_node_run _ _ _ Hn)).
  rewrite LoadAndDelete_spec, Hload.
  rewrite (bind_run _ _ _ _ _ (update_node_run _ _ _ _ Hn)).
  erewrite bind_run.
  2:{ apply (Del_run (set_nodes _ h) e en ino); [|done|done].
      cbn [h_nodes set_nodes]. by rewrite lookup_insert_ne. }
  cbn [h_nodes h_inodes set_nodes set_inodes].
  erewrite bind_run.
  2:{ apply (update_node_run _ l (set_children (Delete (n_children n) (n_name cn)) n)).
      cbn [h_nodes set_nodes set_inodes]. by rewrite lookup_insert_ne, lookup_insert_eq. }
  cbn [h_nodes set_nodes set_inodes].
  rewrite (set_parent_run _ c cn); [| |done].
  - cbn [h_nodes set_nodes set_inodes]. unfold set_nodes, set_inodes. cbn. do 4 f_equal.
    rewrite (insert_insert_ne _ e l) by done. by rewrite insert_insert_eq.
  - cbn [h_nodes set_nodes set_inodes]. by rewrite !lookup_insert_ne.
Qed.

Lemma RemoveChild_run h l c n cn name :
  h_nodes h !! l = Some n -> Load (n_children n) name = Some c -> h_nodes h !! c = Some cn ->
  l <> c -> h_locks h !! NodeMu c = None ->
  RemoveChild l name h
  = Ret (true, set_nodes (<[c := set_parent None cn]>
                 (<[l := set_children (Delete (n_children n) name) n]> (h_nodes h))) h).
Proof.
  intros Hn Hload Hc Hne Hl. unfold RemoveChild.
  rewrite (bind_run _ _ _ _ _ (read_node_run _ _ _ Hn)), LoadAndDelete_spec, Hload.
  rewrite (bind_run _ _ _ _ _ (update_node_run _ _ _ _ Hn)).
  erewrite bind_run; [done|]. rewrite (set_parent_run _ c cn); [done | | done].
  cbn [h_nodes set_nodes]. by rewrite lookup_insert_ne.
Qed.
End node_runs.

(** ** Properties *)

Section node_properties.
Context {X : XSync} `{!XSyncLaws} {W A : Type}.
Implicit Types (h : heap W A) (l c e p : loc) (n : Node) (ino : Inode A).

(** [Path] terminates and computes the path relation. When parents are
    older than their children (no cycles) and no writer holds a mutex, the
    recursion of [Path] on any node stops within the address of the node, the
    result is the names joined from the node where it stopped together with
    the verdict on that node, and every lock taken on the way is released. *)
Theorem Path_total h l n :
  parents_older h -> no_writers (h_locks h) -> h_nodes h !! l = Some n ->
  exists r d, path_rel h l r d /\ Path (S l) l h = Ret (r, h).
Proof.
  intros Hold Hw Hn. destruct (path_rel_total h l n Hold Hn) as (r & d & Hrel & Hd).
  exists r, d. split; [done|]. apply (Path_run _ _ _ d); [done | lia | done].
Qed.

(** [AddChild] over an existing name. The new child is found under the
    name and points to the parent; the old one is marked deleted, detached and
    its inode's cache is empty; every other entry, node and inode is
    untouched, and no mutex is left held. *)
Theorem AddChild_replaces h l c e n cn en ino :
  h_nodes h !! l = Some n -> h_nodes h !! c = Some cn -> h_nodes h !! e = Some en ->
  l <> c -> l <> e -> e <> c -> h_inodes h !! n_inode en = Some ino ->
  Load (n_children n) (n_name cn) = Some e ->
  h_locks h !! NodeMu c = None -> h_locks h !! NodeMu e = None ->
  exists h', AddChild l c h = Ret (tt, h') /\
    GetChild l (n_name cn) h' = Ret (Some c, h') /\
    (forall name, name <> n_name cn -> GetChild l name h' = Ret (Load (n_children n) name, h')) /\
    h_nodes h' !! c = Some (set_parent (Some l) cn) /\
    h_nodes h' !! e = Some (deleted en) /\
    (exists ino', h_inodes h' !! n_inode en = Some ino' /\ GetCachedRanges ino' = []) /\
    (forall l', l' <> l -> l' <> c -> l' <> e -> h_nodes h' !! l' = h_nodes h !! l') /\
    (forall i, i <> n_inode en -> h_inodes h' !! i = h_inodes h !! i) /\
    h_locks h' = h_locks h.
Proof.
  intros Hn Hc He Hlc Hle Hec Hi Hload Hkc Hke.
  eexists. split; [by eapply AddChild_run_replace|].
  assert (Hl' : forall m, m = linked (n_name cn) c n ->
    <[c := set_parent (Some l) cn]> (<[l := m]> (<[e := deleted en]> (h_nodes h))) !! l = Some m).
  { intros m _. by rewrite lookup_insert_ne, lookup_insert_eq. }
  split; [|split].
  - rewrite (GetChild_run _ _ (linked (n_name cn) c n)) by by apply Hl'.
    cbn. by rewrite Load_Store_eq.
  - intros name Hname. rewrite (GetChild_run _ _ (linked (n_name cn) c n)) by by apply Hl'.
    cbn. by rewrite Load_Store_ne, Load_Delete_ne.
  - cbn [h_nodes h_inodes h_locks set_nodes set_inodes]. split_and!.
    + by rewrite lookup_insert_eq.
    + rewrite !lookup_insert_ne by done. by rewrite lookup_insert_eq.
    + exists (ClearCache ino). by rewrite lookup_insert_eq.
    + intros l' H1 H2 H3. by rewrite !lookup_insert_ne.
    + intros i Hne. by rewrite lookup_insert_ne.
    + done.
Qed.

(** C35: what [Del] does and does not do. The node is marked deleted and
    detached, its cached data is gone and its [Path] is the error for a
    deleted node; but the parent's map still holds it, so [GetChild] on the
    parent keeps returning the deleted node. *)
Theorem Del_effect h p l n pn ino :
  h_nodes h !! l = Some n -> h_nodes h !! p = Some pn -> p <> l ->
  Load (n_children pn) (n_name n) = Some l ->
  h_inodes h !! n_inode n = Some ino -> Ino (i_attr ino) <> 1 ->
  h_locks h = ∅ ->
  exists h' ino', Del l h = Ret (tt, h') /\
    IsDel l h' = Ret (true, h') /\
    h_inodes h' !! n_inode n = Some ino' /\
    (forall offset size, IsCached ino' offset size = false) /\
    Path 1 l h' = Ret (("", Some (ErrDeletedNode (n_name n))), h') /\
    GetChild p (n_name n) h' = Ret (Some l, h') /\
    h_locks h' = ∅.
Proof.
  intros Hn Hp Hne Hload Hi Hino Hk.
  eexists _, (ClearCache ino). split; [apply (Del_run _ _ _ ino Hn Hi); by rewrite Hk, lookup_empty|].
  set (h' := set_inodes _ _).
  assert (Hl' : h_nodes h' !! l = Some (deleted n)) by (cbn; by rewrite lookup_insert_eq).
  assert (Hi' : h_inodes h' !! n_inode n = Some (ClearCache ino)) by (cbn; by rewrite lookup_insert_eq).
  split; [|split; [done|split; [done|split; [|split; [|done]]]]].
  - unfold IsDel. by rewrite (bind_run _ _ _ _ _ (read_node_run _ _ _ Hl')).
  - apply (Path_run _ _ _ 0); [|lia|cbn; rewrite Hk; apply no_writers_empty].
    apply (path_top h' l (deleted n)); [done | by exists (ClearCache ino) |].
    unfold top_result. cbn [n_parent deleted set_parent]. rewrite decide_False; [done|].
    cbn [n_inode deleted set_parent set_isDel]. rewrite Hi'. cbn. congruence.
  - rewrite (GetChild_run h' p pn); [by rewrite Hload|]. cbn. by rewrite lookup_insert_ne.
Qed.

(** [RemoveChild] unlinks in both directions: the name is free, the other
    entries stay, and the child is detached, so that its [Path] is its own
    name with the error for a detached node. *)
Theorem RemoveChild_effect h l c n cn ino name :
  h_nodes h !! l = Some n -> Load (n_children n) name = Some c -> h_nodes h !! c = Some cn ->
  l <> c -> h_locks h = ∅ -> n_isDel cn = false ->
  h_inodes h !! n_inode cn = Some ino -> Ino (i_attr ino) <> 1 ->
  exists h', RemoveChild l name h = Ret (true, h') /\
    GetChild l name h' = Ret (None, h') /\
    (forall name', name <> name' -> GetChild l name' h' = Ret (Load (n_children n) name', h')) /\
    Path 1 c h' = Ret ((n_name cn, Some (ErrDetachedNode (n_name cn))), h') /\
    h_locks h' = ∅.
Proof.
  intros Hn Hload Hc Hne Hk Hdel Hi Hino.
  eexists. split; [apply (RemoveChild_run h l c n cn name); try done; by rewrite Hk, lookup_empty|].
  set (h' := set_nodes _ h).
  assert (Hl' : h_nodes h' !! l = Some (set_children (Delete (n_children n) name) n)).
  { cbn. by rewrite lookup_insert_ne, lookup_insert_eq. }
  split; [|split; [|split; [|done]]].
  - rewrite (GetChild_run _ _ _ _ Hl'). cbn. by rewrite Load_Delete_eq.
  - intros name' Hn'. rewrite (GetChild_run _ _ _ _ Hl'). cbn. by rewrite Load_Delete_ne.
  - apply (Path_run _ _ _ 0); [|lia|cbn; rewrite Hk; apply no_writers_empty].
    apply (path_top h' c (set_parent None cn)); [cbn; by rewrite lookup_insert_eq | by exists ino |].
    unfold top_result. cbn [n_parent set_parent n_isDel n_inode n_name]. rewrite Hdel, decide_False; [done|].
    cbn. rewrite Hi. cbn. congruence.
Qed.
End node_properties.

(** ** Witnesses: a root with one file *)

Module NodeSample.

Definition root_node : Node :=
  mkNode "" None 1 {[ "file.txt" := 3%nat ]} false 0%nat.
Definition file_node : Node :=
  mkNode "file.txt" (Some 1%nat) 0 ∅ false 2%nat.
Definition spare_node : Node := mkNode "file.txt" None 0 ∅ false 4%nat.

Definition root_ino : Inode Sample.adapter :=
  NewInode (mkAttr 1 0 0 0 0 0 0 0 0 0 1 0 0 0 4096 0) [].

Definition h : heap Z Sample.adapter :=
  mkHeap {[ 1%nat := root_node; 3%nat := file_node; 5%nat := spare_node ]}
         {[ 0%nat := root_ino; 2%nat := Sample.inode1; 4%nat := Sample.inode0 ]}
         6%nat [] ∅ 0.
End NodeSample.

Lemma Path_total_witness :
  exists r d, path_rel NodeSample.h 3%nat r d /\ Path 4 3%nat NodeSample.h = Ret (r, NodeSample.h).
Proof.
  apply (Path_total NodeSample.h 3%nat NodeSample.file_node).
  - intros l n Hn. cbn in Hn. apply lookup_insert_Some in Hn as [[<- <-]|[_ Hn]].
    { split; [by eexists | done]. }
    apply lookup_insert_Some in Hn as [[<- <-]|[_ Hn]].
    { split; [by eexists|]. cbn. intros p [= <-]. split; [lia | by eexists]. }
    apply lookup_singleton_Some in Hn as [<- <-]. split; [by eexists | done].
  - apply no_writers_empty.
  - reflexivity.
Defined.

Lemma AddChild_replaces_witness :
  exists h', AddChild 1%nat 5%nat NodeSample.h = Ret (tt, h') /\
    GetChild 1%nat "file.txt" h' = Ret (Some 5%nat, h') /\
    (forall name, name <> "file.txt" ->
       GetChild 1%nat name h' = Ret (Load (n_children NodeSample.root_node) name, h')) /\
    h_nodes h' !! 5%nat = Some (set_parent (Some 1%nat) NodeSample.spare_node) /\
    h_nodes h' !! 3%nat = Some (deleted NodeSample.file_node) /\
    (exists ino', h_inodes h' !! 2%nat = Some ino' /\ GetCachedRanges ino' = []) /\
    (forall l', l' <> 1%nat -> l' <> 5%nat -> l' <> 3%nat ->
       h_nodes h' !! l' = h_nodes NodeSample.h !! l') /\
    (forall i, i <> 2%nat -> h_inodes h' !! i = h_inodes NodeSample.h !! i) /\
    h_locks h' = ∅.
Proof.
  apply (AddChild_replaces NodeSample.h 1%nat 5%nat 3%nat NodeSample.root_node NodeSample.spare_node
           NodeSample.file_node Sample.inode1); first [reflexivity | lia].
Defined.

Lemma Del_effect_witness :
  exists h' ino', Del 3%nat NodeSample.h = Ret (tt, h') /\
    IsDel 3%nat h' = Ret (true, h') /\
    h_inodes h' !! 2%nat = Some ino' /\
    (forall offset size, IsCached ino' offset size = false) /\
    Path 1 3%nat h' = Ret (("", Some (ErrDeletedNode "file.txt")), h') /\
    GetChild 1%nat "file.txt" h' = Ret (Some 3%nat, h') /\
    h_locks h' = ∅.
Proof.
  apply (Del_effect NodeSample.h 1%nat 3%nat NodeSample.file_node NodeSample.root_node Sample.inode1);
    first [reflexivity | vm_compute; congruence | lia].
Defined.

Lemma RemoveChild_effect_witness :
  exists h', RemoveChild 1%nat "file.txt" NodeSample.h = Ret (true, h') /\
    GetChild 1%nat "file.txt" h' = Ret (None, h') /\
    (forall name', "file.txt" <> name' ->
       GetChild 1%nat name' h' = Ret (Load (n_children NodeSample.root_node) name', h')) /\
    Path 1 3%nat h' = Ret (("file.txt", Some (ErrDetachedNode "file.txt")), h') /\
    h_locks h' = ∅.
Proof.
  apply (RemoveChild_effect NodeSample.h 1%nat 3%nat NodeSample.root_node NodeSample.file_node
           Sample.inode1 "file.txt"); first [reflexivity | vm_compute; congruence | lia].
Defined.
