(* ===== verification/NodeContext.v ===== *)
(** Locked node contexts (src/filesystem/context.go): a node whose mutex is
    held for reading, with the stack of callbacks that releases it. *)

From S2P Require Import Prelude Paths XSync DataCache AdapterPool Inode Heap Node.

(** ** Operations *)

Section context_ops.
Context {X : XSync} {W A : Type}.
Abbreviation M := (GoM (heap W A)).

Record NodeContext := mkContext {
  c_node : loc;
  closeFns : list (M unit)
}.

Definition AddClose (fn : M unit) (ctx : NodeContext) : NodeContext :=
  {| c_node := c_node ctx; closeFns := closeFns ctx ++ [fn] |}.

Definition NewNodeContext (node : loc) : M NodeContext :=
  RLock (NodeMu node);;
  mret (AddClose (RUnlock (NodeMu node)) {| c_node := node; closeFns := [] |}).

Definition ctx_Name (ctx : NodeContext) : M string := nameLocked (c_node ctx).
Definition ctx_Path (fuel : nat) (ctx : NodeContext) : M (string * option GoError) :=
  pathLocked fuel (c_node ctx).
Definition ctx_NodeID (ctx : NodeContext) : M Z := NodeID (c_node ctx).

Definition ctx_Attr (ctx : NodeContext) : M Attr :=
  i ← node_Inode (c_node ctx); CopyAttr i.

Definition UpdateAttr (fn : Attr -> Attr) (ctx : NodeContext) : M unit :=
  i ← node_Inode (c_node ctx);
  with_lock (InodeMu i) (update_inode i (with_attr fn)).

Definition UnsafeChildren (ctx : NodeContext) : M (list loc) :=
  n ← read_node (c_node ctx); mret (Range (n_children n)).*2.

Fixpoint new_contexts (ls : list loc) : M (list NodeContext) :=
  match ls with
  | [] => mret []
  | l :: ls' => c ← NewNodeContext l; cs ← new_contexts ls'; mret (c :: cs)
  end.

Definition Children (ctx : NodeContext) : M (list NodeContext) :=
  ls ← UnsafeChildren ctx; new_contexts ls.

Definition HardLinkCount (ctx : NodeContext) : M Z := a ← ctx_Attr ctx; mret (Nlink a).

Fixpoint run_all (fns : list (M unit)) : M unit :=
  match fns with
  | [] => mret tt
  | fn :: fns' => fn;; run_all fns'
  end.

(** [None] is the nil context; the callbacks run in reverse order and the
    context forgets them. *)
Definition Close (ctx : option NodeContext) : M (option NodeContext) :=
  match ctx with
  | None => mret None
  | Some c => run_all (reverse (closeFns c));; mret (Some {| c_node := c_node c; closeFns := [] |})
  end.

Fixpoint iter_children (ls : list loc) (fn : NodeContext -> M unit) : M unit :=
  match ls with
  | [] => mret tt
  | l :: ls' => nc ← NewNodeContext l; fn nc;; Close (Some nc);; iter_children ls' fn
  end.

Definition IterChildren (fn : NodeContext -> M unit) (ctx : NodeContext) : M unit :=
  ls ← UnsafeChildren ctx; iter_children ls fn.

(** [Inode.Read] on the heap: the inode and the world are updated. *)
Definition inode_Read {clk : Clock W} `{FileAdapterOps W A} (i : loc) (reqCtx : Ctx W)
    (offset size : Z) : M (result bytes) := fun h =>
  match h_inodes h !! i with
  | None => Panic
  | Some ino =>
      match Read ino reqCtx offset size (h_world h) with
      | Ret ((r, ino'), w') =>
          Ret (r, set_world w' (set_inodes (<[i := ino']> (h_inodes h)) h))
      | Panic => Panic
      | Blocked => Blocked
      | OutOfFuel => OutOfFuel
      end
  end.

Definition ctx_Read {clk : Clock W} `{FileAdapterOps W A} (ctx : NodeContext) (reqCtx : Ctx W)
    (offset size : Z) : M (result bytes) :=
  i ← node_Inode (c_node ctx); inode_Read i reqCtx offset size.

Definition ctx_IsCached (ctx : NodeContext) (offset size : Z) : M bool :=
  i ← node_Inode (c_node ctx); ino ← read_inode i; mret (IsCached ino offset size).
End context_ops.

(** ** Running contexts *)

Section context_runs.
Context {X : XSync} {W A : Type}.
Implicit Types (h : heap W A) (l : loc).

(** The context of a node that holds its reader lock. *)
Definition open_ctx (l : loc) : NodeContext (W := W) (A := A) :=
  {| c_node := l; closeFns := [RUnlock (NodeMu l)] |}.

Definition entered l h : heap W A := set_locks (rlocked (NodeMu l) (h_locks h)) h.

Lemma NewNodeContext_run h l :
  readable (h_locks h) (NodeMu l) -> NewNodeContext l h = Ret (open_ctx l, entered l h).
Proof.
  intros Hr. unfold NewNodeContext, RLock, on_locks, mbind, GoM_bind. by rewrite rlock_run.
Qed.

(** Closing gives back exactly the lock that was taken, whatever happened to
    the rest of the heap. *)
Lemma Close_run h h' l :
  readable (h_locks h) (NodeMu l) -> h_locks h' = rlocked (NodeMu l) (h_locks h) ->
  Close (Some (open_ctx l)) h' = Ret (Some {| c_node := l; closeFns := [] |},
                                      set_locks (h_locks h) h').
Proof.
  intros Hr Hl. unfold Close. cbn.
  unfold RUnlock, on_locks, mbind, GoM_bind. by rewrite Hl, runlock_rlocked.
Qed.
End context_runs.
