(* ===== verification/Tree.v ===== *)
(** The tree the heap holds: resolution of a list of names from a node, the
    well-formedness of the parent and child links, their correspondence with
    [Node.Path], and the effect of linking a new node. *)

From S2P Require Import Prelude Paths XSync DataCache AdapterPool Inode Heap Node.

Section tree.
Context {X : XSync} {W A : Type}.
Implicit Types (h : heap W A) (l r c : loc) (n : Node) (ino : Inode A) (names : list string).

(** ** Resolution *)

Definition child h l (name : string) : option loc :=
  n ← h_nodes h !! l; Load (n_children n) name.

Fixpoint walk h l names : option loc :=
  match names with
  | [] => Some l
  | name :: names' => c ← child h l name; walk h c names'
  end.

(** How many directories of the path are not there. *)
Fixpoint missing h l names : nat :=
  match names with
  | [] => 0
  | name :: names' =>
      match child h l name with
      | Some c => missing h c names'
      | None => S (length names')
      end
  end.

(** ** Well-formedness

    Links go from older to younger nodes and agree in both directions, except
    that a deleted node has lost its parent pointer while its parent's map
    still holds it; nobody is in two maps. *)
Record tree_wf r h : Prop := {
  tw_root : exists n ino, h_nodes h !! r = Some n /\ n_parent n = None /\ n_isDel n = false /\
    h_inodes h !! n_inode n = Some ino /\ Ino (i_attr ino) = 1;
  tw_inode l n : h_nodes h !! l = Some n -> is_Some (h_inodes h !! n_inode n);
  tw_inj l1 l2 n1 n2 : h_nodes h !! l1 = Some n1 -> h_nodes h !! l2 = Some n2 ->
    n_inode n1 = n_inode n2 -> l1 = l2;
  tw_fresh l : (h_next h <= l)%nat -> h_nodes h !! l = None /\ h_inodes h !! l = None;
  tw_down l name c : child h l name = Some c ->
    (l < c)%nat /\ has_slash name = false /\
    exists cn, h_nodes h !! c = Some cn /\ n_name cn = name /\
      (n_parent cn = Some l \/ n_isDel cn = true /\ n_parent cn = None);
  tw_up c cn l : h_nodes h !! c = Some cn -> n_parent cn = Some l ->
    n_isDel cn = false /\ child h l (n_name cn) = Some c;
  tw_holder l1 l2 name1 name2 c :
    child h l1 name1 = Some c -> child h l2 name2 = Some c -> l1 = l2
}.

(** Mutexes of addresses not allocated yet are free. *)
Definition locks_fresh h : Prop :=
  forall l, (h_next h <= l)%nat -> h_locks h !! NodeMu l = None /\ h_locks h !! InodeMu l = None.

(** No node has been deleted. *)
Definition live h : Prop := forall l n, h_nodes h !! l = Some n -> n_isDel n = false.

Lemma child_spec h l n name : h_nodes h !! l = Some n -> child h l name = Load (n_children n) name.
Proof. intros H. unfold child. by rewrite H. Qed.

Lemma child_dom h l name c : child h l name = Some c -> is_Some (h_nodes h !! l).
Proof. unfold child. intros (n & -> & _)%bind_Some. by eexists. Qed.

Lemma walk_app h l p q : walk h l (p ++ q) = walk h l p ≫= fun c => walk h c q.
Proof.
  revert l. induction p as [|name p IH]; intros l; [done|]. cbn.
  destruct (child h l name) as [c|]; cbn; [apply IH | done].
Qed.

Lemma walk_snoc h l p name x :
  walk h l (p ++ [name]) = Some x <-> exists y, walk h l p = Some y /\ child h y name = Some x.
Proof.
  rewrite walk_app. split.
  - intros (y & Hy & Hx)%bind_Some. exists y. split; [done|]. cbn in Hx.
    destruct (child h y name); [done|done].
  - intros (y & -> & Hx). cbn. by rewrite Hx.
Qed.

Lemma walk_dom r h l p x :
  tree_wf r h -> is_Some (h_nodes h !! l) -> walk h l p = Some x -> is_Some (h_nodes h !! x).
Proof.
  intros Hwf. revert l. induction p as [|name p IH]; intros l Hl; cbn.
  - by intros [= <-].
  - intros (c & Hc & Hx)%bind_Some. apply (IH c); [|done].
    destruct (tw_down _ _ Hwf _ _ _ Hc) as (_ & _ & cn & ? & _). by eexists.
Qed.

Lemma root_dom r h : tree_wf r h -> is_Some (h_nodes h !! r).
Proof. intros Hwf. destruct (tw_root _ _ Hwf) as (n & _ & ? & _). by eexists. Qed.

Lemma root_not_child r h l name : tree_wf r h -> child h l name <> Some r.
Proof.
  intros Hwf Hc. destruct (tw_root _ _ Hwf) as (n & ino & Hn & Hp & Hd & _).
  destruct (tw_down _ _ Hwf _ _ _ Hc) as (_ & _ & cn & Hcn & _ & Hor).
  rewrite Hn in Hcn. injection Hcn as <-. destruct Hor as [?|[? _]]; congruence.
Qed.

(** A node has one path of names from the root. *)
Lemma walk_inj r h p q x :
  tree_wf r h -> walk h r p = Some x -> walk h r q = Some x -> p = q.
Proof.
  intros Hwf. revert q x. induction p as [|a p IH] using rev_ind; intros q x.
  - intros [= <-]. induction q as [|b q _] using rev_ind; [done|].
    intros (y & _ & Hc)%walk_snoc. by apply root_not_child in Hc.
  - intros (y & Hp & Ha)%walk_snoc. induction q as [|b q _] using rev_ind.
    + intros [= <-]. by apply root_not_child in Ha.
    + intros (z & Hq & Hb)%walk_snoc. pose proof (tw_holder _ _ Hwf _ _ _ _ _ Ha Hb) as ->.
      destruct (tw_down _ _ Hwf _ _ _ Ha) as (_ & _ & n1 & E1 & <- & _).
      destruct (tw_down _ _ Hwf _ _ _ Hb) as (_ & _ & n2 & E2 & <- & _).
      rewrite E1 in E2. injection E2 as ->. by rewrite (IH q z).
Qed.

Lemma walk_depth r h l p x : tree_wf r h -> walk h l p = Some x -> (l + length p <= x)%nat.
Proof.
  intros Hwf. revert l. induction p as [|name p IH]; intros l; cbn; [intros [= ->]; lia|].
  intros (c & Hc & Hx)%bind_Some. destruct (tw_down _ _ Hwf _ _ _ Hc) as [? _].
  specialize (IH c Hx). lia.
Qed.

Lemma missing_empty h l names :
  (forall name, child h l name = None) -> missing h l names = length names.
Proof. intros Hn. destruct names as [|name names]; [done|]. cbn. by rewrite Hn. Qed.

Lemma missing_walk h l names : missing h l names = 0%nat <-> is_Some (walk h l names).
Proof.
  revert l. induction names as [|name names IH]; intros l; cbn.
  - split; [by eexists | done].
  - destruct (child h l name) as [c|]; cbn; [apply IH|]. split; [done | by intros [??]].
Qed.

Lemma missing_le h l names : (missing h l names <= length names)%nat.
Proof.
  revert l. induction names as [|name names IH]; intros l; cbn; [lia|].
  destruct (child h l name) as [c|]; [|lia]. specialize (IH c). lia.
Qed.

(** ** Updates of single nodes *)

Section update.
Context (r l : loc) (n n' : Node) (h : heap W A).
Hypothesis (Hwf : tree_wf r h) (Hl : h_nodes h !! l = Some n).
Hypothesis (Hch : xequiv (n_children n') (n_children n)) (Hin : n_inode n' = n_inode n).
Hypothesis (Hnm : n_name n' = n_name n).
Abbreviation h' := (set_nodes (<[l := n']> (h_nodes h)) h).

Lemma update_child x name : child h' x name = child h x name.
Proof.
  unfold child. cbn [h_nodes set_nodes]. destruct (decide (l = x)) as [<-|Hne].
  - rewrite lookup_insert_eq, Hl. cbn. by rewrite (Hch name).
  - by rewrite lookup_insert_ne.
Qed.

Lemma update_inv x xn :
  h_nodes h' !! x = Some xn -> x = l /\ xn = n' \/ x <> l /\ h_nodes h !! x = Some xn.
Proof. cbn. intros [[<- <-]|[? ?]]%lookup_insert_Some; auto. Qed.

(** A new identifier, or a deletion away from the root. *)
Lemma update_tree_wf :
  n_parent n' = n_parent n /\ n_isDel n' = n_isDel n \/
  l <> r /\ n_parent n' = None /\ n_isDel n' = true ->
  tree_wf r h'.
Proof.
  intros Hor. split.
  - destruct (tw_root _ _ Hwf) as (rn & ino & Hrn & Hp & Hd & Hi & H1).
    destruct (decide (l = r)) as [->|Hne].
    + rewrite Hl in Hrn. injection Hrn as ->. exists n', ino. cbn. rewrite lookup_insert_eq, Hin.
      destruct Hor as [[-> ->]|[? _]]; [by split_and! | done].
    + exists rn, ino. cbn. by rewrite lookup_insert_ne.
  - intros x xn [[-> ->]|[_ Hx]]%update_inv; [rewrite Hin|]; by eapply (tw_inode _ _ Hwf).
  - intros l1 l2 n1 n2 [[-> ->]|[? H1]]%update_inv [[-> ->]|[? H2]]%update_inv; rewrite ?Hin; intros E;
      [done | by eapply (tw_inj _ _ Hwf) | by eapply (tw_inj _ _ Hwf) | by eapply (tw_inj _ _ Hwf)].
  - intros x Hx. destruct (tw_fresh _ _ Hwf x Hx). cbn. split; [|done].
    rewrite lookup_insert_ne; [done | congruence].
  - intros x name c. rewrite update_child. intros Hc.
    destruct (tw_down _ _ Hwf _ _ _ Hc) as (? & ? & cn & Hcn & Hname & Hpar).
    split_and!; [done..|]. cbn. destruct (decide (l = c)) as [->|Hne].
    + rewrite Hl in Hcn. injection Hcn as <-. exists n'. rewrite lookup_insert_eq, Hnm.
      split_and!; [done..|]. destruct Hor as [[-> ->]|(_ & -> & ->)]; auto.
    + exists cn. by rewrite lookup_insert_ne.
  - intros x xn p [[-> ->]|[_ Hx]]%update_inv; rewrite update_child; [rewrite Hnm|apply (tw_up _ _ Hwf); done].
    destruct Hor as [[-> ->]|(_ & -> & _)]; [|done]. by apply (tw_up _ _ Hwf).
  - intros l1 l2 n1 n2 c. rewrite !update_child. apply (tw_holder _ _ Hwf).
Qed.
End update.

(** ** Resolution and [Path] *)

Lemma tree_parents_older r h : tree_wf r h -> parents_older h.
Proof.
  intros Hwf l n Hn. split; [by eapply tw_inode|]. intros p Hp.
  destruct (tw_up _ _ Hwf _ _ _ Hn Hp) as [_ Hc].
  destruct (tw_down _ _ Hwf _ _ _ Hc) as [? _]. split; [done | by eapply child_dom].
Qed.

Lemma root_top r h n :
  tree_wf r h -> h_nodes h !! r = Some n -> top_result h n = Some ("", None).
Proof.
  intros Hwf Hn. destruct (tw_root _ _ Hwf) as (n' & ino & Hn' & Hp & _ & Hi & Hino).
  rewrite Hn in Hn'. injection Hn' as <-. unfold top_result. rewrite Hp, Hi.
  rewrite decide_True; [done|]. cbn. by rewrite Hino.
Qed.

Lemma parent_top r h l n p :
  tree_wf r h -> h_nodes h !! l = Some n -> n_parent n = Some p -> top_result h n = None.
Proof.
  intros Hwf Hn Hp. destruct (tw_up _ _ Hwf _ _ _ Hn Hp) as [Hd _].
  unfold top_result. by rewrite Hp, Hd.
Qed.

(** What resolves from the root has the names joined as its path. *)
Lemma walk_path_rel r h names l :
  tree_wf r h -> live h -> walk h r names = Some l ->
  path_rel h l (join_path names, None) (length names).
Proof.
  intros Hwf Hlive. revert l. induction names as [|name names IH] using rev_ind; intros l.
  - intros [= <-]. destruct (root_dom _ _ Hwf) as [n Hn].
    eapply path_top; [done | by eapply tw_inode | by eapply root_top].
  - intros (y & Hy & Hc)%walk_snoc. specialize (IH y Hy).
    destruct (tw_down _ _ Hwf _ _ _ Hc) as (_ & _ & cn & Hcn & <- & [Hpar|[Hd _]]).
    2:{ by rewrite (Hlive _ _ Hcn) in Hd. }
    unfold join_path in *. rewrite foldl_snoc, length_app, Nat.add_1_r.
    eapply path_up; [done | by eapply parent_top | done | done].
Qed.

(** And a node whose path is computed without an error resolves to itself,
    when its ancestors are the root's descendants with proper names. *)
Lemma path_rel_walk r h l s d :
  tree_wf r h ->
  (forall i j a b, h_inodes h !! i = Some a -> h_inodes h !! j = Some b ->
     Ino (i_attr a) = Ino (i_attr b) -> i = j) ->
  (forall x name c, child h x name = Some c -> name <> "") ->
  path_rel h l (s, None) d -> walk h r (components s) = Some l.
Proof.
  intros Hwf Hino Hname Hp. remember (s, @None GoError) as res eqn:E. revert s E.
  induction Hp as [l n res Hn Hi Ht|l n p s e d Hn Ht Hpar Hp IH]; intros s' E; subst.
  - destruct (tw_root _ _ Hwf) as (rn & rino & Hrn & _ & _ & Hri & Hr1).
    destruct Hi as [ino Hi]. unfold top_result in Ht. rewrite Hi in Ht.
    destruct (n_parent n); [by destruct (n_isDel n)|].
    case_decide as H1; [|by destruct (n_isDel n)]. injection Ht as <-. injection H1 as H1.
    assert (n_inode n = n_inode rn) as Hsame by (eapply Hino; [done..|]; congruence).
    by rewrite (tw_inj _ _ Hwf _ _ _ _ Hn Hrn Hsame).
  - injection E as <- ->. specialize (IH s eq_refl).
    destruct (tw_up _ _ Hwf _ _ _ Hn Hpar) as [_ Hc].
    destruct (tw_down _ _ Hwf _ _ _ Hc) as (_ & Hs & _).
    rewrite components_join by (split; [by eapply Hname | done]).
    apply walk_snoc. by exists p.
Qed.
End tree.

(** ** Linking a new node *)

Section attach.
Context {X : XSync} `{!XSyncLaws} {W A : Type}.
Implicit Types (h : heap W A) (l r c cur : loc) (n : Node) (ino : Inode A) (names : list string).

Definition fresh_node (name : string) (i : loc) : Node := mkNode name None 0 NewMap false i.

(** The heap once a new inode and a new node have been allocated, one after
    the other, and the node linked below [cur]. *)
Definition attached cur n (name : string) (a : Attr) (adapters : list A) h : heap W A :=
  let i := h_next h in let c := S i in
  mkHeap (<[c := set_parent (Some cur) (fresh_node name i)]>
            (<[cur := linked name c n]> (h_nodes h)))
         (<[i := addHardLinkLocked c (NewInode a adapters)]> (h_inodes h))
         (S c) (h_tasks h) (h_locks h) (h_world h).

Lemma NewNode_run h i ino name :
  h_inodes h !! i = Some ino -> h_locks h !! InodeMu i = None ->
  NewNode name (Some i) h
  = Ret (Ok (h_next h),
         mkHeap (<[h_next h := fresh_node name i]> (h_nodes h))
                (<[i := addHardLinkLocked (h_next h) ino]> (h_inodes h))
                (S (h_next h)) (h_tasks h) (h_locks h) (h_world h)).
Proof.
  intros Hi Hl. unfold NewNode. rewrite (bind_run _ _ _ _ _ (eq_refl : alloc_node _ h = Ret _)).
  by erewrite bind_run by (apply (AddHardLink_run _ i ino); done).
Qed.

(** [NewNode] and then [AddChild], on the inode allocated last. *)
Lemma link_run h r cur n name a adapters tasks :
  tree_wf r h -> locks_fresh h -> h_nodes h !! cur = Some n -> child h cur name = None ->
  let h0 := mkHeap (h_nodes h) (<[h_next h := NewInode a adapters]> (h_inodes h)) (S (h_next h))
              tasks (h_locks h) (h_world h) in
  exists h1, NewNode name (Some (h_next h)) h0 = Ret (Ok (S (h_next h)), h1) /\
    AddChild cur (S (h_next h)) h1
    = Ret (tt, set_tasks tasks (attached cur n name a adapters h)).
Proof.
  intros Hwf Hlk Hn Hfree h0. rewrite (child_spec _ _ _ _ Hn) in Hfree.
  destruct (Hlk (h_next h) ltac:(lia)) as [_ Hli].
  destruct (Hlk (S (h_next h)) ltac:(lia)) as [Hlc _].
  assert (Hne : cur <> S (h_next h)).
  { intros ->. destruct (tw_fresh _ _ Hwf (S (h_next h)) ltac:(lia)). congruence. }
  eexists. split; [apply NewNode_run; [apply lookup_insert_eq | exact Hli]|].
  rewrite (AddChild_run_fresh _ cur _ n (fresh_node name (h_next h))); cbn; try done.
  - unfold set_nodes, set_tasks, attached. cbn. do 3 f_equal.
    + rewrite (insert_insert_ne _ cur) by done. by rewrite insert_insert_eq.
    + by rewrite insert_insert_eq.
  - by rewrite lookup_insert_ne.
  - by rewrite lookup_insert_eq.
Qed.

Section attached.
Context (r cur : loc) (n : Node) (name : string) (a : Attr) (adapters : list A) (h : heap W A).
Hypothesis (Hwf : tree_wf r h) (Hcur : h_nodes h !! cur = Some n).
Hypothesis (Hfree : child h cur name = None).
Abbreviation h' := (attached cur n name a adapters h).
Abbreviation new := (S (h_next h)).

Lemma cur_lt : (cur < h_next h)%nat.
Proof.
  destruct (decide (cur < h_next h)%nat); [done|].
  destruct (tw_fresh _ _ Hwf cur ltac:(lia)). congruence.
Qed.

Lemma attached_lookup_new :
  h_nodes h' !! new = Some (mkNode name (Some cur) 0 NewMap false (h_next h)).
Proof. cbn. by rewrite lookup_insert_eq. Qed.

Lemma attached_lookup_cur : h_nodes h' !! cur = Some (linked name new n).
Proof. pose proof cur_lt. cbn. rewrite lookup_insert_ne, lookup_insert_eq by lia. done. Qed.

Lemma attached_lookup l : l <> new -> l <> cur -> h_nodes h' !! l = h_nodes h !! l.
Proof. intros. cbn. by rewrite !lookup_insert_ne. Qed.

(** Every node there was is still there, with only [cur]'s map changed. *)
Lemma attached_old l ln :
  h_nodes h !! l = Some ln ->
  exists m, h_nodes h' !! l = Some (set_children m ln) /\
    (l < h_next h)%nat /\ (l <> cur -> m = n_children ln).
Proof.
  intros Hl. assert (Hlt : (l < h_next h)%nat).
  { destruct (decide (l < h_next h)%nat); [done|].
    destruct (tw_fresh _ _ Hwf l ltac:(lia)). congruence. }
  destruct (decide (l = cur)) as [->|Hne].
  - rewrite Hcur in Hl. injection Hl as <-. eexists. rewrite attached_lookup_cur.
    split; [reflexivity | done].
  - exists (n_children ln). rewrite attached_lookup by lia. by destruct ln.
Qed.

Lemma attached_inv l ln :
  h_nodes h' !! l = Some ln ->
  l = new /\ ln = mkNode name (Some cur) 0 NewMap false (h_next h) \/
  (l < h_next h)%nat /\ exists ln0, h_nodes h !! l = Some ln0 /\ ln = set_children (n_children ln) ln0.
Proof.
  intros Hl. destruct (decide (l = new)) as [->|Hne].
  { left. rewrite attached_lookup_new in Hl. split; congruence. }
  right. destruct (h_nodes h !! l) as [ln0|] eqn:E.
  - destruct (attached_old _ _ E) as (m & E' & Hlt & _). split; [done|].
    exists ln0. rewrite Hl in E'. injection E' as ->. done.
  - destruct (decide (l = cur)) as [->|Hc]; [congruence|].
    rewrite attached_lookup in Hl by done. congruence.
Qed.

Lemma attached_child l nm x :
  child h' l nm = Some x <->
  child h l nm = Some x \/ (l = cur /\ nm = name /\ x = new).
Proof.
  unfold child. destruct (decide (l = new)) as [->|Hne].
  { rewrite attached_lookup_new. cbn. rewrite Load_NewMap.
    destruct (tw_fresh _ _ Hwf new ltac:(lia)) as [-> _]. cbn.
    pose proof cur_lt. split; [done|]. intros [?|(? & _)]; [done|lia]. }
  destruct (decide (l = cur)) as [->|Hc].
  - rewrite attached_lookup_cur, Hcur. cbn. rewrite (child_spec _ _ _ _ Hcur) in Hfree.
    destruct (decide (name = nm)) as [->|Hn].
    + rewrite Load_Store_eq, Hfree. split; [intros [= <-]; auto | intros [?|(_ & _ & ->)]; done].
    + rewrite Load_Store_ne, Load_Delete_ne by done. split; [auto|]. intros [?|(_ & ? & _)]; congruence.
  - rewrite attached_lookup by done. split; [auto|]. by intros [?|(? & _)].
Qed.

Lemma attached_inode i ino : h_inodes h !! i = Some ino -> h_inodes h' !! i = Some ino.
Proof.
  intros Hi. cbn. rewrite lookup_insert_ne; [done|]. intros <-.
  destruct (tw_fresh _ _ Hwf (h_next h) ltac:(lia)). congruence.
Qed.

Lemma attached_tree_wf : has_slash name = false -> tree_wf r h'.
Proof.
  intros Hs. pose proof cur_lt as Hlt. split.
  - destruct (tw_root _ _ Hwf) as (rn & ino & Hrn & Hp & Hd & Hi & H1).
    destruct (attached_old _ _ Hrn) as (m & Hrn' & _). eexists _, ino.
    split; [exact Hrn'|]. split_and!; [done | done | by apply attached_inode | done].
  - intros l ln [[-> ->]|(_ & ln0 & H0 & ->)]%attached_inv; cbn [n_inode set_children].
    + eexists. cbn. by rewrite lookup_insert_eq.
    + destruct (tw_inode _ _ Hwf _ _ H0) as [ino Hi]. exists ino. by apply attached_inode.
  - assert (Hnew : forall l ln, h_nodes h !! l = Some ln -> n_inode ln <> h_next h).
    { intros l ln Hl E. destruct (tw_inode _ _ Hwf _ _ Hl) as [ino Hi]. rewrite E in Hi.
      destruct (tw_fresh _ _ Hwf (h_next h) ltac:(lia)). congruence. }
    intros l1 l2 n1 n2 [[-> ->]|(_ & m1 & H1 & ->)]%attached_inv
      [[-> ->]|(_ & m2 & H2 & ->)]%attached_inv; cbn [n_inode set_children]; intros E.
    + done.
    + by destruct (Hnew _ _ H2).
    + by destruct (Hnew _ _ H1).
    + by eapply (tw_inj _ _ Hwf).
  - cbn. intros l Hl. destruct (tw_fresh _ _ Hwf l ltac:(lia)).
    rewrite !lookup_insert_ne by lia. done.
  - intros l nm x [Hc|(-> & -> & ->)]%attached_child.
    + destruct (tw_down _ _ Hwf _ _ _ Hc) as (? & ? & cn & Hcn & Hnm & Hor).
      split_and!; [done..|]. destruct (attached_old _ _ Hcn) as (m & Hcn' & _).
      eexists. split; [exact Hcn'|]. by split.
    + split_and!; [lia | done |]. eexists. split; [apply attached_lookup_new|]. split; [done|].
      by left.
  - intros x xn l [[-> ->]|(_ & m & Hm & ->)]%attached_inv; cbn; intros Hp.
    + injection Hp as <-. split; [done|]. apply attached_child. auto.
    + destruct (tw_up _ _ Hwf _ _ _ Hm Hp) as [? ?]. split; [done|]. apply attached_child. auto.
  - intros l1 l2 nm1 nm2 x [H1|(-> & -> & ->)]%attached_child
      [H2|(-> & -> & E)]%attached_child; [by eapply (tw_holder _ _ Hwf)| | |done].
    + subst x. apply (tw_down _ _ Hwf) in H1 as (_ & _ & cn & Hcn & _).
      destruct (tw_fresh _ _ Hwf new ltac:(lia)). congruence.
    + apply (tw_down _ _ Hwf) in H2 as (_ & _ & cn & Hcn & _).
      destruct (tw_fresh _ _ Hwf new ltac:(lia)). congruence.
Qed.

(** Nothing that resolved resolves differently. *)
Lemma attached_walk_mono l p x : walk h l p = Some x -> walk h' l p = Some x.
Proof.
  revert l. induction p as [|nm p IH]; intros l; cbn; [done|].
  intros (c & Hc & Hx)%bind_Some.
  rewrite (proj2 (attached_child l nm c) (or_introl Hc)). by apply IH.
Qed.

(** The only new path is the one of the new node. *)
Lemma attached_walk_inv base p x :
  walk h r base = Some cur -> walk h' r p = Some x ->
  walk h r p = Some x \/ p = base ++ [name] /\ x = new.
Proof.
  intros Hbase. revert x. induction p as [|nm p IH] using rev_ind; intros x; [by left|].
  intros (y & Hy & Hx)%walk_snoc. apply attached_child in Hx. destruct (IH y Hy) as [Hw|[-> ->]].
  - destruct Hx as [Hx|(-> & -> & ->)].
    + left. apply walk_snoc. by exists y.
    + right. by rewrite (walk_inj r h p base cur).
  - exfalso. pose proof cur_lt. destruct Hx as [Hx|(? & _)]; [|lia].
    apply child_dom in Hx as [? Hx]. destruct (tw_fresh _ _ Hwf new ltac:(lia)). congruence.
Qed.

Lemma attached_new_empty nm : child h' new nm = None.
Proof. unfold child. rewrite attached_lookup_new. cbn. apply Load_NewMap. Qed.

Lemma attached_locks_fresh : locks_fresh h -> locks_fresh h'.
Proof. intros Hl l. cbn. intros ?. apply Hl. lia. Qed.

Lemma attached_live : live h -> live h'.
Proof.
  intros Hl l ln [[-> ->]|(_ & m & Hm & ->)]%attached_inv; [done|]. cbn. by eapply Hl.
Qed.
End attached.

(** Unlinking a child: its name is free, and nobody holds it any more. *)
Section unlink.
Context (r l c : loc) (n cn : Node) (name : string) (h : heap W A).
Hypothesis (Hwf : tree_wf r h) (Hl : h_nodes h !! l = Some n).
Hypothesis (Hc : child h l name = Some c) (Hcn : h_nodes h !! c = Some cn).
Abbreviation h' := (set_nodes (<[c := set_parent None cn]>
  (<[l := set_children (Delete (n_children n) name) n]> (h_nodes h))) h).

Lemma unlink_inv x xn :
  h_nodes h' !! x = Some xn ->
  exists xn0, h_nodes h !! x = Some xn0 /\ n_inode xn = n_inode xn0 /\ n_name xn = n_name xn0 /\
    n_isDel xn = n_isDel xn0 /\ (n_parent xn = n_parent xn0 /\ x <> c \/ n_parent xn = None /\ x = c).
Proof.
  cbn. intros [[<- <-]|[Hx [[<- <-]|[? ?]]%lookup_insert_Some]]%lookup_insert_Some.
  - exists cn. split_and!; auto.
  - exists n. split_and!; auto.
  - exists xn. split_and!; auto.
Qed.

Lemma unlink_dom x xn0 : h_nodes h !! x = Some xn0 -> is_Some (h_nodes h' !! x).
Proof.
  cbn. intros Hx. destruct (decide (c = x)) as [<-|?]; [rewrite lookup_insert_eq; by eexists|].
  rewrite lookup_insert_ne by done.
  destruct (decide (l = x)) as [<-|?]; [rewrite lookup_insert_eq; by eexists|].
  rewrite lookup_insert_ne by done. by eexists.
Qed.

Lemma unlink_load x nm :
  child h' x nm = if decide (x = l /\ nm = name) then None else child h x nm.
Proof.
  destruct (tw_down _ _ Hwf _ _ _ Hc) as (Hlt & _).
  unfold child. cbn. destruct (decide (c = x)) as [<-|?].
  - rewrite lookup_insert_eq, Hcn, decide_False by (intros [? _]; lia). done.
  - rewrite lookup_insert_ne by done. destruct (decide (l = x)) as [<-|?].
    + rewrite lookup_insert_eq, Hl. cbn. rewrite Load_Delete.
      case_decide as H1; case_decide as H2; [done | | |done]; exfalso; naive_solver.
    + rewrite lookup_insert_ne, decide_False by naive_solver. done.
Qed.

Lemma unlink_child x nm y : child h' x nm = Some y <-> child h x nm = Some y /\ y <> c.
Proof.
  rewrite unlink_load. case_decide as Hd.
  - destruct Hd as [-> ->]. rewrite Hc. split; [done|]. by intros [[= ->] ?].
  - split; [|by intros [? _]]. intros E. split; [done|]. intros ->. apply Hd.
    split; [by eapply (tw_holder _ _ Hwf)|].
    destruct (tw_down _ _ Hwf _ _ _ E) as (_ & _ & ? & ? & <- & _).
    destruct (tw_down _ _ Hwf _ _ _ Hc) as (_ & _ & ? & ? & <- & _). congruence.
Qed.

Lemma unlink_tree_wf : tree_wf r h'.
Proof.
  split.
  - destruct (tw_root _ _ Hwf) as (rn & ino & Hrn & Hp & Hd & Hi & H1).
    destruct (unlink_dom _ _ Hrn) as [xn Hx]. exists xn, ino.
    destruct (unlink_inv _ _ Hx) as (xn0 & Hx0 & -> & _ & -> & Hpar).
    rewrite Hrn in Hx0. injection Hx0 as <-.
    split_and!; try done. destruct Hpar as [[-> _]|[-> _]]; done.
  - intros x xn Hx. destruct (unlink_inv _ _ Hx) as (xn0 & Hx0 & -> & _). by eapply (tw_inode _ _ Hwf).
  - intros l1 l2 n1 n2 (m1 & H1 & -> & _)%unlink_inv (m2 & H2 & -> & _)%unlink_inv.
    by eapply (tw_inj _ _ Hwf).
  - intros x Hx. destruct (tw_fresh _ _ Hwf x Hx). split; [|done]. cbn.
    rewrite !lookup_insert_ne; [done|..]; congruence.
  - intros x nm y [Hy Hne]%unlink_child.
    destruct (tw_down _ _ Hwf _ _ _ Hy) as (? & ? & yn & Hyn & Hnm & Hpar).
    split_and!; [done..|]. destruct (unlink_dom _ _ Hyn) as [yn' Hyn']. exists yn'. split; [done|].
    destruct (unlink_inv _ _ Hyn') as (yn0 & Hy0 & _ & -> & -> & [[-> _]|[_ ->]]); [|done].
    rewrite Hyn in Hy0. injection Hy0 as <-. by split.
  - intros x xn p (xn0 & Hx0 & _ & -> & -> & [[-> Hne]|[-> _]])%unlink_inv; [|done]. intros Hp.
    destruct (tw_up _ _ Hwf _ _ _ Hx0 Hp). split; [done|]. by apply unlink_child.
  - intros l1 l2 nm1 nm2 y [H1 _]%unlink_child [H2 _]%unlink_child. by eapply (tw_holder _ _ Hwf).
Qed.
End unlink.
End attach.
