(* ===== verification/FileSystem.v ===== *)
(** The filesystem (src/filesystem/fs.go, src/filesystem/consts.go): the node
    tree behind the counters and the registry of node identifiers. Data and
    operations; FileSystemSpec.v has the invariant and the theorems. *)

From S2P Require Import Prelude Config Paths Request XSync DataCache AdapterPool Inode Heap.
From S2P Require Import Node NodeContext.

(** ** Constants *)

Definition FUSE_ROOT_ID : Z := 1.
Definition S_IFDIR : Z := 16384.    (* 0o040000 *)
Definition S_IFREG : Z := 32768.    (* 0o100000 *)
Definition S_IFLNK : Z := 40960.    (* 0o120000 *)
Definition S_IFSOCK : Z := 49152.   (* 0o140000 *)
Definition S_IFMT : Z := 61440.     (* 0o170000 *)

(** consts.go *)
Definition DirAttr : Z := S_IFDIR.
Definition FileAttr : Z := S_IFREG.
Definition SymlinkAttr : Z := S_IFLNK.
Definition SockAttr : Z := S_IFSOCK.

(** The user the process runs as ([os.Getuid], [os.Getgid]; -1 where the
    system has none). *)
Class Process := { Getuid : Z; Getgid : Z }.

(** ** State *)

(** The fields of [FileSystem], with the heap its pointers point into. *)
Record FileSystem {X : XSync} {W A : Type} := mkFS {
  fs_cfg : Config;
  root : loc;
  lastIno : Z;                       (* uint64 *)
  lastNodeID : Z;                    (* uint64 *)
  nodeRegistry : XMap Z loc;
  fs_heap : heap W A
}.
Arguments FileSystem {X} W A.
Arguments mkFS {X W A} _ _ _ _ _ _.

Section fs_ops.
Context {X : XSync} {W A P : Type} {FL : FuseLib} {OS : Process}.
Context {clk : Clock W} {FA : FileAdapterOps W A} {AP : AdapterProvider W P A}.
Abbreviation M := (GoM (FileSystem W A)).
Implicit Types (s : FileSystem W A).

Definition put_heap (h : heap W A) s : FileSystem W A :=
  mkFS (fs_cfg s) (root s) (lastIno s) (lastNodeID s) (nodeRegistry s) h.
Definition put_lastIno (n : Z) s : FileSystem W A :=
  mkFS (fs_cfg s) (root s) n (lastNodeID s) (nodeRegistry s) (fs_heap s).
Definition put_lastNodeID (n : Z) s : FileSystem W A :=
  mkFS (fs_cfg s) (root s) (lastIno s) n (nodeRegistry s) (fs_heap s).
Definition put_registry (r : XMap Z loc) s : FileSystem W A :=
  mkFS (fs_cfg s) (root s) (lastIno s) (lastNodeID s) r (fs_heap s).

(** Code that only touches the heap. *)
Definition on_heap {B} (m : GoM (heap W A) B) : M B := zoom fs_heap put_heap m.

(** [fs.lastIno.Add(1)], [fs.lastNodeID.Add(1)] *)
Definition next_ino : M Z := fun s =>
  let n := lastIno s +u 1 in Ret (n, put_lastIno n s).
Definition next_nodeID : M Z := fun s =>
  let n := lastNodeID s +u 1 in Ret (n, put_lastNodeID n s).

(** ** Creation *)

(** [now.Unix()] and [now.Nanosecond()] of the one reading of the clock. *)
Definition newDefaultAttr (ino : Z) : GoM (heap W A) Attr := fun h =>
  let '(now, h) := time_now h in
  let sec := u64 (now / Second) in
  let nsec := now mod Second in
  Ret ({| Ino := ino; Size := 0; Blocks := 0; Atime := sec; Mtime := sec; Ctime := sec;
          Atimensec := nsec; Mtimensec := nsec; Ctimensec := nsec; Mode := 0; Nlink := 1;
          Uid := u32 Getuid; Gid := u32 Getgid; Rdev := 0; Blksize := 4096; Padding := 0 |}, h).

(** r-xr-xr-x is 0o555 = 365. *)
Definition NewFS (cfg : Config) : GoM (heap W A) (FileSystem W A) :=
  rootAttr ← newDefaultAttr FUSE_ROOT_ID;
  let rootAttr := set_Mode (Z.lor S_IFDIR 365) rootAttr in
  rootInode ← new_inode rootAttr [];
  res ← NewNode "" (Some rootInode);
  match res with
  | Err _ => go_panic
  | Ok rootNode =>
      update_node rootNode (set_nodeID FUSE_ROOT_ID);;
      h ← get_state;
      mret {| fs_cfg := cfg; root := rootNode; lastIno := FUSE_ROOT_ID;
              lastNodeID := FUSE_ROOT_ID;
              nodeRegistry := Store NewMap FUSE_ROOT_ID rootNode; fs_heap := h |}
  end.

Definition RootCtx : M NodeContext :=
  s ← get_state; on_heap (NewNodeContext (root s)).

(** The body of the loop of [AddDirNode] for a name that is not there. *)
Definition make_dir (req : NodeRequest) (cur : loc) (name : string) : M (result loc) :=
  ino ← next_ino;
  attr ← on_heap (newDefaultAttr ino);
  let attr := set_Mode (Z.lor DirAttr (rq_Perms req)) attr in
  let attr := SetTimes attr (Some (rq_Atime req)) (Some (rq_Mtime req)) (Some (rq_Ctime req)) in
  let attr := set_Owner (rq_OwnerUID req) (rq_OwnerGID req) attr in
  let attr := set_Size 0 attr in
  inode ← on_heap (new_inode attr []);
  res ← on_heap (NewNode name (Some inode));
  match res with
  | Err e => mret (Err (ErrCreateNode e))
  | Ok node => on_heap (AddChild cur node);; mret (Ok node)
  end.

Fixpoint dir_loop (req : NodeRequest) (names : list string) (cur : loc) : M (result loc) :=
  match names with
  | [] => mret (Ok cur)
  | name :: names' =>
      if decide (name = "") then dir_loop req names' cur
      else
        child ← on_heap (GetChild cur name);
        match child with
        | Some c => dir_loop req names' c
        | None =>
            res ← make_dir req cur name;
            match res with
            | Err e => mret (Err e)
            | Ok node => dir_loop req names' node
            end
        end
  end.

(** The final [CopyAttr] is for the log line, but takes the leaf's mutex. *)
Definition AddDirNode (req : DirCreateRequest) : M (result loc) :=
  s ← get_state;
  res ← dir_loop (dr_node req) (split_slash (rq_Path (dr_node req))) (root s);
  match res with
  | Err e => mret (Err e)
  | Ok cur =>
      i ← on_heap (node_Inode cur);
      on_heap (CopyAttr i);;
      mret (Ok cur)
  end.

(** [source.Adapter()] for every source; those that fail are logged and left
    out. *)
Fixpoint build_adapters (sources : list (FileSource P)) : GoM (heap W A) (list A) :=
  match sources with
  | [] => mret []
  | source :: sources' => fun h =>
      let '(r, w) := source_Adapter source (h_world h) in
      (adapters ← build_adapters sources';
       mret (match r with Ok a => a :: adapters | Err _ => adapters end)) (set_world w h)
  end.

Definition AddFileNode (req : FileCreateRequest P) : M (result loc) :=
  s ← get_state;
  let '(dirPath, name) := path_Split (rq_Path (fr_node req)) in
  pres ← (if decide (dirPath <> "")
          then AddDirNode {| dr_node := with_path dirPath (fr_node req) |}
          else mret (Ok (root s)));
  match pres with
  | Err e => mret (Err e)
  | Ok parent =>
      existing ← on_heap (GetChild parent name);
      match existing with
      | Some _ => mret (Err (ErrFileExists (rq_Path (fr_node req))))
      | None =>
          ino ← next_ino;
          attr ← on_heap (newDefaultAttr ino);
          let attr := set_Mode (Z.lor FileAttr (rq_Perms (fr_node req))) attr in
          adapters ← on_heap (build_adapters (Sources req));
          match adapters with
          | [] => mret (Err ErrNoValidAdapters)
          | _ =>
              inode ← on_heap (new_inode attr adapters);
              on_heap (RefreshMeta inode);;
              res ← on_heap (NewNode name (Some inode));
              match res with
              | Err e => mret (Err (ErrCreateNode e))
              | Ok node => on_heap (AddChild parent node);; mret (Ok node)
              end
          end
      end
  end.

(** ** The registry *)

Definition registry_Load (id : Z) : M (option loc) :=
  s ← get_state; mret (Load (nodeRegistry s) id).

Definition GetNodeCtx (nodeID : Z) : M (option (NodeContext (W := W) (A := A))) :=
  node ← registry_Load nodeID;
  match node with
  | Some l => ctx ← on_heap (NewNodeContext l); mret (Some ctx)
  | None => mret None
  end.

(** The deferred [node.Close()] runs on a nil context too. *)
Definition ForgetNodeID (id : Z) : M unit :=
  node ← GetNodeCtx id;
  match node with
  | None => on_heap (Close None);; mret tt
  | Some ctx =>
      modify (fun s => put_registry (Delete (nodeRegistry s) id) s);;
      on_heap (Close (Some ctx));; mret tt
  end.

(** [n.nodeID.CompareAndSwap(old, new)] *)
Definition cas_nodeID (l : loc) (old new : Z) : GoM (heap W A) bool :=
  n ← read_node l;
  if n_nodeID n =? old then update_node l (set_nodeID new);; mret true else mret false.

Definition EnsureNodeID (l : loc) : M Z :=
  id ← on_heap (NodeID l);
  if id =? 0 then
    newID ← next_nodeID;
    swapped ← on_heap (cas_nodeID l 0 newID);
    if swapped : bool then
      modify (fun s => put_registry (Store (nodeRegistry s) newID l) s);; mret newID
    else on_heap (NodeID l)
  else mret id.

Definition GetChildCtx (parentID : Z) (name : string) : M (option (NodeContext (W := W) (A := A))) :=
  parent ← registry_Load parentID;
  match parent with
  | None => mret None
  | Some p =>
      child ← on_heap (GetChild p name);
      match child with
      | Some c => EnsureNodeID c;; ctx ← on_heap (NewNodeContext c); mret (Some ctx)
      | None => mret None
      end
  end.

Definition fs_Read (ctx : Ctx W) (nodeID offset size : Z) : M (result bytes) :=
  nodeCtx ← GetNodeCtx nodeID;
  match nodeCtx with
  | None => mret (Err (ErrNodeNotFound nodeID))
  | Some c =>
      r ← on_heap (ctx_Read c ctx offset size);
      on_heap (Close (Some c));;
      mret r
  end.
End fs_ops.
