(* ===== verification/FileSystemSpec.v ===== *)
(** The invariant of the filesystem, that every operation keeps it, and the
    functional behaviour of the operations of FileSystem.v. *)

From S2P Require Import Prelude Config Paths Request XSync DataCache AdapterPool Inode Heap.
From S2P Require Import Node NodeContext Tree FileSystem.

(** ** Changes of the heap that the tree does not see *)

Section tree_ext.
Context {X : XSync} {W A : Type}.
Implicit Types (h : heap W A).

Definition ino_at h (i : loc) : option Z := Ino ∘ i_attr <$> h_inodes h !! i.

(** Same nodes, same inode numbers, same allocation pointer. *)
Record same_tree h h' : Prop := {
  st_nodes : h_nodes h' = h_nodes h;
  st_inos i : ino_at h' i = ino_at h i;
  st_next : h_next h' = h_next h
}.

#[export] Instance same_tree_equivalence : Equivalence same_tree.
Proof.
  split.
  - intros h. by split.
  - intros h1 h2 [E1 E2 E3]. split; [done | by intros i; rewrite E2 | done].
  - intros h1 h2 h3 [E1 E2 E3] [F1 F2 F3]. split; [congruence | | congruence].
    intros i. by rewrite F2.
Qed.

Lemma ino_at_some h i z : ino_at h i = Some z <-> exists ino, h_inodes h !! i = Some ino /\ Ino (i_attr ino) = z.
Proof.
  unfold ino_at. rewrite fmap_Some. split; intros (ino & ? & E); exists ino; by rewrite ?E.
Qed.

Lemma ino_at_dom h h' i :
  ino_at h' i = ino_at h i -> is_Some (h_inodes h !! i) -> is_Some (h_inodes h' !! i).
Proof.
  unfold ino_at. intros E [ino Hi]. rewrite Hi in E.
  destruct (h_inodes h' !! i); [by eexists | done].
Qed.

Lemma child_same h h' l name : h_nodes h' = h_nodes h -> child h' l name = child h l name.
Proof. intros E. unfold child. by rewrite E. Qed.

Lemma walk_same h h' l names : h_nodes h' = h_nodes h -> walk h' l names = walk h l names.
Proof.
  intros E. revert l. induction names as [|name names IH]; intros l; [done|]. cbn.
  rewrite (child_same h h') by done. destruct (child h l name); cbn; [apply IH | done].
Qed.

Lemma tree_wf_same r h h' : same_tree h h' -> tree_wf r h -> tree_wf r h'.
Proof.
  intros [En Ei Ex] Hwf.
  assert (Ec : forall l name, child h' l name = child h l name) by (intros; by apply child_same).
  split; rewrite ?En, ?Ex.
  - destruct (tw_root _ _ Hwf) as (n & ino & Hn & Hp & Hd & Hi & H1).
    destruct (ino_at_some h' (n_inode n) 1) as [(ino' & ? & ?) _].
    { rewrite Ei. apply ino_at_some. by exists ino. }
    by exists n, ino'.
  - intros l n Hn. apply (ino_at_dom h); [done|]. by eapply tw_inode.
  - apply (tw_inj _ _ Hwf).
  - intros l Hl. destruct (tw_fresh _ _ Hwf l Hl) as [? Hi]. split; [done|].
    specialize (Ei l). unfold ino_at in Ei. rewrite Hi in Ei. by destruct (h_inodes h' !! l).
  - intros l name c. rewrite Ec. apply (tw_down _ _ Hwf).
  - intros c cn l. rewrite Ec. apply (tw_up _ _ Hwf).
  - intros l1 l2 n1 n2 c. rewrite !Ec. apply (tw_holder _ _ Hwf).
Qed.

Lemma same_locks t h : same_tree h (set_locks t h).
Proof. by split. Qed.
Lemma same_tasks ts h : same_tree h (set_tasks ts h).
Proof. by split. Qed.
Lemma same_world w h : same_tree h (set_world w h).
Proof. by split. Qed.
End tree_ext.

#[export] Hint Resolve same_locks same_tasks same_world : webfs.

(** ** The invariant *)

Section fs_wf.
Context {X : XSync} `{!XSyncLaws} {W A : Type}.
Implicit Types (s : FileSystem W A) (h : heap W A) (l c cur : loc) (n : Node) (name : string).

Record fs_wf s : Prop := {
  fw_tree : tree_wf (root s) (fs_heap s);
  fw_ino i z : ino_at (fs_heap s) i = Some z -> 1 <= z <= lastIno s;
  fw_ino_inj i j z : ino_at (fs_heap s) i = Some z -> ino_at (fs_heap s) j = Some z -> i = j;
  fw_lastIno : in_u64 (lastIno s);
  fw_id l n : h_nodes (fs_heap s) !! l = Some n ->
    n_nodeID n = 0 \/ 1 <= n_nodeID n <= lastNodeID s;
  fw_id_inj l1 l2 n1 n2 : h_nodes (fs_heap s) !! l1 = Some n1 -> h_nodes (fs_heap s) !! l2 = Some n2 ->
    n_nodeID n1 = n_nodeID n2 -> n_nodeID n1 <> 0 -> l1 = l2;
  fw_reg id l : Load (nodeRegistry s) id = Some l ->
    id <> 0 /\ exists n, h_nodes (fs_heap s) !! l = Some n /\ n_nodeID n = id;
  fw_lastID : in_u64 (lastNodeID s)
}.

Lemma fs_wf_same s h : same_tree (fs_heap s) h -> fs_wf s -> fs_wf (put_heap h s).
Proof.
  intros Hst Hwf. pose proof Hst as [En Ei Ex].
  split; cbn [fs_heap put_heap root lastIno lastNodeID nodeRegistry]; rewrite ?En.
  - eapply tree_wf_same; [done | apply Hwf].
  - intros i z. rewrite Ei. apply (fw_ino _ Hwf).
  - intros i j z. rewrite !Ei. apply (fw_ino_inj _ Hwf).
  - apply Hwf.
  - apply (fw_id _ Hwf).
  - apply (fw_id_inj _ Hwf).
  - apply (fw_reg _ Hwf).
  - apply Hwf.
Qed.

(** The state once a node with the next inode number is linked below [cur]. *)
Definition fs_attached cur n name (a : Attr) (adapters : list A) (tasks : list loc) (w : W) s :
    FileSystem W A :=
  put_lastIno (lastIno s + 1)
    (put_heap (set_tasks tasks (attached cur n name a adapters (set_world w (fs_heap s)))) s).

Section fs_attached.
Context (cur : loc) (n : Node) (name : string) (a : Attr) (adapters : list A).
Context (tasks : list loc) (w : W) (s : FileSystem W A).
Hypothesis (Hwf : fs_wf s) (Hcur : h_nodes (fs_heap s) !! cur = Some n).
Hypothesis (Hfree : child (fs_heap s) cur name = None).
Hypothesis (Hino : Ino a = lastIno s + 1) (Hmax : lastIno s + 1 < 2 ^ 64).
Abbreviation s' := (fs_attached cur n name a adapters tasks w s).

Lemma fs_attached_ino i z :
  ino_at (fs_heap s') i = Some z ->
  i = h_next (fs_heap s) /\ z = lastIno s + 1 \/ ino_at (fs_heap s) i = Some z.
Proof.
  rewrite !ino_at_some. intros (ino & Hi & E). cbn in Hi.
  apply lookup_insert_Some in Hi as [[<- <-]|[_ Hi]].
  - left. split; [done|]. by rewrite <-E.
  - right. by exists ino.
Qed.

Lemma fs_attached_wf : has_slash name = false -> fs_wf s'.
Proof.
  intros Hs. pose proof (tree_wf_same _ _ _ (same_world w _) (fw_tree _ Hwf)) as Htw.
  pose proof (attached_inv (root s) cur n name a adapters _ Htw Hcur) as Hinv.
  destruct (fw_lastIno _ Hwf) as [Hl _].
  split; cbn [fs_heap root lastIno lastNodeID nodeRegistry fs_attached put_lastIno put_heap].
  - eapply tree_wf_same; [apply same_tasks|]. by apply attached_tree_wf.
  - intros i z [[-> ->]|Hi]%fs_attached_ino; [lia|]. apply (fw_ino _ Hwf) in Hi. lia.
  - intros i j z Hi Hj. apply fs_attached_ino in Hi as [[-> ->]|Hi], Hj as [[-> E]|Hj].
    + done.
    + apply (fw_ino _ Hwf) in Hj. lia.
    + subst z. apply (fw_ino _ Hwf) in Hi. lia.
    + by eapply (fw_ino_inj _ Hwf).
  - split; lia.
  - intros l ln [[-> ->]|(_ & m & Hm & ->)]%Hinv; [by left|]. cbn. by apply (fw_id _ Hwf l).
  - intros l1 l2 n1 n2 [[-> ->]|(_ & m1 & H1 & ->)]%Hinv [[-> ->]|(_ & m2 & H2 & ->)]%Hinv;
      cbn; intros E Hne; [done..|].
    by eapply (fw_id_inj _ Hwf).
  - intros id l Hid. destruct (fw_reg _ Hwf _ _ Hid) as (? & ln & Hl' & E). split; [done|].
    destruct (attached_old (root s) cur n name a adapters _ Htw Hcur l ln Hl') as (m & ? & _).
    eexists. split; [done|]. done.
  - apply Hwf.
Qed.

Lemma fs_attached_tree : tree_wf (root s) (set_world w (fs_heap s)).
Proof. eapply tree_wf_same; [apply same_world | apply Hwf]. Qed.

Lemma fs_attached_old l ln :
  h_nodes (fs_heap s) !! l = Some ln ->
  exists m, h_nodes (fs_heap s') !! l = Some (set_children m ln).
Proof.
  intros Hl. destruct (attached_old _ cur n name a adapters _ fs_attached_tree Hcur l ln Hl)
    as (m & ? & _). by exists m.
Qed.

Lemma fs_attached_inode i ino :
  h_inodes (fs_heap s) !! i = Some ino -> h_inodes (fs_heap s') !! i = Some ino.
Proof. apply (attached_inode _ cur n name a adapters _ fs_attached_tree). Qed.

Lemma fs_attached_node l ln :
  h_nodes (fs_heap s') !! l = Some ln ->
  l = S (h_next (fs_heap s)) /\ ln = mkNode name (Some cur) 0 NewMap false (h_next (fs_heap s)) \/
  (l < h_next (fs_heap s))%nat /\
    exists ln0, h_nodes (fs_heap s) !! l = Some ln0 /\ ln = set_children (n_children ln) ln0.
Proof. apply (attached_inv _ cur n name a adapters _ fs_attached_tree Hcur). Qed.

Lemma fs_attached_child l nm x :
  child (fs_heap s') l nm = Some x <->
  child (fs_heap s) l nm = Some x \/ (l = cur /\ nm = name /\ x = S (h_next (fs_heap s))).
Proof. apply (attached_child _ cur n name a adapters _ fs_attached_tree Hcur Hfree). Qed.

Lemma fs_attached_mono l p x :
  walk (fs_heap s) l p = Some x -> walk (fs_heap s') l p = Some x.
Proof.
  rewrite <-(walk_same (fs_heap s) (set_world w (fs_heap s)) l p eq_refl).
  intros Hw.
  rewrite (walk_same (attached cur n name a adapters (set_world w (fs_heap s))) (fs_heap s')) by done.
  by apply (attached_walk_mono _ cur n name a adapters _ fs_attached_tree Hcur Hfree).
Qed.

Lemma fs_attached_walk base p x :
  walk (fs_heap s) (root s) base = Some cur -> walk (fs_heap s') (root s) p = Some x ->
  walk (fs_heap s) (root s) p = Some x \/ p = base ++ [name] /\ x = S (h_next (fs_heap s)).
Proof.
  rewrite <-!(walk_same (fs_heap s) (set_world w (fs_heap s)) _ _ eq_refl).
  rewrite (walk_same (attached cur n name a adapters (set_world w (fs_heap s))) (fs_heap s')) by done.
  apply (attached_walk_inv _ cur n name a adapters _ fs_attached_tree Hcur Hfree).
Qed.
End fs_attached.
End fs_wf.

(** ** Creation of directories *)

Section mkdir.
Context {X : XSync} `{!XSyncLaws} {W A : Type} {FL : FuseLib} `{!FuseLibLaws} {OS : Process}.
Context {clk : Clock W}.
Implicit Types (s : FileSystem W A) (h : heap W A) (l c cur : loc) (n : Node) (name : string).
Implicit Types (names base : list string).

Lemma newDefaultAttr_run ino h :
  exists a w, newDefaultAttr ino h = Ret (a, set_world w h) /\
    Ino a = ino /\ Nlink a = 1 /\ Size a = 0 /\ Uid a = u32 Getuid /\ Gid a = u32 Getgid.
Proof.
  unfold newDefaultAttr, time_now, heap_clock. destruct (clk (h_world h)) as [now w].
  eexists _, w. by split_and!.
Qed.

Lemma next_ino_run s :
  fs_wf s -> lastIno s + 1 < 2 ^ 64 -> next_ino s = Ret (lastIno s + 1, put_lastIno (lastIno s + 1) s).
Proof.
  intros Hwf Hm. destruct (fw_lastIno _ Hwf). unfold next_ino.
  by rewrite u64_id by (unfold in_u64; lia).
Qed.

Lemma on_heap_run {B} (m : GoM (heap W A) B) s b h :
  m (fs_heap s) = Ret (b, h) -> on_heap m s = Ret (b, put_heap h s).
Proof. apply zoom_run. Qed.

Lemma put_heap_id s : put_heap (fs_heap s) s = s.
Proof. by destruct s. Qed.

(** What the attributes of a new directory are, before it is linked. *)
Definition new_dir_attr (req : NodeRequest) (a : Attr) : Prop :=
  Mode a = Z.lor DirAttr (rq_Perms req) /\ Uid a = rq_OwnerUID req /\ Gid a = rq_OwnerGID req /\
  Size a = 0 /\ Nlink a = 1.

(** A directory's node and inode, allocated but not linked yet. *)
Definition allocated (name : string) (a : Attr) (h : heap W A) : heap W A :=
  mkHeap (<[S (h_next h) := fresh_node name (h_next h)]> (h_nodes h))
    (<[h_next h := addHardLinkLocked (S (h_next h)) (NewInode a [])]> (h_inodes h))
    (S (S (h_next h))) (h_tasks h) (h_locks h) (h_world h).

(** Up to the link. *)
Lemma make_dir_alloc req cur name s :
  fs_wf s -> locks_fresh (fs_heap s) -> lastIno s + 1 < 2 ^ 64 ->
  exists a w, make_dir req cur name s
      = (on_heap (AddChild cur (S (h_next (fs_heap s))));; mret (Ok (S (h_next (fs_heap s)))))
          (put_heap (allocated name a (set_world w (fs_heap s))) (put_lastIno (lastIno s + 1) s)) /\
    Ino a = lastIno s + 1 /\ new_dir_attr req a.
Proof.
  intros Hwf Hlk Hm. unfold make_dir.
  rewrite (bind_run _ _ _ _ _ (next_ino_run s Hwf Hm)).
  destruct (newDefaultAttr_run (lastIno s + 1) (fs_heap s)) as (a0 & w & Ha & Hi & Hl & Hs & _).
  rewrite (bind_run _ _ _ _ _ (on_heap_run _ (put_lastIno _ s) _ _ Ha)). cbn zeta.
  pose proof (SetTimes_frame (set_Mode (Z.lor DirAttr (rq_Perms req)) a0) (Some (rq_Atime req))
    (Some (rq_Mtime req)) (Some (rq_Ctime req))) as Hfr. injection Hfr as F1 F2 F3 F4 F5 F6 F7 F8 F9 F10.
  set (a := set_Size 0 _). exists a, w.
  split.
  2:{ unfold new_dir_attr, a. cbn in *. split_and!; congruence. }
  rewrite (bind_run _ _ _ _ _ (on_heap_run _ _ _ _ (eq_refl : new_inode a [] _ = Ret _))).
  destruct (Hlk (h_next (fs_heap s)) ltac:(lia)) as [_ Hli].
  erewrite bind_run.
  2:{ apply on_heap_run. apply NewNode_run; [apply lookup_insert_eq | exact Hli]. }
  cbn. unfold allocated. cbn. by rewrite insert_insert_eq.
Qed.

Lemma make_dir_run req cur n name s :
  fs_wf s -> locks_fresh (fs_heap s) -> h_nodes (fs_heap s) !! cur = Some n ->
  child (fs_heap s) cur name = None -> lastIno s + 1 < 2 ^ 64 ->
  exists a w, make_dir req cur name s
      = Ret (Ok (S (h_next (fs_heap s))),
             fs_attached cur n name a [] (h_tasks (fs_heap s)) w s) /\
    Ino a = lastIno s + 1 /\ new_dir_attr req a.
Proof.
  intros Hwf Hlk Hn Hfree Hm. destruct (make_dir_alloc req cur name s Hwf Hlk Hm) as (a & w & -> & Hi & Ha).
  exists a, w. split; [|done].
  pose proof (tree_wf_same _ _ _ (same_world w _) (fw_tree _ Hwf)) as Htw.
  destruct (link_run (set_world w (fs_heap s)) (root s) cur n name a [] (h_tasks (fs_heap s))
    Htw Hlk Hn Hfree) as (h1 & E1 & E2).
  destruct (Hlk (h_next (fs_heap s)) ltac:(lia)) as [_ Hli].
  rewrite (NewNode_run _ _ (NewInode a []) name) in E1 by (first [apply lookup_insert_eq | exact Hli]).
  injection E1 as <-. cbn in E2. rewrite insert_insert_eq in E2.
  by erewrite bind_run by (apply on_heap_run; exact E2).
Qed.

(** The trace of [AddDirNode]: existing directories are entered, missing ones
    are made. *)
Inductive mkdirs (req : NodeRequest) : loc -> list string -> loc -> FileSystem W A -> FileSystem W A -> Prop :=
  | mkdirs_nil cur s : mkdirs req cur [] cur s s
  | mkdirs_found cur name names c l s s' :
      child (fs_heap s) cur name = Some c -> mkdirs req c names l s s' ->
      mkdirs req cur (name :: names) l s s'
  | mkdirs_new cur n name names l a w s s' :
      h_nodes (fs_heap s) !! cur = Some n -> child (fs_heap s) cur name = None ->
      has_slash name = false -> lastIno s + 1 < 2 ^ 64 ->
      Ino a = lastIno s + 1 -> new_dir_attr req a ->
      mkdirs req (S (h_next (fs_heap s))) names l
        (fs_attached cur n name a [] (h_tasks (fs_heap s)) w s) s' ->
      mkdirs req cur (name :: names) l s s'.

Lemma attached_missing cur n name a tasks w s names :
  missing (fs_heap (fs_attached cur n name a [] tasks w s)) (S (h_next (fs_heap s))) names = length names.
Proof. apply missing_empty. intros nm. apply (attached_new_empty cur n name a [] (set_world w (fs_heap s))). Qed.

Lemma dir_loop_run req names cur s :
  fs_wf s -> locks_fresh (fs_heap s) -> is_Some (h_nodes (fs_heap s) !! cur) ->
  Forall (fun nm => has_slash nm = false) names ->
  lastIno s + Z.of_nat (missing (fs_heap s) cur (List.filter nonempty names)) < 2 ^ 64 ->
  exists l s', dir_loop req names cur s = Ret (Ok l, s') /\
    mkdirs req cur (List.filter nonempty names) l s s'.
Proof.
  revert cur s. induction names as [|name names IH]; intros cur s Hwf Hlk [n Hn] Hs Hm.
  { exists cur, s. split; [done | constructor]. }
  apply Forall_cons in Hs as [Hname Hs]. cbn [dir_loop List.filter] in *.
  destruct (decide (name = "")) as [->|Hne].
  { cbn in Hm |- *. by apply IH. }
  rewrite (proj2 (nonempty_spec name)) in * by done. cbn [missing length] in Hm.
  rewrite (bind_run _ _ _ _ _ (on_heap_run _ _ _ _ (GetChild_run _ _ _ name Hn))), put_heap_id.
  rewrite <-(child_spec _ _ _ name Hn).
  destruct (child (fs_heap s) cur name) as [c|] eqn:Ec.
  - destruct (tw_down _ _ (fw_tree _ Hwf) _ _ _ Ec) as (_ & _ & cn & Hcn & _).
    destruct (IH c s) as (l & s' & Hrun & Htr); [done | done | by eexists | done | done |].
    exists l, s'. split; [done | by eapply mkdirs_found].
  - destruct (make_dir_run req cur n name s Hwf Hlk Hn Ec ltac:(lia)) as (a & w & Hrun & Hi & Hd).
    rewrite (bind_run _ _ _ _ _ Hrun).
    destruct (IH (S (h_next (fs_heap s)))
      (fs_attached cur n name a [] (h_tasks (fs_heap s)) w s)) as (l & s' & Hrun' & Htr).
    + apply fs_attached_wf; try done. lia.
    + by apply (attached_locks_fresh cur n name a [] (set_world w (fs_heap s))).
    + eexists. apply (attached_lookup_new cur n name a [] (set_world w (fs_heap s))).
    + done.
    + rewrite attached_missing. cbn. lia.
    + exists l, s'. split; [done|]. eapply mkdirs_new; try done. lia.
Qed.

(** *** What a run of [AddDirNode] leaves behind *)

(** The parts of the state creation does not touch. *)
Record fs_frame s s' : Prop := {
  ff_cfg : fs_cfg s' = fs_cfg s;
  ff_root : root s' = root s;
  ff_lastNodeID : lastNodeID s' = lastNodeID s;
  ff_registry : nodeRegistry s' = nodeRegistry s;
  ff_locks : h_locks (fs_heap s') = h_locks (fs_heap s);
  ff_next : (h_next (fs_heap s) <= h_next (fs_heap s'))%nat;
  ff_old l n : h_nodes (fs_heap s) !! l = Some n ->
    exists m, h_nodes (fs_heap s') !! l = Some (set_children m n);
  ff_inodes i ino : h_inodes (fs_heap s) !! i = Some ino -> h_inodes (fs_heap s') !! i = Some ino;
  ff_inv l : is_Some (h_nodes (fs_heap s') !! l) -> (l < h_next (fs_heap s))%nat ->
    is_Some (h_nodes (fs_heap s) !! l);
  ff_tasks i : i ∈ h_tasks (fs_heap s) -> i ∈ h_tasks (fs_heap s');
  ff_live : live (fs_heap s) -> live (fs_heap s');
  ff_mono l p x : walk (fs_heap s) l p = Some x -> walk (fs_heap s') l p = Some x
}.

#[export] Instance fs_frame_preorder : PreOrder fs_frame.
Proof.
  split.
  - intros s. split; try done. intros l n Hn. exists (n_children n). by destruct n.
  - intros s1 s2 s3 F G. split.
    + by rewrite (ff_cfg _ _ G), (ff_cfg _ _ F).
    + by rewrite (ff_root _ _ G), (ff_root _ _ F).
    + by rewrite (ff_lastNodeID _ _ G), (ff_lastNodeID _ _ F).
    + by rewrite (ff_registry _ _ G), (ff_registry _ _ F).
    + by rewrite (ff_locks _ _ G), (ff_locks _ _ F).
    + pose proof (ff_next _ _ F). pose proof (ff_next _ _ G). lia.
    + intros l n (m & Hm)%(ff_old _ _ F). destruct (ff_old _ _ G _ _ Hm) as (m' & Hm').
      by exists m'.
    + intros i ino ?%(ff_inodes _ _ F). by apply (ff_inodes _ _ G).
    + intros l Hl Hlt. pose proof (ff_next _ _ F). apply (ff_inv _ _ F); [|done].
      apply (ff_inv _ _ G); [done | lia].
    + intros i ?%(ff_tasks _ _ F). by apply (ff_tasks _ _ G).
    + intros ?%(ff_live _ _ F). by apply (ff_live _ _ G).
    + intros l p x ?%(ff_mono _ _ F). by apply (ff_mono _ _ G).
Qed.

Lemma fs_attached_frame cur n name a (adapters : list A) tasks w s :
  fs_wf s -> h_nodes (fs_heap s) !! cur = Some n -> child (fs_heap s) cur name = None ->
  h_tasks (fs_heap s) ⊆ tasks -> fs_frame s (fs_attached cur n name a adapters tasks w s).
Proof.
  intros Hwf Hn Hfree Htasks. split; try done.
  - cbn. lia.
  - by apply fs_attached_old.
  - by apply fs_attached_inode.
  - intros l [ln Hl] Hlt. destruct (fs_attached_node cur n name a adapters tasks w s Hwf Hn l ln Hl)
      as [[-> _]|(_ & ln0 & ? & _)]; [lia | by eexists].
  - apply (attached_live (root s) cur n name a adapters (set_world w (fs_heap s))); [|done].
    by apply fs_attached_tree.
  - by apply fs_attached_mono.
Qed.

Lemma mkdirs_wf_frame req cur names l s s' :
  mkdirs req cur names l s s' -> fs_wf s -> fs_wf s' /\ fs_frame s s'.
Proof.
  induction 1 as [cur s|cur name names c l s s' Hc _ IH
                 |cur n name names l a w s s' Hn Hfree Hs Hm Hi Hd _ IH]; intros Hwf.
  - done.
  - by apply IH.
  - destruct IH as [? F]; [by apply fs_attached_wf|]. split; [done|].
    etrans; [|exact F]. by apply fs_attached_frame.
Qed.

Lemma mkdirs_walk req cur names l s s' :
  mkdirs req cur names l s s' -> fs_wf s -> walk (fs_heap s') cur names = Some l.
Proof.
  induction 1 as [cur s|cur name names c l s s' Hc Htr IH
                 |cur n name names l a w s s' Hn Hfree Hs Hm Hi Hd Htr IH]; intros Hwf; [done|..].
  - assert (walk (fs_heap s) cur [name] = Some c) as H1 by (cbn; by rewrite Hc).
    apply (ff_mono _ _ (proj2 (mkdirs_wf_frame _ _ _ _ _ _ Htr Hwf))) in H1.
    change (name :: names) with ([name] ++ names). rewrite walk_app, H1. by apply IH.
  - assert (Hwf1 : fs_wf (fs_attached cur n name a [] (h_tasks (fs_heap s)) w s))
      by by apply fs_attached_wf.
    specialize (IH Hwf1). destruct (mkdirs_wf_frame _ _ _ _ _ _ Htr Hwf1) as [_ F].
    change (name :: names) with ([name] ++ names).
    rewrite walk_app, (ff_mono _ _ F _ _ (S (h_next (fs_heap s)))); [exact IH|].
    apply (walk_snoc _ _ [] name). exists cur. split; [done|].
    apply fs_attached_child; auto.
Qed.

Lemma mkdirs_count req cur names l s s' :
  mkdirs req cur names l s s' ->
  lastIno s' = lastIno s + Z.of_nat (missing (fs_heap s) cur names).
Proof.
  induction 1 as [cur s|cur name names c l s s' Hc _ IH
                 |cur n name names l a w s s' Hn Hfree Hs Hm Hi Hd _ IH]; cbn [missing].
  - cbn. lia.
  - by rewrite Hc, IH.
  - rewrite Hfree, IH, attached_missing. cbn [lastIno fs_attached put_lastIno put_heap]. lia.
Qed.

(** The paths that resolve afterwards are the ones that did, and prefixes of
    the requested path. *)
Lemma mkdirs_only req cur names l s s' base p x :
  mkdirs req cur names l s s' -> fs_wf s ->
  walk (fs_heap s) (root s) base = Some cur -> walk (fs_heap s') (root s) p = Some x ->
  walk (fs_heap s) (root s) p = Some x \/
  (h_next (fs_heap s) <= x)%nat /\ exists k, (k <= length names)%nat /\ p = base ++ take k names.
Proof.
  intros Htr. revert base.
  induction Htr as [cur s|cur name names c l s s' Hc Htr IH
                 |cur n name names l a w s s' Hn Hfree Hs Hm Hi Hd Htr IH]; intros base Hwf Hb Hx.
  - by left.
  - destruct (IH (base ++ [name]) Hwf) as [?|(? & k & Hk & ->)]; [|done|by left|].
    { apply walk_snoc. by exists cur. }
    right. split; [done|]. exists (S k). cbn. split; [lia|]. by rewrite <-app_assoc.
  - assert (Hwf1 : fs_wf (fs_attached cur n name a [] (h_tasks (fs_heap s)) w s))
      by by apply fs_attached_wf.
    pose proof (fs_attached_child cur n name a [] (h_tasks (fs_heap s)) w s Hwf Hn Hfree) as Hch.
    destruct (IH (base ++ [name]) Hwf1) as [Hp|(Hle & k & Hk & ->)].
    + apply walk_snoc. exists cur. split; [by apply fs_attached_mono|]. apply Hch. auto.
    + done.
    + destruct (fs_attached_walk cur n name a [] (h_tasks (fs_heap s)) w s Hwf Hn Hfree base p x Hb Hp)
        as [?|[-> ->]]; [by left|]. right. split; [lia|]. exists 1%nat. cbn. by split; [lia|].
    + right. cbn in Hle. split; [lia|]. exists (S k). cbn. split; [lia|]. by rewrite <-app_assoc.
Qed.

(** A directory made by a request, as it is found afterwards. *)
Definition made_dir (req : NodeRequest) h (x : loc) : Prop :=
  exists xn ino, h_nodes h !! x = Some xn /\ n_nodeID xn = 0 /\ n_isDel xn = false /\
    h_inodes h !! n_inode xn = Some ino /\ i_adapterPool ino = None /\ i_hLinks ino = [x] /\
    Mode (i_attr ino) = Z.lor DirAttr (rq_Perms req) /\
    Uid (i_attr ino) = rq_OwnerUID req /\ Gid (i_attr ino) = rq_OwnerGID req /\
    Size (i_attr ino) = 0 /\ Nlink (i_attr ino) = 2.

Lemma made_dir_frame req s s' x :
  fs_frame s s' -> made_dir req (fs_heap s) x -> made_dir req (fs_heap s') x.
Proof.
  intros F (xn & ino & Hx & H1 & H2 & Hi & Hrest). destruct (ff_old _ _ F _ _ Hx) as (m & Hm).
  exists (set_children m xn), ino. split_and!; try done. by apply (ff_inodes _ _ F). all: by apply Hrest.
Qed.

Lemma mkdirs_made req cur names l s s' x :
  mkdirs req cur names l s s' -> fs_wf s -> (h_next (fs_heap s) <= x)%nat ->
  is_Some (h_nodes (fs_heap s') !! x) -> made_dir req (fs_heap s') x.
Proof.
  induction 1 as [cur s|cur name names c l s s' Hc Htr IH
                 |cur n name names l a w s s' Hn Hfree Hs Hm Hi Hd Htr IH]; intros Hwf Hx Hnode.
  - destruct (tw_fresh _ _ (fw_tree _ Hwf) x Hx). destruct Hnode; congruence.
  - by apply IH.
  - assert (Hwf1 : fs_wf (fs_attached cur n name a [] (h_tasks (fs_heap s)) w s))
      by by apply fs_attached_wf.
    destruct (decide (S (S (h_next (fs_heap s))) <= x)%nat) as [Hle|Hlt]; [by apply IH|].
    destruct (mkdirs_wf_frame _ _ _ _ _ _ Htr Hwf1) as [Hwf' F].
    destruct (decide (x = S (h_next (fs_heap s)))) as [->|Hne].
    + apply (made_dir_frame _ _ _ _ F). destruct Hd as (D1 & D2 & D3 & D4 & D5).
      eexists _, _. split; [apply (attached_lookup_new cur n name a [] (set_world w (fs_heap s)))|].
      do 2 (split; [done|]). cbn [n_inode]. split; [cbn; by rewrite lookup_insert_eq|].
      cbn. rewrite D5. by split_and!.
    + assert (x = h_next (fs_heap s)) as -> by lia. exfalso.
      destruct (ff_inv _ _ F _ Hnode) as [xn Hxn]; [cbn; lia|].
      apply (fs_attached_node cur n name a [] (h_tasks (fs_heap s)) w s Hwf Hn) in Hxn
        as [[? _]|[? _]]; lia.
Qed.

Lemma node_Inode_run h l n : h_nodes h !! l = Some n -> node_Inode l h = Ret (n_inode n, h).
Proof. intros Hn. unfold node_Inode. by rewrite (bind_run _ _ _ _ _ (read_node_run _ _ _ Hn)). Qed.

(** How many new inodes a request for a directory takes. *)
Definition new_dirs s (path : string) : Z :=
  Z.of_nat (missing (fs_heap s) (root s) (components path)).

Lemma split_slash_names path : Forall (fun nm => has_slash nm = false) (split_slash path).
Proof. apply split_slash_no_slash. Qed.

Lemma AddDirNode_run req s :
  fs_wf s -> locks_fresh (fs_heap s) -> no_writers (h_locks (fs_heap s)) ->
  lastIno s + new_dirs s (rq_Path (dr_node req)) < 2 ^ 64 ->
  exists l s', AddDirNode req s = Ret (Ok l, s') /\
    mkdirs (dr_node req) (root s) (components (rq_Path (dr_node req))) l s s'.
Proof.
  intros Hwf Hlk Hw Hm. unfold AddDirNode.
  rewrite (bind_run _ _ _ _ _ (eq_refl : get_state s = Ret (s, s))).
  destruct (dir_loop_run (dr_node req) (split_slash (rq_Path (dr_node req))) (root s) s)
    as (l & s' & Hrun & Htr); [done | done | | apply split_slash_names | done |].
  { apply (root_dom _ _ (fw_tree _ Hwf)). }
  exists l, s'. split; [|done]. rewrite (bind_run _ _ _ _ _ Hrun).
  destruct (mkdirs_wf_frame _ _ _ _ _ _ Htr Hwf) as [Hwf' F].
  pose proof (mkdirs_walk _ _ _ _ _ _ Htr Hwf) as Hl.
  apply (walk_dom _ _ _ _ _ (fw_tree _ Hwf')) in Hl as [n Hn].
  2:{ rewrite <-(ff_root _ _ F). apply (root_dom _ _ (fw_tree _ Hwf')). }
  destruct (tw_inode _ _ (fw_tree _ Hwf') _ _ Hn) as [ino Hi].
  rewrite (bind_run _ _ _ _ _ (on_heap_run _ _ _ _ (node_Inode_run _ _ _ Hn))), put_heap_id.
  rewrite (bind_run _ _ _ _ _ (on_heap_run _ _ _ _ (CopyAttr_run _ _ _ Hi
    ltac:(rewrite (ff_locks _ _ F); apply Hw)))).
  by rewrite put_heap_id.
Qed.

Lemma mkdirs_existing req cur names l s :
  walk (fs_heap s) cur names = Some l ->
  forall l' s', mkdirs req cur names l' s s' -> l' = l /\ s' = s.
Proof.
  revert cur. induction names as [|name names IH]; intros cur Hl l' s' Htr.
  - injection Hl as ->. by inversion Htr.
  - cbn in Hl. apply bind_Some in Hl as (c & Hc & Hl).
    inversion Htr as [|? ? ? c' ? ? ? Hc' Htr'|]; subst; [|congruence].
    rewrite Hc in Hc'. injection Hc' as <-. by eapply IH.
Qed.
End mkdir.

(** ** Properties of [AddDirNode] *)

Section dir_properties.
Context {X : XSync} `{!XSyncLaws} {W A : Type} {FL : FuseLib} `{!FuseLibLaws} {OS : Process}.
Context {clk : Clock W}.
Implicit Types (s : FileSystem W A).

(** C3: [AddDirNode] is [mkdir -p]. On a well-formed filesystem on which no
    writer holds a mutex and with inode numbers left, the call returns the
    node to which the components of the path resolve; every path that
    resolved before resolves to the same node; the paths that resolve only
    now are prefixes of the requested one, and they are directories with the
    permissions and owner of the request; exactly one inode number is used for
    each directory that was missing; every mutex taken is given back. *)
Theorem AddDirNode_mkdir_p req s :
  fs_wf s -> locks_fresh (fs_heap s) -> no_writers (h_locks (fs_heap s)) ->
  lastIno s + new_dirs s (rq_Path (dr_node req)) < 2 ^ 64 ->
  exists l s', AddDirNode req s = Ret (Ok l, s') /\ fs_wf s' /\
    walk (fs_heap s') (root s') (components (rq_Path (dr_node req))) = Some l /\
    (forall p x, walk (fs_heap s) (root s) p = Some x -> walk (fs_heap s') (root s') p = Some x) /\
    (forall p x, walk (fs_heap s) (root s) p = None -> walk (fs_heap s') (root s') p = Some x ->
       p `prefix_of` components (rq_Path (dr_node req)) /\ made_dir (dr_node req) (fs_heap s') x) /\
    lastIno s' = lastIno s + new_dirs s (rq_Path (dr_node req)) /\
    h_locks (fs_heap s') = h_locks (fs_heap s).
Proof.
  intros Hwf Hlk Hw Hm. destruct (AddDirNode_run req s Hwf Hlk Hw Hm) as (l & s' & Hrun & Htr).
  destruct (mkdirs_wf_frame _ _ _ _ _ _ Htr Hwf) as [Hwf' F].
  exists l, s'. rewrite (ff_root _ _ F). split_and!; [done | done | by eapply mkdirs_walk | | | |].
  - apply (ff_mono _ _ F).
  - intros p x Hnone Hx.
    destruct (mkdirs_only _ _ _ _ _ _ [] p x Htr Hwf eq_refl Hx) as [?|(Hle & k & _ & ->)];
      [congruence|].
    split; [by apply prefix_take|]. eapply (mkdirs_made _ _ _ _ _ _ _ Htr); [done..|].
    apply (walk_dom _ _ _ _ _ (fw_tree _ Hwf')) in Hx; [done|].
    rewrite <-(ff_root _ _ F). apply (root_dom _ _ (fw_tree _ Hwf')).
  - by eapply mkdirs_count.
  - by rewrite (ff_locks _ _ F).
Qed.

(** Asking again changes nothing: the same node is returned and the state
    is the one the first call left. *)
Theorem AddDirNode_idempotent req l s s' :
  fs_wf s -> locks_fresh (fs_heap s) -> no_writers (h_locks (fs_heap s)) ->
  lastIno s + new_dirs s (rq_Path (dr_node req)) < 2 ^ 64 ->
  AddDirNode req s = Ret (Ok l, s') -> AddDirNode req s' = Ret (Ok l, s').
Proof.
  intros Hwf Hlk Hw Hm Hrun. destruct (AddDirNode_run req s Hwf Hlk Hw Hm) as (l1 & s1 & Hrun1 & Htr).
  rewrite Hrun in Hrun1. injection Hrun1 as <- <-.
  destruct (mkdirs_wf_frame _ _ _ _ _ _ Htr Hwf) as [Hwf' F].
  pose proof (mkdirs_walk _ _ _ _ _ _ Htr Hwf) as Hl. rewrite <-(ff_root _ _ F) in Hl.
  assert (Hmiss : new_dirs s' (rq_Path (dr_node req)) = 0).
  { unfold new_dirs. rewrite (proj2 (missing_walk _ _ _)); [done | by eexists]. }
  destruct (AddDirNode_run req s' Hwf') as (l2 & s2 & Hrun2 & Htr2).
  - intros x. rewrite (ff_locks _ _ F). pose proof (ff_next _ _ F). intros ?. apply Hlk. lia.
  - by rewrite (ff_locks _ _ F).
  - rewrite Hmiss. destruct (fw_lastIno _ Hwf'). lia.
  - by destruct (mkdirs_existing _ _ _ _ _ Hl _ _ Htr2) as [-> ->].
Qed.

(** C10: paths and nodes determine each other. In a well-formed filesystem
    without deleted nodes and without empty names, [Path] on a node returns
    [path] without an error exactly when [path] is the slash-joined list of the
    names that lead to the node from the root; its components are those names
    again. *)
Theorem Path_resolve s l path :
  fs_wf s -> live (fs_heap s) -> no_writers (h_locks (fs_heap s)) ->
  (forall x name c, child (fs_heap s) x name = Some c -> name <> "") ->
  is_Some (h_nodes (fs_heap s) !! l) ->
  Path (S l) l (fs_heap s) = Ret ((path, None), fs_heap s) <->
  walk (fs_heap s) (root s) (components path) = Some l /\ path = join_path (components path).
Proof.
  intros Hwf Hl Hw Hne [n Hn]. pose proof (fw_tree _ Hwf) as Htw.
  assert (Hback : forall names, walk (fs_heap s) (root s) names = Some l ->
    Path (S l) l (fs_heap s) = Ret ((join_path names, None), fs_heap s)).
  { intros names Hx. pose proof (walk_depth _ _ _ _ _ Htw Hx).
    eapply Path_run; [by eapply walk_path_rel | lia | done]. }
  split.
  - intros Hp. destruct (path_rel_total _ l n (tree_parents_older _ _ Htw) Hn) as (r & d & Hrel & Hd).
    rewrite (Path_run _ _ _ _ (S l) Hrel ltac:(lia) Hw) in Hp. injection Hp as ->.
    assert (Hx : walk (fs_heap s) (root s) (components path) = Some l).
    { eapply path_rel_walk; [done | | done | done]. intros i j a b Ha Hb E.
      eapply (fw_ino_inj _ Hwf); apply ino_at_some; eauto. }
    split; [done|]. apply Hback in Hx.
    rewrite (Path_run _ _ _ _ (S l) Hrel ltac:(lia) Hw) in Hx. congruence.
  - intros [Hx ->]. apply Hback in Hx. by rewrite Hx.
Qed.
End dir_properties.
