(* ===== verification/FileCreation.v ===== *)
(** [AddFileNode] and [NewFS] (src/filesystem/fs.go): every branch of the
    creation of a file, and the start state. *)

From S2P Require Import Prelude Config Paths Request XSync DataCache AdapterPool Inode Heap.
From S2P Require Import Node NodeContext Tree FileSystem FileSystemSpec.

Section file_creation.
Context {X : XSync} `{!XSyncLaws} {W A P : Type} {FL : FuseLib} `{!FuseLibLaws} {OS : Process}.
Context {clk : Clock W} {AP : AdapterProvider W P A}.
Implicit Types (s : FileSystem W A) (h : heap W A) (l c : loc) (n : Node) (name dir : string).
Implicit Types (req : FileCreateRequest P).

(** The adapters the sources' providers build in a world, in request order. *)
Fixpoint adapters_of (sources : list (FileSource P)) (w : W) : list A * W :=
  match sources with
  | [] => ([], w)
  | source :: sources' =>
      let '(r, w1) := source_Adapter source w in
      let '(adapters, w2) := adapters_of sources' w1 in
      (match r with Ok a => a :: adapters | Err _ => adapters end, w2)
  end.

Lemma build_adapters_run sources h :
  build_adapters sources h
  = Ret ((adapters_of sources (h_world h)).1, set_world (adapters_of sources (h_world h)).2 h).
Proof.
  revert h. induction sources as [|source sources IH]; intros h; cbn; [by destruct h|].
  destruct (source_Adapter source (h_world h)) as [r w]. unfold mbind, GoM_bind. rewrite IH. cbn.
  by destruct (adapters_of sources w).
Qed.

Definition new_file_attr (req : NodeRequest) (a : Attr) : Prop :=
  Mode a = Z.lor FileAttr (rq_Perms req) /\ Uid a = u32 Getuid /\ Gid a = u32 Getgid /\
  Size a = 0 /\ Nlink a = 1.

Lemma RefreshMeta_run h i (ino : Inode A) :
  h_inodes h !! i = Some ino ->
  RefreshMeta i h = Ret (tt, set_tasks (h_tasks h ++ match i_adapterPool ino with
                                                     | Some _ => [i] | None => [] end) h).
Proof.
  intros Hi. unfold RefreshMeta. rewrite (bind_run _ _ _ _ _ (read_inode_run _ _ _ Hi)).
  destruct (i_adapterPool ino); [done|]. rewrite app_nil_r. by destruct h.
Qed.

(** The directory part of the request. *)
Definition dir_stage req dir s : GoM (FileSystem W A) (result loc) :=
  if decide (dir <> "") then AddDirNode {| dr_node := with_path dir (fr_node req) |}
  else mret (Ok (root s)).

Lemma dir_stage_run req dir s :
  fs_wf s -> locks_fresh (fs_heap s) -> no_writers (h_locks (fs_heap s)) ->
  lastIno s + new_dirs s dir < 2 ^ 64 ->
  exists p s1, dir_stage req dir s s = Ret (Ok p, s1) /\
    mkdirs (with_path dir (fr_node req)) (root s) (components dir) p s s1.
Proof.
  intros Hwf Hlk Hw Hm. unfold dir_stage. case_decide as Hd.
  - destruct (AddDirNode_run {| dr_node := with_path dir (fr_node req) |} s) as (p & s1 & ? & ?);
      [done..|]. by exists p, s1.
  - assert (dir = "") as -> by (destruct (decide (dir = "")); tauto).
    exists (root s), s. split; [done | constructor].
Qed.

(** Every run of [AddFileNode]: the directories, then one of the three ends. *)
Lemma AddFileNode_run req s dir name :
  fs_wf s -> locks_fresh (fs_heap s) -> no_writers (h_locks (fs_heap s)) ->
  path_Split (rq_Path (fr_node req)) = (dir, name) -> lastIno s + new_dirs s dir + 1 < 2 ^ 64 ->
  exists p s1, mkdirs (with_path dir (fr_node req)) (root s) (components dir) p s s1 /\
    match child (fs_heap s1) p name with
    | Some _ => AddFileNode req s = Ret (Err (ErrFileExists (rq_Path (fr_node req))), s1)
    | None =>
        exists n a w adapters w', h_nodes (fs_heap s1) !! p = Some n /\
          Ino a = lastIno s1 + 1 /\ new_file_attr (fr_node req) a /\
          adapters_of (Sources req) w = (adapters, w') /\
          AddFileNode req s =
            match adapters with
            | [] => Ret (Err ErrNoValidAdapters,
                         put_lastIno (lastIno s1 + 1) (put_heap (set_world w' (fs_heap s1)) s1))
            | _ => Ret (Ok (S (h_next (fs_heap s1))),
                        fs_attached p n name a adapters (h_tasks (fs_heap s1) ++ [h_next (fs_heap s1)])
                          w' s1)
            end
    end.
Proof.
  intros Hwf Hlk Hw Hsplit Hm.
  destruct (dir_stage_run req dir s) as (p & s1 & Hdir & Htr); [done.. | lia |].
  exists p, s1. split; [done|]. destruct (mkdirs_wf_frame _ _ _ _ _ _ Htr Hwf) as [Hwf1 F].
  pose proof (mkdirs_walk _ _ _ _ _ _ Htr Hwf) as Hp. rewrite <-(ff_root _ _ F) in Hp.
  apply (walk_dom _ _ _ _ _ (fw_tree _ Hwf1)) in Hp as [n Hn]; [|by eapply root_dom, Hwf1].
  pose proof (mkdirs_count _ _ _ _ _ _ Htr) as Hcnt. fold (new_dirs s dir) in Hcnt.
  assert (Hrun : forall k : result loc -> GoM (FileSystem W A) (result loc),
    (dir_stage req dir s ≫= k) s = k (Ok p) s1) by (intros k; exact (bind_run _ _ _ _ _ Hdir)).
  unfold AddFileNode. rewrite (bind_run _ _ _ _ _ (eq_refl : get_state s = Ret (s, s))).
  rewrite Hsplit. fold (dir_stage req dir s).
  rewrite (child_spec _ _ _ name Hn).
  pose proof (on_heap_run _ s1 _ _ (GetChild_run _ _ _ name Hn)) as Hget. rewrite put_heap_id in Hget.
  destruct (Load (n_children n) name) as [c|] eqn:Eload.
  { by rewrite Hrun, (bind_run _ _ _ _ _ Hget). }
  assert (Hlk1 : locks_fresh (fs_heap s1)).
  { intros x Hx. rewrite (ff_locks _ _ F). apply Hlk. pose proof (ff_next _ _ F). lia. }
  destruct (newDefaultAttr_run (lastIno s1 + 1) (fs_heap s1))
    as (a0 & w & Ha & Hi & Hl & Hs & Hu & Hg).
  destruct (adapters_of (Sources req) w) as [adapters w'] eqn:Ead.
  exists n, (set_Mode (Z.lor FileAttr (rq_Perms (fr_node req))) a0), w, adapters, w'.
  split_and!; [done | done | by split_and! | done |].
  rewrite Hrun, (bind_run _ _ _ _ _ Hget), (bind_run _ _ _ _ _ (next_ino_run s1 Hwf1 ltac:(lia))).
  rewrite (bind_run _ _ _ _ _ (on_heap_run _ (put_lastIno _ s1) _ _ Ha)). cbn zeta.
  erewrite bind_run by (apply on_heap_run, build_adapters_run).
  cbn [fs_heap put_heap h_world set_world put_lastIno]. rewrite Ead. cbn [fst snd].
  destruct adapters as [|ad ads] eqn:Eads; [done|]. rewrite <-Eads in *.
  set (a := set_Mode _ a0).
  pose proof (tree_wf_same _ _ _ (same_world w' _) (fw_tree _ Hwf1)) as Htw.
  destruct (link_run (set_world w' (fs_heap s1)) (root s1) p n name a adapters
    (h_tasks (fs_heap s1) ++ [h_next (fs_heap s1)]) Htw Hlk1 Hn) as (h1 & E1 & E2).
  { rewrite (child_same (fs_heap s1)) by done. by rewrite (child_spec _ _ _ name Hn). }
  rewrite (bind_run _ _ _ _ _ (on_heap_run _ _ _ _ (eq_refl : new_inode a adapters _ = Ret _))).
  erewrite bind_run.
  2:{ apply on_heap_run, RefreshMeta_run. cbn. by rewrite lookup_insert_eq. }
  replace (i_adapterPool (NewInode a adapters)) with (newAdapterPool adapters) by done.
  rewrite Eads at 2. cbn [newAdapterPool].
  erewrite bind_run by (apply on_heap_run; exact E1). cbn iota.
  by erewrite bind_run by (apply on_heap_run; exact E2).
Qed.
End file_creation.

(** ** Properties of [AddFileNode] *)

Section file_properties.
Context {X : XSync} `{!XSyncLaws} {W A P : Type} {FL : FuseLib} `{!FuseLibLaws} {OS : Process}.
Context {clk : Clock W} {AP : AdapterProvider W P A}.
Implicit Types (s : FileSystem W A) (h : heap W A) (l c : loc) (n : Node) (name dir : string).
Implicit Types (req : FileCreateRequest P).

(** A file made by a request, as it is found afterwards. Owner, size and times
    are the process's and the clock's, whatever the request says; [Nlink] is
    two, one from [newDefaultAttr] and one from [NewNode]. *)
Definition made_file (req : NodeRequest) (adapters : list A) h (x : loc) : Prop :=
  exists xn ino, h_nodes h !! x = Some xn /\ n_nodeID xn = 0 /\ n_isDel xn = false /\
    h_inodes h !! n_inode xn = Some ino /\ i_adapterPool ino = newAdapterPool adapters /\
    i_hLinks ino = [x] /\ GetCachedRanges ino = [] /\
    Mode (i_attr ino) = Z.lor FileAttr (rq_Perms req) /\
    Uid (i_attr ino) = u32 Getuid /\ Gid (i_attr ino) = u32 Getgid /\
    Size (i_attr ino) = 0 /\ Nlink (i_attr ino) = 2 /\
    n_inode xn ∈ h_tasks h.

(** The part of the state in which [AddFileNode] may start. *)
Definition can_add s (n : Z) : Prop :=
  fs_wf s /\ locks_fresh (fs_heap s) /\ no_writers (h_locks (fs_heap s)) /\ lastIno s + n < 2 ^ 64.

Lemma walk_child_path h l dir p name :
  walk h l (components dir) = Some p -> walk h l (components dir ++ [name]) = child h p name.
Proof. intros E. rewrite walk_app, E. cbn. by destruct (child h p name). Qed.

(** C6: a new file. When nothing resolves to the path and some provider of the
    request builds an adapter, [AddFileNode] returns a new node found under
    the path, a regular file whose pool has the adapters in request order, an
    empty cache and a pending metadata refresh; every earlier path still
    resolves to the same node; the only other new paths are missing
    directories of the request; and the mutexes are as before. *)
Theorem AddFileNode_creates req s dir name :
  path_Split (rq_Path (fr_node req)) = (dir, name) ->
  can_add s (new_dirs s dir + 1) ->
  walk (fs_heap s) (root s) (components dir ++ [name]) = None ->
  (forall w, (adapters_of (Sources req) w).1 <> []) ->
  exists l s', AddFileNode req s = Ret (Ok l, s') /\ fs_wf s' /\
    walk (fs_heap s') (root s') (components dir ++ [name]) = Some l /\
    (exists w, made_file (fr_node req) (adapters_of (Sources req) w).1 (fs_heap s') l) /\
    (forall p x, walk (fs_heap s) (root s) p = Some x -> walk (fs_heap s') (root s') p = Some x) /\
    (forall p x, walk (fs_heap s) (root s) p = None -> walk (fs_heap s') (root s') p = Some x ->
       p = components dir ++ [name] \/
       p `prefix_of` components dir /\ made_dir (fr_node req) (fs_heap s') x) /\
    h_locks (fs_heap s') = h_locks (fs_heap s).
Proof.
  intros Hsplit (Hwf & Hlk & Hw & Hm) Hnone Hads.
  destruct (AddFileNode_run req s dir name) as (p & s1 & Htr & Hrun); [done.. | lia |].
  destruct (mkdirs_wf_frame _ _ _ _ _ _ Htr Hwf) as [Hwf1 F].
  pose proof (mkdirs_walk _ _ _ _ _ _ Htr Hwf) as Hp.
  pose proof (mkdirs_count _ _ _ _ _ _ Htr) as Hcnt. fold (new_dirs s dir) in Hcnt.
  assert (Hslash : has_slash name = false) by apply (path_Split_spec _ _ _ Hsplit).
  destruct (child (fs_heap s1) p name) as [c|] eqn:Ec.
  { exfalso. rewrite <-(walk_child_path _ _ _ _ name Hp) in Ec.
    destruct (mkdirs_only _ _ _ _ _ _ [] _ _ Htr Hwf eq_refl Ec) as [?|(_ & k & Hk & E)];
      [congruence|]. apply (f_equal length) in E. cbn in E.
    rewrite length_app, length_take in E. cbn in E. lia. }
  destruct Hrun as (n & a & w & adapters & w' & Hn & Hino & Ha & Ead & Hrun).
  specialize (Hads w). rewrite Ead in Hads. cbn in Hads.
  destruct adapters as [|ad ads] eqn:Eads; [done|]. rewrite <-Eads in *.
  eexists _, _. split; [exact Hrun|].
  set (s' := fs_attached _ _ _ _ _ _ _ _).
  assert (F' : fs_frame s1 s') by (apply fs_attached_frame; [done.. | set_solver]).
  cbn [root fs_attached put_lastIno put_heap s']. rewrite (ff_root _ _ F).
  assert (Hmax : lastIno s1 + 1 < 2 ^ 64) by lia.
  split_and!.
  - by apply fs_attached_wf.
  - apply walk_snoc. exists p. split; [by apply (ff_mono _ _ F')|].
    apply fs_attached_child; auto.
  - exists w. rewrite Ead. eexists _, _.
    split; [apply (attached_lookup_new p n name a adapters (set_world w' (fs_heap s1)))|].
    do 2 (split; [done|]). cbn [n_inode]. split; [cbn; by rewrite lookup_insert_eq|].
    destruct Ha as (H1 & H2 & H3 & H4 & H5). cbn. rewrite H5. split_and!; try done.
    apply elem_of_app. right. by apply list_elem_of_singleton.
  - intros q x Hx. by apply (ff_mono _ _ F'), (ff_mono _ _ F).
  - intros q x Hq Hx. rewrite <-(ff_root _ _ F) in Hp, Hx.
    destruct (fs_attached_walk p n name a adapters _ w' s1 Hwf1 Hn Ec _ q x Hp Hx) as [Hx1|[-> _]];
      [|by left].
    right. rewrite (ff_root _ _ F) in Hx1.
    destruct (mkdirs_only _ _ _ _ _ _ [] q x Htr Hwf eq_refl Hx1) as [?|(Hle & k & _ & ->)];
      [congruence|].
    split; [by apply prefix_take|]. apply (made_dir_frame _ _ _ _ F').
    eapply (mkdirs_made (with_path dir (fr_node req))); [done..|].
    eapply walk_dom; [apply (fw_tree _ Hwf1) | | done].
    rewrite <-(ff_root _ _ F). by eapply root_dom, Hwf1.
  - etrans; [apply (ff_locks _ _ F') | apply (ff_locks _ _ F)].
Qed.

(** A path that is taken is an error and changes nothing at all, not even
    the counters; the node there may be a directory, or deleted. *)
Theorem AddFileNode_exists req s dir name c :
  path_Split (rq_Path (fr_node req)) = (dir, name) ->
  can_add s 1 ->
  walk (fs_heap s) (root s) (components dir ++ [name]) = Some c ->
  AddFileNode req s = Ret (Err (ErrFileExists (rq_Path (fr_node req))), s).
Proof.
  intros Hsplit (Hwf & Hlk & Hw & Hm) Hc.
  apply walk_snoc in Hc as (p & Hp & Hc).
  assert (Hz : new_dirs s dir = 0).
  { unfold new_dirs. rewrite (proj2 (missing_walk _ _ _)); [done | by eexists]. }
  destruct (AddFileNode_run req s dir name) as (p' & s1 & Htr & Hrun); [done.. | lia |].
  destruct (mkdirs_existing _ _ _ _ _ Hp _ _ Htr) as [-> ->]. by rewrite Hc in Hrun.
Qed.

(** C29: when every provider fails the file is not there, but the error comes
    after the effects: the missing directories have been made and one more
    inode number has been used. *)
Theorem AddFileNode_no_adapters req s dir name :
  path_Split (rq_Path (fr_node req)) = (dir, name) ->
  can_add s (new_dirs s dir + 1) ->
  walk (fs_heap s) (root s) (components dir ++ [name]) = None ->
  (forall w, (adapters_of (Sources req) w).1 = []) ->
  exists s', AddFileNode req s = Ret (Err ErrNoValidAdapters, s') /\
    is_Some (walk (fs_heap s') (root s') (components dir)) /\
    walk (fs_heap s') (root s') (components dir ++ [name]) = None /\
    lastIno s' = lastIno s + new_dirs s dir + 1.
Proof.
  intros Hsplit (Hwf & Hlk & Hw & Hm) Hnone Hads.
  destruct (AddFileNode_run req s dir name) as (p & s1 & Htr & Hrun); [done.. | lia |].
  destruct (mkdirs_wf_frame _ _ _ _ _ _ Htr Hwf) as [Hwf1 F].
  pose proof (mkdirs_walk _ _ _ _ _ _ Htr Hwf) as Hp.
  pose proof (mkdirs_count _ _ _ _ _ _ Htr) as Hcnt. fold (new_dirs s dir) in Hcnt.
  assert (Hno : walk (fs_heap s1) (root s) (components dir ++ [name]) = None).
  { apply eq_None_not_Some. intros [x Ex].
    destruct (mkdirs_only _ _ _ _ _ _ [] _ _ Htr Hwf eq_refl Ex) as [?|(_ & k & Hk & E)];
      [congruence|]. apply (f_equal length) in E. cbn in E.
    rewrite length_app, length_take in E. cbn in E. lia. }
  rewrite (walk_child_path _ _ _ _ name Hp) in Hno. rewrite Hno in Hrun.
  destruct Hrun as (n & a & w & adapters & w' & Hn & Hino & Ha & Ead & Hrun).
  specialize (Hads w). rewrite Ead in Hads. cbn in Hads. subst adapters.
  eexists. split; [exact Hrun|]. cbn [fs_heap root put_lastIno put_heap lastIno].
  rewrite (ff_root _ _ F). rewrite !(walk_same (fs_heap s1) (set_world w' (fs_heap s1))) by done.
  split; [by eexists|]. split; [by rewrite (walk_child_path _ _ _ _ name Hp)|]. by rewrite Hcnt.
Qed.

(** The same source with another priority. *)
Definition reprioritize (f : FileSource P -> Z) (src : FileSource P) : FileSource P :=
  mkSource (Provider src) (SourceConfig src) (f src).

(** C30: the priorities of the sources have no influence on what [AddFileNode]
    does, in any state: the first provider that succeeds in request order is
    the primary. *)
Theorem AddFileNode_ignores_priority (f : FileSource P -> Z) req s :
  AddFileNode (mkFileRequest (fr_node req) (reprioritize f <$> Sources req)) s = AddFileNode req s.
Proof.
  assert (Hb : forall (sources : list (FileSource P)),
    build_adapters (W := W) (A := A) (reprioritize f <$> sources) = build_adapters sources).
  { induction sources as [|source sources IH]; [done|]. cbn. by rewrite <-IH. }
  unfold AddFileNode. cbn [fr_node Sources]. by rewrite Hb.
Qed.
End file_properties.
