(* ===== verification/NodeRegistry.v ===== *)
(** The registry of node identifiers ([EnsureNodeID], [GetNodeCtx],
    [GetChildCtx], [ForgetNodeID] and [Read] of src/filesystem/fs.go) and the
    states the filesystem can reach. *)

From S2P Require Import Prelude Config Paths Request XSync DataCache AdapterPool Inode Heap.
From S2P Require Import Node NodeContext Tree FileSystem FileSystemSpec FileCreation.

(** ** Updates of nodes under the invariant *)

Section registry.
Context {X : XSync} `{!XSyncLaws} {W A : Type}.
Implicit Types (s : FileSystem W A) (h : heap W A) (l c : loc) (n : Node) (id : Z).

(** Nodes may change as long as the tree stays well formed and the
    identifiers are kept. *)
Lemma fs_wf_nodes s m :
  fs_wf s -> tree_wf (root s) (set_nodes m (fs_heap s)) ->
  (forall l n', m !! l = Some n' ->
     exists n, h_nodes (fs_heap s) !! l = Some n /\ n_nodeID n' = n_nodeID n) ->
  (forall l n, h_nodes (fs_heap s) !! l = Some n ->
     exists n', m !! l = Some n' /\ n_nodeID n' = n_nodeID n) ->
  fs_wf (put_heap (set_nodes m (fs_heap s)) s).
Proof.
  intros Hwf Htw Hback Hforth. split; cbn [fs_heap put_heap root lastIno lastNodeID nodeRegistry].
  - done.
  - apply (fw_ino _ Hwf).
  - apply (fw_ino_inj _ Hwf).
  - apply Hwf.
  - intros l n' (n & Hn & ->)%Hback. by apply (fw_id _ Hwf l).
  - intros l1 l2 n1 n2 (m1 & H1 & ->)%Hback (m2 & H2 & ->)%Hback. by eapply (fw_id_inj _ Hwf).
  - intros id l (? & n & (n' & ? & E)%Hforth & <-)%(fw_reg _ Hwf). split; [done|]. by exists n'.
  - apply Hwf.
Qed.

(** The state after a node got the next identifier. *)
Definition registered l n s : FileSystem W A :=
  let id := lastNodeID s + 1 in
  put_registry (Store (nodeRegistry s) id l)
    (put_heap (set_nodes (<[l := set_nodeID id n]> (h_nodes (fs_heap s))) (fs_heap s))
       (put_lastNodeID id s)).

Lemma registered_node s l n x xn :
  h_nodes (fs_heap (registered l n s)) !! x = Some xn ->
  x = l /\ xn = set_nodeID (lastNodeID s + 1) n \/ x <> l /\ h_nodes (fs_heap s) !! x = Some xn.
Proof. cbn. intros [[<- <-]|[? ?]]%lookup_insert_Some; auto. Qed.

Lemma registered_wf s l n :
  fs_wf s -> h_nodes (fs_heap s) !! l = Some n -> n_nodeID n = 0 -> lastNodeID s + 1 < 2 ^ 64 ->
  fs_wf (registered l n s).
Proof.
  intros Hwf Hn H0 Hm. destruct (fw_lastID _ Hwf) as [Hid _].
  pose proof (registered_node s l n) as Hinv.
  assert (Hle : forall x xn, h_nodes (fs_heap s) !! x = Some xn -> n_nodeID xn <= lastNodeID s).
  { intros x xn Hx. destruct (fw_id _ Hwf x xn Hx); lia. }
  split; cbn [root lastIno lastNodeID nodeRegistry registered put_registry put_heap put_lastNodeID].
  - apply (update_tree_wf _ _ n _ _ (fw_tree _ Hwf) Hn); try done; auto.
  - apply (fw_ino _ Hwf).
  - apply (fw_ino_inj _ Hwf).
  - apply Hwf.
  - intros x xn [[-> ->]|[_ Hx]]%Hinv; [cbn; lia|]. destruct (fw_id _ Hwf x xn Hx); lia.
  - intros l1 l2 n1 n2 [[-> ->]|[_ Hx1]]%Hinv [[-> ->]|[_ Hx2]]%Hinv; cbn; intros E Hne.
    + done.
    + specialize (Hle _ _ Hx2). lia.
    + specialize (Hle _ _ Hx1). lia.
    + by eapply (fw_id_inj _ Hwf).
  - intros id x. cbn. rewrite Load_Store. case_decide as Hc.
    + intros [= <-]. split; [lia|]. eexists. by rewrite lookup_insert_eq.
    + intros (? & xn & Hx & <-)%(fw_reg _ Hwf). split; [done|].
      exists xn. rewrite lookup_insert_ne; [done|]. intros <-. congruence.
  - split; lia.
Qed.

Lemma NodeID_run h l n : h_nodes h !! l = Some n -> NodeID l h = Ret (n_nodeID n, h).
Proof. intros Hn. unfold NodeID. by rewrite (bind_run _ _ _ _ _ (read_node_run _ _ _ Hn)). Qed.

Lemma EnsureNodeID_run s l n :
  fs_wf s -> h_nodes (fs_heap s) !! l = Some n -> lastNodeID s + 1 < 2 ^ 64 ->
  EnsureNodeID l s = if n_nodeID n =? 0 then Ret (lastNodeID s + 1, registered l n s)
                     else Ret (n_nodeID n, s).
Proof.
  intros Hwf Hn Hm. destruct (fw_lastID _ Hwf) as [Hid _]. unfold EnsureNodeID.
  rewrite (bind_run _ _ _ _ _ (on_heap_run _ _ _ _ (NodeID_run _ _ _ Hn))), put_heap_id.
  destruct (n_nodeID n =? 0) eqn:E; [|done].
  assert (Hnext : next_nodeID s = Ret (lastNodeID s + 1, put_lastNodeID (lastNodeID s + 1) s)).
  { unfold next_nodeID. by rewrite u64_id by (unfold in_u64; lia). }
  rewrite (bind_run _ _ _ _ _ Hnext). erewrite bind_run.
  2:{ apply on_heap_run. unfold cas_nodeID.
      rewrite (bind_run _ _ _ _ _ (read_node_run (fs_heap s) _ _ Hn)), E.
      by rewrite (bind_run _ _ _ _ _ (update_node_run _ _ _ _ Hn)). }
  done.
Qed.

Lemma GetNodeCtx_run s id l :
  Load (nodeRegistry s) id = Some l -> readable (h_locks (fs_heap s)) (NodeMu l) ->
  GetNodeCtx id s = Ret (Some (open_ctx l), put_heap (entered l (fs_heap s)) s).
Proof.
  intros Hl Hr. unfold GetNodeCtx.
  rewrite (bind_run _ _ _ (Some l) s) by (unfold registry_Load; cbn; by rewrite <-Hl).
  by rewrite (bind_run _ _ _ _ _ (on_heap_run _ _ _ _ (NewNodeContext_run _ _ Hr))).
Qed.

Lemma GetNodeCtx_none s id :
  Load (nodeRegistry s) id = None -> GetNodeCtx id s = Ret (None, s).
Proof.
  intros Hl. unfold GetNodeCtx.
  by rewrite (bind_run _ _ _ None s) by (unfold registry_Load; cbn; by rewrite <-Hl).
Qed.

(** [ForgetNodeID] drops the entry and nothing else. *)
Lemma ForgetNodeID_run s id :
  (forall l, Load (nodeRegistry s) id = Some l -> readable (h_locks (fs_heap s)) (NodeMu l)) ->
  ForgetNodeID id s = Ret (tt, match Load (nodeRegistry s) id with
                               | Some _ => put_registry (Delete (nodeRegistry s) id) s
                               | None => s end).
Proof.
  intros Hr. unfold ForgetNodeID. destruct (Load (nodeRegistry s) id) as [l|] eqn:El.
  - specialize (Hr l eq_refl). rewrite (bind_run _ _ _ _ _ (GetNodeCtx_run s id l El Hr)).
    rewrite (bind_run _ _ _ _ _ (eq_refl : modify _ _ = Ret _)).
    erewrite bind_run by (apply on_heap_run, (Close_run (fs_heap s)); done).
    unfold mret, GoM_ret, put_registry, put_heap, entered. cbn. do 3 f_equal. by rewrite set_locks_twice, set_locks_id.
  - rewrite (bind_run _ _ _ _ _ (GetNodeCtx_none s id El)).
    rewrite (bind_run _ _ _ None s) by (rewrite <-(put_heap_id s) at 2; by apply on_heap_run).
    done.
Qed.

Lemma forget_wf s id : fs_wf s -> fs_wf (put_registry (Delete (nodeRegistry s) id) s).
Proof.
  intros Hwf. split; try apply Hwf. cbn. intros id' l. rewrite Load_Delete. case_decide; [done|].
  apply (fw_reg _ Hwf).
Qed.

Lemma GetChildCtx_run s pid p pn name c cn :
  fs_wf s -> lastNodeID s + 1 < 2 ^ 64 ->
  Load (nodeRegistry s) pid = Some p -> h_nodes (fs_heap s) !! p = Some pn ->
  Load (n_children pn) name = Some c -> h_nodes (fs_heap s) !! c = Some cn ->
  readable (h_locks (fs_heap s)) (NodeMu c) ->
  let s1 := if n_nodeID cn =? 0 then registered c cn s else s in
  GetChildCtx pid name s = Ret (Some (open_ctx c), put_heap (entered c (fs_heap s1)) s1).
Proof.
  intros Hwf Hm Hp Hpn Hc Hcn Hr s1. unfold GetChildCtx.
  rewrite (bind_run _ _ _ (Some p) s) by (unfold registry_Load; cbn; by rewrite <-Hp).
  rewrite (bind_run _ _ _ _ _ (on_heap_run _ _ _ _ (GetChild_run _ _ _ name Hpn))), put_heap_id, Hc.
  rewrite (bind_run _ _ _ (if n_nodeID cn =? 0 then lastNodeID s + 1 else n_nodeID cn) s1).
  2:{ rewrite (EnsureNodeID_run s c cn Hwf Hcn Hm). subst s1. by destruct (n_nodeID cn =? 0). }
  erewrite bind_run; [done|]. apply on_heap_run, NewNodeContext_run.
  subst s1. by destruct (n_nodeID cn =? 0).
Qed.

Lemma GetChildCtx_none s pid name :
  (forall p pn, Load (nodeRegistry s) pid = Some p -> h_nodes (fs_heap s) !! p = Some pn ->
     Load (n_children pn) name = None) ->
  fs_wf s -> GetChildCtx pid name s = Ret (None, s).
Proof.
  intros Hnone Hwf. unfold GetChildCtx. destruct (Load (nodeRegistry s) pid) as [p|] eqn:Ep.
  - rewrite (bind_run _ _ _ (Some p) s) by (unfold registry_Load; cbn; by rewrite <-Ep).
    destruct (fw_reg _ Hwf _ _ Ep) as (_ & pn & Hpn & _).
    rewrite (bind_run _ _ _ _ _ (on_heap_run _ _ _ _ (GetChild_run _ _ _ name Hpn))), put_heap_id.
    by rewrite (Hnone p pn eq_refl Hpn).
  - by rewrite (bind_run _ _ _ None s) by (unfold registry_Load; cbn; by rewrite <-Ep).
Qed.
End registry.

(** ** Reading *)

Section reading.
Context {X : XSync} `{!XSyncLaws} {W A : Type} {clk : Clock W} {FA : FileAdapterOps W A}.
Implicit Types (s : FileSystem W A) (h : heap W A) (l i : loc) (n : Node) (id : Z).

Lemma Read_same_attr (ino : Inode A) ctx offset size w r ino' w' :
  Read ino ctx offset size w = Ret ((r, ino'), w') -> i_attr ino' = i_attr ino.
Proof.
  unfold Read. destruct (i_adapterPool ino) as [p|]; [|by intros [= <- <- <-]].
  intros (o & w1 & _ & Hk)%bind_inv. destruct o as [d|]; [by injection Hk as <- <- <-|].
  apply bind_inv in Hk as (buf & w2 & _ & Hk).
  apply bind_inv in Hk as ([[p' err] [buf' n]] & w3 & _ & Hk).
  destruct err; [by injection Hk as <- <- <-|].
  apply bind_inv in Hk as (d & w4 & _ & Hk). by injection Hk as <- <- <-.
Qed.

(** Writing back an inode with the same attributes. *)
Lemma same_inode h i (ino ino' : Inode A) :
  h_inodes h !! i = Some ino -> Ino (i_attr ino') = Ino (i_attr ino) ->
  same_tree h (set_inodes (<[i := ino']> (h_inodes h)) h).
Proof.
  intros Hi E. split; [done | | done]. intros j. unfold ino_at. cbn.
  destruct (decide (i = j)) as [<-|Hne]; [|by rewrite lookup_insert_ne].
  rewrite lookup_insert_eq, Hi. cbn. by rewrite E.
Qed.

Lemma inode_Read_inv i ctx offset size h r h' :
  inode_Read i ctx offset size h = Ret (r, h') ->
  exists ino ino' w', h_inodes h !! i = Some ino /\
    Read ino ctx offset size (h_world h) = Ret ((r, ino'), w') /\
    h' = set_world w' (set_inodes (<[i := ino']> (h_inodes h)) h).
Proof.
  unfold inode_Read. destruct (h_inodes h !! i) as [ino|] eqn:Hi; [|done].
  destruct (Read _ _ _ _ _) as [[[r0 ino'] w']| | |] eqn:E; try done.
  intros [= <- <-]. by exists ino, ino', w'.
Qed.

(** [fs_Read] is the inode's read between taking and giving back the node's
    reader lock. *)
Lemma fs_Read_run ctx id offset size s l n ino r ino' w' :
  Load (nodeRegistry s) id = Some l -> h_nodes (fs_heap s) !! l = Some n ->
  h_inodes (fs_heap s) !! n_inode n = Some ino -> readable (h_locks (fs_heap s)) (NodeMu l) ->
  Read ino ctx offset size (h_world (fs_heap s)) = Ret ((r, ino'), w') ->
  fs_Read ctx id offset size s
  = Ret (r, put_heap (set_world w' (set_inodes (<[n_inode n := ino']> (h_inodes (fs_heap s)))
                                      (fs_heap s))) s).
Proof.
  intros Hl Hn Hi Hr Hread. unfold fs_Read.
  rewrite (bind_run _ _ _ _ _ (GetNodeCtx_run s id l Hl Hr)).
  erewrite bind_run.
  2:{ apply on_heap_run. unfold ctx_Read. cbn [c_node open_ctx fs_heap put_heap].
      rewrite (bind_run _ _ _ _ _ (node_Inode_run (entered l (fs_heap s)) _ _ Hn)).
      unfold inode_Read. cbn [h_inodes entered set_locks h_world]. by rewrite Hi, Hread. }
  erewrite bind_run by (apply on_heap_run, (Close_run (fs_heap s)); done).
  unfold mret, GoM_ret, put_heap, set_world, set_inodes, set_locks, entered. done.
Qed.

Lemma fs_Read_inv ctx id offset size s l n ino r s' :
  Load (nodeRegistry s) id = Some l -> h_nodes (fs_heap s) !! l = Some n ->
  h_inodes (fs_heap s) !! n_inode n = Some ino -> readable (h_locks (fs_heap s)) (NodeMu l) ->
  fs_Read ctx id offset size s = Ret (r, s') ->
  exists ino' w', Read ino ctx offset size (h_world (fs_heap s)) = Ret ((r, ino'), w') /\
    s' = put_heap (set_world w' (set_inodes (<[n_inode n := ino']> (h_inodes (fs_heap s)))
                                   (fs_heap s))) s.
Proof.
  intros Hl Hn Hi Hr Hrun.
  destruct (Read ino ctx offset size (h_world (fs_heap s))) as [[[r0 ino'] w']| | |] eqn:E.
  { rewrite (fs_Read_run ctx id offset size s l n ino r0 ino' w') in Hrun by done.
    injection Hrun as <- <-. by exists ino', w'. }
  all: exfalso; unfold fs_Read in Hrun;
    rewrite (bind_run _ _ _ _ _ (GetNodeCtx_run s id l Hl Hr)) in Hrun;
    apply bind_inv in Hrun as (x & s1 & Hx & _); unfold on_heap, zoom, ctx_Read in Hx;
    cbn [fs_heap put_heap c_node open_ctx] in Hx;
    rewrite (bind_run _ _ _ _ _ (node_Inode_run (entered l (fs_heap s)) _ _ Hn)) in Hx;
    unfold inode_Read in Hx; cbn [h_inodes entered set_locks h_world] in Hx; by rewrite Hi, E in Hx.
Qed.
End reading.

(** ** The metadata refresh *)

Section refresh.
Context {X : XSync} `{!XSyncLaws} {W A : Type} {FL : FuseLib} `{!FuseLibLaws}.
Context {clk : Clock W} {FA : FileAdapterOps W A}.
Implicit Types (h : heap W A) (i : loc).

(** The goroutine of [RefreshMeta] runs to its end when the inode's mutex is
    free, changes nothing but that inode (not its number), and gives the mutex
    back. *)
Lemma refresh_body_run h i (ino : Inode A) pool :
  h_inodes h !! i = Some ino -> i_adapterPool ino = Some pool -> h_locks h !! InodeMu i = None ->
  exists h', refresh_body i h = Ret (tt, h') /\ same_tree h h' /\ h_locks h' = h_locks h /\
    h_tasks h' = h_tasks h.
Proof.
  intros Hi Hp Hl.
  set (Q := fun h1 => same_tree h h1 /\ h_locks h1 = h_locks h /\ h_tasks h1 = h_tasks h).
  assert (HQ : forall h1, Q h1 -> exists ino1, h_inodes h1 !! i = Some ino1).
  { intros h1 [[_ Ei _] _]. destruct (ino_at_dom h h1 i (Ei i)) as [ino1 ?]; [by eexists|].
    by exists ino1. }
  assert (HQw : forall h1 w, Q h1 -> Q (set_world w h1)).
  { intros h1 w (Hst & ? & ?). split; [|done]. etrans; [exact Hst | apply same_world]. }
  destruct (tryOperation_run (fun h1 => Background (h_world h1)) (refresh_operation i)
    (fun _ => True) Q Q pool h) as (p' & e & h1 & Hrun & _ & Hq).
  - intros h1 Hq. unfold time_now, heap_clock. destruct (clk (h_world h1)). by apply HQw.
  - intros a h1 _ Hq. unfold refresh_operation.
    destruct (fa_GetMeta (FileAdapter a) Background (h_world h1)) as [[meta|e] w].
    2:{ exists (Some e), (set_world w h1). split; [done | by apply HQw]. }
    destruct (HQ h1 Hq) as [ino1 Hi1]. destruct Hq as (Hst & Hlk & Htk). eexists None, _. split.
    + eapply (with_lock_run _ _ (set_world w h1)).
      * cbn. by rewrite Hlk.
      * by rewrite (bind_run _ _ _ _ _ (update_inode_run (set_locks _ (set_world w h1)) _ _ _ Hi1)).
      * done.
    + split; [|done]. etrans; [exact Hst|]. etrans; [eapply (same_inode h1 i ino1); [done|]|by split].
      cbn. pose proof (SetTimes_frame (set_Size (meta_Size meta) (i_attr ino1)) None
        (LastModified meta) None) as Hfr. injection Hfr as F1 _. by rewrite F1.
  - done.
  - by intros r a.
  - assert (Hq1 : Q h1) by by destruct e. destruct (HQ h1 Hq1) as [ino1 Hi1].
    destruct Hq1 as (Hst & Hlk & Htk). eexists. split; [|split].
    + unfold refresh_body. rewrite (bind_run _ _ _ _ _ (read_inode_run _ _ _ Hi)), Hp.
      cbn [deref]. rewrite bind_mret, (bind_run _ _ _ _ _ Hrun).
      by rewrite (update_inode_run _ _ _ _ Hi1).
    + etrans; [exact Hst|]. by apply (same_inode h1 i ino1).
    + done.
Qed.
End refresh.
