(* ===== verification/NodeLog.v ===== *)
(** The log builders of node contexts (src/filesystem/context.go): the entry
    of a node and, recursively, of the tree below it. zerolog's events are
    kept as trees of what is put into them. *)

From S2P Require Import Prelude Paths XSync DataCache AdapterPool Inode Heap Node NodeContext Tree.
From S2P Require Import FileSystem FileSystemSpec NodeRegistry.

(** The fields of one entry and the entries of the children. *)
Inductive NodeLog :=
  LogNode (nodeID : Z) (path : string) (path_err : option GoError) (attr : Attr) (children : list NodeLog).

Section log.
Context {X : XSync} {W A : Type}.
Abbreviation M := (GoM (heap W A)).

(** The path needs no more steps than the node's address (Node.v). *)
Definition LogNodeBuilder (ctx : NodeContext (W := W) (A := A)) : M (list NodeLog -> NodeLog) :=
  '(path, pErr) ← ctx_Path (S (c_node ctx)) ctx;
  id ← ctx_NodeID ctx;
  attr ← ctx_Attr ctx;
  mret (LogNode id path pErr attr).

(** [IterChildren] with the closure that collects the children's entries. *)
Fixpoint log_children (build : NodeContext (W := W) (A := A) -> M NodeLog) (ls : list loc) : M (list NodeLog) :=
  match ls with
  | [] => mret []
  | l :: ls' =>
      nc ← NewNodeContext l;
      t ← build nc;
      Close (Some nc);;
      ts ← log_children build ls';
      mret (t :: ts)
  end.

Fixpoint LogNodeTreeBuilder (fuel : nat) (ctx : NodeContext (W := W) (A := A)) : M NodeLog :=
  match fuel with
  | O => no_fuel
  | S f =>
      entry ← LogNodeBuilder ctx;
      ls ← UnsafeChildren ctx;
      chn ← log_children (LogNodeTreeBuilder f) ls;
      mret (entry chn)
  end.

(** ** What is logged *)

Implicit Types (h : heap W A) (l : loc) (t : NodeLog).

(** The log of a node: its identifier, its path, the attributes of its inode,
    and the logs of its children in the order of its map. *)
Inductive logs h : loc -> NodeLog -> Prop :=
  | logs_node l n ino p e d ts :
      h_nodes h !! l = Some n -> h_inodes h !! n_inode n = Some ino -> path_rel h l (p, e) d ->
      Forall2 (logs h) (Range (n_children n)).*2 ts ->
      logs h l (LogNode (n_nodeID n) p e (i_attr ino) ts).

Inductive entry_of t : NodeLog -> Prop :=
  | entry_here : entry_of t t
  | entry_below id p e a ts u : u ∈ ts -> entry_of t u -> entry_of t (LogNode id p e a ts).
End log.

Section log_spec.
Context {X : XSync} `{!XSyncLaws} {W A : Type}.
Implicit Types (h : heap W A) (l : loc) (t : locktable).

Lemma LogNodeBuilder_run r h t l n ino ctx :
  tree_wf r h -> no_writers t -> h_nodes h !! l = Some n -> h_inodes h !! n_inode n = Some ino -> c_node ctx = l ->
  exists p e d, path_rel h l (p, e) d /\
    LogNodeBuilder ctx (set_locks t h) = Ret (LogNode (n_nodeID n) p e (i_attr ino), set_locks t h).
Proof.
  intros Hwf Hw Hn Hi <-.
  destruct (path_rel_total h _ n (tree_parents_older _ _ Hwf) Hn) as ([p e] & d & Hrel & Hd).
  exists p, e, d. split; [done|]. unfold LogNodeBuilder.
  rewrite (bind_run _ _ _ _ _ (pathLocked_run _ _ _ d t (S (c_node ctx)) Hrel ltac:(lia) Hw)).
  rewrite (bind_run _ _ _ _ _ (NodeID_run (set_locks t h) _ n Hn)). unfold ctx_Attr.
  erewrite bind_run; [done|]. erewrite bind_run by by apply (node_Inode_run (set_locks t h)).
  apply (CopyAttr_run _ _ ino); [done | apply Hw].
Qed.

Lemma log_children_run h t build ls :
  no_writers t ->
  (forall l t', l ∈ ls -> no_writers t' ->
     exists log, build (open_ctx l) (set_locks t' h) = Ret (log, set_locks t' h) /\ logs h l log) ->
  exists logs_, log_children build ls (set_locks t h) = Ret (logs_, set_locks t h) /\ Forall2 (logs h) ls logs_.
Proof.
  intros Hw. induction ls as [|l ls IH]; intros Hb; cbn [log_children]; [by exists []|].
  rewrite (bind_run _ _ _ _ _ (NewNodeContext_run (set_locks t h) l (Hw _))).
  destruct (Hb l (rlocked (NodeMu l) t)) as (log & Hlog & Hl); [by left | by apply rlocked_no_writers|].
  change (entered l (set_locks t h)) with (set_locks (rlocked (NodeMu l) t) h).
  rewrite (bind_run _ _ _ _ _ Hlog).
  rewrite (bind_run _ _ _ _ _ (Close_run (set_locks t h) (set_locks (rlocked (NodeMu l) t) h) l (Hw _) eq_refl)).
  change (set_locks (h_locks (set_locks t h)) (set_locks (rlocked (NodeMu l) t) h)) with (set_locks t h).
  destruct IH as (logs_ & Hrun & Hall); [intros l' t' Hin; apply Hb; by right|].
  rewrite (bind_run _ _ _ _ _ Hrun). exists (log :: logs_). by split; [|constructor].
Qed.

Lemma LogNodeTreeBuilder_run r h fuel l n t :
  tree_wf r h -> no_writers t -> h_nodes h !! l = Some n -> (h_next h <= l + fuel)%nat ->
  exists log, LogNodeTreeBuilder fuel (open_ctx l) (set_locks t h) = Ret (log, set_locks t h) /\ logs h l log.
Proof.
  intros Hwf. revert l n t. induction fuel as [|fuel IH]; intros l n t Hw Hn Hf.
  { destruct (tw_fresh _ _ Hwf l) as [Hnone _]; [lia | congruence]. }
  destruct (tw_inode _ _ Hwf _ _ Hn) as [ino Hi]. cbn [LogNodeTreeBuilder].
  destruct (LogNodeBuilder_run r h t l n ino (open_ctx l) Hwf Hw Hn Hi eq_refl) as (p & e & d & Hrel & Hrun).
  rewrite (bind_run _ _ _ _ _ Hrun).
  assert (Hch : UnsafeChildren (open_ctx l) (set_locks t h) = Ret ((Range (n_children n)).*2, set_locks t h)).
  { unfold UnsafeChildren. by rewrite (bind_run _ _ _ _ _ (read_node_run (set_locks t h) l n Hn)). }
  rewrite (bind_run _ _ _ _ _ Hch).
  destruct (log_children_run h t (LogNodeTreeBuilder fuel) (Range (n_children n)).*2 Hw) as (ls & Hls & Hall).
  { intros c t' ([name c'] & -> & Hin)%list_elem_of_fmap Hw'. cbn [snd].
    apply elem_of_Range in Hin. rewrite <-(child_spec _ _ _ _ Hn) in Hin.
    destruct (tw_down _ _ Hwf _ _ _ Hin) as (Hlt & _ & cn & Hcn & _). apply (IH c' cn); [done | done | lia]. }
  rewrite (bind_run _ _ _ _ _ Hls). eexists. split; [done|]. by eapply logs_node.
Qed.

(** Every node below the logged one has its entry. *)
Lemma logs_walk h l log names x :
  logs h l log -> walk h l names = Some x -> exists u, entry_of u log /\ logs h x u.
Proof.
  revert l log. induction names as [|name names IH]; intros l log Hlog Hx.
  { injection Hx as <-. exists log. split; [constructor | done]. }
  cbn in Hx. destruct (child h l name) as [c|] eqn:Ec; [|done]. cbn in Hx.
  destruct Hlog as [l n ino p e d ts Hn Hi Hrel Hall]. rewrite (child_spec _ _ _ _ Hn) in Ec.
  apply elem_of_Range in Ec. apply (list_elem_of_fmap_2 snd) in Ec as (i & Hi')%list_elem_of_lookup.
  destruct (Forall2_lookup_l _ _ _ _ _ Hall Hi') as (u & Hu & Hlu).
  destruct (IH c u Hlu Hx) as (v & Hv & Hlv). exists v. split; [|done].
  eapply entry_below; [by eapply list_elem_of_lookup_2 | done].
Qed.

(** C34: logging the tree below a node comes to an end. On a well-formed tree
    and with no writer at work, [LogNodeTreeBuilder] returns within as many
    levels as there are addresses; it neither blocks on the mutexes it takes
    on the way down nor keeps any of them, changes nothing, and logs every
    node of the subtree with its identifier, path and attributes. *)
Theorem LogNodeTree_total (s : FileSystem W A) l n :
  fs_wf s -> no_writers (h_locks (fs_heap s)) -> h_nodes (fs_heap s) !! l = Some n ->
  exists log, LogNodeTreeBuilder (h_next (fs_heap s)) (open_ctx l) (fs_heap s) = Ret (log, fs_heap s) /\
    logs (fs_heap s) l log /\
    forall names x, walk (fs_heap s) l names = Some x -> exists u, entry_of u log /\ logs (fs_heap s) x u.
Proof.
  intros Hwf Hw Hn.
  destruct (LogNodeTreeBuilder_run (root s) (fs_heap s) (h_next (fs_heap s)) l n (h_locks (fs_heap s)))
    as (log & Hrun & Hlog); [apply Hwf | done | done | lia|].
  exists log. replace (set_locks (h_locks (fs_heap s)) (fs_heap s)) with (fs_heap s) in Hrun by by destruct (fs_heap s).
  split; [done|]. split; [done|]. intros names x. by apply logs_walk.
Qed.
End log_spec.
