(* ===== verification/Reachable.v ===== *)
(** The start state [NewFS] builds, the steps the filesystem can make, and the
    theorems about every state reached: the invariant, the uniqueness of
    identifiers, and reading a file through the registry. *)

From S2P Require Import Prelude Config Paths Request XSync DataCache AdapterPool Inode Heap.
From S2P Require Import Node NodeContext Tree FileSystem FileSystemSpec FileCreation.
From S2P Require Import NodeRegistry.

Section reachable.
Context {X : XSync} `{!XSyncLaws} {W A P : Type} {FL : FuseLib} `{!FuseLibLaws} {OS : Process}.
Context {clk : Clock W} {FA : FileAdapterOps W A} {AP : AdapterProvider W P A}.
Implicit Types (s : FileSystem W A) (h : heap W A) (l c i : loc) (n : Node) (id : Z).

(** ** The start *)

Definition root_node : Node := mkNode "" None FUSE_ROOT_ID NewMap false 0%nat.

(** The root is node 1 on inode 0, a directory r-xr-xr-x. *)
Definition started cfg (a : Attr) (w : W) : FileSystem W A :=
  mkFS cfg 1%nat FUSE_ROOT_ID FUSE_ROOT_ID (Store NewMap FUSE_ROOT_ID 1%nat)
    (mkHeap {[ 1%nat := root_node ]} {[ 0%nat := addHardLinkLocked 1%nat (NewInode a []) ]}
       2%nat [] ∅ w).

Lemma NewFS_run cfg w :
  exists a w' h', NewFS cfg (empty_heap w) = Ret (started cfg a w', h') /\
    Ino a = 1 /\ Mode a = S_IFDIR + 365.
Proof.
  unfold NewFS. destruct (newDefaultAttr_run FUSE_ROOT_ID (empty_heap (A := A) w)) as (a & w' & Ha & Hi & _).
  rewrite (bind_run _ _ _ _ _ Ha).
  exists (set_Mode (Z.lor S_IFDIR 365) a), w'. eexists. split; [|by split].
  cbn zeta. set (a' := set_Mode _ a).
  rewrite (bind_run _ _ _ _ _ (eq_refl : new_inode a' [] _ = Ret _)).
  erewrite bind_run by (apply NewNode_run; [apply lookup_insert_eq | done]). cbn iota.
  erewrite bind_run by (apply update_node_run, lookup_insert_eq).
  unfold mret, GoM_ret, started, mbind, GoM_bind, get_state, set_nodes. cbn.
  by rewrite !insert_insert_eq.
Qed.

Lemma started_child cfg a w l name : child (fs_heap (started cfg a w)) l name = None.
Proof.
  unfold child. cbn. destruct (decide (l = 1%nat)) as [->|Hne].
  - rewrite lookup_singleton_eq. cbn. apply Load_NewMap.
  - by rewrite lookup_singleton_ne.
Qed.

Lemma started_wf cfg a w : Ino a = 1 -> fs_wf (started cfg a w).
Proof.
  intros Ha. assert (Hino : forall i z, ino_at (fs_heap (started cfg a w)) i = Some z -> i = 0%nat /\ z = 1).
  { intros i z (ino & Hi & <-)%ino_at_some. cbn in Hi.
    apply lookup_singleton_Some in Hi as [<- <-]. done. }
  assert (Hnode : forall l n, h_nodes (fs_heap (started cfg a w)) !! l = Some n -> l = 1%nat /\ n = root_node).
  { cbn. by intros l n [<- <-]%lookup_singleton_Some. }
  split; [split|..].
  - exists root_node, (addHardLinkLocked 1%nat (NewInode a [])). by split_and!.
  - intros l n [-> ->]%Hnode. by eexists.
  - by intros l1 l2 n1 n2 [-> _]%Hnode [-> _]%Hnode.
  - cbn. intros l Hl. rewrite !lookup_singleton_ne by lia. done.
  - intros l name c. by rewrite started_child.
  - by intros c cn l [-> ->]%Hnode.
  - intros l1 l2 n1 n2 c. by rewrite started_child.
  - intros i z [_ ->]%Hino. cbn. unfold FUSE_ROOT_ID. lia.
  - by intros i j z [-> _]%Hino [-> _]%Hino.
  - by split.
  - intros l n [_ ->]%Hnode. right. cbn. unfold FUSE_ROOT_ID. lia.
  - by intros l1 l2 n1 n2 [-> _]%Hnode [-> _]%Hnode.
  - intros id l. cbn. rewrite Load_Store. case_decide as Hc; [|by rewrite Load_NewMap].
    intros [= <-]. subst id. split; [done|]. by exists root_node.
  - by split.
Qed.

(** ** Steps *)

(** The calls the rest of the program makes, the metadata goroutines, the
    methods of [Node] a client can reach, and the mutexes other goroutines
    take and release in between. A call that would have to wait for a writer
    happens after the wait. *)
Inductive fs_step : relation (FileSystem W A) :=
  | step_AddDirNode req r s s' :
      no_writers (h_locks (fs_heap s)) ->
      lastIno s + new_dirs s (rq_Path (dr_node req)) < 2 ^ 64 ->
      AddDirNode req s = Ret (r, s') -> fs_step s s'
  | step_AddFileNode (req : FileCreateRequest P) r s s' :
      no_writers (h_locks (fs_heap s)) ->
      lastIno s + new_dirs s (path_Split (rq_Path (fr_node req))).1 + 1 < 2 ^ 64 ->
      AddFileNode req s = Ret (r, s') -> fs_step s s'
  | step_EnsureNodeID l id s s' :
      is_Some (h_nodes (fs_heap s) !! l) -> lastNodeID s + 1 < 2 ^ 64 ->
      EnsureNodeID l s = Ret (id, s') -> fs_step s s'
  | step_GetChildCtx pid name r s s' :
      no_writers (h_locks (fs_heap s)) -> lastNodeID s + 1 < 2 ^ 64 ->
      GetChildCtx pid name s = Ret (r, s') -> fs_step s s'
  | step_GetNodeCtx id r s s' :
      no_writers (h_locks (fs_heap s)) -> GetNodeCtx id s = Ret (r, s') -> fs_step s s'
  | step_ForgetNodeID id s s' :
      no_writers (h_locks (fs_heap s)) -> ForgetNodeID id s = Ret (tt, s') -> fs_step s s'
  | step_Read ctx id offset size r s s' :
      no_writers (h_locks (fs_heap s)) -> fs_Read ctx id offset size s = Ret (r, s') -> fs_step s s'
  | step_locks t s : locks_fresh (set_locks t (fs_heap s)) ->
      fs_step s (put_heap (set_locks t (fs_heap s)) s)
  | step_refresh i s s' :
      h_locks (fs_heap s) !! InodeMu i = None -> on_heap (refresh_body i) s = Ret (tt, s') ->
      fs_step s s'
  | step_tasks ts s : fs_step s (put_heap (set_tasks ts (fs_heap s)) s)
  | step_Del l s s' :
      l <> root s -> h_locks (fs_heap s) !! NodeMu l = None -> on_heap (Del l) s = Ret (tt, s') ->
      fs_step s s'
  | step_RemoveChild l name b s s' :
      no_writers (h_locks (fs_heap s)) ->
      (forall c, child (fs_heap s) l name = Some c -> h_locks (fs_heap s) !! NodeMu c = None) ->
      on_heap (RemoveChild l name) s = Ret (b, s') -> fs_step s s'.

Definition fs_ok s : Prop := fs_wf s /\ locks_fresh (fs_heap s).

(** *** What a step leaves *)

(** Every node is still there, and its identifier, once given, is the same. *)
Definition keeps_ids s s' : Prop := forall l n, h_nodes (fs_heap s) !! l = Some n ->
  exists n', h_nodes (fs_heap s') !! l = Some n' /\ (n_nodeID n <> 0 -> n_nodeID n' = n_nodeID n).

#[export] Instance keeps_ids_preorder : PreOrder keeps_ids.
Proof.
  split.
  - intros s l n Hn. by exists n.
  - intros s1 s2 s3 K1 K2 l n (n2 & Hn2 & E2)%K1. destruct (K2 _ _ Hn2) as (n3 & Hn3 & E3).
    exists n3. split; [done|]. intros Hne. rewrite E3, E2; [done..|]. by rewrite E2.
Qed.

Lemma keeps_ids_nodes s s' : h_nodes (fs_heap s') = h_nodes (fs_heap s) -> keeps_ids s s'.
Proof. intros E l n Hn. exists n. by rewrite E. Qed.

Lemma keeps_ids_frame s s' : fs_frame s s' -> keeps_ids s s'.
Proof. intros F l n (m & Hm)%(ff_old _ _ F). by exists (set_children m n). Qed.

Lemma keeps_ids_registered s l n : n_nodeID n = 0 -> h_nodes (fs_heap s) !! l = Some n -> keeps_ids s (registered l n s).
Proof.
  intros Hz Hn x xn Hx. cbn. destruct (decide (l = x)) as [<-|Hne].
  - rewrite lookup_insert_eq. eexists. split; [done|]. intros. congruence.
  - rewrite lookup_insert_ne by done. by exists xn.
Qed.

Lemma put_nodes_keeps s m h :
  h_nodes h = m ->
  (forall l n, h_nodes (fs_heap s) !! l = Some n -> exists n', m !! l = Some n' /\ n_nodeID n' = n_nodeID n) ->
  keeps_ids s (put_heap h s).
Proof. intros <- Hm l n (n' & ? & ?)%Hm. by exists n'. Qed.

Lemma same_tree_ok s h :
  same_tree (fs_heap s) h -> h_locks h = h_locks (fs_heap s) -> fs_ok s -> fs_ok (put_heap h s).
Proof.
  intros Hst Hl [Hwf Hlk]. split; [by apply fs_wf_same|]. intros l. cbn. rewrite Hl, (st_next _ _ Hst).
  apply Hlk.
Qed.

Lemma frame_locks s s' : fs_frame s s' -> locks_fresh (fs_heap s) -> locks_fresh (fs_heap s').
Proof. intros F Hlk x. rewrite (ff_locks _ _ F). pose proof (ff_next _ _ F). intros ?. apply Hlk. lia. Qed.

Lemma AddDirNode_ok req r s s' :
  no_writers (h_locks (fs_heap s)) -> lastIno s + new_dirs s (rq_Path (dr_node req)) < 2 ^ 64 ->
  AddDirNode req s = Ret (r, s') -> fs_ok s -> fs_ok s' /\ keeps_ids s s'.
Proof.
  intros Hw Hm Hrun [Hwf Hlk]. destruct (AddDirNode_run req s Hwf Hlk Hw Hm) as (l & s1 & Hrun1 & Htr).
  rewrite Hrun in Hrun1. injection Hrun1 as -> <-.
  destruct (mkdirs_wf_frame _ _ _ _ _ _ Htr Hwf) as [? F].
  split; [split; [done | by eapply frame_locks] | by apply keeps_ids_frame].
Qed.

Lemma AddFileNode_ok (req : FileCreateRequest P) r s s' :
  no_writers (h_locks (fs_heap s)) ->
  lastIno s + new_dirs s (path_Split (rq_Path (fr_node req))).1 + 1 < 2 ^ 64 ->
  AddFileNode req s = Ret (r, s') -> fs_ok s -> fs_ok s' /\ keeps_ids s s'.
Proof.
  intros Hw Hm Hrun [Hwf Hlk]. destruct (path_Split (rq_Path (fr_node req))) as [dir name] eqn:Esp.
  destruct (AddFileNode_run req s dir name) as (p & s1 & Htr & Hend); [done..|].
  destruct (mkdirs_wf_frame _ _ _ _ _ _ Htr Hwf) as [Hwf1 F].
  pose proof (mkdirs_count _ _ _ _ _ _ Htr) as Hcnt. fold (new_dirs s dir) in Hcnt. cbn in Hm.
  destruct (child (fs_heap s1) p name) as [c|] eqn:Ec.
  { rewrite Hrun in Hend. injection Hend as -> ->.
    split; [split; [done | by eapply frame_locks] | by apply keeps_ids_frame]. }
  destruct Hend as (n & a & w & adapters & w' & Hn & Hino & _ & _ & Hend).
  destruct adapters as [|ad ads] eqn:Eads; [|rewrite <-Eads in *].
  - rewrite Hrun in Hend. injection Hend as -> ->.
    assert (Hok : fs_ok (put_heap (set_world w' (fs_heap s1)) s1)).
    { apply same_tree_ok; [apply same_world | done | by split; [|by eapply frame_locks]]. }
    split; [|by apply (keeps_ids_frame _ _ F)].
    destruct Hok as [Hwf2 ?]. split; [|done]. destruct (fw_lastIno _ Hwf1).
    split; try apply Hwf2; cbn.
    + intros i z Hi. apply (fw_ino _ Hwf2) in Hi. cbn in Hi. lia.
    + unfold in_u64. lia.
  - rewrite Hrun in Hend. injection Hend as -> ->.
    assert (F2 : fs_frame s (fs_attached p n name a adapters (h_tasks (fs_heap s1) ++ [h_next (fs_heap s1)]) w' s1))
      by (etrans; [exact F | apply fs_attached_frame; [done.. | set_solver]]).
    split; [split; [|by eapply frame_locks] | by apply keeps_ids_frame].
    apply fs_attached_wf; try done; [lia|]. apply (path_Split_spec _ _ _ Esp).
Qed.

Lemma EnsureNodeID_ok l id s s' :
  is_Some (h_nodes (fs_heap s) !! l) -> lastNodeID s + 1 < 2 ^ 64 ->
  EnsureNodeID l s = Ret (id, s') -> fs_ok s -> fs_ok s' /\ keeps_ids s s'.
Proof.
  intros [n Hn] Hm Hrun [Hwf Hlk]. rewrite (EnsureNodeID_run s l n Hwf Hn Hm) in Hrun.
  destruct (n_nodeID n =? 0) eqn:E; injection Hrun as <- <-; [|done]. apply Z.eqb_eq in E.
  split; [|by apply keeps_ids_registered]. split; [|done]. by apply registered_wf.
Qed.

Lemma GetNodeCtx_ok id r s s' :
  no_writers (h_locks (fs_heap s)) -> GetNodeCtx id s = Ret (r, s') ->
  fs_wf s -> exists t, s' = put_heap (set_locks t (fs_heap s)) s /\
    (r = None -> t = h_locks (fs_heap s)) /\
    (forall ctx, r = Some ctx -> exists l n, ctx = open_ctx l /\ Load (nodeRegistry s) id = Some l /\
       h_nodes (fs_heap s) !! l = Some n /\ t = rlocked (NodeMu l) (h_locks (fs_heap s))).
Proof.
  intros Hw Hrun Hwf. destruct (Load (nodeRegistry s) id) as [l|] eqn:El.
  - rewrite (GetNodeCtx_run s id l El (Hw _)) in Hrun. injection Hrun as <- <-.
    destruct (fw_reg _ Hwf _ _ El) as (_ & n & Hn & _).
    eexists. split; [done|]. split; [done|]. intros ctx [= <-]. by exists l, n.
  - rewrite (GetNodeCtx_none s id El) in Hrun. injection Hrun as <- <-.
    exists (h_locks (fs_heap s)). by rewrite set_locks_id, put_heap_id.
Qed.

(** Taking a reader lock on a node that exists. *)
Lemma enter_ok s l :
  is_Some (h_nodes (fs_heap s) !! l) -> fs_ok s -> fs_ok (put_heap (entered l (fs_heap s)) s).
Proof.
  intros [n Hn] [Hwf Hlk]. split; [apply fs_wf_same; [apply same_locks | done]|].
  intros x Hx. cbn in Hx |- *. destruct (Hlk x Hx) as [H1 H2].
  destruct (tw_fresh _ _ (fw_tree _ Hwf) x Hx) as [Hnone _].
  assert (l <> x) by congruence. unfold rlocked.
  destruct (h_locks (fs_heap s) !! NodeMu l) as [[k|]|]; rewrite !lookup_insert_ne by congruence; done.
Qed.

Lemma GetChildCtx_ok pid name r s s' :
  no_writers (h_locks (fs_heap s)) -> lastNodeID s + 1 < 2 ^ 64 ->
  GetChildCtx pid name s = Ret (r, s') -> fs_ok s -> fs_ok s' /\ keeps_ids s s'.
Proof.
  intros Hw Hm Hrun [Hwf Hlk].
  destruct (Load (nodeRegistry s) pid) as [p|] eqn:Ep.
  2:{ rewrite (GetChildCtx_none s pid name) in Hrun; [by injection Hrun as <- <- | congruence | done]. }
  destruct (fw_reg _ Hwf _ _ Ep) as (_ & pn & Hpn & _).
  destruct (Load (n_children pn) name) as [c|] eqn:Ec.
  2:{ rewrite (GetChildCtx_none s pid name) in Hrun; [by injection Hrun as <- <- | congruence | done]. }
  assert (Hch : child (fs_heap s) p name = Some c) by by rewrite (child_spec _ _ _ _ Hpn).
  destruct (tw_down _ _ (fw_tree _ Hwf) _ _ _ Hch) as (_ & _ & cn & Hcn & _).
  rewrite (GetChildCtx_run s pid p pn name c cn) in Hrun by done. injection Hrun as <- <-.
  destruct (n_nodeID cn =? 0) eqn:E.
  - apply Z.eqb_eq in E. split; [|by apply (keeps_ids_registered s c cn)].
    apply enter_ok; [eexists; apply lookup_insert_eq|]. split; [by apply registered_wf | done].
  - split; [by apply enter_ok; [eexists|] | by apply keeps_ids_nodes].
Qed.

Lemma fs_Read_ok ctx id offset size r s s' :
  no_writers (h_locks (fs_heap s)) -> fs_Read ctx id offset size s = Ret (r, s') ->
  fs_ok s -> fs_ok s' /\ keeps_ids s s'.
Proof.
  intros Hw Hrun [Hwf Hlk]. destruct (Load (nodeRegistry s) id) as [l|] eqn:El.
  2:{ unfold fs_Read in Hrun. rewrite (bind_run _ _ _ _ _ (GetNodeCtx_none s id El)) in Hrun.
      by injection Hrun as <- <-. }
  destruct (fw_reg _ Hwf _ _ El) as (_ & n & Hn & _).
  destruct (tw_inode _ _ (fw_tree _ Hwf) _ _ Hn) as [ino Hi].
  destruct (fs_Read_inv ctx id offset size s l n ino r s' El Hn Hi (Hw _) Hrun) as (ino' & w' & E & ->).
  split; [|by apply keeps_ids_nodes]. apply same_tree_ok; [|done|done].
  etrans; [by apply (same_inode (fs_heap s) (n_inode n) ino ino'); [|rewrite (Read_same_attr _ _ _ _ _ _ _ _ E)]|].
  apply same_world.
Qed.

Lemma Del_ok l s s' :
  l <> root s -> h_locks (fs_heap s) !! NodeMu l = None -> on_heap (Del l) s = Ret (tt, s') ->
  fs_ok s -> fs_ok s' /\ keeps_ids s s'.
Proof.
  intros Hne Hl Hrun [Hwf Hlk]. destruct (h_nodes (fs_heap s) !! l) as [n|] eqn:Hn.
  2:{ exfalso. unfold on_heap, zoom, Del, with_lock, Lock, on_locks, wlock in Hrun.
      unfold mbind, GoM_bind in Hrun. rewrite Hl in Hrun.
      unfold update_node, mbind, GoM_bind, read_node, mbind, GoM_bind in Hrun. cbn in Hrun.
      by rewrite Hn in Hrun. }
  destruct (tw_inode _ _ (fw_tree _ Hwf) _ _ Hn) as [ino Hi].
  rewrite (on_heap_run _ _ _ _ (Del_run _ _ _ _ Hn Hi Hl)) in Hrun. injection Hrun as <-.
  assert (Hok : fs_ok (put_heap (set_nodes (<[l := deleted n]> (h_nodes (fs_heap s))) (fs_heap s)) s)).
  { split; [|done]. apply fs_wf_nodes; [done|..].
    - apply (update_tree_wf _ _ n _ _ (fw_tree _ Hwf) Hn); try done; auto.
    - intros x xn [[<- <-]|[? ?]]%lookup_insert_Some; [by exists n | by exists xn].
    - intros x xn Hx. destruct (decide (l = x)) as [<-|?].
      + rewrite Hn in Hx. injection Hx as <-. exists (deleted n). by rewrite lookup_insert_eq.
      + exists xn. by rewrite lookup_insert_ne. }
  split.
  - refine (same_tree_ok _ _ _ _ Hok); [|done].
    by apply (same_inode (set_nodes _ (fs_heap s)) (n_inode n) ino).
  - eapply put_nodes_keeps; [reflexivity|]. intros x xn Hx. cbn. destruct (decide (l = x)) as [<-|?].
    + rewrite Hn in Hx. injection Hx as <-. exists (deleted n). by rewrite lookup_insert_eq.
    + exists xn. by rewrite lookup_insert_ne.
Qed.

Lemma RemoveChild_absent h l n name :
  h_nodes h !! l = Some n -> Load (n_children n) name = None ->
  RemoveChild l name h
  = Ret (false, set_nodes (<[l := set_children (Delete (n_children n) name) n]> (h_nodes h)) h).
Proof.
  intros Hn Hload. unfold RemoveChild.
  rewrite (bind_run _ _ _ _ _ (read_node_run _ _ _ Hn)), LoadAndDelete_spec, Hload.
  by rewrite (bind_run _ _ _ _ _ (update_node_run _ _ _ _ Hn)).
Qed.

Lemma RemoveChild_ok l name b s s' :
  (forall c, child (fs_heap s) l name = Some c -> h_locks (fs_heap s) !! NodeMu c = None) ->
  on_heap (RemoveChild l name) s = Ret (b, s') -> fs_ok s -> fs_ok s' /\ keeps_ids s s'.
Proof.
  intros Hlc Hrun [Hwf Hlk]. destruct (h_nodes (fs_heap s) !! l) as [n|] eqn:Hn.
  2:{ exfalso. unfold on_heap, zoom, RemoveChild, read_node, mbind, GoM_bind, mbind, GoM_bind in Hrun.
      cbn in Hrun. by rewrite Hn in Hrun. }
  pose proof (child_spec _ _ _ name Hn) as Hch.
  destruct (Load (n_children n) name) as [c|] eqn:Ec.
  - destruct (tw_down _ _ (fw_tree _ Hwf) _ _ _ Hch) as (Hlt & _ & cn & Hcn & _).
    rewrite (on_heap_run _ _ _ _ (RemoveChild_run _ l c n cn name Hn Ec Hcn ltac:(lia) (Hlc c Hch)))
      in Hrun. injection Hrun as <- <-.
    match goal with |- fs_ok (put_heap (set_nodes ?m _) _) /\ _ => set (nodes' := m) end.
    assert (Hforth : forall x xn, h_nodes (fs_heap s) !! x = Some xn ->
      exists xn', nodes' !! x = Some xn' /\ n_nodeID xn' = n_nodeID xn).
    { intros x xn Hx. unfold nodes'. destruct (decide (c = x)) as [<-|?]; [exists (set_parent None cn)|].
      { rewrite lookup_insert_eq. split; [done|]. by rewrite Hcn in Hx; injection Hx as <-. }
      rewrite lookup_insert_ne by done.
      destruct (decide (l = x)) as [<-|?]; [|rewrite lookup_insert_ne by done; eauto].
      rewrite lookup_insert_eq. rewrite Hn in Hx. injection Hx as <-. by eexists. }
    split; [split; [|done] | by eapply put_nodes_keeps]. unfold nodes' in *.
    apply fs_wf_nodes; [done | by apply unlink_tree_wf; [apply (fw_tree _ Hwf)|..] | | done].
    intros x xn [[<- <-]|[? [[<- <-]|[? ?]]%lookup_insert_Some]]%lookup_insert_Some; eauto.
  - rewrite (on_heap_run _ _ _ _ (RemoveChild_absent _ l n name Hn Ec)) in Hrun.
    injection Hrun as <- <-.
    match goal with |- fs_ok (put_heap (set_nodes ?m _) _) /\ _ => set (nodes' := m) end.
    assert (Hforth : forall x xn, h_nodes (fs_heap s) !! x = Some xn ->
      exists xn', nodes' !! x = Some xn' /\ n_nodeID xn' = n_nodeID xn).
    { intros x xn Hx. unfold nodes'. destruct (decide (l = x)) as [<-|?]; [|rewrite lookup_insert_ne by done; eauto].
      rewrite lookup_insert_eq. rewrite Hn in Hx. injection Hx as <-. by eexists. }
    split; [split; [|done] | by eapply put_nodes_keeps]. unfold nodes' in *.
    apply fs_wf_nodes; [done| | |done].
    + apply (update_tree_wf _ _ n _ _ (fw_tree _ Hwf) Hn); try done; [|auto].
      intros k. cbn. rewrite Load_Delete. by case_decide; subst.
    + intros x xn [[<- <-]|[? ?]]%lookup_insert_Some; eauto.
Qed.

Lemma refresh_ok i s s' :
  h_locks (fs_heap s) !! InodeMu i = None -> on_heap (refresh_body i) s = Ret (tt, s') ->
  fs_ok s -> fs_ok s' /\ keeps_ids s s'.
Proof.
  intros Hl Hrun Hok. destruct (h_inodes (fs_heap s) !! i) as [ino|] eqn:Hi.
  2:{ exfalso. unfold on_heap, zoom, refresh_body, read_inode, mbind, GoM_bind, mbind, GoM_bind in Hrun.
      cbn in Hrun. by rewrite Hi in Hrun. }
  destruct (i_adapterPool ino) as [pool|] eqn:Ep.
  2:{ exfalso. unfold on_heap, zoom, refresh_body in Hrun.
      by rewrite (bind_run _ _ _ _ _ (read_inode_run _ _ _ Hi)), Ep in Hrun. }
  destruct (refresh_body_run (fs_heap s) i ino pool Hi Ep Hl) as (h' & Hrun' & Hst & Hlk & _).
  rewrite (on_heap_run _ _ _ _ Hrun') in Hrun. injection Hrun as <-.
  split; [by apply same_tree_ok | by apply keeps_ids_nodes, (st_nodes _ _ Hst)].
Qed.

Lemma fs_step_ok s s' : fs_step s s' -> fs_ok s -> fs_ok s' /\ keeps_ids s s'.
Proof.
  destruct 1 as [req r s s' Hw Hm Hrun|req r s s' Hw Hm Hrun|l id s s' Hl Hm Hrun
    |pid name r s s' Hw Hm Hrun|id r s s' Hw Hrun|id s s' Hw Hrun|ctx id o z r s s' Hw Hrun
    |t s Ht|i s s' Hl Hrun|ts s|l s s' Hne Hl Hrun|l name b s s' Hw Hl Hrun].
  - by eapply AddDirNode_ok.
  - by eapply AddFileNode_ok.
  - by eapply EnsureNodeID_ok.
  - by eapply GetChildCtx_ok.
  - intros Hok. destruct (GetNodeCtx_ok id r s s' Hw Hrun (proj1 Hok)) as (t & -> & Hnone & Hsome).
    split; [|by apply keeps_ids_nodes]. destruct r as [ctx|].
    + destruct (Hsome ctx eq_refl) as (l & n & _ & _ & Hn & ->). by apply enter_ok; [eexists|].
    + rewrite Hnone by done. by rewrite set_locks_id, put_heap_id.
  - intros Hok. rewrite (ForgetNodeID_run s id) in Hrun by (intros; apply Hw).
    destruct (Load (nodeRegistry s) id); injection Hrun as <-; [|done].
    split; [split; [apply forget_wf|]; apply Hok | by apply keeps_ids_nodes].
  - by eapply fs_Read_ok.
  - intros [Hwf _]. split; [|by apply keeps_ids_nodes]. split; [|done]. apply fs_wf_same; [apply same_locks | done].
  - by eapply refresh_ok.
  - intros Hok. split; [by apply same_tree_ok; [apply same_tasks|..] | by apply keeps_ids_nodes].
  - by eapply Del_ok.
  - by eapply RemoveChild_ok.
Qed.

Lemma fs_steps_keep s s' : rtc fs_step s s' -> fs_ok s -> fs_ok s' /\ keeps_ids s s'.
Proof.
  induction 1 as [s|s1 s2 s3 Hstep _ IH]; [done|]. intros Hok1.
  destruct (fs_step_ok _ _ Hstep Hok1) as [Hok2 K]. destruct (IH Hok2). split; [done | by etrans].
Qed.

Lemma fs_steps_ok cfg w s0 h s :
  NewFS cfg (empty_heap w) = Ret (s0, h) -> rtc fs_step s0 s -> fs_ok s.
Proof.
  intros Hnew Hsteps. destruct (NewFS_run cfg w) as (a & w' & h' & Hrun & Ha & _).
  rewrite Hrun in Hnew. injection Hnew as <- _.
  assert (Hok : fs_ok (started cfg a w')) by (split; [by apply started_wf | done]).
  by apply (fs_steps_keep _ _ Hsteps).
Qed.

(** A node that has an identifier keeps it. *)
Lemma EnsureNodeID_known s l n :
  h_nodes (fs_heap s) !! l = Some n -> n_nodeID n <> 0 -> EnsureNodeID l s = Ret (n_nodeID n, s).
Proof.
  intros Hn Hid. unfold EnsureNodeID.
  rewrite (bind_run _ _ _ _ _ (on_heap_run _ _ _ _ (NodeID_run _ _ _ Hn))), put_heap_id.
  by rewrite (proj2 (Z.eqb_neq _ _)).
Qed.

(** From then on the identifier of a node is its own. *)
Lemma identifier_stays s s' l n :
  fs_ok s -> rtc fs_step s s' -> h_nodes (fs_heap s) !! l = Some n -> n_nodeID n <> 0 ->
  EnsureNodeID l s' = Ret (n_nodeID n, s') /\
  (forall l' n', l' <> l -> h_nodes (fs_heap s') !! l' = Some n' -> n_nodeID n' <> n_nodeID n) /\
  (forall l', Load (nodeRegistry s') (n_nodeID n) = Some l' -> l' = l).
Proof.
  intros Hok Hsteps Hn Hid. destruct (fs_steps_keep _ _ Hsteps Hok) as [[Hwf' _] K].
  destruct (K l n Hn) as (n1 & Hn1 & E). specialize (E Hid). rewrite <-E.
  split; [apply EnsureNodeID_known; congruence|]. split.
  - intros l' n' Hne Hn' Hid'. apply Hne. eapply (fw_id_inj _ Hwf'); [done..|]. congruence.
  - intros l' (? & n' & Hn' & E')%(fw_reg _ Hwf'). eapply (fw_id_inj _ Hwf'); [done..|]. congruence.
Qed.
End reachable.

(** ** Properties *)

Section reachable_properties.
Context {X : XSync} `{!XSyncLaws} {W A P : Type} {FL : FuseLib} `{!FuseLibLaws} {OS : Process}.
Context {clk : Clock W} {FA : FileAdapterOps W A} {AP : AdapterProvider W P A}.
Implicit Types (s : FileSystem W A) (l c : loc) (n : Node) (id : Z).

(** C2: the invariant. [NewFS] returns, and in every state reached from it by
    any interleaving of the filesystem's calls, metadata refreshes, deletions
    and removals, the node tree is well formed (links agree in both
    directions and go from older to younger nodes, nobody is in two maps), inode
    numbers are unique and at most the counter, node identifiers are unique
    and at most their counter, and the registry maps identifiers to nodes
    that carry them. *)
Theorem fs_invariant cfg w :
  exists s0 h, NewFS cfg (empty_heap w) = Ret (s0, h) /\
    forall s, rtc (fs_step (P := P)) s0 s -> fs_wf s /\ locks_fresh (fs_heap s).
Proof.
  destruct (NewFS_run (A := A) cfg w) as (a & w' & h' & Hrun & Ha & _). eexists _, _. split; [exact Hrun|].
  intros s Hs. by eapply fs_steps_ok.
Qed.

(** C11: a node identifier names one node for the whole session. In a reachable
    state [EnsureNodeID] returns an identifier that is not zero; an identifier
    given out now is in the registry, and no other entry has changed. In that
    state and in every state of the session after it, whatever calls, removals
    and deletions happen in between ([ForgetNodeID] of this very identifier
    included), [EnsureNodeID] of the node returns the same identifier and
    changes nothing, no other node has it, be it older or created later, and
    the registry never maps it to another node. *)
Theorem EnsureNodeID_unique cfg w s0 h s l n :
  NewFS cfg (empty_heap w) = Ret (s0, h) -> rtc (fs_step (P := P)) s0 s ->
  h_nodes (fs_heap s) !! l = Some n -> lastNodeID s + 1 < 2 ^ 64 ->
  exists id s', EnsureNodeID l s = Ret (id, s') /\ id <> 0 /\
    (n_nodeID n = 0 -> Load (nodeRegistry s') id = Some l) /\
    (forall id', id' <> id -> Load (nodeRegistry s') id' = Load (nodeRegistry s) id') /\
    forall s2, rtc (fs_step (P := P)) s' s2 ->
      EnsureNodeID l s2 = Ret (id, s2) /\
      (forall l' n', l' <> l -> h_nodes (fs_heap s2) !! l' = Some n' -> n_nodeID n' <> id) /\
      (forall l', Load (nodeRegistry s2) id = Some l' -> l' = l).
Proof.
  intros Hnew Hs Hn Hm. pose proof (fs_steps_ok _ _ _ _ _ Hnew Hs) as Hok. pose proof Hok as [Hwf Hlk].
  destruct (fw_lastID _ Hwf) as [Hid _].
  pose proof (EnsureNodeID_run s l n Hwf Hn ltac:(lia)) as Hrun.
  destruct (n_nodeID n =? 0) eqn:E.
  - apply Z.eqb_eq in E. eexists _, _. split; [exact Hrun|]. split; [lia|]. split; [|split].
    + intros _. cbn. apply Load_Store_eq.
    + intros id' Hne. cbn. by rewrite Load_Store_ne.
    + intros s2 Hs2. refine (identifier_stays (registered l n s) s2 l (set_nodeID (lastNodeID s + 1) n) _ Hs2 _ _).
      * split; [apply registered_wf; try done; lia | done].
      * apply lookup_insert_eq.
      * cbn. lia.
  - apply Z.eqb_neq in E. exists (n_nodeID n), s. rewrite Hrun. split_and!; [done..|].
    intros s2 Hs2. by apply (identifier_stays s s2 l n).
Qed.

(** A lookup through the registry. When the parent's identifier is
    registered and the child exists, [GetChildCtx] returns the context of the
    child, holding its reader lock on top of the locks there were; the child's
    identifier is not zero; closing the context restores the mutexes. *)
Theorem GetChildCtx_found cfg w s0 h s pid p name c :
  NewFS cfg (empty_heap w) = Ret (s0, h) -> rtc (fs_step (P := P)) s0 s ->
  no_writers (h_locks (fs_heap s)) -> lastNodeID s + 1 < 2 ^ 64 ->
  Load (nodeRegistry s) pid = Some p -> child (fs_heap s) p name = Some c ->
  exists ctx s1 id s2, GetChildCtx pid name s = Ret (Some ctx, s1) /\ c_node ctx = c /\
    h_locks (fs_heap s1) = rlocked (NodeMu c) (h_locks (fs_heap s)) /\
    ctx_NodeID ctx (fs_heap s1) = Ret (id, fs_heap s1) /\ id <> 0 /\
    on_heap (Close (Some ctx)) s1 = Ret (Some {| c_node := c; closeFns := [] |}, s2) /\
    h_locks (fs_heap s2) = h_locks (fs_heap s).
Proof.
  intros Hnew Hs Hw Hm Hp Hc. destruct (fs_steps_ok _ _ _ _ _ Hnew Hs) as [Hwf _].
  destruct (fw_lastID _ Hwf) as [Hid _].
  destruct (fw_reg _ Hwf _ _ Hp) as (_ & pn & Hpn & _).
  destruct (tw_down _ _ (fw_tree _ Hwf) _ _ _ Hc) as (_ & _ & cn & Hcn & _).
  rewrite (child_spec _ _ _ _ Hpn) in Hc.
  pose proof (GetChildCtx_run s pid p pn name c cn Hwf Hm Hp Hpn Hc Hcn (Hw _)) as Hrun. cbn zeta in Hrun.
  destruct (n_nodeID cn =? 0) eqn:E.
  - eexists _, _, (lastNodeID s + 1), _. split; [exact Hrun|]. split; [done|]. split; [done|].
    split; [by apply (NodeID_run _ c (set_nodeID (lastNodeID s + 1) cn)), lookup_insert_eq|].
    split; [lia|]. split; [apply on_heap_run, (Close_run (fs_heap s)); done | done].
  - eexists _, _, (n_nodeID cn), _. split; [exact Hrun|]. split; [done|]. split; [done|].
    split; [by apply (NodeID_run _ c cn)|]. split; [by apply Z.eqb_neq in E|].
    split; [apply on_heap_run, (Close_run (fs_heap s)); done | done].
Qed.

(** C12: what is forgotten stays forgotten. After [ForgetNodeID] on a node's
    identifier, a new lookup of that node under its parent still succeeds and
    reports the old identifier, which the registry no longer knows: every
    request the kernel then makes on it finds no node. *)
Theorem ForgetNodeID_stale cfg w s0 h s pid p name c cn :
  NewFS cfg (empty_heap w) = Ret (s0, h) -> rtc (fs_step (P := P)) s0 s ->
  no_writers (h_locks (fs_heap s)) -> lastNodeID s + 1 < 2 ^ 64 ->
  Load (nodeRegistry s) pid = Some p -> child (fs_heap s) p name = Some c ->
  h_nodes (fs_heap s) !! c = Some cn -> n_nodeID cn <> 0 -> n_nodeID cn <> pid ->
  exists s1 ctx s2, ForgetNodeID (n_nodeID cn) s = Ret (tt, s1) /\
    GetChildCtx pid name s1 = Ret (Some ctx, s2) /\
    ctx_NodeID ctx (fs_heap s2) = Ret (n_nodeID cn, fs_heap s2) /\
    GetNodeCtx (n_nodeID cn) s2 = Ret (None, s2).
Proof.
  intros Hnew Hs Hw Hm Hp Hc Hcn Hne Hpid. destruct (fs_steps_ok _ _ _ _ _ Hnew Hs) as [Hwf _].
  destruct (fw_reg _ Hwf _ _ Hp) as (_ & pn & Hpn & _).
  rewrite (child_spec _ _ _ _ Hpn) in Hc.
  assert (Hrun : exists s1, ForgetNodeID (n_nodeID cn) s = Ret (tt, s1) /\ fs_wf s1 /\
    fs_heap s1 = fs_heap s /\ lastNodeID s1 = lastNodeID s /\
    Load (nodeRegistry s1) (n_nodeID cn) = None /\ Load (nodeRegistry s1) pid = Some p).
  { rewrite (ForgetNodeID_run s) by (intros; apply Hw).
    destruct (Load (nodeRegistry s) (n_nodeID cn)) as [l|] eqn:El.
    - eexists. split; [done|]. split; [by apply forget_wf|]. cbn.
      by rewrite Load_Delete_eq, Load_Delete_ne by done.
    - by exists s. }
  destruct Hrun as (s1' & Hrun & Hwf1 & Hh & Hid & Hnone & Hp1).
  exists s1', (open_ctx c), (put_heap (entered c (fs_heap s1')) s1').
  split; [done|]. split; [|split].
  - rewrite (GetChildCtx_run s1' pid p pn name c cn); rewrite ?Hh, ?Hid; try done.
    by rewrite (proj2 (Z.eqb_neq _ _) Hne), Hh.
  - apply NodeID_run. cbn. by rewrite Hh.
  - by apply GetNodeCtx_none.
Qed.

(** Reading through the registry. For a registered node whose inode serves
    the file [c], [Read] returns, a nil error comes with exactly the file's
    bytes, and afterwards the state is well formed with the mutexes as before;
    for an identifier the registry does not know it is the error for a missing
    node, without any effect. *)
Theorem fs_Read_refines cfg w s0 h s id (c : bytes) ctx offset size :
  NewFS cfg (empty_heap w) = Ret (s0, h) -> rtc (fs_step (P := P)) s0 s ->
  no_writers (h_locks (fs_heap s)) -> valid_request offset size -> size <= maxAlloc ->
  (forall l n ino, Load (nodeRegistry s) id = Some l -> h_nodes (fs_heap s) !! l = Some n ->
     h_inodes (fs_heap s) !! n_inode n = Some ino -> inode_serves c ino) ->
  exists r s', fs_Read ctx id offset size s = Ret (r, s') /\ fs_wf s' /\
    h_locks (fs_heap s') = h_locks (fs_heap s) /\
    (forall d, r = Ok d -> d = file_bytes c offset size) /\
    (Load (nodeRegistry s) id = None -> r = Err (ErrNodeNotFound id) /\ s' = s).
Proof.
  intros Hnew Hs Hw Hv Hmax Hserves. pose proof (fs_steps_ok _ _ _ _ _ Hnew Hs) as Hok.
  pose proof Hok as [Hwf _]. destruct (Load (nodeRegistry s) id) as [l|] eqn:El.
  - destruct (fw_reg _ Hwf _ _ El) as (_ & n & Hn & _).
    destruct (tw_inode _ _ (fw_tree _ Hwf) _ _ Hn) as [ino Hi].
    destruct (Read_run c ino ctx offset size (h_world (fs_heap s)) (Hserves l n ino eq_refl Hn Hi) Hv Hmax)
      as (r & ino' & w' & Hread & _ & _ & Hd).
    pose proof (fs_Read_run ctx id offset size s l n ino r ino' w' El Hn Hi (Hw _) Hread) as Hrun.
    exists r. eexists. split; [exact Hrun|].
    split; [by apply (fs_Read_ok _ _ _ _ _ _ _ Hw Hrun Hok)|]. by split_and!.
  - exists (Err (ErrNodeNotFound id)), s. unfold fs_Read.
    by rewrite (bind_run _ _ _ _ _ (GetNodeCtx_none s id El)).
Qed.
End reachable_properties.
