(* ===== verification/FileSystemSamples.v ===== *)
(** A concrete filesystem on which the theorems about the filesystem apply:
    in-memory adapters, a clock as the world, finite maps for [xsync.Map]. *)

From S2P Require Import Prelude Config Paths Request XSync DataCache AdapterPool Inode Heap.
From S2P Require Import Node NodeContext Tree FileSystem FileSystemSpec FileCreation.
From S2P Require Import NodeRegistry Reachable NodeLog.

Module FSSample.

#[global] Instance fuse_lib : FuseLib := fun a t1 t2 t3 =>
  let sec t old := match t with Some t => u64 (t / Second) | None => old end in
  let nsec t old := match t with Some t => t mod Second | None => old end in
  mkAttr (Ino a) (Size a) (Blocks a) (sec t1 (Atime a)) (sec t2 (Mtime a)) (sec t3 (Ctime a))
    (nsec t1 (Atimensec a)) (nsec t2 (Mtimensec a)) (nsec t3 (Ctimensec a))
    (Mode a) (Nlink a) (Uid a) (Gid a) (Rdev a) (Blksize a) (Padding a).

#[global] Instance fuse_lib_laws : FuseLibLaws.
Proof. by intros a t1 t2 t3. Qed.

#[global] Instance process : Process := {| Getuid := 1000; Getgid := 1000 |}.

(** A provider hands out its file, or fails. *)
#[global] Instance providers : AdapterProvider Z (option bytes) Sample.adapter := fun p cfg w =>
  (match p with Some c => Ok (Some c) | None => Err (ErrExternal "bad config") end, w).

Abbreviation fs := (FileSystem Z Sample.adapter).

Definition rq (path : string) : NodeRequest := mkNodeRequest path FileNodeType "" 0 7 8 9 420 5 6 4096.
Definition dir_req (path : string) : DirCreateRequest := mkDirRequest (rq path).
Definition file_req (path : string) (srcs : list (option bytes)) : FileCreateRequest (option bytes) :=
  mkFileRequest (rq path) ((fun p => mkSource p [] 0) <$> srcs).

Definition run {B} (o : outcome (B * fs)) (d : fs) : fs :=
  match o with Ret (_, s) => s | _ => d end.

Definition fs0 : fs :=
  match NewFS defaultConfig (empty_heap 0) with
  | Ret (s, _) => s
  | _ => started defaultConfig Sample.attr0 0
  end.
Definition fs1 : fs := run (AddFileNode (file_req "/docs/a.txt" [None; Some sample_file]) fs0) fs0.
(** [docs] is looked up below the root, then [a.txt] below it. *)
Definition fs2 : fs := run (EnsureNodeID 3%nat fs1) fs1.
Definition fs3 : fs := run (EnsureNodeID 5%nat fs2) fs2.

Lemma new0 : exists h, NewFS (W := Z) (A := Sample.adapter) defaultConfig (empty_heap 0) = Ret (fs0, h).
Proof.
  destruct (NewFS_run (A := Sample.adapter) defaultConfig 0) as (a & w & h & Hrun & _).
  exists h. unfold fs0. by rewrite Hrun.
Qed.

Lemma unlocked (s : fs) : h_locks (fs_heap s) = ∅ -> no_writers (h_locks (fs_heap s)).
Proof. intros ->. apply no_writers_empty. Qed.

Lemma step1 : fs_step (P := option bytes) fs0 fs1.
Proof.
  eapply (step_AddFileNode (file_req "/docs/a.txt" [None; Some sample_file]) (Ok 5%nat)).
  - apply unlocked. vm_compute. reflexivity.
  - vm_compute. reflexivity.
  - vm_compute. reflexivity.
Qed.

Lemma step2 : fs_step (P := option bytes) fs1 fs2.
Proof.
  eapply (step_EnsureNodeID 3%nat 2); [apply is_Some_alt; vm_compute; exact I | vm_compute; reflexivity..].
Qed.

Lemma step3 : fs_step (P := option bytes) fs2 fs3.
Proof.
  eapply (step_EnsureNodeID 5%nat 3); [apply is_Some_alt; vm_compute; exact I | vm_compute; reflexivity..].
Qed.

Lemma steps1 : rtc (fs_step (P := option bytes)) fs0 fs1.
Proof. apply rtc_once, step1. Qed.

Lemma steps3 : rtc (fs_step (P := option bytes)) fs0 fs3.
Proof. eapply rtc_l; [exact step1|]. eapply rtc_l; [exact step2|]. apply rtc_once, step3. Qed.

Lemma ok0 : fs_ok fs0.
Proof. destruct new0 as [h Hnew]. eapply (fs_steps_ok (P := option bytes)); [exact Hnew | apply rtc_refl]. Qed.

Lemma ok1 : fs_ok fs1.
Proof. destruct new0 as [h Hnew]. eapply (fs_steps_ok (P := option bytes)); [exact Hnew | exact steps1]. Qed.

Lemma can0 n : n < 2 ^ 60 -> can_add fs0 n.
Proof.
  intros Hn. destruct ok0 as [Hwf Hlk]. split_and!; [done | done | apply unlocked; vm_compute; reflexivity |].
  replace (lastIno fs0) with 1 by (vm_compute; reflexivity). lia.
Qed.

Lemma can1 n : n < 2 ^ 60 -> can_add fs1 n.
Proof.
  intros Hn. destruct ok1 as [Hwf Hlk]. split_and!; [done | done | apply unlocked; vm_compute; reflexivity |].
  replace (lastIno fs1) with 3 by (vm_compute; reflexivity). lia.
Qed.

(** Properties of the nodes of a heap, decided. *)
Lemma nodes_forall (s : fs) (q : Node -> bool) :
  forallb (fun kv => q kv.2) (map_to_list (h_nodes (fs_heap s))) = true ->
  forall l n, h_nodes (fs_heap s) !! l = Some n -> q n = true.
Proof.
  intros Hall l n Hn. rewrite forallb_forall in Hall.
  apply (Hall (l, n)), list_elem_of_In. by apply elem_of_map_to_list.
Qed.

Lemma live1 : live (fs_heap fs1).
Proof.
  intros l n Hn. apply negb_true_iff. revert l n Hn.
  apply (nodes_forall fs1 (fun n => negb (n_isDel n))). vm_compute. reflexivity.
Qed.

Lemma names1 x name c : child (fs_heap fs1) x name = Some c -> name <> "".
Proof.
  intros (n & Hn & Hc)%bind_Some. intros ->.
  pose proof (nodes_forall fs1 (fun n => match Load (n_children n) "" with None => true | Some _ => false end)
    ltac:(vm_compute; reflexivity) x n Hn) as Hno. cbn beta in Hno. by rewrite Hc in Hno.
Qed.
End FSSample.

Import FSSample.

Lemma AddDirNode_mkdir_p_witness :
  exists l s', AddDirNode (dir_req "/docs/old//b/") fs1 = Ret (Ok l, s') /\ fs_wf s' /\
    walk (fs_heap s') (root s') ["docs"; "old"; "b"] = Some l /\
    (forall p x, walk (fs_heap fs1) (root fs1) p = Some x -> walk (fs_heap s') (root s') p = Some x) /\
    (forall p x, walk (fs_heap fs1) (root fs1) p = None -> walk (fs_heap s') (root s') p = Some x ->
       p `prefix_of` ["docs"; "old"; "b"] /\ made_dir (rq "/docs/old//b/") (fs_heap s') x) /\
    lastIno s' = lastIno fs1 + 2 /\ h_locks (fs_heap s') = h_locks (fs_heap fs1).
Proof.
  apply (AddDirNode_mkdir_p (dir_req "/docs/old//b/") fs1 (proj1 ok1) (proj2 ok1)).
  - apply unlocked. vm_compute. reflexivity.
  - vm_compute. reflexivity.
Defined.

Lemma AddDirNode_idempotent_witness :
  AddDirNode (dir_req "docs/b") (run (AddDirNode (dir_req "docs/b") fs1) fs1)
  = Ret (Ok 7%nat, run (AddDirNode (dir_req "docs/b") fs1) fs1).
Proof.
  apply (AddDirNode_idempotent (dir_req "docs/b") 7%nat fs1 _ (proj1 ok1) (proj2 ok1)).
  - apply unlocked. vm_compute. reflexivity.
  - vm_compute. reflexivity.
  - vm_compute. reflexivity.
Defined.

Lemma Path_resolve_witness :
  Path 6 5%nat (fs_heap fs1) = Ret (("docs/a.txt", None), fs_heap fs1) <->
  walk (fs_heap fs1) (root fs1) ["docs"; "a.txt"] = Some 5%nat /\ "docs/a.txt" = join_path ["docs"; "a.txt"].
Proof.
  apply (Path_resolve fs1 5%nat "docs/a.txt" (proj1 ok1)).
  - apply live1.
  - apply unlocked. vm_compute. reflexivity.
  - apply names1.
  - apply is_Some_alt. vm_compute. exact I.
Defined.

Lemma AddFileNode_creates_witness :
  exists l s', AddFileNode (file_req "docs/new/b.txt" [None; Some sample_file]) fs1 = Ret (Ok l, s') /\
    fs_wf s' /\ walk (fs_heap s') (root s') ["docs"; "new"; "b.txt"] = Some l /\
    (exists w, made_file (rq "docs/new/b.txt")
       (adapters_of (Sources (file_req "docs/new/b.txt" [None; Some sample_file])) w).1 (fs_heap s') l) /\
    (forall p x, walk (fs_heap fs1) (root fs1) p = Some x -> walk (fs_heap s') (root s') p = Some x) /\
    (forall p x, walk (fs_heap fs1) (root fs1) p = None -> walk (fs_heap s') (root s') p = Some x ->
       p = ["docs"; "new"; "b.txt"] \/
       p `prefix_of` ["docs"; "new"] /\ made_dir (rq "docs/new/b.txt") (fs_heap s') x) /\
    h_locks (fs_heap s') = h_locks (fs_heap fs1).
Proof.
  apply (AddFileNode_creates (file_req "docs/new/b.txt" [None; Some sample_file]) fs1 "docs/new/" "b.txt").
  - reflexivity.
  - apply can1. vm_compute. reflexivity.
  - vm_compute. reflexivity.
  - intros w. done.
Defined.

Lemma AddFileNode_exists_witness :
  AddFileNode (file_req "docs/a.txt" [Some sample_file]) fs1 = Ret (Err (ErrFileExists "docs/a.txt"), fs1).
Proof.
  apply (AddFileNode_exists (file_req "docs/a.txt" [Some sample_file]) fs1 "docs/" "a.txt" 5%nat).
  - reflexivity.
  - apply can1. lia.
  - vm_compute. reflexivity.
Defined.

Lemma AddFileNode_no_adapters_witness :
  exists s', AddFileNode (file_req "docs/c/d.txt" [None; None]) fs1 = Ret (Err ErrNoValidAdapters, s') /\
    is_Some (walk (fs_heap s') (root s') ["docs"; "c"]) /\
    walk (fs_heap s') (root s') ["docs"; "c"; "d.txt"] = None /\
    lastIno s' = lastIno fs1 + 1 + 1.
Proof.
  apply (AddFileNode_no_adapters (file_req "docs/c/d.txt" [None; None]) fs1 "docs/c/" "d.txt").
  - reflexivity.
  - apply can1. vm_compute. reflexivity.
  - vm_compute. reflexivity.
  - intros w. done.
Defined.

Definition docs_node : Node :=
  match h_nodes (fs_heap fs3) !! 3%nat with Some n => n | None => root_node end.
Definition a_node : Node :=
  match h_nodes (fs_heap fs3) !! 5%nat with Some n => n | None => root_node end.

Lemma docs_found : h_nodes (fs_heap fs3) !! 3%nat = Some docs_node.
Proof. vm_compute. reflexivity. Qed.
Lemma a_found : h_nodes (fs_heap fs3) !! 5%nat = Some a_node.
Proof. vm_compute. reflexivity. Qed.

Lemma EnsureNodeID_unique_witness :
  exists id s', EnsureNodeID 5%nat fs3 = Ret (id, s') /\ id <> 0 /\
    (n_nodeID a_node = 0 -> Load (nodeRegistry s') id = Some 5%nat) /\
    (forall id', id' <> id -> Load (nodeRegistry s') id' = Load (nodeRegistry fs3) id') /\
    forall s2, rtc (fs_step (P := option bytes)) s' s2 ->
      EnsureNodeID 5%nat s2 = Ret (id, s2) /\
      (forall l' n', l' <> 5%nat -> h_nodes (fs_heap s2) !! l' = Some n' -> n_nodeID n' <> id) /\
      (forall l', Load (nodeRegistry s2) id = Some l' -> l' = 5%nat).
Proof.
  destruct new0 as [h Hnew].
  apply (EnsureNodeID_unique (P := option bytes) _ _ _ _ fs3 5%nat a_node Hnew steps3 a_found).
  vm_compute. reflexivity.
Defined.

Lemma GetChildCtx_found_witness :
  exists ctx s1 id s2, GetChildCtx 2 "a.txt" fs3 = Ret (Some ctx, s1) /\ c_node ctx = 5%nat /\
    h_locks (fs_heap s1) = rlocked (NodeMu 5%nat) (h_locks (fs_heap fs3)) /\
    ctx_NodeID ctx (fs_heap s1) = Ret (id, fs_heap s1) /\ id <> 0 /\
    on_heap (Close (Some ctx)) s1 = Ret (Some {| c_node := 5%nat; closeFns := [] |}, s2) /\
    h_locks (fs_heap s2) = h_locks (fs_heap fs3).
Proof.
  destruct new0 as [h Hnew].
  apply (GetChildCtx_found (P := option bytes) _ _ _ _ fs3 2 3%nat "a.txt" 5%nat Hnew steps3).
  - apply unlocked. vm_compute. reflexivity.
  - vm_compute. reflexivity.
  - vm_compute. reflexivity.
  - vm_compute. reflexivity.
Defined.

Lemma ForgetNodeID_stale_witness :
  exists s1 ctx s2, ForgetNodeID (n_nodeID a_node) fs3 = Ret (tt, s1) /\
    GetChildCtx 2 "a.txt" s1 = Ret (Some ctx, s2) /\
    ctx_NodeID ctx (fs_heap s2) = Ret (n_nodeID a_node, fs_heap s2) /\
    GetNodeCtx (n_nodeID a_node) s2 = Ret (None, s2).
Proof.
  destruct new0 as [h Hnew].
  apply (ForgetNodeID_stale (P := option bytes) _ _ _ _ fs3 2 3%nat "a.txt" 5%nat a_node Hnew steps3).
  - apply unlocked. vm_compute. reflexivity.
  - vm_compute. reflexivity.
  - vm_compute. reflexivity.
  - vm_compute. reflexivity.
  - exact a_found.
  - vm_compute. congruence.
  - vm_compute. congruence.
Defined.

Lemma file_inode_serves l n ino :
  Load (nodeRegistry fs3) 3 = Some l -> h_nodes (fs_heap fs3) !! l = Some n ->
  h_inodes (fs_heap fs3) !! n_inode n = Some ino -> inode_serves sample_file ino.
Proof.
  intros Hl. replace (Load (nodeRegistry fs3) 3) with (Some 5%nat) in Hl by (vm_compute; reflexivity).
  apply (inj Some) in Hl. subst l. rewrite a_found. intros Hn%(inj Some) Hi. subst n.
  assert (Hc : i_dataCache <$> h_inodes (fs_heap fs3) !! n_inode a_node = Some newDataCache)
    by (vm_compute; reflexivity).
  assert (Hp : i_adapterPool <$> h_inodes (fs_heap fs3) !! n_inode a_node
               = Some (newAdapterPool ([Some sample_file] : list Sample.adapter))) by (vm_compute; reflexivity).
  rewrite Hi in Hc. rewrite Hi in Hp. apply (inj Some) in Hc, Hp.
  destruct (NewInode_serves sample_file Sample.attr0 [Some sample_file]) as [Hc' Hp'].
  { apply Forall_singleton, Sample.serves_some. }
  split; [by rewrite Hc | by rewrite Hp].
Qed.

Lemma fs_Read_refines_witness :
  exists r s', fs_Read Background 3 1 4 fs3 = Ret (r, s') /\ fs_wf s' /\
    h_locks (fs_heap s') = h_locks (fs_heap fs3) /\
    (forall d, r = Ok d -> d = file_bytes sample_file 1 4) /\
    (Load (nodeRegistry fs3) 3 = None -> r = Err (ErrNodeNotFound 3) /\ s' = fs3).
Proof.
  destruct new0 as [h Hnew].
  apply (fs_Read_refines (P := option bytes) _ _ _ _ fs3 3 sample_file Background 1 4 Hnew steps3).
  - apply unlocked. vm_compute. reflexivity.
  - exact Sample.valid14.
  - exact Sample.small4.
  - exact file_inode_serves.
Defined.

Lemma fs_invariant_witness : fs_wf fs3 /\ locks_fresh (fs_heap fs3).
Proof.
  destruct (fs_invariant (A := Sample.adapter) (P := option bytes) defaultConfig 0)
    as (s0 & h & Hnew & Hall).
  destruct new0 as [h0 Hnew0]. rewrite Hnew in Hnew0. apply Hall.
  replace s0 with fs0 by congruence. exact steps3.
Defined.

Lemma LogNodeTree_total_witness :
  exists log u, LogNodeTreeBuilder (h_next (fs_heap fs1)) (open_ctx 1%nat) (fs_heap fs1) = Ret (log, fs_heap fs1) /\
    entry_of u log /\ logs (fs_heap fs1) 5%nat u.
Proof.
  destruct (h_nodes (fs_heap fs1) !! 1%nat) as [n|] eqn:Hn; [|exfalso; revert Hn; vm_compute; discriminate].
  destruct (LogNodeTree_total fs1 1%nat n) as (log & Hrun & _ & Hall).
  - exact (proj1 ok1).
  - apply unlocked. vm_compute. reflexivity.
  - exact Hn.
  - destruct (Hall ["docs"; "a.txt"] 5%nat) as (u & Hu & Hlog); [vm_compute; reflexivity|].
    exists log, u. split; [exact Hrun | split; [exact Hu | exact Hlog]].
Defined.
