(* ===== verification/Fuse.v ===== *)
(** The FUSE protocol adapter (src/fuse/server.go): [FuseRaw], its handle
    tables and its request handlers, written against the interface
    [ServerBridger] that the filesystem implements. FuseSpec.v has the
    theorems. *)

From S2P Require Import Prelude Config XSync DataCache AdapterPool Inode Heap Node NodeContext.
From S2P Require Import FileSystem.

(** ** The interface to the core *)

(** [S] is the state behind the interface; the heap of nodes is a part of it,
    which node contexts and nodes act on. *)
Class ServerBridger {X : XSync} (W A S : Type) := {
  sb_heap : S -> heap W A;
  sb_put_heap : heap W A -> S -> S;
  sb_GetNodeCtx : Z -> GoM S (option (NodeContext (W := W) (A := A)));
  sb_GetChildCtx : Z -> string -> GoM S (option (NodeContext (W := W) (A := A)));
  sb_ForgetNodeID : Z -> GoM S unit;
  sb_EnsureNodeID : loc -> GoM S Z;
  sb_Read : Ctx W -> Z -> Z -> Z -> GoM S (result bytes)
}.

#[export] Instance filesystem_bridger {X : XSync} {W A} {clk : Clock W} {FA : FileAdapterOps W A} :
    ServerBridger W A (FileSystem W A) := {
  sb_heap := fs_heap;
  sb_put_heap := put_heap;
  sb_GetNodeCtx := GetNodeCtx;
  sb_GetChildCtx := GetChildCtx;
  sb_ForgetNodeID := ForgetNodeID;
  sb_EnsureNodeID := EnsureNodeID;
  sb_Read := fs_Read
}.

(** ** go-fuse's types *)

(** The status codes the handlers answer with. *)
Inductive Status := OK | ENOENT | EBADF | EIO | ENOSYS.

#[export] Instance Status_eq_dec : EqDecision Status.
Proof. solve_decision. Defined.

(** [fuse.EntryOut] and [fuse.AttrOut]; the timeouts are the durations given
    to [SetEntryTimeout], [SetAttrTimeout] and [SetTimeout]. *)
Record EntryOut := mkEntryOut {
  eo_NodeId : Z;
  eo_Generation : Z;
  eo_Attr : Attr;
  eo_EntryTimeout : Z;
  eo_AttrTimeout : Z
}.

Record AttrOut := mkAttrOut { ao_Attr : Attr; ao_Timeout : Z }.

Record DirEntry := mkDirEntry { de_Name : string; de_Mode : Z; de_Ino : Z }.

(** [fuse.DirEntryList], the reply buffer of a directory read. An entry that
    does not fit is refused and leaves the buffer as it is; the pointer
    [AddDirLookupEntry] returns is to the entry just added, which
    [fill_entry] writes through. [listed] is what the kernel will see. *)
Class DirEntryLists := {
  DirEntryList : Type;
  AddDirEntry : DirEntry -> DirEntryList -> option DirEntryList;
  AddDirLookupEntry : DirEntry -> DirEntryList -> option DirEntryList;
  fill_entry : EntryOut -> DirEntryList -> DirEntryList;
  listed : DirEntryList -> list DirEntry;
  entry_outs : DirEntryList -> list EntryOut
}.

Class DirEntryListLaws {D : DirEntryLists} : Prop := {
  AddDirEntry_listed : forall e l l', AddDirEntry e l = Some l' -> listed l' = listed l ++ [e];
  AddDirLookupEntry_listed : forall e l l',
    AddDirLookupEntry e l = Some l' -> listed l' = listed l ++ [e];
  AddDirLookupEntry_outs : forall e l l' o,
    AddDirLookupEntry e l = Some l' -> entry_outs (fill_entry o l') = entry_outs l ++ [o];
  fill_entry_listed : forall o l, listed (fill_entry o l) = listed l
}.

Definition defaultAttrTimeout : Z := 1 * Second.
Definition defaultEntryTimeout : Z := 60 * Second.

(** ** State *)

(** [openDirs] maps a handle to the children the directory had when it was
    opened; [None] is a nil pointer. *)
Record FuseRaw {X : XSync} {S : Type} := mkRaw {
  raw_fs : S;
  nextDirFh : Z;                              (* uint64 *)
  openDirs : XMap Z (list (option loc));
  nextFileFh : Z;                             (* uint64 *)
  openFiles : XMap Z Z
}.
Arguments FuseRaw {X} S.
Arguments mkRaw {X S} _ _ _ _ _.

Section handlers.
Context {X : XSync} {W A S : Type} {SB : ServerBridger W A S} {D : DirEntryLists}.
Abbreviation M := (GoM (FuseRaw S)).
Implicit Types (r : FuseRaw S).

Definition put_fs (s : S) r : FuseRaw S :=
  mkRaw s (nextDirFh r) (openDirs r) (nextFileFh r) (openFiles r).
Definition put_openDirs m r : FuseRaw S :=
  mkRaw (raw_fs r) (nextDirFh r) m (nextFileFh r) (openFiles r).
Definition put_openFiles m r : FuseRaw S :=
  mkRaw (raw_fs r) (nextDirFh r) (openDirs r) (nextFileFh r) m.

Definition on_fs {B} (m : GoM S B) : M B := zoom raw_fs put_fs m.
Definition on_node {B} (m : GoM (heap W A) B) : M B := on_fs (zoom sb_heap sb_put_heap m).

(** [r.nextDirFh.Add(1)], [r.nextFileFh.Add(1)] *)
Definition new_dir_fh : M Z := fun r =>
  let fh := nextDirFh r +u 1 in
  Ret (fh, mkRaw (raw_fs r) fh (openDirs r) (nextFileFh r) (openFiles r)).
Definition new_file_fh : M Z := fun r =>
  let fh := nextFileFh r +u 1 in
  Ret (fh, mkRaw (raw_fs r) (nextDirFh r) (openDirs r) fh (openFiles r)).

Definition NewFuseRaw (fs : S) : FuseRaw S :=
  {| raw_fs := fs; nextDirFh := 1; openDirs := NewMap; nextFileFh := 1; openFiles := NewMap |}.

(** ** Handlers *)

Definition Access : M Status := mret OK.

Definition Lookup (header_NodeId : Z) (name : string) (out : EntryOut) : M (Status * EntryOut) :=
  ctx ← on_fs (sb_GetChildCtx header_NodeId name);
  match ctx with
  | None => on_node (Close None);; mret (ENOENT, out)
  | Some c =>
      id ← on_node (ctx_NodeID c);
      attr ← on_node (ctx_Attr c);
      on_node (Close (Some c));;
      mret (OK, {| eo_NodeId := id; eo_Generation := eo_Generation out; eo_Attr := attr;
                   eo_EntryTimeout := defaultEntryTimeout; eo_AttrTimeout := defaultAttrTimeout |})
  end.

Definition Forget (nodeid nlookup : Z) : M unit := on_fs (sb_ForgetNodeID nodeid).

Definition GetAttr (header_NodeId : Z) (out : AttrOut) : M (Status * AttrOut) :=
  ctx ← on_fs (sb_GetNodeCtx header_NodeId);
  match ctx with
  | None => on_node (Close None);; mret (ENOENT, out)
  | Some c =>
      attr ← on_node (ctx_Attr c);
      on_node (Close (Some c));;
      mret (OK, {| ao_Attr := attr; ao_Timeout := defaultAttrTimeout |})
  end.

Definition SetAttr : M Status := mret ENOSYS.

(** *** Directories *)

(** Returns the handle the reply carries. *)
Definition OpenDir (in_NodeId out_Fh : Z) : M (Status * Z) :=
  node ← on_fs (sb_GetNodeCtx in_NodeId);
  match node with
  | None => on_node (Close None);; mret (ENOENT, out_Fh)
  | Some c =>
      children ← on_node (UnsafeChildren c);
      fh ← new_dir_fh;
      modify (fun r => put_openDirs (Store (openDirs r) fh (Some <$> children)) r);;
      on_node (Close (Some c));;
      mret (OK, fh)
  end.

(** [children[i] = nil]: the element of the stored snapshot that the slice
    shares its memory with. *)
Definition set_nil (fh : Z) (i : nat) : M unit :=
  modify (fun r => match Load (openDirs r) fh with
                   | Some snapshot => put_openDirs (Store (openDirs r) fh (<[i := None]> snapshot)) r
                   | None => r
                   end).

(** The loop of both directory reads over the rest of the snapshot from index
    [i]; they differ in how an entry is added ([None]: the buffer is full). *)
Fixpoint readdir_loop (emit : loc -> Attr -> DirEntry -> DirEntryList -> M (option DirEntryList))
    (fh : Z) (i : nat) (children : list (option loc)) (out : DirEntryList) : M DirEntryList :=
  match children with
  | [] => mret out
  | None :: children' => readdir_loop emit fh (1 + i) children' out
  | Some ch :: children' =>
      del ← on_node (IsDel ch);
      if del : bool then set_nil fh i;; readdir_loop emit fh (1 + i) children' out
      else
        inode ← on_node (node_Inode ch);
        attr ← on_node (CopyAttr inode);
        name ← on_node (Name ch);
        ok ← emit ch attr {| de_Name := name; de_Mode := Mode attr; de_Ino := Ino attr |} out;
        match ok with
        | None => mret out
        | Some out' => readdir_loop emit fh (1 + i) children' out'
        end
  end.

Definition readdir (emit : loc -> Attr -> DirEntry -> DirEntryList -> M (option DirEntryList))
    (in_NodeId in_Fh in_Offset : Z) (out : DirEntryList) : M (Status * DirEntryList) :=
  parent ← on_fs (sb_GetNodeCtx in_NodeId);
  match parent with
  | None => on_node (Close None);; mret (ENOENT, out)
  | Some c =>
      r ← get_state;
      res ← match Load (openDirs r) in_Fh with
            | None => mret (ENOENT, out)
            | Some children =>
                if Z.of_nat (length children) <=? in_Offset then mret (OK, out)
                else
                  out' ← readdir_loop emit in_Fh (Z.to_nat in_Offset)
                           (drop (Z.to_nat in_Offset) children) out;
                  mret (OK, out')
            end;
      on_node (Close (Some c));;
      mret res
  end.

Definition emit_plain (ch : loc) (attr : Attr) (e : DirEntry) (out : DirEntryList) :
    M (option DirEntryList) := mret (AddDirEntry e out).

Definition emit_plus (ch : loc) (attr : Attr) (e : DirEntry) (out : DirEntryList) :
    M (option DirEntryList) :=
  match AddDirLookupEntry e out with
  | None => mret None
  | Some out' =>
      id ← on_fs (sb_EnsureNodeID ch);
      mret (Some (fill_entry {| eo_NodeId := id; eo_Generation := 0; eo_Attr := attr;
                                eo_EntryTimeout := defaultEntryTimeout;
                                eo_AttrTimeout := defaultAttrTimeout |} out'))
  end.

Definition ReadDir := readdir emit_plain.
Definition ReadDirPlus := readdir emit_plus.

Definition ReleaseDir (in_Fh : Z) : M unit :=
  modify (fun r => put_openDirs (Delete (openDirs r) in_Fh) r).

(** *** Files *)

Definition Open (in_NodeId out_Fh : Z) : M (Status * Z) :=
  nodeCtx ← on_fs (sb_GetNodeCtx in_NodeId);
  match nodeCtx with
  | None => mret (ENOENT, out_Fh)
  | Some c =>
      fh ← new_file_fh;
      modify (fun r => put_openFiles (Store (openFiles r) fh in_NodeId) r);;
      on_node (Close (Some c));;
      mret (OK, fh)
  end.

(** The offset is a uint64 converted to int64; the size is a uint32. The
    data is nil with an error status. *)
Definition raw_Read (in_Fh in_Offset in_Size : Z) : M (option bytes * Status) :=
  r ← get_state;
  match Load (openFiles r) in_Fh with
  | None => mret (None, EBADF)
  | Some nodeID =>
      res ← on_fs (sb_Read Background nodeID (wrap64 in_Offset) in_Size);
      match res with
      | Err _ => mret (None, EIO)
      | Ok data => mret (Some data, OK)
      end
  end.

Definition Release (in_Fh : Z) : M unit :=
  modify (fun r => put_openFiles (Delete (openFiles r) in_Fh) r).
End handlers.
