(* ===== verification/Bridge.v ===== *)
(** What the core promises to the FUSE adapter: the laws of [ServerBridger],
    against which the request handlers are verified, reads of files included,
    and the proof that the filesystem keeps them. *)

From S2P Require Import Prelude Config XSync DataCache AdapterPool Inode Heap Node NodeContext.
From S2P Require Import Tree FileSystem FileSystemSpec NodeRegistry Fuse.

Section same_but_ids.
Context {X : XSync} {W A : Type}.
Implicit Types (h : heap W A) (l : loc) (n : Node).

(** Two heaps that differ in nothing but the nodes' identifiers. *)
Record same_but_ids h h' : Prop := {
  sbi_nodes l : set_nodeID 0 <$> h_nodes h' !! l = set_nodeID 0 <$> h_nodes h !! l;
  sbi_inodes : h_inodes h' = h_inodes h;
  sbi_locks : h_locks h' = h_locks h;
  sbi_world : h_world h' = h_world h
}.

#[export] Instance same_but_ids_equivalence : Equivalence same_but_ids.
Proof.
  split.
  - by split.
  - intros h1 h2 [E1 E2 E3 E4]. split; [intros l; by rewrite E1 | done..].
  - intros h1 h2 h3 [E1 E2 E3 E4] [F1 F2 F3 F4].
    split; [intros l; by rewrite F1 | congruence..].
Qed.

Lemma sbi_node h h' l n :
  same_but_ids h h' -> h_nodes h !! l = Some n ->
  exists id, h_nodes h' !! l = Some (set_nodeID id n).
Proof.
  intros Hs Hn. pose proof (sbi_nodes _ _ Hs l) as E. rewrite Hn in E. cbn in E.
  destruct (h_nodes h' !! l) as [n'|]; [|done]. injection E. destruct n, n'. cbn. intros. subst.
  by eexists.
Qed.

Lemma sbi_set_locks h h' t t' :
  same_but_ids h h' -> t = t' -> same_but_ids (set_locks t h) (set_locks t' h').
Proof. intros [E1 E2 E3 E4] ->. by split. Qed.

(** Two heaps that differ in nothing but the caches of the inodes and the health
    of their adapters (and the world, which adapters act on): what a read may
    change. *)
Record same_but_caches h h' : Prop := {
  sbc_nodes : h_nodes h' = h_nodes h;
  sbc_inodes i : option_Forall2 same_meta (h_inodes h !! i) (h_inodes h' !! i);
  sbc_locks : h_locks h' = h_locks h
}.

Lemma same_but_caches_refl h : same_but_caches h h.
Proof. split; [done | | done]. intros i. destruct (h_inodes h !! i); by constructor. Qed.

(** Nodes point to inodes and children that exist. *)
Definition linked_heap h : Prop :=
  forall l n, h_nodes h !! l = Some n ->
    is_Some (h_inodes h !! n_inode n) /\
    forall name c, Load (n_children n) name = Some c -> is_Some (h_nodes h !! c).
End same_but_ids.

(** ** The laws *)

(** [sb_ids_left] bounds from below how many identifiers can still be given
    out; [sb_adapters_ok] says of the adapters what a read relies on, for all
    the inodes. *)
Class BridgerLaws {X : XSync} {W A S : Type} {SB : ServerBridger W A S} := {
  sb_inv : S -> Prop;
  sb_ids_left : S -> Z;
  sb_adapters_ok : S -> Prop;
  sb_get_put h s : sb_heap (sb_put_heap h s) = h;
  sb_put_put h h' s : sb_put_heap h (sb_put_heap h' s) = sb_put_heap h s;
  sb_put_get s : sb_put_heap (sb_heap s) s = s;
  sb_inv_linked s : sb_inv s -> linked_heap (sb_heap s);
  sb_inv_locks s t : sb_inv s -> sb_inv (sb_put_heap (set_locks t (sb_heap s)) s);
  sb_ids_put h s : sb_ids_left (sb_put_heap h s) = sb_ids_left s;
  sb_GetNodeCtx_law s id : sb_inv s -> no_writers (h_locks (sb_heap s)) ->
    sb_GetNodeCtx id s = Ret (None, s) \/
    exists l, is_Some (h_nodes (sb_heap s) !! l) /\
      sb_GetNodeCtx id s = Ret (Some (open_ctx l), sb_put_heap (entered l (sb_heap s)) s);
  sb_GetChildCtx_law s pid name : sb_inv s -> no_writers (h_locks (sb_heap s)) -> 1 <= sb_ids_left s ->
    sb_GetChildCtx pid name s = Ret (None, s) \/
    exists c s1, sb_inv s1 /\ same_but_ids (sb_heap s) (sb_heap s1) /\
      sb_ids_left s - 1 <= sb_ids_left s1 /\ is_Some (h_nodes (sb_heap s1) !! c) /\
      sb_GetChildCtx pid name s = Ret (Some (open_ctx c), sb_put_heap (entered c (sb_heap s1)) s1);
  sb_ForgetNodeID_law s id : sb_inv s -> no_writers (h_locks (sb_heap s)) ->
    exists s1, sb_ForgetNodeID id s = Ret (tt, s1) /\ sb_inv s1 /\ sb_heap s1 = sb_heap s /\
      sb_ids_left s1 = sb_ids_left s;
  sb_EnsureNodeID_law s l : sb_inv s -> is_Some (h_nodes (sb_heap s) !! l) -> 1 <= sb_ids_left s ->
    exists id s1, sb_EnsureNodeID l s = Ret (id, s1) /\ id <> 0 /\ sb_inv s1 /\
      same_but_ids (sb_heap s) (sb_heap s1) /\ sb_ids_left s - 1 <= sb_ids_left s1;
  sb_adapters_inodes s s' : h_inodes (sb_heap s') = h_inodes (sb_heap s) ->
    sb_adapters_ok s -> sb_adapters_ok s';
  sb_Read_law s ctx id offset size : sb_inv s -> no_writers (h_locks (sb_heap s)) ->
    sb_adapters_ok s -> valid_request offset size -> size <= maxAlloc ->
    exists res s1, sb_Read ctx id offset size s = Ret (res, s1) /\ sb_inv s1 /\ sb_adapters_ok s1 /\
      same_but_caches (sb_heap s) (sb_heap s1) /\ sb_ids_left s1 = sb_ids_left s
}.

(** ** The filesystem keeps them *)

Section filesystem.
Context {X : XSync} `{!XSyncLaws} {W A : Type} {clk : Clock W} {FA : FileAdapterOps W A}.
Implicit Types (s : FileSystem W A).

Lemma registered_same s l n :
  h_nodes (fs_heap s) !! l = Some n -> same_but_ids (fs_heap s) (fs_heap (registered l n s)).
Proof.
  intros Hn. split; [|done..]. intros x. cbn. destruct (decide (l = x)) as [<-|?].
  - by rewrite lookup_insert_eq, Hn.
  - by rewrite lookup_insert_ne.
Qed.

Lemma tree_linked r (h : heap W A) : tree_wf r h -> linked_heap h.
Proof.
  intros Hwf l n Hn. split; [by eapply tw_inode|]. intros name c Hc.
  rewrite <-(child_spec _ _ _ name Hn) in Hc.
  destruct (tw_down _ _ Hwf _ _ _ Hc) as (_ & _ & cn & ? & _). by eexists.
Qed.

Definition fs_ids_left s : Z := 2 ^ 64 - 1 - lastNodeID s.

Lemma filesystem_GetChildCtx_law s pid name :
  fs_wf s -> no_writers (h_locks (fs_heap s)) -> 1 <= fs_ids_left s ->
  GetChildCtx pid name s = Ret (None, s) \/
  exists c s1, fs_wf s1 /\ same_but_ids (fs_heap s) (fs_heap s1) /\
    fs_ids_left s - 1 <= fs_ids_left s1 /\ is_Some (h_nodes (fs_heap s1) !! c) /\
    GetChildCtx pid name s = Ret (Some (open_ctx c), put_heap (entered c (fs_heap s1)) s1).
Proof.
  intros Hwf Hw Hids. unfold fs_ids_left in *.
  destruct (Load (nodeRegistry s) pid) as [p|] eqn:Ep.
  2:{ left. apply GetChildCtx_none; [congruence | done]. }
  destruct (fw_reg _ Hwf _ _ Ep) as (_ & pn & Hpn & _).
  destruct (Load (n_children pn) name) as [c|] eqn:Ec.
  2:{ left. apply GetChildCtx_none; [congruence | done]. }
  pose proof (tree_linked _ _ (fw_tree _ Hwf) _ _ Hpn) as [_ Hc].
  destruct (Hc _ _ Ec) as [cn Hcn]. right. exists c.
  exists (if n_nodeID cn =? 0 then registered c cn s else s).
  rewrite (GetChildCtx_run s pid p pn name c cn) by (try done; try apply Hw; lia).
  destruct (n_nodeID cn =? 0) eqn:E.
  + apply Z.eqb_eq in E. split_and!; [apply registered_wf; [done..|lia] | by apply registered_same | | | done].
    * cbn. lia.
    * cbn. rewrite lookup_insert_eq. by eexists.
  + split_and!; [done | done | lia | by eexists | done].
Qed.

(** Every inode's adapters keep their bounds, and its cache is well-formed. *)
Definition adapters_bounded s : Prop :=
  forall i ino, h_inodes (fs_heap s) !! i = Some ino -> inode_bounded ino.

Lemma filesystem_Read_law s (ctx : Ctx W) id offset size :
  fs_wf s -> no_writers (h_locks (fs_heap s)) -> adapters_bounded s ->
  valid_request offset size -> size <= maxAlloc ->
  exists res s1, fs_Read ctx id offset size s = Ret (res, s1) /\ fs_wf s1 /\ adapters_bounded s1 /\
    same_but_caches (fs_heap s) (fs_heap s1) /\ fs_ids_left s1 = fs_ids_left s.
Proof.
  intros Hwf Hw Ha Hv Hm. destruct (Load (nodeRegistry s) id) as [l|] eqn:El.
  2:{ exists (Err (ErrNodeNotFound id)), s. split_and!; [|done..|apply same_but_caches_refl|done].
      unfold fs_Read. by rewrite (bind_run _ _ _ _ _ (GetNodeCtx_none s id El)). }
  destruct (fw_reg _ Hwf _ _ El) as (_ & n & Hn & _).
  destruct (tw_inode _ _ (fw_tree _ Hwf) _ _ Hn) as [ino Hi].
  destruct (Read_total ino ctx offset size (h_world (fs_heap s)) (Ha _ _ Hi) Hv Hm)
    as (res & ino' & w' & Hread & Hb & Hmeta).
  pose proof (fs_Read_run ctx id offset size s l n ino res ino' w' El Hn Hi (Hw _) Hread) as Hrun.
  eexists res, _. split; [exact Hrun|]. split_and!.
  - apply fs_wf_same; [|done].
    etrans; [apply (same_inode _ (n_inode n) ino ino'); [done | by rewrite (proj1 Hmeta)] | by split].
  - intros i ino1. cbn. intros [[_ <-]|[_ ?]]%lookup_insert_Some; [done | by eapply Ha].
  - split; [done | | done]. intros i. cbn. destruct (decide (n_inode n = i)) as [<-|].
    + rewrite lookup_insert_eq, Hi. by constructor.
    + rewrite lookup_insert_ne by done. destruct (h_inodes (fs_heap s) !! i); by constructor.
  - done.
Qed.

#[export] Instance filesystem_bridger_laws : BridgerLaws (S := FileSystem W A).
Proof.
  refine {| sb_inv := fs_wf; sb_ids_left := fs_ids_left; sb_adapters_ok := adapters_bounded |}.
  - done.
  - done.
  - apply put_heap_id.
  - intros s Hwf. eapply tree_linked, Hwf.
  - intros s t Hwf. apply fs_wf_same; [apply same_locks | done].
  - done.
  - cbn. intros s id Hwf Hw. destruct (Load (nodeRegistry s) id) as [l|] eqn:El.
    + right. exists l. destruct (fw_reg _ Hwf _ _ El) as (_ & n & Hn & _).
      split; [by eexists|]. by apply GetNodeCtx_run.
    + left. by apply GetNodeCtx_none.
  - exact filesystem_GetChildCtx_law.
  - cbn. intros s id Hwf Hw. rewrite (ForgetNodeID_run s) by (intros; apply Hw).
    destruct (Load (nodeRegistry s) id); eexists; (split; [done|]); [|done].
    split; [by apply forget_wf | done].
  - cbn. intros s l Hwf [n Hn] Hids. unfold fs_ids_left in *. destruct (fw_lastID _ Hwf).
    rewrite (EnsureNodeID_run s l n) by (try done; lia). destruct (n_nodeID n =? 0) eqn:E.
    + apply Z.eqb_eq in E. eexists _, _. split; [done|]. split; [lia|].
      split; [apply registered_wf; [done..|lia]|]. split; [by apply registered_same|]. cbn. lia.
    + apply Z.eqb_neq in E. exists (n_nodeID n), s. split_and!; [done | done | done | done | lia].
  - intros s s' E Ha i ino. cbn in E. rewrite E. apply Ha.
  - exact filesystem_Read_law.
Defined.
End filesystem.
