(* ===== verification/FuseSpec.v ===== *)
(** The request handlers of Fuse.v: they return, give back every mutex and keep
    their invariant, whatever the filesystem behind the interface; what a
    directory read lists; and reading an open file. *)

From S2P Require Import Prelude Config XSync DataCache AdapterPool Inode Heap Node NodeContext.
From S2P Require Import Fuse Bridge.

(** ** Running code behind the interface *)

Section runs.
Context {X : XSync} `{!XSyncLaws} {W A S : Type} {SB : ServerBridger W A S}.
Context {BL : BridgerLaws (SB := SB)} {D : DirEntryLists} `{!DirEntryListLaws}.
Implicit Types (r : FuseRaw S) (s : S) (h : heap W A) (l ch : loc) (snapshot : list (option loc)).

Abbreviation raw_heap r := (sb_heap (raw_fs r)).

Definition put_node_heap h r : FuseRaw S := put_fs (sb_put_heap h (raw_fs r)) r.

Lemma put_fs_id r : put_fs (raw_fs r) r = r.
Proof. by destruct r. Qed.

Lemma on_fs_run {B} (m : GoM S B) r b s :
  m (raw_fs r) = Ret (b, s) -> on_fs m r = Ret (b, put_fs s r).
Proof. apply zoom_run. Qed.

Lemma on_node_run {B} (m : GoM (heap W A) B) r b h :
  m (raw_heap r) = Ret (b, h) -> on_node m r = Ret (b, put_node_heap h r).
Proof. intros Hm. apply on_fs_run. by apply zoom_run. Qed.

(** Code that leaves the heap as it is leaves the whole state as it is. *)
Lemma on_node_ro {B} (m : GoM (heap W A) B) r b :
  m (raw_heap r) = Ret (b, raw_heap r) -> on_node m r = Ret (b, r).
Proof.
  intros Hm. rewrite (on_node_run m r b _ Hm). unfold put_node_heap. by rewrite sb_put_get, put_fs_id.
Qed.

Lemma Close_none r : on_node (Close None) r = Ret (None, r).
Proof. by apply on_node_ro. Qed.

(** *** The invariant *)

(** The nodes of the snapshots exist. *)
Definition raw_ok r : Prop :=
  sb_inv (raw_fs r) /\
  forall fh snapshot l, Load (openDirs r) fh = Some snapshot -> Some l ∈ snapshot ->
    is_Some (h_nodes (raw_heap r) !! l).

(** *** What a directory read shows *)

(** The entry of a node, and what a directory read shows of an element of a
    snapshot: nothing for nil and for deleted nodes. *)
Definition dir_entry h l : option DirEntry :=
  n ← h_nodes h !! l; ino ← h_inodes h !! n_inode n;
  Some (mkDirEntry (n_name n) (Mode (i_attr ino)) (Ino (i_attr ino))).

Definition shown h (o : option loc) : option DirEntry :=
  l ← o; n ← h_nodes h !! l; if n_isDel n then None else dir_entry h l.

Definition page h (children : list (option loc)) : list DirEntry := omap (shown h) children.

Lemma shown_same h h' o : same_but_ids h h' -> shown h' o = shown h o.
Proof.
  intros Hs. destruct o as [l|]; [|done]. cbn. unfold dir_entry.
  destruct (h_nodes h !! l) as [n|] eqn:En.
  - destruct (sbi_node _ _ _ _ Hs En) as [id ->]. cbn. by rewrite (sbi_inodes _ _ Hs).
  - pose proof (sbi_nodes _ _ Hs l) as E. rewrite En in E. by destruct (h_nodes h' !! l).
Qed.

Lemma page_same h h' children : same_but_ids h h' -> page h' children = page h children.
Proof.
  intros Hs. induction children as [|o os IH]; [done|]. cbn. rewrite (shown_same h h') by done.
  unfold page in *. cbn. by rewrite IH.
Qed.

(** Snapshots in which entries that show nothing may have become nil. *)
Definition nils_in h snapshot snapshot' : Prop :=
  Forall2 (fun o o' => o' = o \/ o' = None /\ shown h o = None) snapshot snapshot'.

Lemma nils_in_refl h snapshot : nils_in h snapshot snapshot.
Proof.
  apply Forall2_same_length_lookup_2; [done|]. intros i x y Hx Hy.
  rewrite Hx in Hy. injection Hy as ->. by left.
Qed.

Lemma nils_in_trans h h' a b c :
  same_but_ids h h' -> nils_in h a b -> nils_in h' b c -> nils_in h a c.
Proof.
  intros Hs Hab. revert c. induction Hab as [|x y a b Hxy Hab IH]; intros c Hbc.
  - inversion Hbc. constructor.
  - apply Forall2_cons_inv_l in Hbc as (z & c' & Hyz & Hbc & ->). constructor; [|by apply IH].
    rewrite (shown_same h h') in Hyz by done.
    destruct Hxy as [->|[-> ?]], Hyz as [->|[-> ?]]; auto.
Qed.

Lemma nils_in_elem h a b l : nils_in h a b -> Some l ∈ b -> Some l ∈ a.
Proof.
  intros Hab (i & Hi)%list_elem_of_lookup. apply list_elem_of_lookup. exists i.
  destruct (Forall2_lookup_r _ _ _ _ _ Hab Hi) as (o & Ho & [->|[? _]]); [done|done].
Qed.

(** What happens to the state while a directory is read, with at most [k]
    identifiers given out: identifiers appear and entries become nil. *)
Record quiet (k : Z) r r' : Prop := {
  q_pos : 0 <= k;
  q_fs : k <= 0 -> raw_fs r' = raw_fs r;
  q_inv : sb_inv (raw_fs r) -> sb_inv (raw_fs r');
  q_heap : same_but_ids (raw_heap r) (raw_heap r');
  q_ids : sb_ids_left (raw_fs r) - k <= sb_ids_left (raw_fs r');
  q_dirs fh : match Load (openDirs r) fh, Load (openDirs r') fh with
              | Some a, Some b => nils_in (raw_heap r) a b
              | None, None => True
              | _, _ => False
              end;
  q_files : openFiles r' = openFiles r;
  q_dirFh : nextDirFh r' = nextDirFh r;
  q_fileFh : nextFileFh r' = nextFileFh r
}.

Lemma quiet_refl r : quiet 0 r r.
Proof. split; try done; [lia|]. intros fh. destruct (Load _ _); [apply nils_in_refl | done]. Qed.

Lemma quiet_trans k1 k2 r1 r2 r3 : quiet k1 r1 r2 -> quiet k2 r2 r3 -> quiet (k1 + k2) r1 r3.
Proof.
  intros [P1 E1 I1 H1 N1 D1 F1 A1 B1] [P2 E2 I2 H2 N2 D2 F2 A2 B2].
  split; [lia | | auto | by etrans | lia | | congruence..].
  { intros ?. rewrite E2, E1; [done | lia..]. }
  intros fh. specialize (D1 fh). specialize (D2 fh).
  destruct (Load (openDirs r1) fh), (Load (openDirs r2) fh), (Load (openDirs r3) fh); try done.
  by eapply nils_in_trans.
Qed.

Lemma quiet_weaken k k' r r' : quiet k r r' -> k <= k' -> quiet k' r r'.
Proof. intros [P1 E1 I1 H1 N1 D1 F1 A1 B1] ?. split; try done; [lia | | lia]. intros ?. apply E1. lia. Qed.

Lemma sbi_dom h h' l : same_but_ids h h' -> is_Some (h_nodes h !! l) -> is_Some (h_nodes h' !! l).
Proof. intros Hs [n Hn]. destruct (sbi_node _ _ _ _ Hs Hn) as [id ?]. by eexists. Qed.

Lemma quiet_ok k r r' : quiet k r r' -> raw_ok r -> raw_ok r'.
Proof.
  intros Hq [Hi Hd]. split; [by eapply q_inv|]. intros fh snapshot l Hl Hin.
  pose proof (q_dirs _ _ _ Hq fh) as Hf. rewrite Hl in Hf.
  destruct (Load (openDirs r) fh) as [a|] eqn:Ea; [|done].
  eapply sbi_dom; [apply (q_heap _ _ _ Hq)|]. eapply Hd; [done|]. by eapply nils_in_elem.
Qed.

Lemma set_nil_run fh i snapshot r :
  Load (openDirs r) fh = Some snapshot -> (snapshot !! i ≫= shown (raw_heap r)) = None ->
  exists r', set_nil fh i r = Ret (tt, r') /\ quiet 0 r r' /\
    Load (openDirs r') fh = Some (<[i := None]> snapshot).
Proof.
  intros E Hnone. unfold set_nil, modify. rewrite E. eexists. split; [done|].
  split; [|cbn; apply Load_Store_eq]. split; try done; [cbn; lia|]. intros fh'. cbn. rewrite Load_Store.
  case_decide as Hc; [subst; rewrite E|by destruct (Load (openDirs r) fh'); [apply nils_in_refl|]].
  apply Forall2_same_length_lookup_2; [by rewrite length_insert|]. intros j x y Hx Hy.
  apply list_lookup_insert_Some in Hy as [(<- & <- & _)|[_ Hy]]; [|left; congruence].
  right. split; [done|]. by rewrite Hx in Hnone.
Qed.

(** The children the loop goes over from index [i] on are those of the stored
    snapshot, but for entries that have become nil. *)
Definition dir_at fh (i : nat) children r : Prop :=
  exists snapshot, Load (openDirs r) fh = Some snapshot /\
    nils_in (raw_heap r) children (drop i snapshot).

Lemma nils_in_same h h' a b : same_but_ids h h' -> nils_in h a b -> nils_in h' a b.
Proof.
  intros Hs Hab. eapply Forall2_impl; [exact Hab|]. intros o o' [->|[-> ?]]; [by left|]. right.
  by rewrite (shown_same h h').
Qed.

Lemma dir_at_next k fh i o children r r1 :
  dir_at fh i (o :: children) r -> quiet k r r1 -> dir_at fh (1 + i) children r1.
Proof.
  intros (sn & Hl & Hn) Hq. pose proof (q_dirs _ _ _ Hq fh) as Hd. rewrite Hl in Hd.
  destruct (Load (openDirs r1) fh) as [sn1|] eqn:E1; [|done]. exists sn1. split; [done|].
  pose proof (q_heap _ _ _ Hq) as Hs. eapply nils_in_same; [done|].
  eapply (nils_in_trans _ _ _ (drop (1 + i) sn)); [reflexivity | |by apply Forall2_drop].
  apply (Forall2_drop _ _ _ 1) in Hn. by rewrite drop_drop, Nat.add_comm in Hn.
Qed.

Lemma dir_at_hidden fh i o children r :
  dir_at fh i (o :: children) r -> shown (raw_heap r) o = None ->
  exists snapshot, Load (openDirs r) fh = Some snapshot /\ (snapshot !! i ≫= shown (raw_heap r)) = None.
Proof.
  intros (sn & Hl & Hn) Ho. exists sn. split; [done|].
  destruct (Forall2_lookup_l _ _ _ 0 o Hn eq_refl) as (o' & Ho' & Hor).
  rewrite lookup_drop, Nat.add_0_r in Ho'. rewrite Ho'. by destruct Hor as [->|[-> _]].
Qed.

(** ** Directory reads *)

(** How a way of adding entries behaves: it takes at most [k] identifiers,
    refuses what [add] refuses and otherwise lists the entry. *)
Definition emits (add : DirEntry -> DirEntryList -> option DirEntryList)
    (emit : loc -> Attr -> DirEntry -> DirEntryList -> GoM (FuseRaw S) (option DirEntryList)) (k : Z) : Prop :=
  forall ch attr e out r, sb_inv (raw_fs r) -> is_Some (h_nodes (raw_heap r) !! ch) ->
    k <= sb_ids_left (raw_fs r) ->
    exists r', quiet k r r' /\
      match add e out with
      | None => emit ch attr e out r = Ret (None, r')
      | Some _ => exists out', emit ch attr e out r = Ret (Some out', r') /\ listed out' = listed out ++ [e]
      end.

Lemma emit_plain_emits : emits AddDirEntry emit_plain 0.
Proof.
  intros ch attr e out r _ _ _. exists r. split; [apply quiet_refl|]. unfold emit_plain.
  destruct (AddDirEntry e out) as [out'|] eqn:E; [|done]. exists out'.
  split; [done | by apply AddDirEntry_listed].
Qed.

Lemma emit_plus_emits : emits AddDirLookupEntry emit_plus 1.
Proof.
  intros ch attr e out r Hi Hch Hids. unfold emit_plus.
  destruct (AddDirLookupEntry e out) as [out'|] eqn:E.
  - destruct (sb_EnsureNodeID_law (raw_fs r) ch Hi Hch Hids) as (id & s1 & Hrun & _ & Hi1 & Hs & Hn).
    exists (put_fs s1 r). split.
    + split; try done; [lia..|]. intros fh. cbn. by destruct (Load (openDirs r) fh); [apply nils_in_refl|].
    + rewrite (bind_run _ _ _ _ _ (on_fs_run _ _ _ _ Hrun)). eexists. split; [done|].
      rewrite fill_entry_listed. by apply AddDirLookupEntry_listed.
  - exists r. split; [|done]. eapply quiet_weaken; [apply quiet_refl | lia].
Qed.

(** What one round of the loop reads of a node. *)
Lemma child_reads r ch n :
  sb_inv (raw_fs r) -> no_writers (h_locks (raw_heap r)) -> h_nodes (raw_heap r) !! ch = Some n ->
  exists ino, h_inodes (raw_heap r) !! n_inode n = Some ino /\
    on_node (IsDel ch) r = Ret (n_isDel n, r) /\
    on_node (node_Inode ch) r = Ret (n_inode n, r) /\
    on_node (CopyAttr (n_inode n)) r = Ret (i_attr ino, r) /\
    on_node (Name ch) r = Ret (n_name n, r).
Proof.
  intros Hi Hw Hn. destruct (sb_inv_linked _ Hi _ _ Hn) as [[ino Hino] _]. exists ino.
  split; [done|]. split_and!; apply on_node_ro.
  - unfold IsDel. by rewrite (bind_run _ _ _ _ _ (read_node_run _ _ _ Hn)).
  - unfold node_Inode. by rewrite (bind_run _ _ _ _ _ (read_node_run _ _ _ Hn)).
  - apply (CopyAttr_run _ _ ino); [done | apply Hw].
  - apply with_rlock_ro; [apply Hw|]. unfold nameLocked.
    by rewrite (bind_run _ _ _ _ _ (read_node_run (set_locks _ _) _ _ Hn)).
Qed.

(** One round of the loop: skip, add and go on, or stop at a full buffer. *)
Lemma readdir_step add emit k fh i o children out r :
  emits add emit k -> 0 <= k -> sb_inv (raw_fs r) -> no_writers (h_locks (raw_heap r)) ->
  (forall l, o = Some l -> is_Some (h_nodes (raw_heap r) !! l)) -> k <= sb_ids_left (raw_fs r) ->
  dir_at fh i (o :: children) r ->
  exists r1, quiet k r r1 /\
    match shown (raw_heap r) o with
    | None => readdir_loop emit fh i (o :: children) out r = readdir_loop emit fh (1 + i) children out r1
    | Some e =>
        match add e out with
        | None => readdir_loop emit fh i (o :: children) out r = Ret (out, r1)
        | Some _ => exists out1, listed out1 = listed out ++ [e] /\
            readdir_loop emit fh i (o :: children) out r = readdir_loop emit fh (1 + i) children out1 r1
        end
    end.
Proof.
  intros Hemit Hk Hi Hw Hex Hids Hat.
  destruct o as [ch|]; [|exists r; split; [eapply quiet_weaken; [apply quiet_refl|done] | done]].
  destruct (Hex ch eq_refl) as [n Hn].
  destruct (child_reads r ch n Hi Hw Hn) as (ino & Hino & R1 & R2 & R3 & R4).
  assert (Hshow : shown (raw_heap r) (Some ch) =
    if n_isDel n then None else Some (mkDirEntry (n_name n) (Mode (i_attr ino)) (Ino (i_attr ino)))).
  { cbn. rewrite Hn. cbn. unfold dir_entry. rewrite Hn. cbn. by rewrite Hino. }
  rewrite Hshow. cbn [readdir_loop]. rewrite (bind_run _ _ _ _ _ R1). destruct (n_isDel n).
  - destruct (dir_at_hidden _ _ _ _ _ Hat Hshow) as (sn & Hl & Hnone).
    destruct (set_nil_run fh i sn r Hl Hnone) as (r1 & Hset & Hq & _). exists r1.
    split; [by eapply quiet_weaken|]. by rewrite (bind_run _ _ _ _ _ Hset).
  - rewrite (bind_run _ _ _ _ _ R2), (bind_run _ _ _ _ _ R3), (bind_run _ _ _ _ _ R4).
    set (e := mkDirEntry _ _ _).
    destruct (Hemit ch (i_attr ino) e out r Hi ltac:(by eexists) Hids) as (r1 & Hq & Hadd).
    exists r1. split; [done|]. destruct (add e out) as [o|].
    + destruct Hadd as (out1 & Hrun1 & Hl1). exists out1. split; [done|].
      by rewrite (bind_run _ _ _ _ _ Hrun1).
    + by rewrite (bind_run _ _ _ _ _ Hadd).
Qed.

(** The loop lists a prefix of what is left of the snapshot: all of it, or up
    to an entry that the buffer refuses. *)
Lemma readdir_loop_run add emit k fh i children out r :
  emits add emit k -> 0 <= k -> sb_inv (raw_fs r) -> no_writers (h_locks (raw_heap r)) ->
  (forall l, Some l ∈ children -> is_Some (h_nodes (raw_heap r) !! l)) ->
  k * Z.of_nat (length children) <= sb_ids_left (raw_fs r) -> dir_at fh i children r ->
  exists out' r' j, readdir_loop emit fh i children out r = Ret (out', r') /\
    quiet (k * Z.of_nat (length children)) r r' /\ (j <= length children)%nat /\
    listed out' = listed out ++ page (raw_heap r) (take j children) /\
    (page (raw_heap r) (take j children) = [] -> out' = out) /\
    (j = length children \/
     exists e, (children !! j ≫= shown (raw_heap r)) = Some e /\ add e out' = None).
Proof.
  intros Hemit Hk. revert i out r. induction children as [|o children IH]; intros i out r Hi Hw Hex Hids Hat.
  { exists out, r, 0%nat. split; [done|]. cbn. rewrite app_nil_r, Z.mul_0_r. split_and!; auto using quiet_refl. }
  cbn [length] in *.
  destruct (readdir_step add emit k fh i o children out r Hemit Hk Hi Hw) as (r1 & Hq & Hstep);
    [intros l ->; apply Hex; by left | lia | done |].
  pose proof (q_heap _ _ _ Hq) as Hsame. pose proof (q_ids _ _ _ Hq) as Hids1.
  assert (Hgo : forall out1, exists out' r' j,
    readdir_loop emit fh (1 + i) children out1 r1 = Ret (out', r') /\
    quiet (k * Z.of_nat (Datatypes.S (length children))) r r' /\ (j <= length children)%nat /\
    listed out' = listed out1 ++ page (raw_heap r) (take j children) /\
    (page (raw_heap r) (take j children) = [] -> out' = out1) /\
    (j = length children \/
     exists e, (children !! j ≫= shown (raw_heap r)) = Some e /\ add e out' = None)).
  { intros out1. destruct (IH (1 + i)%nat out1 r1) as (out' & r' & j & Hrun & Hq' & Hj & Hlist & Hnil & Hend).
    - by eapply q_inv.
    - by rewrite (sbi_locks _ _ Hsame).
    - intros l Hl. eapply sbi_dom; [done|]. apply Hex. by right.
    - lia.
    - by eapply dir_at_next.
    - exists out', r', j. split; [done|]. split; [eapply quiet_weaken; [by eapply quiet_trans | lia]|].
      rewrite (page_same _ _ _ Hsame) in Hlist, Hnil. split; [done|]. split; [done|]. split; [done|].
      destruct Hend as [?|(e & He & ?)]; [by left|]. right. exists e. split; [|done].
      rewrite <-He. destruct (children !! j); [|done]. cbn. symmetry. by apply shown_same. }
  destruct (shown (raw_heap r) o) as [e|] eqn:Eo; [destruct (add e out) as [o1|] eqn:Eadd|].
  - destruct Hstep as (out1 & Hl1 & ->). destruct (Hgo out1) as (out' & r' & j & -> & ? & ? & Hlist & _ & Hend).
    exists out', r', (1 + j)%nat. unfold page in *. cbn [take omap list_omap Nat.add]. rewrite Eo.
    split_and!; [done | done | lia | | done |].
    + by rewrite Hlist, Hl1, <-app_assoc.
    + destruct Hend as [->|?]; [by left | by right].
  - exists out, r1, 0%nat. rewrite Hstep. split; [done|]. split; [eapply quiet_weaken; [done|lia]|].
    split; [lia|]. cbn [take]. split; [by rewrite app_nil_r|]. split; [done|]. right. by exists e.
  - rewrite Hstep. destruct (Hgo out) as (out' & r' & j & -> & ? & ? & Hlist & Hnil & Hend).
    exists out', r', (1 + j)%nat. unfold page in *. cbn [take omap list_omap Nat.add]. rewrite Eo.
    split_and!; [done | done | lia | done | done |].
    + destruct Hend as [->|?]; [by left | by right].
Qed.

(** ** Handlers *)

Definition raw_entered l r : FuseRaw S := put_node_heap (entered l (raw_heap r)) r.

(** The state [r2] with the mutexes as they were in [r]. *)
Definition left_with r r2 : FuseRaw S :=
  put_node_heap (set_locks (h_locks (raw_heap r)) (raw_heap r2)) r2.

Lemma raw_entered_heap l r : raw_heap (raw_entered l r) = entered l (raw_heap r).
Proof. apply sb_get_put. Qed.

Lemma raw_entered_inv l r : sb_inv (raw_fs r) -> sb_inv (raw_fs (raw_entered l r)).
Proof. apply sb_inv_locks. Qed.

Lemma GetNodeCtx_cases r id :
  sb_inv (raw_fs r) -> no_writers (h_locks (raw_heap r)) ->
  on_fs (sb_GetNodeCtx id) r = Ret (None, r) \/
  exists l, is_Some (h_nodes (raw_heap r) !! l) /\
    on_fs (sb_GetNodeCtx id) r = Ret (Some (open_ctx l), raw_entered l r).
Proof.
  intros Hi Hw. destruct (sb_GetNodeCtx_law (raw_fs r) id Hi Hw) as [Hrun|(l & Hl & Hrun)].
  - left. by rewrite (on_fs_run _ _ _ _ Hrun), put_fs_id.
  - right. exists l. split; [done|]. by apply on_fs_run.
Qed.

(** Closing the context of a node that was entered in [r]. *)
Lemma Close_cases l r r2 :
  no_writers (h_locks (raw_heap r)) ->
  h_locks (raw_heap r2) = rlocked (NodeMu l) (h_locks (raw_heap r)) ->
  on_node (Close (Some (open_ctx l))) r2
  = Ret (Some {| c_node := l; closeFns := [] |}, left_with r r2).
Proof. intros Hw Hl. apply on_node_run, Close_run; [apply Hw | done]. Qed.

Lemma quiet_entered k l r r2 :
  quiet k (raw_entered l r) r2 -> sb_inv (raw_fs r) -> quiet k r (left_with r r2).
Proof.
  intros [P1 P2 Q1 Q2 Q3 Q4 Q5 Q6 Q7] Hi. rewrite raw_entered_heap in Q2, Q4.
  split; try done.
  - intros Hk. cbn. rewrite (P2 Hk). cbn. rewrite sb_get_put, sb_put_put. unfold entered.
    by rewrite set_locks_twice, set_locks_id, sb_put_get.
  - intros _. apply sb_inv_locks, Q1. by apply raw_entered_inv.
  - cbn. rewrite sb_get_put. destruct Q2 as [E1 E2 E3 E4]. by split.
  - cbn in *. by rewrite !sb_ids_put in *.
Qed.

Lemma quiet_locks k l r r2 :
  quiet k (raw_entered l r) r2 -> h_locks (raw_heap r2) = rlocked (NodeMu l) (h_locks (raw_heap r)).
Proof. intros Hq. pose proof (sbi_locks _ _ (q_heap _ _ _ Hq)) as E. by rewrite raw_entered_heap in E. Qed.

Lemma entered_no_writers l r :
  no_writers (h_locks (raw_heap r)) -> no_writers (h_locks (raw_heap (raw_entered l r))).
Proof. intros Hw. rewrite raw_entered_heap. by apply rlocked_no_writers. Qed.

Lemma left_with_entered l r : left_with r (raw_entered l r) = r.
Proof.
  unfold left_with. rewrite raw_entered_heap. unfold raw_entered, put_node_heap, entered.
  rewrite set_locks_twice, set_locks_id. destruct r. cbn. unfold put_fs. cbn.
  by rewrite sb_put_put, sb_put_get.
Qed.

(** The length of the snapshot behind a handle. *)
Definition snapshot_size r fh : Z :=
  match Load (openDirs r) fh with Some snapshot => Z.of_nat (length snapshot) | None => 0 end.

(** Both directory reads: an unknown node or handle is [ENOENT] and adds
    nothing; otherwise the read lists the shown elements of the snapshot from
    the offset on, all of them or up to one the buffer refuses. *)
Lemma readdir_run add emit k node fh offset out r :
  emits add emit k -> 0 <= k -> raw_ok r -> no_writers (h_locks (raw_heap r)) -> 0 <= offset ->
  k * snapshot_size r fh <= sb_ids_left (raw_fs r) ->
  exists st out' r', readdir emit node fh offset out r = Ret ((st, out'), r') /\
    quiet (k * snapshot_size r fh) r r' /\
    ((st = ENOENT /\ out' = out /\ (on_fs (sb_GetNodeCtx node) r = Ret (None, r) \/ Load (openDirs r) fh = None))
     \/ st = OK /\ exists snapshot j, Load (openDirs r) fh = Some snapshot /\
       let rest := drop (Z.to_nat offset) snapshot in
       (j <= length rest)%nat /\ listed out' = listed out ++ page (raw_heap r) (take j rest) /\
       (page (raw_heap r) (take j rest) = [] -> out' = out) /\
       (j = length rest \/ exists e, (rest !! j ≫= shown (raw_heap r)) = Some e /\ add e out' = None)).
Proof.
  intros Hemit Hk [Hi Hd] Hw Ho Hids. unfold readdir.
  assert (Hkn : 0 <= k * snapshot_size r fh).
  { unfold snapshot_size. destruct (Load (openDirs r) fh); lia. }
  destruct (GetNodeCtx_cases r node Hi Hw) as [Hctx|(l & Hl & Hctx)]; rewrite (bind_run _ _ _ _ _ Hctx).
  { rewrite (bind_run _ _ _ _ _ (Close_none r)). eexists ENOENT, out, r. split; [done|].
    split; [eapply quiet_weaken; [apply quiet_refl | lia]|]. left. auto. }
  set (r1 := raw_entered l r).
  rewrite (bind_run _ _ _ _ _ (eq_refl : get_state r1 = Ret (r1, r1))).
  change (Load (openDirs r1) fh) with (Load (openDirs r) fh).
  assert (Hend : forall res r2, quiet (k * snapshot_size r fh) r1 r2 ->
    (on_node (Close (Some (open_ctx l)));; mret res) r2 = Ret (res : Status * DirEntryList, left_with r r2)).
  { intros res r2 Hq. by rewrite (bind_run _ _ _ _ _ (Close_cases l r r2 Hw (quiet_locks _ _ _ _ Hq))). }
  assert (Hsame : quiet (k * snapshot_size r fh) r1 r1) by (eapply quiet_weaken; [apply quiet_refl | lia]).
  destruct (Load (openDirs r) fh) as [snapshot|] eqn:El.
  2:{ rewrite bind_mret, Hend by done. eexists ENOENT, out, _. split; [done|].
      split; [by apply (quiet_entered _ l)|]. left. auto. }
  destruct (Z.of_nat (length snapshot) <=? offset) eqn:Eo.
  { rewrite bind_mret, Hend by done. eexists OK, out, _. split; [done|].
    split; [by apply (quiet_entered _ l)|]. right. split; [done|]. exists snapshot, 0%nat. split; [done|].
    apply Z.leb_le in Eo. rewrite drop_ge by lia. cbn. rewrite app_nil_r. auto. }
  assert (Hsize : snapshot_size r fh = Z.of_nat (length snapshot)) by (unfold snapshot_size; by rewrite El).
  destruct (readdir_loop_run add emit k fh (Z.to_nat offset) (drop (Z.to_nat offset) snapshot) out r1)
    as (out' & r2 & j & Hrun & Hq & Hj & Hlist & Hnil & Hstop); try done.
  - by apply raw_entered_inv.
  - by apply entered_no_writers.
  - intros x Hx. subst r1. rewrite raw_entered_heap. eapply (Hd fh); [exact El|].
    rewrite <-(take_drop (Z.to_nat offset) snapshot). apply elem_of_app. by right.
  - cbn. rewrite sb_ids_put, length_drop. nia.
  - exists snapshot. split; [exact El | apply nils_in_refl].
  - assert (Hq2 : quiet (k * snapshot_size r fh) r1 r2).
    { eapply quiet_weaken; [exact Hq|]. rewrite Hsize, length_drop. nia. }
    assert (Heq : same_but_ids (raw_heap r1) (set_locks (h_locks (raw_heap r1)) (raw_heap r))).
    { subst r1. rewrite raw_entered_heap. by split. }
    assert (Hpage : forall cs, page (raw_heap r1) cs = page (raw_heap r) cs).
    { intros cs. by rewrite <-(page_same _ _ cs Heq). }
    assert (Hshown : forall o, shown (raw_heap r1) o = shown (raw_heap r) o).
    { intros o. by rewrite <-(shown_same _ _ o Heq). }
    rewrite (bind_run _ _ _ (OK, out') r2) by (by rewrite (bind_run _ _ _ _ _ Hrun)).
    rewrite Hend by done. eexists OK, out', _. split; [done|].
    split; [by apply (quiet_entered _ l)|]. right. split; [done|]. exists snapshot, j. split; [done|].
    cbn zeta. rewrite Hpage in Hlist, Hnil. do 3 (split; [done|]).
    destruct Hstop as [?|(e & He & ?)]; [by left|]. right. exists e. split; [|done].
    rewrite <-He. destruct (drop _ snapshot !! j); [|done]. cbn. by rewrite Hshown.
Qed.

(** *** The other handlers *)

Lemma raw_ok_same r r' :
  raw_ok r -> sb_inv (raw_fs r') -> same_but_ids (raw_heap r) (raw_heap r') ->
  openDirs r' = openDirs r -> raw_ok r'.
Proof.
  intros [_ Hd] Hi Hs Ho. split; [done|]. intros fh snapshot l. rewrite Ho. intros Hl Hin.
  eapply sbi_dom; [done|]. by eapply Hd.
Qed.

Lemma ctx_Attr_run r l :
  sb_inv (raw_fs r) -> no_writers (h_locks (raw_heap r)) -> is_Some (h_nodes (raw_heap r) !! l) ->
  exists n ino, h_nodes (raw_heap r) !! l = Some n /\ h_inodes (raw_heap r) !! n_inode n = Some ino /\
    on_node (ctx_Attr (open_ctx l)) r = Ret (i_attr ino, r) /\
    on_node (ctx_NodeID (open_ctx l)) r = Ret (n_nodeID n, r).
Proof.
  intros Hi Hw [n Hn]. destruct (sb_inv_linked _ Hi _ _ Hn) as [[ino Hino] _]. exists n, ino.
  split_and!; [done | done | |]; apply on_node_ro.
  - unfold ctx_Attr, node_Inode. cbn [c_node open_ctx].
    rewrite (bind_run _ _ _ (n_inode n) (raw_heap r)).
    + apply (CopyAttr_run _ _ ino); [done | apply Hw].
    + by rewrite (bind_run _ _ _ _ _ (read_node_run _ _ _ Hn)).
  - unfold ctx_NodeID, NodeID. by rewrite (bind_run _ _ _ _ _ (read_node_run _ _ _ Hn)).
Qed.

(** [GetAttr] of a node that is there: its inode's attributes, and nothing
    changes. *)
Lemma GetAttr_found r id out l n ino :
  sb_inv (raw_fs r) -> no_writers (h_locks (raw_heap r)) ->
  on_fs (sb_GetNodeCtx id) r = Ret (Some (open_ctx l), raw_entered l r) ->
  h_nodes (raw_heap r) !! l = Some n -> h_inodes (raw_heap r) !! n_inode n = Some ino ->
  GetAttr id out r = Ret ((OK, mkAttrOut (i_attr ino) defaultAttrTimeout), r).
Proof.
  intros Hi Hw Hctx Hn Hino. unfold GetAttr. rewrite (bind_run _ _ _ _ _ Hctx).
  destruct (ctx_Attr_run (raw_entered l r) l) as (n' & ino' & Hn' & Hino' & Ha & _).
  - by apply raw_entered_inv.
  - by apply entered_no_writers.
  - rewrite raw_entered_heap. by eexists.
  - rewrite raw_entered_heap in Hn', Hino'. cbn in Hn', Hino'.
    assert (ino' = ino) as -> by congruence. rewrite (bind_run _ _ _ _ _ Ha).
    rewrite (bind_run _ _ _ _ _ (Close_cases l r _ Hw ltac:(by rewrite raw_entered_heap))).
    by rewrite left_with_entered.
Qed.

Lemma GetAttr_run r id out :
  raw_ok r -> no_writers (h_locks (raw_heap r)) ->
  exists st out', GetAttr id out r = Ret ((st, out'), r) /\ (st = OK \/ st = ENOENT).
Proof.
  intros [Hi _] Hw. destruct (GetNodeCtx_cases r id Hi Hw) as [Hctx|(l & [n Hn] & Hctx)].
  - exists ENOENT, out. split; [|auto]. unfold GetAttr. rewrite (bind_run _ _ _ _ _ Hctx).
    by rewrite (bind_run _ _ _ _ _ (Close_none r)).
  - destruct (sb_inv_linked _ Hi _ _ Hn) as [[ino Hino] _].
    eexists OK, _. split; [by eapply GetAttr_found | auto].
Qed.

(** [Lookup] of a child that is there: the identifier it has or gets, and its
    inode's attributes. *)
Lemma Lookup_found r pid name out c s1 n ino :
  sb_inv s1 -> no_writers (h_locks (sb_heap s1)) ->
  sb_GetChildCtx pid name (raw_fs r) = Ret (Some (open_ctx c), sb_put_heap (entered c (sb_heap s1)) s1) ->
  h_nodes (sb_heap s1) !! c = Some n -> h_inodes (sb_heap s1) !! n_inode n = Some ino ->
  Lookup pid name out r
  = Ret ((OK, mkEntryOut (n_nodeID n) (eo_Generation out) (i_attr ino) defaultEntryTimeout
                defaultAttrTimeout), put_fs s1 r).
Proof.
  intros Hi Hw Hctx Hn Hino. unfold Lookup. rewrite (bind_run _ _ _ _ _ (on_fs_run _ _ _ _ Hctx)).
  set (r1 := put_fs s1 r).
  change (put_fs (sb_put_heap (entered c (sb_heap s1)) s1) r) with (raw_entered c r1).
  destruct (ctx_Attr_run (raw_entered c r1) c) as (n' & ino' & Hn' & Hino' & Ha & Hid).
  - by apply raw_entered_inv.
  - by apply entered_no_writers.
  - rewrite raw_entered_heap. by eexists.
  - rewrite raw_entered_heap in Hn', Hino'. cbn in Hn', Hino'.
    assert (n' = n) as -> by congruence. assert (ino' = ino) as -> by congruence.
    rewrite (bind_run _ _ _ _ _ Hid), (bind_run _ _ _ _ _ Ha).
    rewrite (bind_run _ _ _ _ _ (Close_cases c r1 _ Hw ltac:(by rewrite raw_entered_heap))).
    by rewrite left_with_entered.
Qed.

Lemma Lookup_run r pid name out :
  raw_ok r -> no_writers (h_locks (raw_heap r)) -> 1 <= sb_ids_left (raw_fs r) ->
  exists st out' s1, Lookup pid name out r = Ret ((st, out'), put_fs s1 r) /\ (st = OK \/ st = ENOENT) /\
    sb_inv s1 /\ same_but_ids (raw_heap r) (sb_heap s1).
Proof.
  intros [Hi _] Hw Hids.
  destruct (sb_GetChildCtx_law (raw_fs r) pid name Hi Hw Hids)
    as [Hctx|(c & s1 & Hi1 & Hs & _ & [n Hn] & Hctx)].
  - exists ENOENT, out, (raw_fs r). split_and!; [|auto|done|done]. rewrite put_fs_id. unfold Lookup.
    rewrite (bind_run _ _ _ _ _ (on_fs_run _ _ _ _ Hctx)), put_fs_id.
    by rewrite (bind_run _ _ _ _ _ (Close_none r)).
  - destruct (sb_inv_linked _ Hi1 _ _ Hn) as [[ino Hino] _].
    eexists OK, _, s1. split_and!; [|auto|done|done]. eapply Lookup_found; try done.
    by rewrite (sbi_locks _ _ Hs).
Qed.

(** [OpenDir]: the snapshot of the children under the next handle. *)
Lemma OpenDir_run r id out :
  raw_ok r -> no_writers (h_locks (raw_heap r)) ->
  OpenDir id out r = Ret ((ENOENT, out), r) \/
  exists l n, h_nodes (raw_heap r) !! l = Some n /\
    on_fs (sb_GetNodeCtx id) r = Ret (Some (open_ctx l), raw_entered l r) /\
    let fh := nextDirFh r +u 1 in
    OpenDir id out r
    = Ret ((OK, fh), mkRaw (raw_fs r) fh (Store (openDirs r) fh (Some <$> (Range (n_children n)).*2))
                       (nextFileFh r) (openFiles r)).
Proof.
  intros [Hi _] Hw. unfold OpenDir.
  destruct (GetNodeCtx_cases r id Hi Hw) as [Hctx|(l & [n Hn] & Hctx)]; rewrite (bind_run _ _ _ _ _ Hctx).
  { left. by rewrite (bind_run _ _ _ _ _ (Close_none r)). }
  right. exists l, n. split; [done|]. split; [done|].
  erewrite bind_run.
  2:{ apply on_node_ro. unfold UnsafeChildren. erewrite bind_run; [done|].
      apply read_node_run. by rewrite raw_entered_heap. }
  rewrite (bind_run _ _ _ _ _ (eq_refl : new_dir_fh _ = Ret _)).
  rewrite (bind_run _ _ _ _ _ (eq_refl : modify _ _ = Ret _)).
  erewrite bind_run by (apply (Close_cases l r); [exact Hw | cbn; by rewrite sb_get_put]).
  unfold mret, GoM_ret, left_with, put_node_heap, raw_entered, put_node_heap, put_fs, put_openDirs.
  cbn. rewrite sb_get_put, sb_put_put. unfold entered. by rewrite set_locks_twice, set_locks_id, sb_put_get.
Qed.

(** [Open]: the node's identifier under the next handle. *)
Lemma Open_run r id out :
  raw_ok r -> no_writers (h_locks (raw_heap r)) ->
  Open id out r = Ret ((ENOENT, out), r) \/
  exists l, on_fs (sb_GetNodeCtx id) r = Ret (Some (open_ctx l), raw_entered l r) /\
    let fh := nextFileFh r +u 1 in
    Open id out r
    = Ret ((OK, fh), mkRaw (raw_fs r) (nextDirFh r) (openDirs r) fh (Store (openFiles r) fh id)).
Proof.
  intros [Hi _] Hw. unfold Open.
  destruct (GetNodeCtx_cases r id Hi Hw) as [Hctx|(l & Hl & Hctx)]; rewrite (bind_run _ _ _ _ _ Hctx).
  { by left. }
  right. exists l. split; [done|].
  rewrite (bind_run _ _ _ _ _ (eq_refl : new_file_fh _ = Ret _)).
  rewrite (bind_run _ _ _ _ _ (eq_refl : modify _ _ = Ret _)).
  erewrite bind_run by (apply (Close_cases l r); [exact Hw | cbn; by rewrite sb_get_put]).
  unfold mret, GoM_ret, left_with, put_node_heap, raw_entered, put_node_heap, put_fs, put_openFiles.
  cbn. rewrite sb_get_put, sb_put_put. unfold entered. by rewrite set_locks_twice, set_locks_id, sb_put_get.
Qed.
End runs.
