(* ===== verification/FuseTheorems.v ===== *)
(** The theorems about the request handlers: safety of every request against
    the interface, complete directory listings, file handles, and what a
    lookup and a read deliver on the filesystem itself. *)

From S2P Require Import Prelude Config Paths Request XSync DataCache AdapterPool Inode Heap Node.
From S2P Require Import NodeContext Tree FileSystem FileSystemSpec NodeRegistry Fuse Bridge FuseSpec.

Section handle.
Context {X : XSync} `{!XSyncLaws} {W A S : Type} {SB : ServerBridger W A S}.
Context {BL : BridgerLaws (SB := SB)} {D : DirEntryLists} `{!DirEntryListLaws}.
Implicit Types (r : FuseRaw S) (l : loc).

(** The requests the kernel can send, with the fields the handlers read. *)
Inductive KernelRequest :=
  | RqAccess | RqSetAttr
  | RqLookup (parent : Z) (name : string) (out : EntryOut)
  | RqForget (node nlookup : Z)
  | RqGetAttr (node : Z) (out : AttrOut)
  | RqOpenDir (node out_Fh : Z)
  | RqReadDir (node fh offset : Z) (out : DirEntryList)
  | RqReadDirPlus (node fh offset : Z) (out : DirEntryList)
  | RqReleaseDir (fh : Z)
  | RqOpen (node out_Fh : Z)
  | RqRead (fh offset size : Z)
  | RqRelease (fh : Z).

(** The status the handler of a request answers with, if it has one. *)
Definition handle (rq : KernelRequest) : GoM (FuseRaw S) (option Status) :=
  match rq with
  | RqAccess => st ← Access; mret (Some st)
  | RqSetAttr => st ← SetAttr; mret (Some st)
  | RqLookup parent name out => res ← Lookup parent name out; mret (Some res.1)
  | RqForget node nlookup => Forget node nlookup;; mret None
  | RqGetAttr node out => res ← GetAttr node out; mret (Some res.1)
  | RqOpenDir node out => res ← OpenDir node out; mret (Some res.1)
  | RqReadDir node fh offset out => res ← ReadDir node fh offset out; mret (Some res.1)
  | RqReadDirPlus node fh offset out => res ← ReadDirPlus node fh offset out; mret (Some res.1)
  | RqReleaseDir fh => ReleaseDir fh;; mret None
  | RqOpen node out => res ← Open node out; mret (Some res.1)
  | RqRead fh offset size => res ← raw_Read fh offset size; mret (Some res.2)
  | RqRelease fh => Release fh;; mret None
  end.

(** What a request asks of the state: offsets are unsigned, there are
    identifiers for the nodes it can name for the first time, and a read
    through a handle in use is one that the adapters and the runtime can do: it
    is in the range of int64, below the allocation limit, and the adapters keep
    their bounds. *)
Definition can_handle r (rq : KernelRequest) : Prop :=
  match rq with
  | RqLookup _ _ _ => 1 <= sb_ids_left (raw_fs r)
  | RqReadDir _ fh offset _ => 0 <= offset /\ 0 <= sb_ids_left (raw_fs r)
  | RqReadDirPlus _ fh offset _ => 0 <= offset /\ snapshot_size r fh <= sb_ids_left (raw_fs r)
  | RqRead fh offset size => is_Some (Load (openFiles r) fh) ->
      valid_request (wrap64 offset) size /\ size <= maxAlloc /\ sb_adapters_ok (raw_fs r)
  | _ => True
  end.

Definition is_read (rq : KernelRequest) : bool := match rq with RqRead _ _ _ => true | _ => false end.

(** The statuses of the handlers that do not read files. *)
Definition plain_status (st : option Status) : Prop :=
  match st with Some EBADF | Some EIO => False | _ => True end.

(** The status a request may be answered with: a read of a file is answered
    with its data, an input/output error or, exactly when nothing is open under
    the handle, [EBADF]. *)
Definition right_status r (rq : KernelRequest) (st : option Status) : Prop :=
  match rq with
  | RqRead fh _ _ => (st = Some OK \/ st = Some EIO) /\ is_Some (Load (openFiles r) fh) \/
                     st = Some EBADF /\ Load (openFiles r) fh = None
  | _ => plain_status st
  end.

(** What a request may change of the core's heap: a read the caches and the
    health of the adapters, any other request the identifiers. *)
Definition right_change (rq : KernelRequest) (h h' : heap W A) : Prop :=
  if is_read rq then same_but_caches h h' else same_but_ids h h'.

Definition handled rq r : Prop :=
  exists st r', handle rq r = Ret (st, r') /\ raw_ok r' /\ right_status r rq st /\
    right_change rq (sb_heap (raw_fs r)) (sb_heap (raw_fs r')) /\
    (sb_adapters_ok (raw_fs r) -> sb_adapters_ok (raw_fs r')).

(** Requests that are not reads leave the adapters alone. *)
Lemma handled_plain rq r st r' :
  is_read rq = false -> handle rq r = Ret (st, r') -> raw_ok r' -> plain_status st ->
  same_but_ids (sb_heap (raw_fs r)) (sb_heap (raw_fs r')) -> handled rq r.
Proof.
  intros Hrq Hrun Hok Hst Hs. exists st, r'. unfold right_change. rewrite Hrq.
  split_and!; [done | done | by destruct rq | done |].
  apply sb_adapters_inodes, sbi_inodes, Hs.
Qed.

(** A handler that leaves the state as it is. *)
Lemma handled_same rq r st :
  is_read rq = false -> raw_ok r -> handle rq r = Ret (st, r) -> plain_status st -> handled rq r.
Proof. intros Hrq Hok Hrun Hst. by eapply handled_plain. Qed.

Lemma raw_Read_run r fh offset size :
  raw_ok r -> no_writers (h_locks (sb_heap (raw_fs r))) -> can_handle r (RqRead fh offset size) ->
  exists data st s1, raw_Read fh offset size r = Ret ((data, st), put_fs s1 r) /\
    raw_ok (put_fs s1 r) /\ right_status r (RqRead fh offset size) (Some st) /\
    same_but_caches (sb_heap (raw_fs r)) (sb_heap s1) /\
    (sb_adapters_ok (raw_fs r) -> sb_adapters_ok s1).
Proof.
  intros Hok Hw Hcan. cbn [can_handle right_status] in *. unfold raw_Read.
  rewrite (bind_run _ _ _ _ _ (eq_refl : get_state r = Ret (r, r))).
  destruct (Load (openFiles r) fh) as [id|].
  2:{ exists None, EBADF, (raw_fs r). rewrite put_fs_id.
      split_and!; [done | apply Hok.. | by right | apply same_but_caches_refl | done]. }
  destruct (Hcan ltac:(by eexists)) as (Hv & Hm & Ha).
  destruct (sb_Read_law (raw_fs r) Background id (wrap64 offset) size (proj1 Hok) Hw Ha Hv Hm)
    as (res & s1 & Hrun & Hi & Ha1 & Hs & _).
  rewrite (bind_run _ _ _ _ _ (on_fs_run _ _ _ _ Hrun)).
  exists (match res with Ok d => Some d | Err _ => None end), (match res with Ok _ => OK | Err _ => EIO end), s1.
  split; [by destruct res|]. split; [|split_and!; [|done|done]].
  - split; [done|]. intros fh' snapshot l Hl Hin. cbn. rewrite (sbc_nodes _ _ Hs). by eapply (proj2 Hok).
  - left. split; [destruct res; auto | by eexists].
Qed.

Lemma readdir_handled add emit k node fh offset out r rq :
  emits add emit k -> 0 <= k -> raw_ok r -> no_writers (h_locks (sb_heap (raw_fs r))) -> 0 <= offset ->
  k * snapshot_size r fh <= sb_ids_left (raw_fs r) -> is_read rq = false ->
  handle rq r = (res ← readdir emit node fh offset out; mret (Some res.1)) r -> handled rq r.
Proof.
  intros He Hk Hok Hw Ho Hids Hrq Hhandle.
  destruct (readdir_run add emit k node fh offset out r He Hk Hok Hw Ho Hids)
    as (st & out' & r' & Hrun & Hq & Hst).
  rewrite (bind_run _ _ _ _ _ Hrun) in Hhandle.
  eapply handled_plain; [done | done | by eapply quiet_ok | | by eapply q_heap].
  by destruct Hst as [(-> & _)|[-> _]].
Qed.

Lemma handled_ok rq r :
  raw_ok r -> no_writers (h_locks (sb_heap (raw_fs r))) -> can_handle r rq -> handled rq r.
Proof.
  intros Hok Hw Hcan. destruct rq as [| |p name out|node nl|node out|node out
    |node fh offset out|node fh offset out|fh|node out|fh offset size|fh].
  - by eapply handled_same.
  - by eapply handled_same.
  - destruct (Lookup_run r p name out Hok Hw Hcan) as (st & out' & s1 & Hrun & Hst & Hi & Hs).
    apply (handled_plain _ _ (Some st) (put_fs s1 r)); [done | | by eapply raw_ok_same | by destruct Hst as [-> | ->] | done].
    cbn [handle]. by rewrite (bind_run _ _ _ _ _ Hrun).
  - destruct (sb_ForgetNodeID_law (raw_fs r) node (proj1 Hok) Hw) as (s1 & Hrun & Hi & Hh & _).
    assert (Hs : same_but_ids (sb_heap (raw_fs r)) (sb_heap s1)) by by rewrite Hh.
    apply (handled_plain _ _ None (put_fs s1 r)); [done | | by eapply raw_ok_same | done | done].
    cbn [handle]. unfold Forget. by rewrite (bind_run _ _ _ _ _ (on_fs_run _ _ _ _ Hrun)).
  - destruct (GetAttr_run r node out Hok Hw) as (st & out' & Hrun & Hst).
    eapply (handled_same _ _ (Some st)); [done | done | cbn [handle]; by rewrite (bind_run _ _ _ _ _ Hrun) |].
    by destruct Hst as [-> | ->].
  - destruct (OpenDir_run r node out Hok Hw) as [Hrun|(l & n & Hn & _ & Hrun)];
      [eapply handled_same; [done | done | cbn [handle]; by rewrite (bind_run _ _ _ _ _ Hrun) | done]|].
    eapply handled_plain; [done | cbn [handle]; by rewrite (bind_run _ _ _ _ _ Hrun) | | done | done].
    destruct Hok as [Hi Hd]. split; [done|]. cbn. intros fh snapshot x. rewrite Load_Store.
    case_decide; [|by apply Hd]. intros [= <-] Hin.
    apply list_elem_of_fmap in Hin as (y & [= <-] & Hin). apply list_elem_of_fmap in Hin as ([nm z] & -> & Hin).
    apply elem_of_Range in Hin. by eapply (sb_inv_linked _ Hi _ _ Hn).
  - destruct Hcan. eapply (readdir_handled _ emit_plain 0 node fh offset out r); [apply emit_plain_emits | done..| lia | done | done].
  - destruct Hcan. eapply (readdir_handled _ emit_plus 1 node fh offset out r); [apply emit_plus_emits | done..| lia | done | done].
  - eapply (handled_plain _ _ None); [done | done | | done | done]. destruct Hok as [Hi Hd]. split; [done|].
    cbn. intros fh' snapshot x. rewrite Load_Delete. case_decide; [done | apply Hd].
  - destruct (Open_run r node out Hok Hw) as [Hrun|(l & _ & Hrun)];
      [eapply handled_same; [done | done | cbn [handle]; by rewrite (bind_run _ _ _ _ _ Hrun) | done]|].
    eapply handled_plain; [done | cbn [handle]; by rewrite (bind_run _ _ _ _ _ Hrun) | split; apply Hok | done | done].
  - destruct (raw_Read_run r fh offset size Hok Hw Hcan) as (data & st & s1 & Hrun & Hok1 & Hst & Hs & Ha).
    exists (Some st), (put_fs s1 r). cbn [handle]. rewrite (bind_run _ _ _ _ _ Hrun). by split_and!.
  - eapply (handled_plain _ _ None); [done | done | split; apply Hok | done | done].
Qed.

(** ** Listing a directory *)

(** The kernel reads an open directory until a reply is empty: every request
    has a fresh buffer and carries the offset after the last entry, that is
    the number of entries so far. *)
Fixpoint list_dir (empty : DirEntryList) (fuel : nat) (node fh offset : Z) : GoM (FuseRaw S) (list DirEntry) :=
  match fuel with
  | O => no_fuel
  | Datatypes.S fuel' =>
      res ← ReadDir node fh offset empty;
      match listed res.2 with
      | [] => mret []
      | es => rest ← list_dir empty fuel' node fh (offset + Z.of_nat (length es));
              mret (es ++ rest)
      end
  end.

(** An element of a snapshot that is a live node. *)
Definition live_elem r (o : option loc) : Prop := is_Some (shown (sb_heap (raw_fs r)) o).

Lemma page_live r snapshot :
  Forall (live_elem r) snapshot -> length (page (sb_heap (raw_fs r)) snapshot) = length snapshot.
Proof.
  induction 1 as [|o os [e He] _ IH]; [done|]. unfold page in *. cbn. rewrite He. cbn. by rewrite IH.
Qed.

Lemma nils_in_live (h : heap W A) a b :
  nils_in h a b -> Forall (fun o => is_Some (shown h o)) a -> b = a.
Proof.
  induction 1 as [|o o' a b Ho _ IH]; [done|]. intros [[e He] Hl]%Forall_cons.
  rewrite IH by done. destruct Ho as [->|[_ ?]]; congruence.
Qed.

(** The node of the request is known, and the handle is one of its openings. *)
Definition dir_open r node fh snapshot : Prop :=
  (exists l, on_fs (sb_GetNodeCtx node) r = Ret (Some (open_ctx l), raw_entered l r)) /\
  Load (openDirs r) fh = Some snapshot.

(** What a directory read of an open directory does, when it takes no
    identifiers: the state changes in the snapshots only. *)
Lemma ReadDir_open node fh offset out snapshot r :
  raw_ok r -> no_writers (h_locks (sb_heap (raw_fs r))) -> 0 <= sb_ids_left (raw_fs r) ->
  0 <= offset -> dir_open r node fh snapshot ->
  exists out' r' snapshot' j, ReadDir node fh offset out r = Ret ((OK, out'), r') /\
    raw_ok r' /\ raw_fs r' = raw_fs r /\ dir_open r' node fh snapshot' /\
    nils_in (sb_heap (raw_fs r)) snapshot snapshot' /\
    let rest := drop (Z.to_nat offset) snapshot in
    (j <= length rest)%nat /\ listed out' = listed out ++ page (sb_heap (raw_fs r)) (take j rest) /\
    (page (sb_heap (raw_fs r)) (take j rest) = [] -> out' = out) /\
    (j = length rest \/
     exists e, (rest !! j ≫= shown (sb_heap (raw_fs r))) = Some e /\ AddDirEntry e out' = None).
Proof.
  intros Hok Hw Hids Ho [[l Hctx] Hload].
  destruct (readdir_run AddDirEntry emit_plain 0 node fh offset out r emit_plain_emits)
    as (st & out' & r' & Hrun & Hq & Hend); [lia | done | done | done | lia |].
  assert (Hfs : raw_fs r' = raw_fs r) by (apply (q_fs _ _ _ Hq); lia).
  pose proof (q_dirs _ _ _ Hq fh) as Hd. rewrite Hload in Hd.
  destruct (Load (openDirs r') fh) as [snapshot'|] eqn:E'; [|done].
  destruct Hend as [(_ & _ & [E|E])|(-> & sn & j & Hsn & Hrest)]; [congruence..|].
  rewrite Hload in Hsn. injection Hsn as <-. exists out', r', snapshot', j.
  split; [done|]. split; [by eapply quiet_ok|]. split; [done|]. split; [|by split].
  split; [|done]. exists l. unfold on_fs, zoom in *. rewrite Hfs.
  destruct (sb_GetNodeCtx node (raw_fs r)) as [[c s1]| | |]; try done.
  injection Hctx as -> ->. unfold raw_entered, put_node_heap. by rewrite Hfs.
Qed.

(** C14: a directory is listed completely. When no node of the snapshot is
    deleted and an empty buffer takes any one entry, the kernel's successive
    [ReadDir] calls, each at the offset after the last entry, end and list the
    whole snapshot in order, every child exactly once, however the entries
    happen to fit the buffers. *)
Theorem list_dir_complete empty node fh snapshot r :
  raw_ok r -> no_writers (h_locks (sb_heap (raw_fs r))) -> 0 <= sb_ids_left (raw_fs r) ->
  dir_open r node fh snapshot ->
  Forall (live_elem r) snapshot ->
  listed empty = [] -> (forall e, is_Some (AddDirEntry e empty)) ->
  exists r', list_dir empty (1 + length snapshot) node fh 0 r
    = Ret (page (sb_heap (raw_fs r)) snapshot, r') /\ raw_fs r' = raw_fs r.
Proof.
  intros Hok Hw Hids Hopen Hlive Hempty Hfits.
  assert (Hgen : forall m k r1, (length snapshot < m + k)%nat -> raw_ok r1 -> raw_fs r1 = raw_fs r ->
    dir_open r1 node fh snapshot ->
    exists r', list_dir empty m node fh (Z.of_nat k) r1
      = Ret (page (sb_heap (raw_fs r)) (drop k snapshot), r') /\ raw_fs r' = raw_fs r \/
      (length snapshot < k)%nat /\ m = 0%nat).
  { induction m as [|m IH]; intros k r1 Hm Hok1 Hfs1 Hopen1; [exists r1; right; lia|]. cbn [list_dir].
    destruct (ReadDir_open node fh (Z.of_nat k) empty snapshot r1) as
      (out' & r2 & sn2 & j & Hrun & Hok2 & Hfs2 & Hopen2 & Hnils & Hj & Hlist & Hnil & Hend);
      rewrite ?Hfs1 in *; try done; [lia|].
    apply (nils_in_live _ _ _) in Hnils as ->; [|done].
    rewrite (bind_run _ _ _ _ _ Hrun). cbn [snd]. rewrite Nat2Z.id in *. rewrite Hlist, Hempty, app_nil_l.
    assert (Hlen : length (page (sb_heap (raw_fs r)) (take j (drop k snapshot))) = j).
    { rewrite page_live; [rewrite length_take; lia|]. by apply Forall_take, Forall_drop. }
    destruct (page (sb_heap (raw_fs r)) (take j (drop k snapshot))) as [|e es] eqn:Epage.
    - exists r2. left. split; [|done]. cbn in Hlen. subst j. destruct Hend as [Hz|(e & _ & Hfull)].
      + apply symmetry, nil_length_inv in Hz. by rewrite Hz.
      + rewrite (Hnil eq_refl) in Hfull. destruct (Hfits e) as [? ?]. congruence.
    - destruct (IH (k + j)%nat r2) as (r3 & [[Hrun3 Hfs3]|[Hlt ->]]); [|done|done|done| |].
      + cbn in Hlen. lia.
      + exists r3. left. split; [|done]. rewrite Hlen, <-Nat2Z.inj_add.
        rewrite (bind_run _ _ _ _ _ Hrun3). rewrite <-Epage.
        rewrite <-(take_drop j (drop k snapshot)) at 2. rewrite drop_drop.
        unfold page. by rewrite omap_app.
      + rewrite length_drop in Hj. cbn in Hlen. lia. }
  destruct (Hgen (1 + length snapshot)%nat 0%nat r) as (r' & [[Hrun Hfs]|[_ ?]]); try done; [lia|].
  exists r'. by rewrite drop_0 in Hrun.
Qed.

(** Entries that have become nil showed nothing before either. *)
Lemma nils_in_page (h : heap W A) a b : nils_in h a b -> page h b = page h a.
Proof.
  induction 1 as [|o o' a b Ho _ IH]; [done|]. unfold page in *. cbn [omap list_omap]. rewrite IH.
  by destruct Ho as [->|[-> ->]].
Qed.

Lemma page_app (h : heap W A) a b : page h (a ++ b) = page h a ++ page h b.
Proof. apply omap_app. Qed.

Lemma omap_length_le {B C} (f : B -> option C) (xs : list B) : (length (omap f xs) <= length xs)%nat.
Proof. induction xs as [|x xs IH]; cbn; [done|]. destruct (f x); cbn; lia. Qed.

(** A deleted element makes the page shorter than the snapshot. *)
Lemma page_deleted (h : heap W A) snapshot :
  Exists (fun o => shown h o = None) snapshot -> (length (page h snapshot) < length snapshot)%nat.
Proof.
  unfold page. induction 1 as [o os Ho|o os _ IH]; cbn.
  - rewrite Ho. pose proof (omap_length_le (shown h) os). lia.
  - destruct (shown h o); cbn; lia.
Qed.

(** A page that ends with a live element is not empty. *)
Lemma page_last_live (h : heap W A) snapshot k :
  (k < length snapshot)%nat -> is_Some (last snapshot ≫= shown h) -> page h (drop k snapshot) <> [].
Proof.
  intros Hk Hlast. rewrite <-(take_drop k snapshot), last_app in Hlast.
  destruct (last (drop k snapshot)) as [o|] eqn:Eo.
  - apply last_Some in Eo as [pre ->]. rewrite page_app. cbn in Hlast. destruct Hlast as [e He].
    unfold page at 2. cbn. rewrite He. by destruct (page h pre).
  - apply last_None in Eo. apply (f_equal length) in Eo. rewrite length_drop in Eo. cbn in Eo. lia.
Qed.

(** The listing from an offset on, when the last child of the snapshot is live:
    as many entries as there are elements left. *)
Lemma list_dir_run empty node fh snapshot r :
  no_writers (h_locks (sb_heap (raw_fs r))) -> 0 <= sb_ids_left (raw_fs r) ->
  listed empty = [] -> (forall e, is_Some (AddDirEntry e empty)) ->
  is_Some (last snapshot ≫= shown (sb_heap (raw_fs r))) ->
  forall m k r1 snapshot1, (k <= length snapshot)%nat -> (length snapshot < m + k)%nat ->
    raw_ok r1 -> raw_fs r1 = raw_fs r -> dir_open r1 node fh snapshot1 ->
    nils_in (sb_heap (raw_fs r)) snapshot snapshot1 ->
    exists es r', list_dir empty m node fh (Z.of_nat k) r1 = Ret (es, r') /\ raw_fs r' = raw_fs r /\
      (length es + k = length snapshot)%nat /\
      (forall e, e ∈ page (sb_heap (raw_fs r)) (drop k snapshot) -> e ∈ es) /\
      (forall e, e ∈ es -> e ∈ page (sb_heap (raw_fs r)) snapshot).
Proof.
  intros Hw Hids Hempty Hfits Hlast. set (h := sb_heap (raw_fs r)) in *.
  induction m as [|m IH]; intros k r1 sn1 Hk Hm Hok1 Hfs1 Hopen1 Hnils1; [lia|]. cbn [list_dir].
  destruct (ReadDir_open node fh (Z.of_nat k) empty sn1 r1) as
    (out' & r2 & sn2 & j & Hrun & Hok2 & Hfs2 & Hopen2 & Hnils2 & Hj & Hlist & Hnil & Hend);
    rewrite ?Hfs1 in *; try done; [lia|]. fold h in Hlist, Hnil, Hend, Hnils2.
  rewrite (bind_run _ _ _ _ _ Hrun). cbn [snd]. rewrite Nat2Z.id in *. rewrite Hlist, Hempty, app_nil_l.
  pose proof (Forall2_length _ _ _ Hnils1) as Hlen1.
  pose proof (nils_in_page _ _ _ (Forall2_drop _ _ _ k Hnils1)) as Hpage.
  assert (Hsplit : page h (drop k snapshot) = page h (take j (drop k sn1)) ++ page h (drop (k + j) snapshot)).
  { rewrite <-Hpage. rewrite <-(take_drop j (drop k sn1)) at 1. rewrite page_app, drop_drop. f_equal.
    apply nils_in_page. by apply Forall2_drop. }
  assert (Hcount : (length (page h (take j (drop k sn1))) <= j)%nat).
  { etrans; [apply omap_length_le|]. rewrite length_take. lia. }
  destruct (page h (take j (drop k sn1))) as [|e es] eqn:Epage.
  - exists [], r2. split; [done|]. split; [done|].
    assert (k = length snapshot) as ->.
    { destruct (decide (k < length snapshot)%nat) as [Hlt|]; [exfalso|lia].
      destruct Hend as [Hz|(e & _ & Hfull)].
      - apply (page_last_live h snapshot k Hlt Hlast). rewrite Hsplit, drop_ge; [done|].
        rewrite length_drop in Hz. lia.
      - rewrite (Hnil eq_refl) in Hfull. destruct (Hfits e) as [? ?]. congruence. }
    rewrite drop_all. split_and!; [done | by intros e ?%elem_of_nil..].
  - rewrite length_drop in Hj.
    destruct (IH (k + length (e :: es))%nat r2 sn2) as (es' & r3 & Hrun3 & Hfs3 & Hlen3 & Hin3 & Hsub3);
      [lia | cbn; lia | done | done | done | by eapply nils_in_trans |].
    exists ((e :: es) ++ es'), r3. rewrite <-Nat2Z.inj_add, (bind_run _ _ _ _ _ Hrun3).
    split; [done|]. split; [done|]. rewrite length_app. split; [lia|]. split.
    + intros e1. rewrite Hsplit, !elem_of_app. intros [?|He1]; [by left|]. right. apply Hin3.
      rewrite <-(take_drop (j - length (e :: es)) (drop (k + length (e :: es)) snapshot)), page_app, drop_drop.
      apply elem_of_app. right. by replace (_ + _)%nat with (k + j)%nat by lia.
    + intros e1 [Hin|?]%elem_of_app; [|by apply Hsub3].
      rewrite <-(take_drop k snapshot), page_app, Hsplit. rewrite !elem_of_app. auto.
Qed.

(** C22: with a deletion in between, a listing repeats entries. The offset of a
    [ReadDir] counts the entries listed so far, while the snapshot is indexed
    by it, deleted elements included.  So when the last child of the snapshot is
    live and an empty buffer takes any one entry, the kernel's successive calls
    end with as many entries as the snapshot has elements, deleted ones
    included, whatever the buffers: exactly the live children's entries, each
    at least once, and when a child has been deleted some of them repeated. *)
Theorem ReadDir_repeats empty node fh snapshot r :
  raw_ok r -> no_writers (h_locks (sb_heap (raw_fs r))) -> 0 <= sb_ids_left (raw_fs r) ->
  dir_open r node fh snapshot ->
  is_Some (last snapshot ≫= shown (sb_heap (raw_fs r))) ->
  listed empty = [] -> (forall e, is_Some (AddDirEntry e empty)) ->
  exists es r', list_dir empty (1 + length snapshot) node fh 0 r = Ret (es, r') /\ raw_fs r' = raw_fs r /\
    length es = length snapshot /\
    (forall e, e ∈ es <-> e ∈ page (sb_heap (raw_fs r)) snapshot) /\
    (Exists (fun o => shown (sb_heap (raw_fs r)) o = None) snapshot -> ~ NoDup es).
Proof.
  intros Hok Hw Hids Hopen Hlast Hempty Hfits.
  destruct (list_dir_run empty node fh snapshot r Hw Hids Hempty Hfits Hlast (1 + length snapshot) 0 r snapshot)
    as (es & r' & Hrun & Hfs & Hlen & Hin & Hsub); [lia | lia | done | done | done | apply nils_in_refl |].
  exists es, r'. split; [done|]. split; [done|]. split; [lia|]. rewrite drop_0 in Hin. split; [by split; auto|].
  intros Hdel Hnodup. pose proof (page_deleted _ _ Hdel).
  assert (es ⊆+ page (sb_heap (raw_fs r)) snapshot) as Hle%submseteq_length by (by apply NoDup_submseteq). lia.
Qed.

(** ** Handles *)

(** Handles in use have been given out, and the counters are far from their
    end. *)
Definition handles_wf r : Prop :=
  in_u64 (nextDirFh r) /\ in_u64 (nextFileFh r) /\
  (forall fh, is_Some (Load (openDirs r) fh) -> 1 < fh <= nextDirFh r) /\
  (forall fh, is_Some (Load (openFiles r) fh) -> 1 < fh <= nextFileFh r) /\
  1 <= nextDirFh r /\ 1 <= nextFileFh r.

Definition handles_left r : Prop := nextDirFh r + 1 < 2 ^ 64 /\ nextFileFh r + 1 < 2 ^ 64.

(** One request after the other. *)
Inductive raw_step : relation (FuseRaw S) :=
  | step_request rq st r r' :
      no_writers (h_locks (sb_heap (raw_fs r))) -> can_handle r rq -> handles_left r ->
      handle rq r = Ret (st, r') -> raw_step r r'.

(** What a step leaves of the handles: the same ones, or fewer, or one more
    that comes from a counter. *)
Lemma readdir_handles add emit k node fh offset out r st r' :
  emits add emit k -> 0 <= k -> raw_ok r -> no_writers (h_locks (sb_heap (raw_fs r))) -> 0 <= offset ->
  k * snapshot_size r fh <= sb_ids_left (raw_fs r) ->
  (res ← readdir emit node fh offset out; mret (Some res.1)) r = Ret (st, r') -> handles_wf r -> handles_wf r'.
Proof.
  intros He Hk Hok Hw Ho Hids Hrun (H1 & H2 & H3 & H4 & H5 & H6).
  destruct (readdir_run add emit k node fh offset out r He Hk Hok Hw Ho Hids)
    as (st' & out' & r2 & Hrun' & [_ _ _ _ _ Hd Hf Hnd Hnf] & _).
  rewrite (bind_run _ _ _ _ _ Hrun') in Hrun. injection Hrun as <- <-.
  unfold handles_wf. rewrite Hf, Hnd, Hnf. split_and!; try done.
  intros fh' [a Ha]. specialize (Hd fh'). rewrite Ha in Hd. apply H3.
  destruct (Load (openDirs r) fh'); [by eexists | done].
Qed.

Lemma raw_step_ok r r' : raw_step r r' -> raw_ok r -> raw_ok r'.
Proof.
  intros [rq st r0 r1 Hw Hcan _ Hrun] Hok. destruct (handled_ok rq r0 Hok Hw Hcan) as (st' & r2 & Hrun' & ? & _).
  congruence.
Qed.

Lemma fresh_handle n : in_u64 n -> 1 <= n -> n + 1 < 2 ^ 64 -> n +u 1 = n + 1 /\ in_u64 (n + 1).
Proof. unfold in_u64. intros ? ? ?. rewrite u64_id by (unfold in_u64; lia). split; [done | lia]. Qed.

Lemma raw_step_handles r r' : raw_step r r' -> raw_ok r -> handles_wf r -> handles_wf r'.
Proof.
  intros [rq st r0 r1 Hw Hcan [Hl1 Hl2] Hrun] Hok Hwf.
  destruct rq as [| |p name out|node nl|node out|node out|node fh offset out|node fh offset out
    |fh|node out|fh offset size|fh]; cbn [handle] in Hrun.
  - by injection Hrun as <- <-.
  - by injection Hrun as <- <-.
  - destruct (Lookup_run r0 p name out Hok Hw Hcan) as (st' & out' & s1 & E & _).
    rewrite (bind_run _ _ _ _ _ E) in Hrun; by injection Hrun as <- <-.
  - destruct (sb_ForgetNodeID_law (raw_fs r0) node (proj1 Hok) Hw) as (s1 & E & _).
    unfold Forget in Hrun. rewrite (bind_run _ _ _ _ _ (on_fs_run _ _ _ _ E)) in Hrun.
    by injection Hrun as <- <-.
  - destruct (GetAttr_run r0 node out Hok Hw) as (st' & out' & E & _).
    rewrite (bind_run _ _ _ _ _ E) in Hrun; by injection Hrun as <- <-.
  - destruct (OpenDir_run r0 node out Hok Hw) as [E|(l & n & _ & _ & E)];
      rewrite (bind_run _ _ _ _ _ E) in Hrun; injection Hrun as <- <-; [done|].
    destruct Hwf as (H1 & H2 & H3 & H4 & H5 & H6).
    destruct (fresh_handle (nextDirFh r0) H1 H5 Hl1) as [-> Hu]. unfold handles_wf. cbn.
    split_and!; try done; [|lia]. intros fh. rewrite Load_Store. case_decide; [lia|].
    intros Hfh. apply H3 in Hfh. lia.
  - eapply (readdir_handles _ _ _ node fh offset out r0); [apply emit_plain_emits | done.. | apply Hcan | destruct Hcan; lia | exact Hrun | done].
  - eapply (readdir_handles _ _ _ node fh offset out r0); [apply emit_plus_emits | done.. | apply Hcan | destruct Hcan; lia | exact Hrun | done].
  - injection Hrun as <- <-. destruct Hwf as (H1 & H2 & H3 & H4 & H5 & H6). unfold handles_wf. cbn.
    split_and!; try done. intros fh'. rewrite Load_Delete. case_decide; [by intros [??] | apply H3].
  - destruct (Open_run r0 node out Hok Hw) as [E|(l & _ & E)];
      rewrite (bind_run _ _ _ _ _ E) in Hrun; injection Hrun as <- <-; [done|].
    destruct Hwf as (H1 & H2 & H3 & H4 & H5 & H6).
    destruct (fresh_handle (nextFileFh r0) H2 H6 Hl2) as [-> Hu]. unfold handles_wf. cbn.
    split_and!; try done; [|lia]. intros fh. rewrite Load_Store. case_decide; [lia|].
    intros Hfh. apply H4 in Hfh. lia.
  - destruct (raw_Read_run r0 fh offset size Hok Hw Hcan) as (data & st' & s1 & E & _).
    rewrite (bind_run _ _ _ _ _ E) in Hrun; by injection Hrun as <- <-.
  - injection Hrun as <- <-. destruct Hwf as (H1 & H2 & H3 & H4 & H5 & H6). unfold handles_wf. cbn.
    split_and!; try done. intros fh'. rewrite Load_Delete. case_decide; [by intros [??] | apply H4].
Qed.

Lemma raw_steps_ok s0 r :
  sb_inv s0 -> rtc raw_step (NewFuseRaw s0) r -> raw_ok r /\ handles_wf r.
Proof.
  intros Hi Hsteps.
  assert (Hstart : raw_ok (NewFuseRaw s0) /\ handles_wf (NewFuseRaw s0)).
  { split; [split; [done|]|]; cbn.
    - intros fh snapshot l. by rewrite Load_NewMap.
    - unfold handles_wf, in_u64. cbn. split_and!; try lia; intros fh; rewrite Load_NewMap; by intros [??]. }
  induction Hsteps as [|r1 r2 r3 Hstep _ IH]; [done|]. apply IH. destruct Hstart.
  split; [by eapply raw_step_ok | by eapply raw_step_handles].
Qed.

(** C13: every request is handled. Against any core that keeps the interface's
    laws, after any sequence of requests, when no writer holds a mutex and the
    request is one that can be handled (node identifiers are left, an offset in
    a directory is unsigned, and a read through an open handle is in the range
    of int64, below the allocation limit and served by adapters that keep their
    bounds), every handler returns: it neither panics nor blocks.  It gives back
    every mutex it took; a read of a file is answered with data, [EIO] or, when
    the handle is not open, [EBADF], and changes nothing but caches and the
    health of adapters; every other request changes nothing but identifiers and
    its only errors are [ENOENT] and [ENOSYS].  Adapters that keep their bounds
    still do afterwards, so that reads stay possible. *)
Theorem handle_safe s0 rq r :
  sb_inv s0 -> rtc raw_step (NewFuseRaw s0) r ->
  no_writers (h_locks (sb_heap (raw_fs r))) -> can_handle r rq ->
  exists st r', handle rq r = Ret (st, r') /\ right_status r rq st /\
    right_change rq (sb_heap (raw_fs r)) (sb_heap (raw_fs r')) /\
    h_locks (sb_heap (raw_fs r')) = h_locks (sb_heap (raw_fs r)) /\
    (sb_adapters_ok (raw_fs r) -> sb_adapters_ok (raw_fs r')).
Proof.
  intros Hi Hsteps Hw Hcan. destruct (raw_steps_ok s0 r Hi Hsteps) as [Hok _].
  destruct (handled_ok rq r Hok Hw Hcan) as (st & r' & Hrun & _ & Hst & Hs & Ha).
  exists st, r'. split_and!; [done | done | done | | done].
  unfold right_change in Hs. destruct (is_read rq); [by apply sbc_locks | by apply sbi_locks].
Qed.

(** C19: handles are fresh. After any sequence of requests, the handle [Open]
    and [OpenDir] answer with is in nobody's use; it is bound to the node, or
    to the snapshot that holds every child of the directory exactly once, and
    no other handle changes. *)
Theorem open_handles s0 r :
  sb_inv s0 -> rtc raw_step (NewFuseRaw s0) r -> no_writers (h_locks (sb_heap (raw_fs r))) ->
  handles_left r ->
  (forall node out fh r', Open node out r = Ret ((OK, fh), r') ->
     Load (openFiles r) fh = None /\ Load (openFiles r') fh = Some node /\
     forall fh', fh' <> fh -> Load (openFiles r') fh' = Load (openFiles r) fh') /\
  (forall node out fh r', OpenDir node out r = Ret ((OK, fh), r') ->
     Load (openDirs r) fh = None /\
     (exists l n snapshot, dir_open r' node fh snapshot /\
        on_fs (sb_GetNodeCtx node) r = Ret (Some (open_ctx l), raw_entered l r) /\
        h_nodes (sb_heap (raw_fs r)) !! l = Some n /\
        snapshot = Some <$> (Range (n_children n)).*2 /\ NoDup (Range (n_children n)).*1 /\
        forall name c, (name, c) ∈ Range (n_children n) <-> Load (n_children n) name = Some c) /\
     forall fh', fh' <> fh -> Load (openDirs r') fh' = Load (openDirs r) fh').
Proof.
  intros Hi Hsteps Hw [Hl1 Hl2]. destruct (raw_steps_ok s0 r Hi Hsteps) as [Hok (H1 & H2 & H3 & H4 & H5 & H6)].
  destruct (fresh_handle _ H1 H5 Hl1) as [E1 _]. destruct (fresh_handle _ H2 H6 Hl2) as [E2 _].
  split; intros node out fh r' Hrun.
  - destruct (Open_run r node out Hok Hw) as [E|(l & _ & E)]; rewrite E in Hrun; [done|].
    injection Hrun as <- <-. cbn. rewrite E2. split; [|split; [apply Load_Store_eq|]].
    + apply eq_None_not_Some. intros Hfh%H4. lia.
    + intros fh' Hne. by rewrite Load_Store_ne.
  - destruct (OpenDir_run r node out Hok Hw) as [E|(l & n & Hn & Hctx & E)]; rewrite E in Hrun; [done|].
    injection Hrun as <- <-. cbn. rewrite E1. split; [|split].
    + apply eq_None_not_Some. intros Hfh%H3. lia.
    + exists l, n, (Some <$> (Range (n_children n)).*2). split.
      * split; [|apply Load_Store_eq]. exists l. unfold on_fs, zoom in *. cbn.
        destruct (sb_GetNodeCtx node (raw_fs r)) as [[c s1]| | |]; try done. by injection Hctx as -> ->.
      * split_and!; [done | done | done | apply Range_NoDup |]. intros; apply elem_of_Range.
    + intros fh' Hne. by rewrite Load_Store_ne.
Qed.
End handle.
