(* ===== verification/FuseFiles.v ===== *)
(** The FUSE adapter on the filesystem itself: what a lookup, the attributes
    and a read of an open file deliver. *)

From S2P Require Import Prelude Config Paths Request XSync DataCache AdapterPool Inode Heap Node.
From S2P Require Import NodeContext Tree FileSystem FileSystemSpec NodeRegistry.
From S2P Require Import Fuse Bridge FuseSpec.

Section fuse_files.
Context {X : XSync} `{!XSyncLaws} {W A : Type} {clk : Clock W} {FA : FileAdapterOps W A}.
Implicit Types (r : FuseRaw (FileSystem W A)) (l c : loc) (n : Node).

(** A node whose identifier, if it has one, is still registered. *)
Definition not_forgotten (s : FileSystem W A) c : Prop :=
  forall n, h_nodes (fs_heap s) !! c = Some n ->
    n_nodeID n = 0 \/ Load (nodeRegistry s) (n_nodeID n) = Some c.

Lemma GetNodeCtx_registered r id l :
  Load (nodeRegistry (raw_fs r)) id = Some l -> no_writers (h_locks (fs_heap (raw_fs r))) ->
  on_fs (sb_GetNodeCtx id) r = Ret (Some (open_ctx l), raw_entered l r).
Proof. intros Hl Hw. apply on_fs_run. by apply GetNodeCtx_run; [|apply Hw]. Qed.

Lemma registered_not_forgotten (s : FileSystem W A) c n x :
  fs_wf s -> h_nodes (fs_heap s) !! c = Some n -> not_forgotten s x -> not_forgotten (registered c n s) x.
Proof.
  intros Hwf Hn Hx m Hm. cbn in Hm |- *. destruct (decide (c = x)) as [<-|Hne].
  - rewrite lookup_insert_eq in Hm. injection Hm as <-. right. by rewrite Load_Store_eq.
  - rewrite lookup_insert_ne in Hm by done. destruct (Hx m Hm) as [?|Hl]; [by left|]. right.
    rewrite Load_Store_ne; [done|]. destruct (fw_id _ Hwf _ _ Hm); [|lia].
    intros E. destruct (fw_lastID _ Hwf). lia.
Qed.

(** A lookup of an existing child of a registered directory. *)
Lemma Lookup_child r parent name out p c n ino :
  raw_ok r -> no_writers (h_locks (fs_heap (raw_fs r))) -> lastNodeID (raw_fs r) + 1 < 2 ^ 64 ->
  Load (nodeRegistry (raw_fs r)) parent = Some p -> child (fs_heap (raw_fs r)) p name = Some c ->
  h_nodes (fs_heap (raw_fs r)) !! c = Some n -> h_inodes (fs_heap (raw_fs r)) !! n_inode n = Some ino ->
  exists eo s1, Lookup parent name out r = Ret ((OK, eo), put_fs s1 r) /\
    eo_NodeId eo <> 0 /\ eo_Attr eo = i_attr ino /\
    fs_wf s1 /\ same_but_ids (fs_heap (raw_fs r)) (fs_heap s1) /\ root s1 = root (raw_fs r) /\
    lastNodeID s1 <= lastNodeID (raw_fs r) + 1 /\
    (forall x, not_forgotten (raw_fs r) x -> not_forgotten s1 x) /\
    (exists id, h_nodes (fs_heap s1) !! c = Some (set_nodeID id n)) /\
    (not_forgotten (raw_fs r) c -> Load (nodeRegistry s1) (eo_NodeId eo) = Some c).
Proof.
  intros Hok Hw Hm Hp Hc Hn Hi. pose proof (proj1 Hok) as Hwf. cbn in Hwf.
  destruct (fw_reg _ Hwf _ _ Hp) as (_ & pn & Hpn & _).
  rewrite (child_spec _ _ _ _ Hpn) in Hc. destruct (fw_lastID _ Hwf) as [Hid _].
  pose proof (GetChildCtx_run (raw_fs r) parent p pn name c n Hwf Hm Hp Hpn Hc Hn (Hw _)) as Hctx.
  cbn zeta in Hctx. set (s1 := if n_nodeID n =? 0 then registered c n (raw_fs r) else raw_fs r) in *.
  assert (Hs1 : fs_wf s1 /\ same_but_ids (fs_heap (raw_fs r)) (fs_heap s1) /\ root s1 = root (raw_fs r) /\
    lastNodeID s1 <= lastNodeID (raw_fs r) + 1 /\ (forall x, not_forgotten (raw_fs r) x -> not_forgotten s1 x) /\
    exists id, id <> 0 /\ h_nodes (fs_heap s1) !! c = Some (set_nodeID id n) /\
      (not_forgotten (raw_fs r) c -> Load (nodeRegistry s1) id = Some c)).
  { subst s1. destruct (n_nodeID n =? 0) eqn:E.
    - apply Z.eqb_eq in E. split; [by apply registered_wf|]. split; [by apply registered_same|].
      split; [done|]. split; [cbn; lia|]. split; [intros x; by apply registered_not_forgotten|].
      exists (lastNodeID (raw_fs r) + 1). split; [lia|]. cbn. by rewrite lookup_insert_eq, Load_Store_eq.
    - apply Z.eqb_neq in E. split; [done|]. split; [done|]. split; [done|]. split; [lia|]. split; [done|].
      exists (n_nodeID n). split; [done|]. split; [by rewrite Hn; destruct n|]. intros Hnf. by destruct (Hnf n Hn). }
  clearbody s1. destruct Hs1 as (Hwf1 & Hs & Hr & Hl & Hnf & id & Hne & Hn1 & Hreg).
  assert (Hi1 : h_inodes (fs_heap s1) !! n_inode n = Some ino) by by rewrite (sbi_inodes _ _ Hs).
  assert (Hw1 : no_writers (h_locks (fs_heap s1))) by by rewrite (sbi_locks _ _ Hs).
  eexists _, s1. split; [by eapply (Lookup_found r parent name out c s1 (set_nodeID id n) ino)|].
  split_and!; try done. by exists id.
Qed.

(** C21: a lookup and the attributes agree. [Lookup] of an existing child of a
    registered directory answers with a new or kept identifier that is not
    zero and with the attributes of the child's inode; unless that identifier
    had been forgotten, [GetAttr] on it then answers with the same attributes,
    and changes nothing. *)
Theorem Lookup_GetAttr r parent name out p c n ino :
  raw_ok r -> no_writers (h_locks (fs_heap (raw_fs r))) -> lastNodeID (raw_fs r) + 1 < 2 ^ 64 ->
  Load (nodeRegistry (raw_fs r)) parent = Some p -> child (fs_heap (raw_fs r)) p name = Some c ->
  h_nodes (fs_heap (raw_fs r)) !! c = Some n -> h_inodes (fs_heap (raw_fs r)) !! n_inode n = Some ino ->
  exists eo r1, Lookup parent name out r = Ret ((OK, eo), r1) /\ eo_NodeId eo <> 0 /\
    eo_Attr eo = i_attr ino /\
    (not_forgotten (raw_fs r) c -> forall ao,
       GetAttr (eo_NodeId eo) ao r1 = Ret ((OK, mkAttrOut (i_attr ino) defaultAttrTimeout), r1)).
Proof.
  intros Hok Hw Hm Hp Hc Hn Hi.
  destruct (Lookup_child r parent name out p c n ino Hok Hw Hm Hp Hc Hn Hi)
    as (eo & s1 & Hrun & Hne & Ha & Hwf1 & Hs & _ & _ & _ & [id Hn1] & Hreg).
  exists eo, (put_fs s1 r). split_and!; [done..|]. intros Hnf ao.
  assert (Hw1 : no_writers (h_locks (fs_heap s1))) by by rewrite (sbi_locks _ _ Hs).
  apply (GetAttr_found (put_fs s1 r) (eo_NodeId eo) ao c (set_nodeID id n) ino); [done..| |done|].
  - apply GetNodeCtx_registered; [by apply Hreg | done].
  - cbn. by rewrite (sbi_inodes _ _ Hs).
Qed.

(** Opening a node and reading through the handle. *)
Lemma open_read_run r id l n ino (c : bytes) out offset size :
  raw_ok r -> no_writers (h_locks (fs_heap (raw_fs r))) ->
  Load (nodeRegistry (raw_fs r)) id = Some l -> h_nodes (fs_heap (raw_fs r)) !! l = Some n ->
  h_inodes (fs_heap (raw_fs r)) !! n_inode n = Some ino -> inode_serves c ino ->
  valid_request offset size -> size <= maxAlloc ->
  exists fh r1 res r2, Open id out r = Ret ((OK, fh), r1) /\
    raw_Read fh offset size r1 = Ret (res, r2) /\
    (res = (Some (file_bytes c offset size), OK) \/ res = (None, EIO)) /\
    raw_ok r2 /\ h_locks (fs_heap (raw_fs r2)) = h_locks (fs_heap (raw_fs r)).
Proof.
  intros Hok Hw Hl Hn Hi Hserves Hv Hmax. pose proof Hok as [Hwf Hd]. cbn in Hwf.
  pose proof (GetNodeCtx_registered r id l Hl Hw) as Hctx.
  destruct (Open_run r id out Hok Hw) as [E|(l' & _ & E)].
  { exfalso. unfold Open in E. rewrite (bind_run _ _ _ _ _ Hctx) in E.
    rewrite (bind_run _ _ _ _ _ (eq_refl : new_file_fh _ = Ret _)) in E.
    rewrite (bind_run _ _ _ _ _ (eq_refl : modify _ _ = Ret _)) in E.
    by apply bind_inv in E as (a & r1 & _ & E). }
  cbn zeta in E. set (fh := nextFileFh r +u 1) in *. set (r1 := mkRaw _ _ _ _ _) in E.
  destruct (Read_run c ino Background offset size (h_world (fs_heap (raw_fs r))) Hserves Hv Hmax)
    as (res & ino' & w' & Hread & _ & (Hattr & _) & Hd').
  pose proof (fs_Read_run Background id offset size (raw_fs r) l n ino res ino' w' Hl Hn Hi (Hw _) Hread) as Hrun.
  set (s2 := put_heap _ _) in Hrun.
  assert (Hst : same_tree (fs_heap (raw_fs r)) (fs_heap s2)).
  { etrans; [apply (same_inode _ (n_inode n) ino ino'); [done | by rewrite Hattr] | by split]. }
  assert (Hoff : wrap64 offset = offset).
  { destruct Hv as (? & ? & ?). apply wrap64_id. unfold in_i64. lia. }
  assert (Hraw : raw_Read fh offset size r1
    = Ret (match res with Ok d => (Some d, OK) | Err _ => (None, EIO) end, put_fs s2 r1)).
  { unfold raw_Read. rewrite (bind_run _ _ _ _ _ (eq_refl : get_state r1 = Ret (r1, r1))).
    cbn [openFiles r1]. rewrite Load_Store_eq, Hoff.
    rewrite (bind_run _ _ _ _ _ (on_fs_run _ r1 _ _ Hrun)). by destruct res. }
  exists fh, r1. eexists _, _. split; [exact E|]. split; [exact Hraw|]. split.
  { destruct res as [d|e]; [left; by rewrite (Hd' d eq_refl) | by right]. }
  split.
  { split; [by apply (fs_wf_same (raw_fs r))|]. exact Hd. }
  done.
Qed.

(** C20: reading an open file. [Open] on a registered node whose inode serves the
    file [c] answers with a handle; a [Read] through it at offsets and sizes in
    range answers [OK] with exactly the file's bytes, or [EIO]; once the
    handle is released it is [EBADF]. *)
Theorem open_read_release r id l n ino (c : bytes) out offset size :
  raw_ok r -> no_writers (h_locks (fs_heap (raw_fs r))) ->
  Load (nodeRegistry (raw_fs r)) id = Some l -> h_nodes (fs_heap (raw_fs r)) !! l = Some n ->
  h_inodes (fs_heap (raw_fs r)) !! n_inode n = Some ino -> inode_serves c ino ->
  valid_request offset size -> size <= maxAlloc ->
  exists fh r1 res r2, Open id out r = Ret ((OK, fh), r1) /\
    raw_Read fh offset size r1 = Ret (res, r2) /\
    (res = (Some (file_bytes c offset size), OK) \/ res = (None, EIO)) /\
    raw_ok r2 /\ h_locks (fs_heap (raw_fs r2)) = h_locks (fs_heap (raw_fs r)) /\
    exists r3, Release fh r2 = Ret (tt, r3) /\ raw_Read fh offset size r3 = Ret ((None, EBADF), r3).
Proof.
  intros Hok Hw Hl Hn Hi Hserves Hv Hmax.
  destruct (open_read_run r id l n ino c out offset size Hok Hw Hl Hn Hi Hserves Hv Hmax)
    as (fh & r1 & res & r2 & Hopen & Hread & Hres & Hok2 & Hlocks).
  exists fh, r1, res, r2. split_and!; [done..|]. eexists. split; [done|].
  unfold raw_Read, mbind, GoM_bind, get_state. cbn. by rewrite Load_Delete_eq.
Qed.
End fuse_files.
