(* ===== verification/FuseSamples.v ===== *)
(** A concrete FUSE adapter on the sample filesystem, on which the theorems
    about the request handlers apply. *)

From S2P Require Import Prelude Config Paths Request XSync DataCache AdapterPool Inode Heap Node.
From S2P Require Import NodeContext Tree FileSystem FileSystemSpec FileCreation NodeRegistry.
From S2P Require Import Reachable FileSystemSamples Fuse Bridge FuseSpec FuseTheorems FuseFiles.

Import FSSample.

Module FuseSample.

(** Reply buffers with room for one entry. *)
#[global] Instance one_entry : DirEntryLists := {
  DirEntryList := option (DirEntry * option EntryOut);
  AddDirEntry e l := match l with None => Some (Some (e, None)) | Some _ => None end;
  AddDirLookupEntry e l := match l with None => Some (Some (e, None)) | Some _ => None end;
  fill_entry o l := match l with None => None | Some (e, _) => Some (e, Some o) end;
  listed l := match l with None => [] | Some (e, _) => [e] end;
  entry_outs l := match l with Some (_, Some o) => [o] | _ => [] end
}.

#[global] Instance one_entry_laws : DirEntryListLaws.
Proof.
  split.
  - intros e [[e1 o]|] l'; cbn; [done | by intros [= <-]].
  - intros e [[e1 o]|] l'; cbn; [done | by intros [= <-]].
  - intros e [[e1 o1]|] l' o; cbn; [done | by intros [= <-]].
  - by intros o [[e1 o1]|].
Qed.

Definition no_entries : DirEntryList := None.

Abbreviation raw := (FuseRaw fs).

Definition raw_run {B} (o : outcome (B * raw)) (d : raw) : raw :=
  match o with Ret (_, r) => r | _ => d end.

Definition fs4 : fs := Eval vm_compute in run (AddFileNode (file_req "docs/b.txt" [Some sample_file]) fs3) fs3.

Definition raw0 : raw := NewFuseRaw fs4.
Definition raw1 : raw := Eval vm_compute in raw_run (OpenDir 2 0 raw0) raw0.

Lemma step4 : fs_step (P := option bytes) fs3 fs4.
Proof.
  eapply (step_AddFileNode (file_req "docs/b.txt" [Some sample_file]) (Ok 7%nat)).
  - apply unlocked. vm_compute. reflexivity.
  - vm_compute. reflexivity.
  - vm_compute. reflexivity.
Qed.

Lemma ok4 : fs_ok fs4.
Proof.
  destruct new0 as [h Hnew]. eapply (fs_steps_ok (P := option bytes)); [exact Hnew|].
  eapply rtc_r; [exact steps3 | exact step4].
Qed.

Lemma unlocked4 : no_writers (h_locks (fs_heap fs4)).
Proof. apply unlocked. vm_compute. reflexivity. Qed.

Lemma rstep1 : raw_step raw0 raw1.
Proof.
  eapply (step_request (RqOpenDir 2 0) (Some OK)).
  - exact unlocked4.
  - exact I.
  - vm_compute. split; reflexivity.
  - vm_compute. reflexivity.
Qed.

Lemma rsteps1 : rtc raw_step raw0 raw1.
Proof. apply rtc_once, rstep1. Qed.

Lemma inv4 : sb_inv fs4.
Proof. exact (proj1 ok4). Qed.

Lemma raw1_ok : raw_ok raw1.
Proof. apply (raw_steps_ok fs4 raw1 inv4 rsteps1). Qed.

Lemma unlocked1 : no_writers (h_locks (sb_heap (raw_fs raw1))).
Proof. apply unlocked. vm_compute. reflexivity. Qed.

Definition snapshot1 : list (option loc) :=
  match Load (openDirs raw1) 2 with Some sn => sn | None => [] end.

Lemma dir_open1 : dir_open raw1 2 2 snapshot1.
Proof.
  split; [exists 3%nat; apply (GetNodeCtx_registered raw1 2 3%nat); [vm_compute; reflexivity | exact unlocked1]|].
  vm_compute. reflexivity.
Qed.

(** The adapter with the file open: a read through the handle can be done. *)
Definition raw_open : raw := Eval vm_compute in raw_run (Open 3 0 raw1) raw1.

Lemma rsteps_open : rtc raw_step raw0 raw_open.
Proof.
  eapply rtc_r; [exact rsteps1|]. eapply (step_request (RqOpen 3 0) (Some OK)).
  - exact unlocked1.
  - exact I.
  - vm_compute. split; reflexivity.
  - vm_compute. reflexivity.
Qed.

Lemma unlocked_open : no_writers (h_locks (sb_heap (raw_fs raw_open))).
Proof. apply unlocked. vm_compute. reflexivity. Qed.

Lemma sample_bounded (a : Sample.adapter) : bounded a.
Proof.
  destruct a as [c|]; [apply (serves_bounded c), Sample.serves_some
                      | apply (serves_bounded []), Sample.serves_none].
Qed.

Lemma adapters_open : sb_adapters_ok (raw_fs raw_open).
Proof.
  assert (Hc : map_Forall (fun _ (ino : Inode Sample.adapter) => ranges (i_dataCache ino) = [])
                 (h_inodes (fs_heap (raw_fs raw_open)))).
  { apply (bool_decide_eq_true_1 _). vm_compute. reflexivity. }
  intros i ino Hi. apply Hc in Hi. split.
  - unfold cache_wf. rewrite Hi. constructor.
  - intros p _ r a _. apply sample_bounded.
Qed.

(** The same adapter after the first child of the snapshot was deleted. *)
Definition fs5 : fs := Eval vm_compute in run (on_heap (Del 5%nat) fs4) fs4.
Definition raw2 : raw := put_fs fs5 raw1.

Lemma ok5 : fs_ok fs5.
Proof.
  apply (Del_ok 5%nat fs4 fs5); [vm_compute; congruence | vm_compute; reflexivity | | exact ok4].
  vm_compute. reflexivity.
Qed.

(** What the directory reads of the sample show. *)
Definition entry (name : string) (ino : Z) : DirEntry := mkDirEntry name 33188 ino.

Lemma live5 : Forall (live_elem raw1) snapshot1.
Proof.
  replace snapshot1 with [Some 5%nat; Some 7%nat] by (vm_compute; reflexivity).
  apply Forall_cons; split; [|apply Forall_singleton]; unfold live_elem; apply is_Some_alt; vm_compute; exact I.
Qed.

Lemma raw2_ok : raw_ok raw2.
Proof.
  split; [exact (proj1 ok5)|]. intros fh snapshot l Hl Hin.
  assert (Hdom : dom (D := gset loc) (h_nodes (sb_heap (raw_fs raw1)))
                 = dom (D := gset loc) (h_nodes (sb_heap (raw_fs raw2))))
    by (vm_compute; reflexivity).
  unfold raw2, put_fs in Hl. cbn [openDirs] in Hl.
  pose proof (proj2 raw1_ok fh snapshot l Hl Hin) as Hl1.
  apply (elem_of_dom (D := gset loc) (h_nodes (sb_heap (raw_fs raw2))) l).
  apply (elem_of_dom (D := gset loc) (h_nodes (sb_heap (raw_fs raw1))) l) in Hl1.
  by rewrite <-Hdom.
Qed.

Lemma unlocked2 : no_writers (h_locks (sb_heap (raw_fs raw2))).
Proof. apply unlocked. vm_compute. reflexivity. Qed.

Lemma dir_open2 : dir_open raw2 2 2 [Some 5%nat; Some 7%nat].
Proof.
  split; [exists 3%nat; apply (GetNodeCtx_registered raw2 2 3%nat); [vm_compute; reflexivity | exact unlocked2]|].
  vm_compute. reflexivity.
Qed.
End FuseSample.

Import FuseSample.
Lemma handle_safe_witness :
  exists st r', handle (RqRead 2 1 4) raw_open = Ret (st, r') /\
    right_status raw_open (RqRead 2 1 4) st /\
    right_change (RqRead 2 1 4) (sb_heap (raw_fs raw_open)) (sb_heap (raw_fs r')) /\
    h_locks (sb_heap (raw_fs r')) = h_locks (sb_heap (raw_fs raw_open)) /\
    (sb_adapters_ok (raw_fs raw_open) -> sb_adapters_ok (raw_fs r')).
Proof.
  apply (handle_safe (D := one_entry) fs4 (RqRead 2 1 4) raw_open inv4 rsteps_open unlocked_open).
  intros _. split; [|split].
  - vm_compute. repeat split; congruence.
  - vm_compute. congruence.
  - exact adapters_open.
Defined.

Lemma list_dir_complete_witness :
  exists r', list_dir no_entries (1 + length snapshot1) 2 2 0 raw1
    = Ret (page (sb_heap (raw_fs raw1)) snapshot1, r') /\ raw_fs r' = raw_fs raw1.
Proof.
  apply (list_dir_complete (D := one_entry) no_entries 2 2 snapshot1 raw1 raw1_ok unlocked1).
  - vm_compute. congruence.
  - exact dir_open1.
  - exact live5.
  - reflexivity.
  - intros e. by eexists.
Defined.

(** The first of the two children is deleted: the other is listed twice. *)
Lemma ReadDir_repeats_witness :
  exists es r', list_dir no_entries 3 2 2 0 raw2 = Ret (es, r') /\ raw_fs r' = raw_fs raw2 /\
    length es = 2%nat /\
    (forall e, e ∈ es <-> e ∈ page (sb_heap (raw_fs raw2)) [Some 5%nat; Some 7%nat]) /\
    (Exists (fun o => shown (sb_heap (raw_fs raw2)) o = None) [Some 5%nat; Some 7%nat] -> ~ NoDup es).
Proof.
  apply (ReadDir_repeats (D := one_entry) no_entries 2 2 [Some 5%nat; Some 7%nat] raw2 raw2_ok unlocked2).
  - vm_compute. congruence.
  - exact dir_open2.
  - apply is_Some_alt. vm_compute. exact I.
  - reflexivity.
  - intros e. by eexists.
Defined.

(** The listing there, computed. *)
Example list_dir_after_deletion :
  exists r', list_dir no_entries 3 2 2 0 raw2 = Ret ([entry "b.txt" 4; entry "b.txt" 4], r').
Proof. eexists. vm_compute. reflexivity. Qed.

Lemma open_handles_witness :
  (forall node out fh r', Open node out raw1 = Ret ((OK, fh), r') ->
     Load (openFiles raw1) fh = None /\ Load (openFiles r') fh = Some node /\
     forall fh', fh' <> fh -> Load (openFiles r') fh' = Load (openFiles raw1) fh') /\
  (forall node out fh r', OpenDir node out raw1 = Ret ((OK, fh), r') ->
     Load (openDirs raw1) fh = None /\
     (exists l n snapshot, dir_open r' node fh snapshot /\
        on_fs (sb_GetNodeCtx node) raw1 = Ret (Some (open_ctx l), raw_entered l raw1) /\
        h_nodes (sb_heap (raw_fs raw1)) !! l = Some n /\
        snapshot = Some <$> (Range (n_children n)).*2 /\ NoDup (Range (n_children n)).*1 /\
        forall name c, (name, c) ∈ Range (n_children n) <-> Load (n_children n) name = Some c) /\
     forall fh', fh' <> fh -> Load (openDirs r') fh' = Load (openDirs raw1) fh').
Proof.
  apply (open_handles fs4 raw1 inv4 rsteps1 unlocked1).
  vm_compute. split; reflexivity.
Defined.

Definition b_node : Node :=
  match h_nodes (fs_heap fs4) !! 7%nat with Some n => n | None => root_node end.
Definition b_inode : Inode Sample.adapter :=
  match h_inodes (fs_heap fs4) !! n_inode b_node with Some i => i | None => Sample.inode0 end.

Lemma b_found : h_nodes (fs_heap (raw_fs raw1)) !! 7%nat = Some b_node.
Proof. vm_compute. reflexivity. Qed.
Lemma b_inode_found : h_inodes (fs_heap (raw_fs raw1)) !! n_inode b_node = Some b_inode.
Proof. vm_compute. reflexivity. Qed.

Lemma Lookup_GetAttr_witness :
  exists eo r1, Lookup 2 "b.txt" (mkEntryOut 0 0 Sample.attr0 0 0) raw1 = Ret ((OK, eo), r1) /\
    eo_NodeId eo <> 0 /\ eo_Attr eo = i_attr b_inode /\
    (not_forgotten (raw_fs raw1) 7%nat -> forall ao,
       GetAttr (eo_NodeId eo) ao r1 = Ret ((OK, mkAttrOut (i_attr b_inode) defaultAttrTimeout), r1)).
Proof.
  apply (Lookup_GetAttr raw1 2 "b.txt" (mkEntryOut 0 0 Sample.attr0 0 0) 3%nat 7%nat b_node b_inode
           raw1_ok unlocked1).
  - vm_compute. reflexivity.
  - vm_compute. reflexivity.
  - vm_compute. reflexivity.
  - exact b_found.
  - exact b_inode_found.
Defined.

Definition a_inode : Inode Sample.adapter :=
  match h_inodes (fs_heap fs3) !! n_inode a_node with Some i => i | None => Sample.inode0 end.

Lemma a_found1 : h_nodes (fs_heap (raw_fs raw1)) !! 5%nat = Some a_node.
Proof. vm_compute. reflexivity. Qed.
Lemma a_inode_found1 : h_inodes (fs_heap (raw_fs raw1)) !! n_inode a_node = Some a_inode.
Proof. vm_compute. reflexivity. Qed.

Lemma a_inode_serves : inode_serves sample_file a_inode.
Proof.
  apply (file_inode_serves 5%nat a_node); [vm_compute; reflexivity | exact a_found|].
  vm_compute. reflexivity.
Qed.

Lemma open_read_release_witness :
  exists fh r1 res r2, Open 3 0 raw1 = Ret ((OK, fh), r1) /\ raw_Read fh 1 4 r1 = Ret (res, r2) /\
    (res = (Some (file_bytes sample_file 1 4), OK) \/ res = (None, EIO)) /\
    raw_ok r2 /\ h_locks (fs_heap (raw_fs r2)) = h_locks (fs_heap (raw_fs raw1)) /\
    exists r3, Release fh r2 = Ret (tt, r3) /\ raw_Read fh 1 4 r3 = Ret ((None, EBADF), r3).
Proof.
  apply (open_read_release raw1 3 5%nat a_node a_inode sample_file 0 1 4 raw1_ok unlocked1).
  - vm_compute. reflexivity.
  - exact a_found1.
  - exact a_inode_found1.
  - exact a_inode_serves.
  - exact Sample.valid14.
  - exact Sample.small4.
Defined.
