(* ===== verification/EnsureRace.v ===== *)
(** [EnsureNodeID] (src/filesystem/fs.go) under concurrency: any number of
    goroutines run it on the shared filesystem, one atomic operation at a
    time. The atomic operations are the ones the sequential definition is
    composed of. *)

From S2P Require Import Prelude Config XSync DataCache AdapterPool Inode Heap Node NodeContext.
From S2P Require Import Tree FileSystem FileSystemSpec NodeRegistry.

(** Where a goroutine is between two atomic operations. *)
Inductive pc :=
  | Start                      (* before the load of the fast path *)
  | Loaded                     (* it saw 0 *)
  | Allocated (id : Z)         (* before the CompareAndSwap *)
  | Swapped (id : Z)           (* it won; the registry entry is still to be stored *)
  | Lost                       (* before the second load *)
  | Done (id : Z).

Section race.
Context {X : XSync} `{!XSyncLaws} {W A : Type}.
Implicit Types (s : FileSystem W A) (l : loc) (n : Node) (id z : Z) (i j : nat).

(** One atomic operation of a goroutine that works on node [l]. *)
Inductive ensure_op l : pc -> FileSystem W A -> pc -> FileSystem W A -> Prop :=
  | op_load s id s' : on_heap (NodeID l) s = Ret (id, s') ->
      ensure_op l Start s (if id =? 0 then Loaded else Done id) s'
  | op_add s id s' : next_nodeID s = Ret (id, s') -> ensure_op l Loaded s (Allocated id) s'
  | op_cas s id swapped s' : on_heap (cas_nodeID l 0 id) s = Ret (swapped, s') ->
      ensure_op l (Allocated id) s (if swapped : bool then Swapped id else Lost) s'
  | op_store s id :
      ensure_op l (Swapped id) s (Done id) (put_registry (Store (nodeRegistry s) id l) s)
  | op_reload s id s' : on_heap (NodeID l) s = Ret (id, s') -> ensure_op l Lost s (Done id) s'.

(** The same operation, executable; a goroutine that is done has none. *)
Definition ensure_next l (c : pc) (s : FileSystem W A) : option (outcome (pc * FileSystem W A)) :=
  match c with
  | Start => Some ((id ← on_heap (NodeID l); mret (if id =? 0 then Loaded else Done id)) s)
  | Loaded => Some ((id ← next_nodeID; mret (Allocated id)) s)
  | Allocated id =>
      Some ((swapped ← on_heap (cas_nodeID l 0 id); mret (if swapped : bool then Swapped id else Lost)) s)
  | Swapped id => Some (Ret (Done id, put_registry (Store (nodeRegistry s) id l) s))
  | Lost => Some ((id ← on_heap (NodeID l); mret (Done id)) s)
  | Done _ => None
  end.

Lemma ensure_next_op l c s c' s' : ensure_next l c s = Some (Ret (c', s')) -> ensure_op l c s c' s'.
Proof.
  destruct c as [| |id|id| |id]; cbn [ensure_next]; intros Hn; try apply (inj Some) in Hn; [..|done];
    [..|injection Hn as <- <-; apply op_store|];
    apply bind_inv in Hn as (v & s1 & Hrun & Hk); injection Hk as <- <-; by constructor.
Qed.

(** The shared state and the goroutines, each with its node. *)
Abbreviation machine := (FileSystem W A * list (loc * pc))%type.

Inductive race_step : relation machine :=
  | race s ts i l c c' s' :
      ts !! i = Some (l, c) -> ensure_op l c s c' s' ->
      race_step (s, ts) (s', <[i := (l, c')]> ts).

(** A schedule names the goroutine that moves next. *)
Definition race_next (i : nat) (m : machine) : option machine :=
  match m.2 !! i with
  | None => None
  | Some (l, c) =>
      match ensure_next l c m.1 with
      | Some (Ret (c', s')) => Some (s', <[i := (l, c')]> m.2)
      | _ => None
      end
  end.
Fixpoint run_schedule (sched : list nat) (m : machine) : option machine :=
  match sched with
  | [] => Some m
  | i :: sched => match race_next i m with Some m' => run_schedule sched m' | None => None end
  end.

Lemma run_schedule_steps sched m m' :
  run_schedule sched m = Some m' -> nsteps race_step (length sched) m m'.
Proof.
  revert m. induction sched as [|i sched IH]; intros [s ts]; cbn [run_schedule length].
  - intros [= <-]. constructor.
  - unfold race_next; cbn [fst snd]. destruct (ts !! i) as [[l c]|] eqn:Hi; [|done].
    destruct (ensure_next l c s) as [[[c' s1]| | |]|] eqn:Hn; [|done..].
    intros Hrun%IH. econstructor; [|exact Hrun]. econstructor; [exact Hi | by apply ensure_next_op].
Qed.

(** Run alone, the atomic operations are the sequential definition. *)
Lemma ensure_alone l s id s' :
  EnsureNodeID l s = Ret (id, s') -> rtc race_step (s, [(l, Start)]) (s', [(l, Done id)]).
Proof.
  unfold EnsureNodeID. intros (z & s1 & H1 & Hk)%bind_inv.
  eapply rtc_l; [eapply (race _ [(l, _)] 0); [done | by apply op_load]|]. cbn.
  destruct (z =? 0); [|by injection Hk as <- <-; apply rtc_refl].
  apply bind_inv in Hk as (new & s2 & H2 & Hk).
  eapply rtc_l; [eapply (race _ [(l, _)] 0); [done | by apply op_add]|]. cbn.
  apply bind_inv in Hk as (b & s3 & H3 & Hk).
  eapply rtc_l; [eapply (race _ [(l, _)] 0); [done | by apply op_cas]|]. cbn.
  destruct b.
  - apply bind_inv in Hk as ([] & s4 & [= <-] & Hk). injection Hk as <- <-.
    apply rtc_once. eapply (race _ [(l, _)] 0); [done | apply op_store].
  - apply rtc_once. eapply (race _ [(l, _)] 0); [done | by apply op_reload].
Qed.

(** ** The invariant, relative to the state [s0] the goroutines start in *)

Variable s0 : FileSystem W A.

Definition node_id s l : option Z := n_nodeID <$> h_nodes (fs_heap s) !! l.

(** How many goroutines may still allocate. *)
Definition may_allocate (c : pc) : bool := match c with Start | Loaded => true | _ => false end.
Definition pending (ts : list (loc * pc)) : Z :=
  Z.of_nat (length (List.filter (fun t => may_allocate t.2) ts)).

(** What is known of a goroutine. *)
Definition goroutine_ok s l (c : pc) : Prop :=
  is_Some (node_id s l) /\
  match c with
  | Start | Loaded => True
  | Allocated id => lastNodeID s0 < id <= lastNodeID s /\ forall l', node_id s l' <> Some id
  | Swapped id => lastNodeID s0 < id /\ node_id s l = Some id
  | Done id => id <> 0 /\ node_id s l = Some id
  | Lost => exists id, id <> 0 /\ node_id s l = Some id
  end.

Record race_ok (m : machine) : Prop := {
  ro_range l z : node_id m.1 l = Some z -> 0 <= z <= lastNodeID m.1;
  ro_inj l l' z : z <> 0 -> node_id m.1 l = Some z -> node_id m.1 l' = Some z -> l = l';
  ro_threads i l c : m.2 !! i = Some (l, c) -> goroutine_ok m.1 l c;
  ro_alloc i j l l' id : m.2 !! i = Some (l, Allocated id) -> m.2 !! j = Some (l', Allocated id) -> i = j;
  ro_registered l z : node_id s0 l = Some 0 -> z <> 0 -> node_id m.1 l = Some z ->
    Load (nodeRegistry m.1) z = Some l \/ exists i, m.2 !! i = Some (l, Swapped z);
  ro_kept id : id <= lastNodeID s0 -> Load (nodeRegistry m.1) id = Load (nodeRegistry s0) id;
  ro_room : 0 <= lastNodeID s0 <= lastNodeID m.1 /\ lastNodeID m.1 + pending m.2 < 2 ^ 64
}.

Lemma pending_pos ts : 0 <= pending ts.
Proof. unfold pending. lia. Qed.

Lemma pending_insert ts i l c c' :
  ts !! i = Some (l, c) ->
  pending (<[i := (l, c')]> ts) + (if may_allocate c then 1 else 0)
  = pending ts + (if may_allocate c' then 1 else 0).
Proof.
  unfold pending. revert i. induction ts as [|t ts IH]; intros [|i] Hi; [done..| |].
  - injection Hi as ->. cbn. destruct (may_allocate c), (may_allocate c'); cbn [length]; lia.
  - specialize (IH i Hi). change (<[Datatypes.S i := (l, c')]> (t :: ts)) with (t :: <[i := (l, c')]> ts).
    cbn [List.filter]. destruct (may_allocate t.2); cbn [length]; lia.
Qed.

(** An operation that leaves the nodes alone is safe when it leaves the
    registry alone too and its goroutine knows enough afterwards. *)
Lemma race_ok_local s ts i l c c' s' :
  race_ok (s, ts) -> ts !! i = Some (l, c) ->
  (forall x, node_id s' x = node_id s x) -> nodeRegistry s' = nodeRegistry s ->
  lastNodeID s <= lastNodeID s' -> lastNodeID s' + pending (<[i := (l, c')]> ts) < 2 ^ 64 ->
  goroutine_ok s' l c' ->
  (forall id, c = Swapped id -> False) ->
  (forall id, c' = Allocated id -> lastNodeID s < id) ->
  race_ok (s', <[i := (l, c')]> ts).
Proof.
  intros [R1 R2 R3 R4 R5 R6 R7] Hi Hid Hreg Hle Hroom Hok Hnot Hnew. cbn in *.
  split; cbn [fst snd].
  - intros x z. rewrite Hid. intros Hx%R1. lia.
  - intros x x' z. rewrite !Hid. apply R2.
  - intros j x d [(<- & [= <- <-] & _)|[_ Hj]]%list_lookup_insert_Some; [done|].
    apply R3 in Hj as [Hs Hd]. split; [by rewrite Hid|].
    destruct d; rewrite ?Hid; try done.
    destruct Hd as [? Hd]. split; [lia|]. intros x'. rewrite Hid. apply Hd.
  - intros j k x x' id [(<- & [= _ Ej] & _)|[_ Hj]]%list_lookup_insert_Some
      [(<- & [= _ Ek] & _)|[_ Hk]]%list_lookup_insert_Some; [done| | |by eapply R4].
    + pose proof (R3 _ _ _ Hk) as [_ [Hr _]]. specialize (Hnew id Ej). lia.
    + pose proof (R3 _ _ _ Hj) as [_ [Hr _]]. specialize (Hnew id Ek). lia.
  - intros x z Hnone Hz. rewrite Hid, Hreg. intros Hx. destruct (R5 x z Hnone Hz Hx) as [?|(j & Hj)]; [by left|].
    right. exists j. rewrite list_lookup_insert_ne; [done|]. intros ->. rewrite Hi in Hj.
    injection Hj as -> ->. by eapply Hnot.
  - intros z Hz. rewrite Hreg. by apply R6.
  - lia.
Qed.

Lemma node_id_spec s l : is_Some (node_id s l) -> exists n, h_nodes (fs_heap s) !! l = Some n /\ node_id s l = Some (n_nodeID n).
Proof. unfold node_id. intros [z Hz]. destruct (h_nodes (fs_heap s) !! l) as [n|]; [by exists n | done]. Qed.

Lemma NodeID_op s l id s' :
  is_Some (node_id s l) -> on_heap (NodeID l) s = Ret (id, s') -> s' = s /\ node_id s l = Some id.
Proof.
  intros Hs Hrun. destruct (node_id_spec s l Hs) as (n & Hn & E).
  rewrite (on_heap_run _ _ _ _ (NodeID_run _ _ _ Hn)), put_heap_id in Hrun.
  injection Hrun as <- <-. done.
Qed.

Lemma cas_op s l id swapped s' :
  is_Some (node_id s l) -> on_heap (cas_nodeID l 0 id) s = Ret (swapped, s') ->
  (swapped = true /\ node_id s l = Some 0 /\ nodeRegistry s' = nodeRegistry s /\
     lastNodeID s' = lastNodeID s /\
     forall x, node_id s' x = if decide (x = l) then Some id else node_id s x) \/
  (swapped = false /\ s' = s /\ exists z, z <> 0 /\ node_id s l = Some z).
Proof.
  intros Hs Hrun. destruct (node_id_spec s l Hs) as (n & Hn & E).
  unfold on_heap, zoom, cas_nodeID in Hrun.
  rewrite (bind_run _ _ _ _ _ (read_node_run (fs_heap s) _ _ Hn)) in Hrun.
  destruct (n_nodeID n =? 0) eqn:Ez.
  - rewrite (bind_run _ _ _ _ _ (update_node_run _ _ _ _ Hn)) in Hrun. injection Hrun as <- <-.
    left. apply Z.eqb_eq in Ez. split_and!; [done | by rewrite E, Ez | done | done |].
    intros x. unfold node_id. cbn. case_decide as Hx; subst; [by rewrite lookup_insert_eq|].
    by rewrite lookup_insert_ne.
  - right. injection Hrun as <- <-. split; [done|]. split; [apply put_heap_id|].
    exists (n_nodeID n). split; [by apply Z.eqb_neq | done].
Qed.

(** The swap that succeeds gives the node its identifier. *)
Lemma race_ok_swap s ts i l id s' :
  race_ok (s, ts) -> ts !! i = Some (l, Allocated id) -> node_id s l = Some 0 ->
  nodeRegistry s' = nodeRegistry s -> lastNodeID s' = lastNodeID s ->
  (forall x, node_id s' x = if decide (x = l) then Some id else node_id s x) ->
  race_ok (s', <[i := (l, Swapped id)]> ts).
Proof.
  intros [R1 R2 R3 R4 R5 R6 R7] Hi H0 Hreg Hlast Hid. cbn in *.
  destruct (R3 i l _ Hi) as [_ [Hrange Hfresh]].
  assert (Hself : node_id s' l = Some id) by (rewrite Hid; by rewrite decide_True).
  pose proof (pending_insert ts i l (Allocated id) (Swapped id) Hi) as Hp. cbn in Hp.
  assert (Hlen : (i < length ts)%nat) by by eapply lookup_lt_Some.
  split; cbn [fst snd].
  - intros x z. rewrite Hid, Hlast. case_decide; [intros [= <-]; lia | apply R1].
  - intros x x' z Hz. rewrite !Hid. repeat case_decide; subst; try done.
    + intros [= <-] Hx. by destruct (Hfresh x').
    + intros Hx [= <-]. by destruct (Hfresh x).
    + by apply R2.
  - intros j x d [(<- & [= <- <-] & _)|[Hne Hj]]%list_lookup_insert_Some.
    { split; [by rewrite Hself|]. split; [lia | done]. }
    pose proof (R3 _ _ _ Hj) as [Hs Hd]. split; [rewrite Hid; case_decide; [by eexists | done]|].
    assert (Hkeep : forall z, z <> 0 -> node_id s x = Some z -> node_id s' x = Some z).
    { intros z Hz Hx. rewrite Hid. case_decide; [|done]. subst. congruence. }
    destruct d as [| |id'|id'| |id']; try done.
    + rewrite Hlast. split; [apply Hd|]. intros x'. rewrite Hid. case_decide; [|apply Hd].
      intros [= ->]. by pose proof (R4 _ _ _ _ _ Hi Hj).
    + destruct Hd as [? ?]. split; [done | apply Hkeep; [lia | done]].
    + destruct Hd as (z & ? & ?). exists z. split; [done | by apply Hkeep].
    + destruct Hd as [? ?]. split; [done | apply Hkeep; [lia | done]].
  - intros j k x x' z [(<- & E & _)|[_ Hj]]%list_lookup_insert_Some
      [(<- & E' & _)|[_ Hk]]%list_lookup_insert_Some; try done. by eapply R4.
  - intros x z Hnone Hz. rewrite Hid, Hreg. case_decide as Hx.
    + intros [= <-]. subst. right. exists i. by apply list_lookup_insert_eq.
    + intros Hxz. destruct (R5 x z Hnone Hz Hxz) as [?|(j & Hj)]; [by left|]. right. exists j.
      rewrite list_lookup_insert_ne; [done|]. intros ->. congruence.
  - intros z Hz. rewrite Hreg. by apply R6.
  - rewrite Hlast. lia.
Qed.

(** The store binds the identifier. *)
Lemma race_ok_store s ts i l id :
  race_ok (s, ts) -> ts !! i = Some (l, Swapped id) ->
  race_ok (put_registry (Store (nodeRegistry s) id l) s, <[i := (l, Done id)]> ts).
Proof.
  intros [R1 R2 R3 R4 R5 R6 R7] Hi. cbn in *. pose proof (R3 _ _ _ Hi) as [Hs Hd].
  pose proof (pending_insert ts i l (Swapped id) (Done id) Hi) as Hp. cbn in Hp.
  split; cbn [fst snd]; [done | done | | | | |cbn; lia].
  - intros j x d [(<- & [= <- <-] & _)|[_ Hj]]%list_lookup_insert_Some; [|exact (R3 j x d Hj)].
    split; [done|]. split; [lia | apply Hd].
  - intros j k x x' z [(<- & E & _)|[_ Hj]]%list_lookup_insert_Some
      [(<- & E' & _)|[_ Hk]]%list_lookup_insert_Some; try done. by eapply R4.
  - intros x z Hnone Hz Hx. change (node_id s x = Some z) in Hx. cbn. rewrite Load_Store.
    case_decide as Hc.
    + subst z. left. f_equal. destruct Hd as [? Hl]. exact (R2 l x id Hz Hl Hx).
    + destruct (R5 x z Hnone Hz Hx) as [?|(j & Hj)]; [by left|]. right. exists j.
      rewrite list_lookup_insert_ne; [done|]. intros ->. congruence.
  - intros z Hz. cbn. rewrite Load_Store_ne; [by apply R6|]. lia.
Qed.

Lemma race_step_ok m m' : race_step m m' -> race_ok m -> race_ok m'.
Proof.
  intros [s ts i l c c' s' Hi Hop] Hok. pose proof Hok as [R1 R2 R3 R4 R5 R6 R7]. cbn in *.
  pose proof (R3 _ _ _ Hi) as [Hs Hd]. pose proof (pending_insert ts i l c c' Hi) as Hp.
  pose proof (pending_pos ts). destruct Hop as [s id s' Hrun|s id s' Hrun|s id b s' Hrun|s id|s id s' Hrun].
  - apply NodeID_op in Hrun as [-> Hid]; [|done].
    eapply race_ok_local; try done; [destruct (id =? 0); cbn in Hp; lia| |by destruct (id =? 0)].
    destruct (id =? 0) eqn:E; (split; [done|]); [done|]. by apply Z.eqb_neq in E.
  - assert (E : id = lastNodeID s + 1 /\ s' = put_lastNodeID id s).
    { unfold next_nodeID in Hrun. rewrite u64_id in Hrun; [by injection Hrun as <- <-|].
      cbn in Hp. pose proof (pending_pos (<[i := (l, Allocated id)]> ts)). unfold in_u64. lia. }
    destruct E as [-> ->]. eapply race_ok_local; try done; cbn in *; [lia | lia | | intros z [= <-]; lia].
    split; [done|]. split; [cbn; lia|]. intros x Hx. change (node_id s x = Some (lastNodeID s + 1)) in Hx.
    apply R1 in Hx. lia.
  - destruct (cas_op s l id b s' Hs Hrun) as [(-> & Hzero & Hreg & Hlast & Hid)|(-> & -> & Hz)].
    + by eapply race_ok_swap.
    + eapply race_ok_local; try done. cbn in Hp. lia.
  - by apply race_ok_store.
  - apply NodeID_op in Hrun as [-> Hid]; [|done]. destruct Hd as (z & Hz & Hd).
    eapply race_ok_local; try done; [cbn in Hp; lia|]. split; [done|].
    rewrite Hid in Hd. injection Hd as ->. done.
Qed.

(** ** Start, progress and the number of operations *)

Definition starts (ls : list loc) : list (loc * pc) := (fun l => (l, Start)) <$> ls.

Lemma pending_starts ls : pending (starts ls) = Z.of_nat (length ls).
Proof.
  unfold pending. induction ls as [|l ls IH]; [done|].
  change (starts (l :: ls)) with ((l, Start) :: starts ls). cbn [List.filter may_allocate snd length]. lia.
Qed.

Lemma race_start_ok ls :
  fs_wf s0 -> (forall l, l ∈ ls -> is_Some (h_nodes (fs_heap s0) !! l)) ->
  lastNodeID s0 + Z.of_nat (length ls) < 2 ^ 64 -> race_ok (s0, starts ls).
Proof.
  intros Hwf Hls Hroom. destruct (fw_lastID _ Hwf) as [Hpos _].
  assert (Hst : forall i l c, starts ls !! i = Some (l, c) -> c = Start /\ l ∈ ls).
  { intros i l c (x & [= -> ->] & Hx)%list_lookup_fmap_Some. split; [done|].
    by eapply list_elem_of_lookup_2. }
  split; cbn [fst snd].
  - intros l z (n & Hn & ->)%fmap_Some. destruct (fw_id _ Hwf _ _ Hn); lia.
  - intros l l' z Hz (n & Hn & ->)%fmap_Some (n' & Hn' & E)%fmap_Some.
    by eapply (fw_id_inj _ Hwf).
  - intros i l c [-> Hl]%Hst. split; [|done]. apply fmap_is_Some. by apply Hls.
  - by intros i j l l' id [? _]%Hst.
  - intros l z Hnone Hz Hl. congruence.
  - done.
  - rewrite pending_starts. lia.
Qed.

Lemma race_steps_ok m m' : rtc race_step m m' -> race_ok m -> race_ok m'.
Proof. induction 1 as [|m1 m2 m3 H12 _ IH]; [done|]. intros Hok. apply IH. by eapply race_step_ok. Qed.

Lemma goroutine_progress s l c :
  goroutine_ok s l c -> (exists id, c = Done id) \/ exists c' s', ensure_op l c s c' s'.
Proof.
  intros [Hs _]. destruct (node_id_spec s l Hs) as (n & Hn & _).
  pose proof (on_heap_run _ _ _ _ (NodeID_run _ _ _ Hn)) as Hload.
  destruct c as [| |id|id| |id]; [right..|by left; exists id].
  - eexists _, _. by apply op_load.
  - eexists _, _. by apply op_add.
  - destruct (n_nodeID n =? 0) eqn:E; eexists _, _; apply op_cas;
      unfold on_heap, zoom, cas_nodeID;
      rewrite (bind_run _ _ _ _ _ (read_node_run (fs_heap s) _ _ Hn)), E; [|done].
    by rewrite (bind_run _ _ _ _ _ (update_node_run _ _ _ _ Hn)).
  - eexists _, _. apply op_store.
  - eexists _, _. by apply op_reload.
Qed.

(** How many operations a goroutine still has to do, at most. *)
Definition ops_left (c : pc) : nat :=
  match c with Start => 4 | Loaded => 3 | Allocated _ => 2 | Swapped _ | Lost => 1 | Done _ => 0 end.
Definition work (ts : list (loc * pc)) : nat := sum_list ((fun t => ops_left t.2) <$> ts).

Lemma work_cons l c ts : work ((l, c) :: ts) = (ops_left c + work ts)%nat.
Proof. done. Qed.

Lemma work_insert ts i l c c' :
  ts !! i = Some (l, c) -> (work (<[i := (l, c')]> ts) + ops_left c = work ts + ops_left c')%nat.
Proof.
  revert i. induction ts as [|[x d] ts IH]; intros [|i] Hi; [done..| |].
  - injection Hi as -> ->. cbn [insert list_insert].
    rewrite !work_cons. lia.
  - specialize (IH i Hi). change (<[Datatypes.S i := (l, c')]> ((x, d) :: ts)) with ((x, d) :: <[i := (l, c')]> ts).
    rewrite !work_cons. lia.
Qed.

Lemma race_step_work m m' : race_step m m' -> (work m'.2 < work m.2)%nat.
Proof.
  intros [s ts i l c c' s' Hi Hop]. pose proof (work_insert ts i l c c' Hi) as Hw. cbn [snd].
  enough (ops_left c' < ops_left c)%nat by lia. destruct Hop; cbn; try lia.
  - destruct (id =? 0); cbn; lia.
  - destruct swapped; cbn; lia.
Qed.

Lemma race_steps_work (n : nat) m m' : nsteps race_step n m m' -> (n + work m'.2 <= work m.2)%nat.
Proof. induction 1 as [|n m1 m2 m3 Hm%race_step_work _ IH]; lia. Qed.

Lemma work_starts ls : work (starts ls) = (4 * length ls)%nat.
Proof.
  induction ls as [|l ls IH]; [done|]. change (starts (l :: ls)) with ((l, Start) :: starts ls).
  rewrite work_cons. cbn [ops_left length]. lia.
Qed.

(** Every goroutine has returned. *)
Definition all_done (ts : list (loc * pc)) : Prop := forall i l c, ts !! i = Some (l, c) -> exists id, c = Done id.

Lemma race_progress m : race_ok m -> all_done m.2 \/ exists m', race_step m m'.
Proof.
  destruct m as [s ts]. intros Hok. pose proof (ro_threads _ Hok) as Hts. cbn in *.
  assert (Hall : forall us k, (forall i t, us !! i = Some t -> ts !! (k + i)%nat = Some t) ->
            all_done us \/ exists m', race_step (s, ts) m').
  { induction us as [|[l c] us IH]; intros k Hk; [left; by intros []|].
    assert (Hi : ts !! k = Some (l, c)) by (rewrite <- (Nat.add_0_r k); by apply Hk).
    destruct (goroutine_progress s l c (Hts _ _ _ Hi)) as [Hc|(c' & s' & Hop)].
    - destruct (IH (k + 1)%nat) as [Hrest|?]; [|left|by right].
      + intros i t Hit. rewrite <- Nat.add_assoc. by apply (Hk (1 + i)%nat).
      + intros [|i] x d; [by intros [= <- <-] | apply Hrest].
    - right. eexists. by eapply race. }
  by apply (Hall ts 0%nat).
Qed.

(** What the invariant says of goroutines that have returned. *)
Lemma done_ids s ts i j l l' id id' :
  race_ok (s, ts) -> ts !! i = Some (l, Done id) -> ts !! j = Some (l', Done id') -> id = id' <-> l = l'.
Proof.
  intros [R1 R2 R3 _ _ _ _] Hi Hj. cbn in *.
  destruct (R3 _ _ _ Hi) as [_ [? Hl]], (R3 _ _ _ Hj) as [_ [? Hl']].
  split; [intros <-; by eapply R2 | intros <-; congruence].
Qed.

Lemma all_done_registered s ts i l id :
  race_ok (s, ts) -> all_done ts -> node_id s0 l = Some 0 -> ts !! i = Some (l, Done id) ->
  Load (nodeRegistry s) id = Some l.
Proof.
  intros [_ _ R3 _ R5 _ _] Hdone Hnone Hi. cbn in *. destruct (R3 _ _ _ Hi) as [_ [Hid Hl]].
  destruct (R5 l id Hnone Hid Hl) as [?|(j & Hj)]; [done|]. by apply Hdone in Hj as [].
Qed.
End race.

Section theorems.
Context {X : XSync} `{!XSyncLaws} {W A : Type}.
Implicit Types (s : FileSystem W A) (l : loc) (id : Z).

(** C15: [EnsureNodeID] agrees under every interleaving. Any number of
    goroutines call it at once on nodes of a well-formed filesystem. Whatever
    the order of their atomic operations, no goroutine takes more than four of
    them, none is ever stuck, and the identifiers returned so far are not zero,
    equal for the same node and different for different nodes; the entries the
    registry had are untouched. When all have returned, the identifier of
    every node that had none is bound to it in the registry. *)
Theorem EnsureNodeID_race s0 ls k s ts :
  fs_wf s0 -> (forall l, l ∈ ls -> is_Some (h_nodes (fs_heap s0) !! l)) ->
  lastNodeID s0 + Z.of_nat (length ls) < 2 ^ 64 ->
  nsteps race_step k (s0, starts ls) (s, ts) ->
  (k <= 4 * length ls)%nat /\
  (all_done ts \/ exists m', race_step (s, ts) m') /\
  (forall i l id, ts !! i = Some (l, Done id) -> id <> 0 /\ node_id s l = Some id) /\
  (forall i j l l' id id', ts !! i = Some (l, Done id) -> ts !! j = Some (l', Done id') -> id = id' <-> l = l') /\
  (forall id, id <= lastNodeID s0 -> Load (nodeRegistry s) id = Load (nodeRegistry s0) id) /\
  (all_done ts -> forall i l id, node_id s0 l = Some 0 -> ts !! i = Some (l, Done id) ->
     Load (nodeRegistry s) id = Some l).
Proof.
  intros Hwf Hls Hroom Hk.
  assert (Hok : race_ok s0 (s, ts)).
  { eapply race_steps_ok; [by eapply rtc_nsteps_2 | by apply race_start_ok]. }
  pose proof (race_steps_work _ _ _ Hk) as Hw. cbn [snd] in Hw. rewrite work_starts in Hw.
  split; [lia|]. split; [by apply (race_progress s0 (s, ts))|].
  split; [intros i l id Hi; apply (ro_threads _ _ Hok _ _ _ Hi)|].
  split; [intros; by eapply done_ids|].
  split; [apply (ro_kept _ _ Hok) | intros; by eapply all_done_registered].
Qed.

(** C23: the window of [EnsureNodeID]. A goroutine that allocates publishes the
    identifier in the node before it binds it in the registry, so on every
    well-formed filesystem and every node without an identifier there is an
    order in which a second goroutine returns an identifier that is the
    node's, and that [GetNodeCtx] does not find. *)
Theorem EnsureNodeID_window s0 l :
  fs_wf s0 -> node_id s0 l = Some 0 -> lastNodeID s0 + 1 < 2 ^ 64 ->
  exists s id, rtc race_step (s0, starts [l; l]) (s, [(l, Swapped id); (l, Done id)]) /\
    id <> 0 /\ node_id s l = Some id /\ GetNodeCtx id s = Ret (None, s).
Proof.
  intros Hwf Hnone Hroom. pose proof (fw_lastID _ Hwf) as [Hpos _].
  destruct (node_id_spec s0 l (mk_is_Some _ _ Hnone)) as (n & Hn & E).
  rewrite Hnone in E. injection E as E.
  set (id := lastNodeID s0 + 1). set (s1 := put_lastNodeID id s0).
  set (s2 := put_heap (set_nodes (<[l := set_nodeID id n]> (h_nodes (fs_heap s0))) (fs_heap s0)) s1).
  assert (Hid : id <> 0) by (unfold id; lia).
  assert (Hn2 : h_nodes (fs_heap s2) !! l = Some (set_nodeID id n)) by apply lookup_insert_eq.
  exists s2, id. split; [|split; [done|]; split].
  - eapply rtc_l; [eapply (race _ _ 0); [done | eapply op_load]|].
    { by apply on_heap_run, NodeID_run. }
    rewrite put_heap_id, <- E. cbn [Z.eqb].
    eapply rtc_l; [eapply (race _ _ 0); [done | eapply op_add]|].
    { unfold next_nodeID. rewrite u64_id by (unfold in_u64; lia). done. }
    eapply rtc_l; [eapply (race _ _ 0); [done | eapply (op_cas _ _ _ true s2)]|].
    { unfold on_heap, zoom, cas_nodeID. rewrite (bind_run _ _ _ _ _ (read_node_run (fs_heap s0) _ _ Hn)).
      rewrite <- E. cbn [Z.eqb]. by rewrite (bind_run _ _ _ _ _ (update_node_run _ _ _ _ Hn)). }
    eapply rtc_l; [eapply (race _ _ 1); [done | eapply op_load]|].
    { by apply on_heap_run, NodeID_run. }
    rewrite put_heap_id. cbn [n_nodeID set_nodeID]. rewrite (proj2 (Z.eqb_neq _ _) Hid). apply rtc_refl.
  - unfold node_id. by rewrite Hn2.
  - apply GetNodeCtx_none. cbn. destruct (Load (nodeRegistry s0) id) as [x|] eqn:Hx; [|done].
    destruct (fw_reg _ Hwf _ _ Hx) as (_ & xn & Hxn & Hxid).
    destruct (fw_id _ Hwf _ _ Hxn); unfold id in *; lia.
Qed.
End theorems.
