(* ===== verification/MkdirRace.v ===== *)
(** [AddDirNode] (src/filesystem/fs.go) under concurrency: looking a name up
    and making the directory that was not there are two steps, between which
    other goroutines can run. *)

From S2P Require Import Prelude Config Paths Request XSync DataCache AdapterPool Inode Heap.
From S2P Require Import Node NodeContext Tree FileSystem FileSystemSpec.

(** Where a goroutine is in the loop over the names: at directory [cur] with
    [names] to go; having found that the first of them is not there; at the
    end. *)
Inductive mkdir_pc :=
  | Walking (names : list string) (cur : loc)
  | Missing (name : string) (names : list string) (cur : loc)
  | Returned (r : result loc).

Section race.
Context {X : XSync} {W A : Type} {FL : FuseLib} {OS : Process} {clk : Clock W}.
Abbreviation M := (GoM (FileSystem W A)).

(** One step of a goroutine with request [req]. *)
Definition mkdir_next (req : NodeRequest) (c : mkdir_pc) : M mkdir_pc :=
  match c with
  | Walking [] cur => mret (Returned (Ok cur))
  | Walking (name :: names) cur =>
      if decide (name = "") then mret (Walking names cur)
      else
        child ← on_heap (GetChild cur name);
        mret (match child with Some c => Walking names c | None => Missing name names cur end)
  | Missing name names cur =>
      res ← make_dir req cur name;
      mret (match res with Err e => Returned (Err e) | Ok node => Walking names node end)
  | Returned r => mret (Returned r)
  end.

(** The shared filesystem and the goroutines, each with its request. *)
Abbreviation mkdir_machine := (FileSystem W A * list (NodeRequest * mkdir_pc))%type.

Inductive mkdir_step : relation mkdir_machine :=
  | mkdir_go s ts i req c c' s' :
      ts !! i = Some (req, c) -> mkdir_next req c s = Ret (c', s') ->
      mkdir_step (s, ts) (s', <[i := (req, c')]> ts).

Definition mkdir_start (req : NodeRequest) (s : FileSystem W A) : NodeRequest * mkdir_pc :=
  (req, Walking (split_slash (rq_Path req)) (root s)).

Implicit Types (s : FileSystem W A) (req : NodeRequest) (names : list string) (cur l : loc).

(** Run alone, the steps are the loop of [AddDirNode]. *)
Lemma mkdir_alone req names cur s r s' :
  dir_loop req names cur s = Ret (r, s') ->
  rtc mkdir_step (s, [(req, Walking names cur)]) (s', [(req, Returned r)]).
Proof.
  assert (Hgo : forall c c1 s0 s1 x, mkdir_next req c s0 = Ret (c1, s1) ->
    rtc mkdir_step (s1, [(req, c1)]) x -> rtc mkdir_step (s0, [(req, c)]) x).
  { intros c c1 s0 s1 x Hn Hx. eapply rtc_l; [|exact Hx]. by apply (mkdir_go s0 [(req, c)] 0 req c). }
  revert cur s. induction names as [|name names IH]; intros cur s; cbn [dir_loop].
  { intros [= <- <-]. by eapply Hgo; [|apply rtc_refl]. }
  destruct (decide (name = "")) as [->|Hne].
  { intros Hrun. eapply Hgo; [cbn; by rewrite decide_True|]. by apply IH. }
  intros (o & s1 & Hc & Hk)%bind_inv. eapply Hgo.
  { cbn. rewrite decide_False by done. by rewrite (bind_run _ _ _ _ _ Hc). }
  destruct o as [c|]; [by apply IH|]. apply bind_inv in Hk as (res & s2 & Hm & Hk).
  eapply Hgo; [cbn; by rewrite (bind_run _ _ _ _ _ Hm)|].
  destruct res as [node|e]; [by apply IH|]. injection Hk as <- <-. apply rtc_refl.
Qed.
End race.

Section lost.
Context {X : XSync} `{!XSyncLaws} {W A : Type} {FL : FuseLib} `{!FuseLibLaws} {OS : Process} {clk : Clock W}.
Implicit Types (s : FileSystem W A) (req : NodeRequest) (cur l : loc).

Lemma GetChild_child s cur n name :
  h_nodes (fs_heap s) !! cur = Some n ->
  on_heap (GetChild cur name) s = Ret (child (fs_heap s) cur name, s).
Proof.
  intros Hn. rewrite (on_heap_run _ _ _ _ (GetChild_run _ _ _ name Hn)), put_heap_id.
  by rewrite (child_spec _ _ _ _ Hn).
Qed.

(** Making a directory over one that has appeared meanwhile: it replaces it. *)
Lemma make_dir_over req cur n name e en s :
  fs_wf s -> locks_fresh (fs_heap s) -> no_writers (h_locks (fs_heap s)) -> lastIno s + 1 < 2 ^ 64 ->
  h_locks (fs_heap s) !! NodeMu e = None ->
  h_nodes (fs_heap s) !! cur = Some n -> child (fs_heap s) cur name = Some e -> h_nodes (fs_heap s) !! e = Some en ->
  exists y s', make_dir req cur name s = Ret (Ok y, s') /\ root s' = root s /\
    y = S (h_next (fs_heap s)) /\
    h_nodes (fs_heap s') !! y = Some (set_parent (Some cur) (fresh_node name (h_next (fs_heap s)))) /\
    h_nodes (fs_heap s') !! cur = Some (linked name y n) /\
    h_nodes (fs_heap s') !! e = Some (deleted en) /\ h_locks (fs_heap s') = h_locks (fs_heap s) /\
    (exists ino', h_inodes (fs_heap s') !! n_inode en = Some ino' /\ Some (Ino (i_attr ino')) = ino_at (fs_heap s) (n_inode en)) /\
    (forall l, l <> y -> l <> cur -> l <> e -> h_nodes (fs_heap s') !! l = h_nodes (fs_heap s) !! l) /\
    (forall i, is_Some (h_inodes (fs_heap s) !! i) -> is_Some (h_inodes (fs_heap s') !! i)).
Proof.
  intros Hwf Hlk Hw Hm Hle Hn Hc He.
  destruct (make_dir_alloc req cur name s Hwf Hlk Hm) as (a & w & Hrun & Ha & _).
  set (nx := h_next (fs_heap s)) in *. pose proof (fw_tree _ Hwf) as Htw.
  assert (Hlt : forall l m, h_nodes (fs_heap s) !! l = Some m -> (l < nx)%nat).
  { intros l m Hl. destruct (decide (l < nx)%nat); [done|].
    destruct (tw_fresh _ _ Htw l) as [Hnone _]; [unfold nx in *; lia | congruence]. }
  pose proof (Hlt _ _ Hn). pose proof (Hlt _ _ He).
  destruct (tw_down _ _ Htw _ _ _ Hc) as (Hce & _). destruct (tw_inode _ _ Htw _ _ He) as [ino Hi].
  rewrite (child_spec _ _ _ _ Hn) in Hc.
  assert (Hie : (n_inode en <> nx)%nat).
  { intros E. destruct (tw_fresh _ _ Htw nx) as [_ Hnone]; [done | congruence]. }
  erewrite bind_run in Hrun.
  2:{ apply on_heap_run. apply (AddChild_run_replace _ cur (S nx) e n (fresh_node name nx) en ino).
      - cbn. by rewrite lookup_insert_ne by (unfold nx in *; lia).
      - cbn. by rewrite lookup_insert_eq.
      - cbn. by rewrite lookup_insert_ne by (unfold nx in *; lia).
      - unfold nx in *; lia.
      - unfold nx in *; lia.
      - unfold nx in *; lia.
      - cbn. by rewrite lookup_insert_ne by done.
      - done.
      - apply (Hlk (S nx)). unfold nx. lia.
      - done. }
  exists (S nx). eexists. split; [exact Hrun|]. cbn [fs_heap put_heap root put_lastIno h_nodes h_inodes h_locks set_nodes set_inodes].
  split_and!; [done | done | by rewrite lookup_insert_eq | | | done | | |].
  - rewrite lookup_insert_ne by (unfold nx in *; lia). by rewrite lookup_insert_eq.
  - rewrite !lookup_insert_ne by (unfold nx in *; lia). by rewrite lookup_insert_eq.
  - exists (ClearCache ino). rewrite lookup_insert_eq. split; [done|]. unfold ino_at. by rewrite Hi.
  - intros l Hl1 Hl2 Hl3. rewrite !lookup_insert_ne by done. cbn. by rewrite lookup_insert_ne by done.
  - intros i Hi'. destruct (decide (n_inode en = i)) as [<-|Hne]; [rewrite lookup_insert_eq; by eexists|].
    rewrite lookup_insert_ne by done. cbn. destruct (decide (nx = i)) as [<-|]; [rewrite lookup_insert_eq; by eexists|].
    by rewrite lookup_insert_ne by (unfold nx in *; done).
Qed.

(** A goroutine makes one missing directory below [cur]. *)
Lemma Missing_makes req cur n name names s :
  fs_wf s -> locks_fresh (fs_heap s) -> h_nodes (fs_heap s) !! cur = Some n -> has_slash name = false ->
  child (fs_heap s) cur name = None -> lastIno s + 1 < 2 ^ 64 ->
  exists at_ w, let c := S (h_next (fs_heap s)) in
    let s' := fs_attached cur n name at_ [] (h_tasks (fs_heap s)) w s in
    mkdir_next req (Missing name names cur) s = Ret (Walking names c, s') /\
    Ino at_ = lastIno s + 1 /\ fs_wf s' /\ fs_frame s s'.
Proof.
  intros Hwf Hlk Hn Hs Hfree Hm.
  destruct (make_dir_run req cur n name s Hwf Hlk Hn Hfree Hm) as (at_ & w & Hrun & Hi & _).
  exists at_, w. cbn zeta. split; [cbn [mkdir_next]; by rewrite (bind_run _ _ _ _ _ Hrun)|].
  split; [done|]. split; [by apply fs_attached_wf | by apply fs_attached_frame].
Qed.

Lemma Walking_misses req cur n name names s :
  name <> "" -> h_nodes (fs_heap s) !! cur = Some n -> child (fs_heap s) cur name = None ->
  mkdir_next req (Walking (name :: names) cur) s = Ret (Missing name names cur, s).
Proof.
  intros Hne Hn Hc. cbn [mkdir_next]. rewrite decide_False by done.
  by rewrite (bind_run _ _ _ _ _ (GetChild_child s cur n name Hn)), Hc.
Qed.

Lemma frame_locks_fresh s s' : fs_frame s s' -> locks_fresh (fs_heap s) -> locks_fresh (fs_heap s').
Proof. intros F Hlk x Hx. rewrite (ff_locks _ _ F). apply Hlk. pose proof (ff_next _ _ F). lia. Qed.

(** The first goroutine makes [a] and [b] below it. *)
Lemma two_made req a b s rn :
  fs_wf s -> locks_fresh (fs_heap s) -> lastIno s + 2 < 2 ^ 64 ->
  has_slash a = false -> has_slash b = false -> b <> "" ->
  h_nodes (fs_heap s) !! root s = Some rn -> child (fs_heap s) (root s) a = None ->
  exists s2 n1 x en xn,
    (forall c2 : NodeRequest * mkdir_pc,
       rtc mkdir_step (s, [(req, Missing a [b] (root s)); c2]) (s2, [(req, Returned (Ok x)); c2])) /\
    fs_wf s2 /\ fs_frame s s2 /\ lastIno s2 = lastIno s + 2 /\
    (h_next (fs_heap s) <= n1)%nat /\ child (fs_heap s2) (root s2) a = Some n1 /\ n1 <> x /\
    h_nodes (fs_heap s2) !! n1 = Some en /\ n_name en = a /\
    ino_at (fs_heap s2) (n_inode en) = Some (lastIno s + 1) /\
    h_nodes (fs_heap s2) !! x = Some xn /\ n_parent xn = Some n1 /\ n_name xn = b /\ n_isDel xn = false.
Proof.
  intros Hwf Hlk Hm Hsa Hsb Hb Hrn Hfree. set (r := root s) in *. set (nx := h_next (fs_heap s)).
  destruct (Missing_makes req r rn a [b] s Hwf Hlk Hrn Hsa Hfree ltac:(lia)) as (a1 & w1 & Hmk & Hi1 & Hwf1 & F1).
  cbn zeta in *. set (s1 := fs_attached r rn a a1 [] _ w1 s) in *.
  assert (Hn1 : h_nodes (fs_heap s1) !! S nx = Some (mkNode a (Some r) 0 NewMap false nx))
    by apply (attached_lookup_new r rn a a1 [] (set_world w1 (fs_heap s))).
  assert (Hfree1 : child (fs_heap s1) (S nx) b = None) by (unfold child; rewrite Hn1; cbn; apply Load_NewMap).
  assert (Hl1 : lastIno s1 = lastIno s + 1) by done.
  destruct (Missing_makes req (S nx) _ b [] s1 Hwf1 (frame_locks_fresh _ _ F1 Hlk) Hn1 Hsb Hfree1 ltac:(lia))
    as (a2 & w2 & Hmk2 & Hi2 & Hwf2 & F2).
  cbn zeta in *. set (s2 := fs_attached (S nx) _ b a2 [] _ w2 s1) in *. set (x := S (h_next (fs_heap s1))) in *.
  destruct (ff_old _ _ F2 _ _ Hn1) as [m Hn2].
  exists s2, (S nx), x. eexists _, _. split.
  { intros c2.
    eapply rtc_l; [eapply (mkdir_go _ [_; _] 0); [done | exact Hmk]|]. cbn [list_insert insert].
    eapply rtc_l; [eapply (mkdir_go _ [_; _] 0); [done | by eapply Walking_misses]|]. cbn [list_insert insert].
    eapply rtc_l; [eapply (mkdir_go _ [_; _] 0); [done | exact Hmk2]|]. cbn [list_insert insert].
    eapply rtc_l; [eapply (mkdir_go _ [_; _] 0); [done | done]|]. apply rtc_refl. }
  split; [done|]. split; [by etrans|]. split; [cbn; lia|]. split; [unfold nx; lia|]. split.
  { apply fs_attached_child; [done..|]. left. apply fs_attached_child; [done..|]. by right. }
  split; [unfold x; cbn; lia|]. split; [exact Hn2|]. split; [done|]. split.
  { cbn [n_inode set_children]. unfold ino_at.
    rewrite (ff_inodes _ _ F2 nx (addHardLinkLocked (S nx) (NewInode a1 []))); [cbn; by rewrite Hi1|].
    cbn. by rewrite lookup_insert_eq. }
  split; [apply (attached_lookup_new (S nx) _ b a2 [] (set_world w2 (fs_heap s1)))|]. done.
Qed.

(** C18: concurrent calls can lose a directory. From any well-formed filesystem
    without the name [a] below its root there is an order of the steps of two
    calls, for the paths [a/b] and [a], after which both have returned a
    directory without an error, but the directory the first call returned is
    lost: the second call replaced [a], [a/b] resolves to nothing, and the
    path of the lost directory is the error for a deleted node. *)
Theorem AddDirNode_race_loses req1 req2 a b s :
  fs_wf s -> locks_fresh (fs_heap s) -> no_writers (h_locks (fs_heap s)) -> lastIno s + 3 < 2 ^ 64 ->
  split_slash (rq_Path req1) = [a; b] -> split_slash (rq_Path req2) = [a] -> a <> "" -> b <> "" ->
  child (fs_heap s) (root s) a = None ->
  exists s' x y,
    rtc mkdir_step (s, [mkdir_start req1 s; mkdir_start req2 s])
      (s', [(req1, Returned (Ok x)); (req2, Returned (Ok y))]) /\
    walk (fs_heap s') (root s') [a] = Some y /\ walk (fs_heap s') (root s') [a; b] = None /\
    Path (S x) x (fs_heap s') = Ret ((b, Some (ErrDeletedNode a)), fs_heap s').
Proof.
  intros Hwf Hlk Hw Hm Hp1 Hp2 Ha Hb Hfree.
  pose proof (split_slash_no_slash (rq_Path req1)) as Hall. rewrite Hp1 in Hall.
  apply Forall_cons in Hall as [Hsa Hall]. apply Forall_cons in Hall as [Hsb _].
  destruct (root_dom _ _ (fw_tree _ Hwf)) as [rn Hrn].
  destruct (two_made req1 a b s rn Hwf Hlk ltac:(lia) Hsa Hsb Hb Hrn Hfree)
    as (s2 & n1 & x & en & xn & Hsteps & Hwf2 & F & Hl2 & Hn1 & Hc & Hne & Hen & Hname & Hino & Hx & Hpx & Hnx & Hdx).
  destruct (root_dom _ _ (fw_tree _ Hwf2)) as [rn2 Hrn2].
  destruct (make_dir_over req2 (root s2) rn2 a n1 en s2) as
    (y & s3 & Hrun & Hr3 & -> & Hy & Hroot & He & Hlocks & (ino' & Hi' & Hz) & Hrest & Hinodes);
    [done | by eapply frame_locks_fresh | by rewrite (ff_locks _ _ F) | lia
    | rewrite (ff_locks _ _ F); by apply Hlk | done..|].
  set (y := S (h_next (fs_heap s2))) in *. exists s3, x, y.
  assert (Hxy : x <> y).
  { intros ->. destruct (tw_fresh _ _ (fw_tree _ Hwf2) y) as [Hnone _]; [unfold y; lia | congruence]. }
  assert (Hxr : x <> root s2) by (intros ->; destruct (tw_root _ _ (fw_tree _ Hwf2)) as (? & ? & ? & ? & _); congruence).
  assert (Hca : child (fs_heap s3) (root s3) a = Some y).
  { unfold child. rewrite Hr3, Hroot. cbn. by rewrite Load_Store_eq. }
  assert (Hx3 : h_nodes (fs_heap s3) !! x = Some xn) by by rewrite Hrest.
  split; [|split; [|split]].
  - unfold mkdir_start. rewrite Hp1, Hp2.
    eapply rtc_l; [eapply (mkdir_go _ [_; _] 0); [done | by eapply Walking_misses]|]. cbn [list_insert insert].
    eapply rtc_l; [eapply (mkdir_go _ [_; _] 1); [done | by eapply Walking_misses]|]. cbn [list_insert insert].
    etrans; [apply Hsteps|]. rewrite <-(ff_root _ _ F).
    eapply rtc_l; [eapply (mkdir_go _ [_; _] 1); [done|]|].
    { cbn [mkdir_next]. by rewrite (bind_run _ _ _ _ _ Hrun). }
    cbn [list_insert insert]. eapply rtc_l; [eapply (mkdir_go _ [_; _] 1); [done | done]|]. apply rtc_refl.
  - cbn. by rewrite Hca.
  - cbn. rewrite Hca. cbn. unfold child. rewrite Hy. cbn. by rewrite Load_NewMap.
  - assert (Hrel1 : path_rel (fs_heap s3) n1 ("", Some (ErrDeletedNode a)) 0).
    { eapply path_top; [exact He | by eexists|]. unfold top_result. cbn [n_parent n_isDel deleted set_parent set_isDel n_inode n_name].
      rewrite decide_False; [by rewrite Hname|]. rewrite Hi'. cbn. rewrite Hz, Hino.
      destruct (tw_root _ _ (fw_tree _ Hwf)) as (? & ino & ? & _ & _ & Hri & Hr1).
      destruct (fw_ino _ Hwf (n_inode x0) 1); [by apply ino_at_some; exists ino|]. intros [=]. lia. }
    apply (Path_run _ _ _ 1).
    + assert (Hrel : path_rel (fs_heap s3) x (join "" (n_name xn), Some (ErrDeletedNode a)) 1).
      { eapply path_up; [exact Hx3 | | exact Hpx | exact Hrel1]. unfold top_result. by rewrite Hpx, Hdx. }
      by rewrite Hnx in Hrel.
    + destruct (tw_up _ _ (fw_tree _ Hwf2) _ _ _ Hx Hpx) as [_ Hup].
      destruct (tw_down _ _ (fw_tree _ Hwf2) _ _ _ Hup) as [Hlt _]. lia.
    + by rewrite Hlocks, (ff_locks _ _ F).
Qed.
End lost.
