(* ===== verification/RaceSamples.v ===== *)
(** The properties of [EnsureRace] and [MkdirRace] at concrete filesystems and schedules. *)

From S2P Require Import Prelude Config Request XSync DataCache AdapterPool Inode Heap Node NodeContext.
From S2P Require Import Tree FileSystem FileSystemSpec NodeRegistry Reachable FileSystemSamples EnsureRace MkdirRace.

Module RaceSample.
Import FSSample.

Abbreviation machine := (fs * list (loc * pc))%type.

(** Three goroutines on [docs] (twice) and [a.txt]: the first two race, one of
    them loses the swap; the third overtakes both. *)
Definition sched : list nat := [0; 1; 2; 0; 1; 1; 2; 0; 0; 2; 2; 1]%nat.
Definition finish : machine :=
  Eval vm_compute in
  match run_schedule sched (fs1, starts [3; 3; 5]%nat) with Some m => m | None => (fs1, []) end.

Lemma finish_run : run_schedule sched (fs1, starts [3; 3; 5]%nat) = Some (finish.1, finish.2).
Proof. vm_compute. reflexivity. Qed.

Lemma finish_done : all_done finish.2.
Proof.
  intros i l c Hi. repeat (destruct i as [|i]; [injection Hi as <- <-; by eexists|]). done.
Qed.

Lemma nodes1 l : l ∈ [3; 3; 5]%nat -> is_Some (h_nodes (fs_heap fs1) !! l).
Proof.
  assert (is_Some (h_nodes (fs_heap fs1) !! 3%nat)) by (apply is_Some_alt; vm_compute; exact I).
  assert (is_Some (h_nodes (fs_heap fs1) !! 5%nat)) by (apply is_Some_alt; vm_compute; exact I).
  rewrite !elem_of_cons, elem_of_nil. by intros [->|[->|[->|[]]]].
Qed.
End RaceSample.

Import RaceSample FSSample.

Lemma EnsureNodeID_race_witness :
  nsteps race_step 12 (fs1, starts [3; 3; 5]%nat) (finish.1, finish.2) /\
  (12 <= 12)%nat /\
  (all_done finish.2 \/ exists m', race_step (finish.1, finish.2) m') /\
  (forall i l id, finish.2 !! i = Some (l, Done id) -> id <> 0 /\ node_id finish.1 l = Some id) /\
  (forall i j l l' id id', finish.2 !! i = Some (l, Done id) -> finish.2 !! j = Some (l', Done id') ->
     id = id' <-> l = l') /\
  (forall id, id <= lastNodeID fs1 -> Load (nodeRegistry finish.1) id = Load (nodeRegistry fs1) id) /\
  (all_done finish.2 -> forall i l id, node_id fs1 l = Some 0 -> finish.2 !! i = Some (l, Done id) ->
     Load (nodeRegistry finish.1) id = Some l).
Proof.
  pose proof (run_schedule_steps _ _ _ finish_run) as Hsteps. split; [exact Hsteps|].
  apply (EnsureNodeID_race fs1 [3; 3; 5]%nat 12 finish.1 finish.2 (proj1 ok1) nodes1); [|exact Hsteps].
  vm_compute. reflexivity.
Defined.

Lemma EnsureNodeID_window_witness :
  exists s id, rtc race_step (fs1, starts [5; 5]%nat) (s, [(5%nat, Swapped id); (5%nat, Done id)]) /\
    id <> 0 /\ node_id s 5%nat = Some id /\ GetNodeCtx id s = Ret (None, s).
Proof.
  apply (EnsureNodeID_window fs1 5%nat (proj1 ok1)); vm_compute; reflexivity.
Defined.

(** Two calls of [AddDirNode] on the empty filesystem. *)
Lemma AddDirNode_race_loses_witness :
  exists s' x y,
    rtc mkdir_step (fs0, [mkdir_start (rq "a/b") fs0; mkdir_start (rq "a") fs0])
      (s', [(rq "a/b", Returned (Ok x)); (rq "a", Returned (Ok y))]) /\
    walk (fs_heap s') (root s') ["a"; "b"] = None.
Proof.
  destruct (AddDirNode_race_loses (rq "a/b") (rq "a") "a" "b" fs0) as (s' & x & y & Hsteps & _ & Hnone & _).
  - exact (proj1 ok0).
  - exact (proj2 ok0).
  - apply unlocked. vm_compute. reflexivity.
  - vm_compute. reflexivity.
  - vm_compute. reflexivity.
  - vm_compute. reflexivity.
  - discriminate.
  - discriminate.
  - vm_compute. reflexivity.
  - exists s', x, y. split; [exact Hsteps | exact Hnone].
Defined.
