(* ===== verification/Json.v ===== *)
(** JSON texts as encoding/json reads them: a scanner for strings and numbers,
    the unquoting of strings, and a parser that keeps with every value the
    text it was read from (what a [json.RawMessage] holds). Go's limit of
    10000 nested values is not modelled. *)

From S2P Require Import Prelude.

(** ** Values *)

Inductive json := Json (text : bytes) (value : jvalue)
with jvalue :=
  | JNull
  | JBool (b : bool)
  | JNumber (literal : bytes)
  | JString (s : string)
  | JArray (elems : list json)
  | JObject (members : list (string * json)).

Definition json_text (v : json) : bytes := let '(Json t _) := v in t.
Definition json_value (v : json) : jvalue := let '(Json _ w) := v in w.

(** [v] is a part of [w], or [w] itself. *)
Inductive part_of (v : json) : json -> Prop :=
  | part_self : part_of v v
  | part_elem t elems e : e ∈ elems -> part_of v e -> part_of v (Json t (JArray elems))
  | part_member t members k e :
      (k, e) ∈ members -> part_of v e -> part_of v (Json t (JObject members)).

(** ** Bytes *)

Definition code (b : byte) : Z := Z.of_N (Byte.to_N b).
Definition byte_of (z : Z) : byte := default x00 (Byte.of_N (Z.to_N z)).

Definition quote : byte := x22.
Definition backslash : byte := x5c.

Definition is_space (b : byte) : bool := bool_decide (b ∈ [x20; x09; x0a; x0d]).
Definition is_digit (b : byte) : bool := (48 <=? code b) && (code b <=? 57).

Fixpoint skip_ws (s : bytes) : bytes :=
  match s with
  | [] => []
  | b :: s' => if is_space b then skip_ws s' else s
  end.

Fixpoint strip_prefix (p s : bytes) : option bytes :=
  match p, s with
  | [], _ => Some s
  | a :: p', b :: s' => if decide (a = b) then strip_prefix p' s' else None
  | _ :: _, [] => None
  end.

Definition hex_digit (b : byte) : option Z :=
  let c := code b in
  if (48 <=? c) && (c <=? 57) then Some (c - 48)
  else if (97 <=? c) && (c <=? 102) then Some (c - 87)
  else if (65 <=? c) && (c <=? 70) then Some (c - 55)
  else None.

(** ** Strings *)

(** The scanner inside a string: [Hex n] still needs [n + 1] hexadecimal
    digits of a [\u] escape. It returns the quoted text and what follows the
    closing quote. *)
Inductive string_state := InString | Escape | Hex (n : nat).

Fixpoint scan_string (st : string_state) (s : bytes) : option (bytes * bytes) :=
  match s with
  | [] => None
  | b :: s' =>
      let continue st' := '(raw, rest) ← scan_string st' s'; Some (b :: raw, rest) in
      match st with
      | InString =>
          if decide (b = quote) then Some ([], s')
          else if decide (b = backslash) then continue Escape
          else if code b <? 32 then None
          else continue InString
      | Escape =>
          if decide (b ∈ [quote; backslash; "/"; "b"; "f"; "n"; "r"; "t"]%byte) then continue InString
          else if decide (b = "u"%byte) then continue (Hex 3)
          else None
      | Hex n =>
          match hex_digit b with
          | Some _ => continue (match n with O => InString | S n' => Hex n' end)
          | None => None
          end
      end
  end.

Definition RuneError : Z := 65533.

(** [utf8.AppendRune] *)
Definition encode_rune (r : Z) : bytes :=
  let r := if (r <? 0) || (1114111 <? r) || ((55296 <=? r) && (r <=? 57343)) then RuneError else r in
  let cont i := byte_of (128 + Z.land (Z.shiftr r (6 * i)) 63) in
  if r <=? 127 then [byte_of r]
  else if r <=? 2047 then [byte_of (192 + Z.shiftr r 6); cont 0]
  else if r <=? 65535 then [byte_of (224 + Z.shiftr r 12); cont 1; cont 0]
  else [byte_of (240 + Z.shiftr r 18); cont 2; cont 1; cont 0].

Definition is_cont (lo hi : Z) (b : byte) : bool := (lo <=? code b) && (code b <=? hi).

(** The length of the valid encoding at the front of [s], if there is one
    ([utf8.DecodeRune] refuses overlong forms, surrogates and runes above the
    last). *)
Definition valid_rune (s : bytes) : option nat :=
  match s with
  | [] => None
  | b0 :: s =>
      let c := code b0 in
      if c <? 128 then Some 1%nat
      else if (194 <=? c) && (c <=? 223) then
        match s with b1 :: _ => if is_cont 128 191 b1 then Some 2%nat else None | _ => None end
      else if (224 <=? c) && (c <=? 239) then
        match s with
        | b1 :: b2 :: _ =>
            if is_cont (if c =? 224 then 160 else 128) (if c =? 237 then 159 else 191) b1
               && is_cont 128 191 b2 then Some 3%nat else None
        | _ => None
        end
      else if (240 <=? c) && (c <=? 244) then
        match s with
        | b1 :: b2 :: b3 :: _ =>
            if is_cont (if c =? 240 then 144 else 128) (if c =? 244 then 143 else 191) b1
               && is_cont 128 191 b2 && is_cont 128 191 b3 then Some 4%nat else None
        | _ => None
        end
      else None
  end.

(** [getu4]: the rune of a [\uXXXX] at the front. *)
Definition getu4 (s : bytes) : option Z :=
  match s with
  | a :: u :: h3 :: h2 :: h1 :: h0 :: _ =>
      if decide (a = backslash /\ u = "u"%byte) then
        d3 ← hex_digit h3; d2 ← hex_digit h2; d1 ← hex_digit h1; d0 ← hex_digit h0;
        Some (((d3 * 16 + d2) * 16 + d1) * 16 + d0)
      else None
  | _ => None
  end.

(** [utf16.DecodeRune] *)
Definition decode_pair (r1 r2 : Z) : Z :=
  if (55296 <=? r1) && (r1 <=? 56319) && (56320 <=? r2) && (r2 <=? 57343)
  then (r1 - 55296) * 1024 + (r2 - 56320) + 65536
  else RuneError.

Definition is_surrogate (r : Z) : bool := (55296 <=? r) && (r <=? 57343).

Definition escaped (b : byte) : byte :=
  if decide (b = "b"%byte) then x08
  else if decide (b = "f"%byte) then x0c
  else if decide (b = "n"%byte) then x0a
  else if decide (b = "r"%byte) then x0d
  else if decide (b = "t"%byte) then x09
  else b.

(** The text between the quotes, decoded; one step per byte of fuel. *)
Fixpoint unquote_loop (fuel : nat) (s : bytes) : bytes :=
  match fuel, s with
  | S f, b :: s' =>
      if decide (b = backslash) then
        match s' with
        | e :: s'' =>
            if decide (e = "u"%byte) then
              match getu4 s with
              | None => []
              | Some r =>
                  let s6 := drop 6 s in
                  if is_surrogate r then
                    let p := match getu4 s6 with Some r2 => decode_pair r r2 | None => RuneError end in
                    if p =? RuneError then encode_rune RuneError ++ unquote_loop f s6
                    else encode_rune p ++ unquote_loop f (drop 6 s6)
                  else encode_rune r ++ unquote_loop f s6
              end
            else escaped e :: unquote_loop f s''
        | [] => []
        end
      else
        match valid_rune s with
        | Some n => take n s ++ unquote_loop f (drop n s)
        | None => encode_rune RuneError ++ unquote_loop f s'
        end
  | _, _ => []
  end.

Definition unquote (raw : bytes) : string := String.string_of_list_byte (unquote_loop (length raw) raw).

(** ** Numbers *)

Inductive num_state := NumStart | NegSign | Zero | Digits | Dot | Fraction | Exp | ExpSign | Exponent.

Definition is_exp (b : byte) : bool := bool_decide (b ∈ ["e"; "E"]%byte).

Definition num_next (st : num_state) (b : byte) : option num_state :=
  let first := if decide (b = "0"%byte) then Some Zero else if is_digit b then Some Digits else None in
  match st with
  | NumStart => if decide (b = "-"%byte) then Some NegSign else first
  | NegSign => first
  | Zero => if decide (b = "."%byte) then Some Dot else if is_exp b then Some Exp else None
  | Digits => if is_digit b then Some Digits else if decide (b = "."%byte) then Some Dot
              else if is_exp b then Some Exp else None
  | Dot => if is_digit b then Some Fraction else None
  | Fraction => if is_digit b then Some Fraction else if is_exp b then Some Exp else None
  | Exp => if decide (b ∈ ["+"; "-"]%byte) then Some ExpSign else if is_digit b then Some Exponent else None
  | ExpSign | Exponent => if is_digit b then Some Exponent else None
  end.

Definition num_accepts (st : num_state) : bool :=
  match st with Zero | Digits | Fraction | Exponent => true | _ => false end.

Fixpoint scan_number (st : num_state) (s : bytes) : option (bytes * bytes) :=
  match s with
  | [] => if num_accepts st then Some ([], []) else None
  | b :: s' =>
      match num_next st b with
      | Some st' => '(lit, rest) ← scan_number st' s'; Some (b :: lit, rest)
      | None => if num_accepts st then Some ([], s) else None
      end
  end.

(** ** The parser *)

Definition node (s : bytes) (v : jvalue) (rest : bytes) : option (json * bytes) :=
  Some (Json (take (length s - length rest) s) v, rest).

(** The three loops, at the first byte of a value, of an element and of a
    member; every level of nesting and every element costs one unit of fuel. *)
Fixpoint parse_value (fuel : nat) (s : bytes) : option (json * bytes) :=
  match fuel, s with
  | S f, b :: s' =>
      if decide (b = quote) then
        '(raw, rest) ← scan_string InString s'; node s (JString (unquote raw)) rest
      else if decide (b = "["%byte) then
        match skip_ws s' with
        | c :: s1 =>
            if decide (c = "]"%byte) then node s (JArray []) s1
            else '(vs, rest) ← parse_elems f (skip_ws s'); node s (JArray vs) rest
        | [] => None
        end
      else if decide (b = "{"%byte) then
        match skip_ws s' with
        | c :: s1 =>
            if decide (c = "}"%byte) then node s (JObject []) s1
            else '(ms, rest) ← parse_members f (skip_ws s'); node s (JObject ms) rest
        | [] => None
        end
      else if decide (b = "n"%byte) then
        rest ← strip_prefix ["u"; "l"; "l"]%byte s'; node s JNull rest
      else if decide (b = "t"%byte) then
        rest ← strip_prefix ["r"; "u"; "e"]%byte s'; node s (JBool true) rest
      else if decide (b = "f"%byte) then
        rest ← strip_prefix ["a"; "l"; "s"; "e"]%byte s'; node s (JBool false) rest
      else '(lit, rest) ← scan_number NumStart s; node s (JNumber lit) rest
  | _, _ => None
  end
with parse_elems (fuel : nat) (s : bytes) : option (list json * bytes) :=
  match fuel with
  | O => None
  | S f =>
      '(v, s1) ← parse_value f s;
      match skip_ws s1 with
      | c :: s2 =>
          if decide (c = "]"%byte) then Some ([v], s2)
          else if decide (c = ","%byte) then
            '(vs, rest) ← parse_elems f (skip_ws s2); Some (v :: vs, rest)
          else None
      | [] => None
      end
  end
with parse_members (fuel : nat) (s : bytes) : option (list (string * json) * bytes) :=
  match fuel, s with
  | S f, q :: s0 =>
      if decide (q = quote) then
        '(raw, s1) ← scan_string InString s0;
        match skip_ws s1 with
        | colon :: s2 =>
            if decide (colon = ":"%byte) then
              '(v, s3) ← parse_value f (skip_ws s2);
              match skip_ws s3 with
              | c :: s4 =>
                  if decide (c = "}"%byte) then Some ([(unquote raw, v)], s4)
                  else if decide (c = ","%byte) then
                    '(ms, rest) ← parse_members f (skip_ws s4); Some ((unquote raw, v) :: ms, rest)
                  else None
              | [] => None
              end
            else None
        | [] => None
        end
      else None
  | _, _ => None
  end.

Definition json_parse (data : bytes) : option json :=
  '(v, rest) ← parse_value (S (length data)) (skip_ws data);
  match skip_ws rest with [] => Some v | _ :: _ => None end.

(** ** Reading a part again

    What the parser takes for a value does not depend on what follows, so a
    part of a document can be cut out and parsed on its own. *)

Lemma skip_ws_cons s c s' :
  skip_ws s = c :: s' ->
  is_space c = false /\ exists w, s = w ++ c :: s' /\ Forall (fun b => is_space b = true) w.
Proof.
  induction s as [|b s IH]; [done|]. cbn. destruct (is_space b) eqn:E.
  - intros (? & w & -> & ?)%IH. split; [done|]. exists (b :: w). split; [done | by constructor].
  - intros [= -> ->]. split; [done|]. by exists [].
Qed.

Lemma skip_ws_app w c s :
  is_space c = false -> Forall (fun b => is_space b = true) w -> skip_ws (w ++ c :: s) = c :: s.
Proof. intros Hc Hw. induction Hw as [|b w Hb _ IH]; cbn; [by rewrite Hc | by rewrite Hb]. Qed.

Lemma strip_prefix_some p s rest : strip_prefix p s = Some rest <-> s = p ++ rest.
Proof.
  revert s. induction p as [|a p IH]; intros s; cbn; [naive_solver|].
  destruct s as [|b s]; [done|]. case_decide as Hab; [subst; rewrite IH; naive_solver|]. naive_solver.
Qed.

Lemma scan_string_again st s raw rest :
  scan_string st s = Some (raw, rest) ->
  exists t, s = t ++ rest /\ forall rest', scan_string st (t ++ rest') = Some (raw, rest').
Proof.
  revert st raw. induction s as [|b s IH]; intros st raw; [done|].
  assert (Hgo : forall st' raw0, ('(raw1, rest1) ← scan_string st' s; Some (b :: raw1, rest1)) = Some (raw0, rest) ->
    exists t, s = t ++ rest /\
      forall rest', ('(raw1, rest1) ← scan_string st' (t ++ rest'); Some (b :: raw1, rest1)) = Some (raw0, rest')).
  { intros st' raw0. destruct (scan_string st' s) as [[raw1 rest1]|] eqn:E; [|done]. intros [= <- <-].
    destruct (IH _ _ E) as (t & -> & Ht). exists t. split; [done|]. intros rest'. by rewrite Ht. }
  cbn. intros Hrun.
  assert (Hfin : (exists t, s = t ++ rest /\ forall rest', scan_string st (b :: t ++ rest') = Some (raw, rest')) ->
    exists t, b :: s = t ++ rest /\ forall rest', scan_string st (t ++ rest') = Some (raw, rest')).
  { intros (t & -> & Ht). by exists (b :: t). }
  apply Hfin; clear Hfin. destruct st as [| |n]; cbn.
  - repeat case_decide; subst; [injection Hrun as <- <-; by exists []|by apply Hgo|].
    destruct (code b <? 32); [done | by apply Hgo].
  - repeat case_decide; try by apply Hgo. done.
  - destruct (hex_digit b); [by apply Hgo | done].
Qed.

Definition number_byte (b : byte) : bool :=
  is_digit b || bool_decide (b ∈ ["."; "e"; "E"; "+"; "-"]%byte).

(** What may follow a number without being read as a part of it. *)
Definition follows (s : bytes) : Prop := match s with b :: _ => number_byte b = false | [] => True end.

Lemma num_next_byte st b : number_byte b = false -> num_next st b = None.
Proof. destruct b, st; vm_compute; done. Qed.

Lemma num_start_byte b st : num_next NumStart b = Some st -> is_space b = false.
Proof. destruct b; vm_compute; done. Qed.

Lemma scan_number_again st s lit rest :
  scan_number st s = Some (lit, rest) ->
  s = lit ++ rest /\ forall rest', follows rest' -> scan_number st (lit ++ rest') = Some (lit, rest').
Proof.
  assert (Hstop : forall st s, num_accepts st = true -> follows s -> scan_number st s = Some ([], s)).
  { intros st0 [|b s0] Ha Hf; cbn; [by rewrite Ha | by rewrite num_next_byte, Ha]. }
  revert st lit. induction s as [|b s IH]; intros st lit; cbn.
  - destruct (num_accepts st) eqn:E; [|done]. intros [= <- <-]. split; [done|]. intros. by apply Hstop.
  - destruct (num_next st b) as [st'|] eqn:En.
    + destruct (scan_number st' s) as [[l r]|] eqn:Es; [|done]. intros [= <- <-].
      destruct (IH _ _ Es) as [-> Hr]. split; [done|]. intros rest' Hf. cbn. rewrite En.
      by rewrite (Hr rest' Hf).
    + destruct (num_accepts st) eqn:Ea; [|done]. intros [= <- <-]. split; [done|]. intros. by apply Hstop.
Qed.

Lemma node_app t v rest : node (t ++ rest) v rest = Some (Json t v, rest).
Proof.
  unfold node. rewrite length_app, Nat.add_sub. by rewrite take_app_length.
Qed.

Lemma node_some s v rest w rest' t :
  s = t ++ rest -> node s v rest = Some (w, rest') -> w = Json t v /\ rest' = rest.
Proof. intros ->. rewrite node_app. by intros [= <- <-]. Qed.

(** A value that any parser with enough fuel reads off the front of a text. *)
Definition readable (v : json) : Prop :=
  (exists b t, json_text v = b :: t /\ is_space b = false) /\
  forall f rest, (length (json_text v) < f)%nat -> follows rest ->
    parse_value f (json_text v ++ rest) = Some (v, rest).

Definition all_readable (v : json) : Prop := forall p, part_of p v -> readable p.

Definition value_ok f : Prop := forall s v rest,
  parse_value f s = Some (v, rest) -> s = json_text v ++ rest /\ all_readable v.
Definition elems_ok f : Prop := forall s vs rest, parse_elems f s = Some (vs, rest) ->
  exists t, s = t ++ rest /\ Forall all_readable vs /\
    forall f' rest', (length t < f')%nat -> parse_elems f' (t ++ rest') = Some (vs, rest').
Definition members_ok f : Prop := forall s ms rest, parse_members f s = Some (ms, rest) ->
  exists t, s = t ++ rest /\ Forall (fun m => all_readable m.2) ms /\
    forall f' rest', (length t < f')%nat -> parse_members f' (t ++ rest') = Some (ms, rest').

(** A value without parts. *)
Lemma leaf_readable t v b t' :
  (forall p, part_of p (Json t v) -> p = Json t v) -> t = b :: t' -> is_space b = false ->
  (forall f rest, follows rest -> parse_value (S f) (t ++ rest) = Some (Json t v, rest)) ->
  all_readable (Json t v).
Proof.
  intros Hp Ht Hb Hf p ->%Hp. split; [by exists b, t'|]. cbn [json_text].
  intros [|f] rest Hlen; [lia|]. apply Hf.
Qed.

Lemma array_readable t vs b t' :
  t = b :: t' -> is_space b = false -> Forall all_readable vs ->
  (forall f rest, (length t <= f)%nat -> parse_value (S f) (t ++ rest) = Some (Json t (JArray vs), rest)) ->
  all_readable (Json t (JArray vs)).
Proof.
  intros Ht Hb Hvs Hf p Hp. inversion Hp as [|? ? e He Hpe|]; subst.
  - split; [by eexists _, _|]. cbn [json_text]. intros [|f] rest Hlen _; [lia|]. apply Hf. lia.
  - rewrite Forall_forall in Hvs. by apply (Hvs e).
Qed.

Lemma object_readable t ms b t' :
  t = b :: t' -> is_space b = false -> Forall (fun m => all_readable m.2) ms ->
  (forall f rest, (length t <= f)%nat -> parse_value (S f) (t ++ rest) = Some (Json t (JObject ms), rest)) ->
  all_readable (Json t (JObject ms)).
Proof.
  intros Ht Hb Hms Hf p Hp. inversion Hp as [| |? ? k e He Hpe]; subst.
  - split; [by eexists _, _|]. cbn [json_text]. intros [|f] rest Hlen _; [lia|]. apply Hf. lia.
  - rewrite Forall_forall in Hms. by apply (Hms (k, e)).
Qed.

Lemma elems_nonempty t vs :
  (forall f rest, (length t < f)%nat -> parse_elems f (t ++ rest) = Some (vs, rest)) -> t <> [].
Proof. intros Ht ->. by specialize (Ht 1%nat [] ltac:(cbn; lia)). Qed.

Lemma members_nonempty t ms :
  (forall f rest, (length t < f)%nat -> parse_members f (t ++ rest) = Some (ms, rest)) -> t <> [].
Proof. intros Ht ->. by specialize (Ht 1%nat [] ltac:(cbn; lia)). Qed.

Lemma follows_ws w c s :
  Forall (fun b => is_space b = true) w -> number_byte c = false -> follows (w ++ c :: s).
Proof.
  intros [|b w' Hb _] Hc; [done|]. cbn. revert Hb. destruct b; vm_compute; done.
Qed.

(** One level of each loop on a text that begins as it expects. *)
Lemma parse_array f s' :
  parse_value (S f) ("["%byte :: s') =
  match skip_ws s' with
  | c :: s1 =>
      if decide (c = "]"%byte) then node ("["%byte :: s') (JArray []) s1
      else '(vs, rest) ← parse_elems f (skip_ws s'); node ("["%byte :: s') (JArray vs) rest
  | [] => None
  end.
Proof. done. Qed.

Lemma parse_object f s' :
  parse_value (S f) ("{"%byte :: s') =
  match skip_ws s' with
  | c :: s1 =>
      if decide (c = "}"%byte) then node ("{"%byte :: s') (JObject []) s1
      else '(ms, rest) ← parse_members f (skip_ws s'); node ("{"%byte :: s') (JObject ms) rest
  | [] => None
  end.
Proof. done. Qed.

Lemma array_ok f s' v rest :
  elems_ok f -> parse_value (S f) ("["%byte :: s') = Some (v, rest) ->
  "["%byte :: s' = json_text v ++ rest /\ all_readable v.
Proof.
  intros IH. rewrite parse_array. destruct (skip_ws s') as [|c s1] eqn:Es; [done|].
  apply skip_ws_cons in Es as (Hc & w & -> & Hw). case_decide as Hend.
  - subst c. change ("["%byte :: w ++ "]"%byte :: s1) with (("["%byte :: w) ++ ["]"%byte] ++ s1).
    rewrite app_assoc, node_app. intros [= <- <-]. split; [done|].
    eapply array_readable; [done.. | constructor |]. intros f' rest' _. cbn [app]. rewrite <-app_assoc.
    rewrite parse_array. cbn [app]. rewrite skip_ws_app by done. rewrite decide_True by done.
    rewrite <-(node_app ("["%byte :: w ++ ["]"%byte])). cbn [app]. by rewrite <-app_assoc.
  - destruct (parse_elems f (c :: s1)) as [[vs r]|] eqn:Ee; [|done].
    destruct (IH _ _ _ Ee) as (t & Ht & Hvs & Hagain).
    destruct t as [|c' t'] eqn:Et; [by destruct (elems_nonempty _ _ Hagain)|].
    rewrite <-Et in *. assert (c' = c) as -> by (rewrite Et in Ht; by injection Ht).
    cbn [mbind option_bind]. rewrite Ht.
    change ("["%byte :: w ++ t ++ r) with (("["%byte :: w) ++ t ++ r). rewrite app_assoc, node_app.
    intros [= <- <-]. split; [done|].
    eapply array_readable; [done | done | done |]. intros f' rest' Hf. cbn [app]. rewrite <-app_assoc.
    rewrite parse_array. rewrite Et. cbn [app]. rewrite skip_ws_app, decide_False by done.
    change (c :: t' ++ rest') with ((c :: t') ++ rest'). rewrite <-Et, Hagain.
    + cbn [mbind option_bind]. rewrite <-(node_app ("["%byte :: w ++ t)). cbn [app]. by rewrite <-app_assoc.
    + cbn [app length] in Hf. rewrite length_app in Hf. lia.
Qed.

Lemma object_ok f s' v rest :
  members_ok f -> parse_value (S f) ("{"%byte :: s') = Some (v, rest) ->
  "{"%byte :: s' = json_text v ++ rest /\ all_readable v.
Proof.
  intros IH. rewrite parse_object. destruct (skip_ws s') as [|c s1] eqn:Es; [done|].
  apply skip_ws_cons in Es as (Hc & w & -> & Hw). case_decide as Hend.
  - subst c. change ("{"%byte :: w ++ "}"%byte :: s1) with (("{"%byte :: w) ++ ["}"%byte] ++ s1).
    rewrite app_assoc, node_app. intros [= <- <-]. split; [done|].
    eapply object_readable; [done.. | constructor |]. intros f' rest' _. cbn [app]. rewrite <-app_assoc.
    rewrite parse_object. cbn [app]. rewrite skip_ws_app by done. rewrite decide_True by done.
    rewrite <-(node_app ("{"%byte :: w ++ ["}"%byte])). cbn [app]. by rewrite <-app_assoc.
  - destruct (parse_members f (c :: s1)) as [[ms r]|] eqn:Ee; [|done].
    destruct (IH _ _ _ Ee) as (t & Ht & Hms & Hagain).
    destruct t as [|c' t'] eqn:Et; [by destruct (members_nonempty _ _ Hagain)|].
    rewrite <-Et in *. assert (c' = c) as -> by (rewrite Et in Ht; by injection Ht).
    cbn [mbind option_bind]. rewrite Ht.
    change ("{"%byte :: w ++ t ++ r) with (("{"%byte :: w) ++ t ++ r). rewrite app_assoc, node_app.
    intros [= <- <-]. split; [done|].
    eapply object_readable; [done | done | done |]. intros f' rest' Hf. cbn [app]. rewrite <-app_assoc.
    rewrite parse_object. rewrite Et. cbn [app]. rewrite skip_ws_app, decide_False by done.
    change (c :: t' ++ rest') with ((c :: t') ++ rest'). rewrite <-Et, Hagain.
    + cbn [mbind option_bind]. rewrite <-(node_app ("{"%byte :: w ++ t)). cbn [app]. by rewrite <-app_assoc.
    + cbn [app length] in Hf. rewrite length_app in Hf. lia.
Qed.

Lemma readable_app v f rest :
  all_readable v -> (length (json_text v) < f)%nat -> follows rest ->
  parse_value f (json_text v ++ rest) = Some (v, rest).
Proof. intros Hv. apply (Hv v (part_self v)). Qed.

Lemma readable_nonempty v : all_readable v -> json_text v <> [].
Proof. intros Hv. destruct (Hv v (part_self v)) as [(b & t & -> & _) _]. done. Qed.

Lemma skip_ws_front s t rest :
  skip_ws s = t ++ rest -> t <> [] ->
  exists w, s = w ++ t ++ rest /\ forall x, skip_ws (w ++ t ++ x) = t ++ x.
Proof.
  destruct t as [|c t]; [done|]. intros (Hc & w & -> & Hw)%skip_ws_cons _. exists w.
  split; [done|]. intros x. by apply skip_ws_app.
Qed.

Lemma elems_step f : value_ok f -> elems_ok f -> elems_ok (S f).
Proof.
  intros IHv IHe s vs rest. cbn [parse_elems].
  destruct (parse_value f s) as [[v s1]|] eqn:Ev; [|done]. cbn [mbind option_bind].
  destruct (IHv _ _ _ Ev) as [-> Hv]. destruct (skip_ws s1) as [|c s2] eqn:Es; [done|].
  apply skip_ws_cons in Es as (Hc & w & -> & Hw). case_decide as Hend; [|case_decide as Hcomma; [|done]]; subst c.
  - intros [= <- <-]. exists (json_text v ++ w ++ ["]"%byte]). split; [by rewrite <-!app_assoc|].
    split; [by apply Forall_singleton|]. intros [|f'] rest' Hlen; [lia|]. rewrite !length_app in Hlen.
    rewrite <-!app_assoc. cbn [parse_elems app].
    rewrite (readable_app v) by first [done | cbn in Hlen; lia | by apply follows_ws].
    cbn [mbind option_bind]. by rewrite skip_ws_app, decide_True.
  - destruct (parse_elems f (skip_ws s2)) as [[vs2 r2]|] eqn:Ee; [|done]. intros [= <- <-].
    destruct (IHe _ _ _ Ee) as (t & Ht & Hvs & Hagain).
    destruct (skip_ws_front s2 t r2 Ht (elems_nonempty t vs2 Hagain)) as (w2 & -> & Hskip).
    exists (json_text v ++ w ++ ","%byte :: w2 ++ t). split; [by rewrite <-!app_assoc; cbn; rewrite <-app_assoc|].
    split; [by constructor|]. intros [|f'] rest' Hlen; [lia|].
    rewrite !length_app in Hlen. cbn [length] in Hlen. rewrite length_app in Hlen.
    rewrite <-!app_assoc. cbn [parse_elems app]. rewrite <-app_assoc.
    rewrite (readable_app v) by first [done | cbn in Hlen; lia | by apply follows_ws].
    cbn [mbind option_bind]. rewrite skip_ws_app by done. rewrite decide_False, decide_True by done.
    rewrite Hskip, Hagain by lia. done.
Qed.

Lemma members_step f : value_ok f -> members_ok f -> members_ok (S f).
Proof.
  intros IHv IHm s ms rest. destruct s as [|q s0]; [done|]. cbn [parse_members].
  case_decide as Hq; [subst q|done].
  destruct (scan_string InString s0) as [[raw s1]|] eqn:Estr; [|done]. cbn [mbind option_bind].
  apply scan_string_again in Estr as (tk & -> & Hstr).
  destruct (skip_ws s1) as [|colon s2] eqn:Es1; [done|].
  apply skip_ws_cons in Es1 as (Hcol & w1 & -> & Hw1). case_decide; [subst colon|done].
  destruct (parse_value f (skip_ws s2)) as [[v s3]|] eqn:Ev; [|done]. cbn [mbind option_bind].
  destruct (IHv _ _ _ Ev) as [Hs2 Hv].
  destruct (skip_ws_front s2 _ _ Hs2 (readable_nonempty v Hv)) as (w2 & -> & Hskip2). clear Hs2.
  destruct (skip_ws s3) as [|c s4] eqn:Es3; [done|].
  apply skip_ws_cons in Es3 as (Hc & w3 & -> & Hw3).
  set (start := quote :: tk ++ w1 ++ ":"%byte :: w2 ++ json_text v ++ w3).
  assert (Hstart : forall x, start ++ x = quote :: tk ++ w1 ++ ":"%byte :: w2 ++ json_text v ++ w3 ++ x).
  { intros x. unfold start. cbn. rewrite <-!app_assoc. cbn. by rewrite <-!app_assoc. }
  assert (Hrun : forall f' c x, (length start <= f')%nat -> is_space c = false -> number_byte c = false ->
    parse_members (S f') (start ++ c :: x) =
      if decide (c = "}"%byte) then Some ([(unquote raw, v)], x)
      else if decide (c = ","%byte) then
        '(ms, rest) ← parse_members f' (skip_ws x); Some ((unquote raw, v) :: ms, rest)
      else None).
  { intros f' c' x Hlen Hc' Hn. rewrite Hstart. cbn [parse_members].
    rewrite decide_True, Hstr by done. cbn [mbind option_bind].
    rewrite skip_ws_app, decide_True, Hskip2 by done. rewrite (readable_app v); [|done| |by apply follows_ws].
    - cbn [mbind option_bind]. by rewrite skip_ws_app.
    - unfold start in Hlen. cbn [length] in Hlen. rewrite !length_app in Hlen. cbn [length] in Hlen.
      rewrite !length_app in Hlen. lia. }
  case_decide as Hend; [|case_decide as Hcomma; [|done]]; subst c.
  - intros [= <- <-]. exists (start ++ ["}"%byte]). split; [by rewrite <-app_assoc, Hstart|].
    split; [by apply Forall_singleton|]. intros [|f'] rest' Hlen; [lia|]. rewrite length_app in Hlen. cbn in Hlen.
    rewrite <-app_assoc. cbn [app]. rewrite Hrun by (done || (cbn; lia)). by rewrite decide_True.
  - destruct (parse_members f (skip_ws s4)) as [[ms2 r2]|] eqn:Ee; [|done]. intros [= <- <-].
    destruct (IHm _ _ _ Ee) as (t & Ht & Hms & Hagain).
    destruct (skip_ws_front s4 t r2 Ht (members_nonempty t ms2 Hagain)) as (w4 & -> & Hskip).
    exists (start ++ ","%byte :: w4 ++ t). split; [by rewrite <-app_assoc, Hstart; cbn; rewrite <-app_assoc|].
    split; [by constructor|]. intros [|f'] rest' Hlen; [lia|].
    rewrite length_app in Hlen. cbn [length] in Hlen. rewrite length_app in Hlen.
    rewrite <-app_assoc. cbn [app]. rewrite Hrun by (done || lia).
    rewrite decide_False, decide_True by done. rewrite <-app_assoc, Hskip, Hagain by lia. done.
Qed.

Lemma parse_string f s' :
  parse_value (S f) (quote :: s') =
  '(raw, rest) ← scan_string InString s'; node (quote :: s') (JString (unquote raw)) rest.
Proof. done. Qed.

Lemma leaf_part t v p :
  (forall es, v <> JArray es) -> (forall ms, v <> JObject ms) -> part_of p (Json t v) -> p = Json t v.
Proof. intros Ha Ho Hp. inversion Hp; subst; [done | by destruct (Ha elems) | by destruct (Ho members)]. Qed.

(** The three literals. *)
Lemma literal_ok (b : byte) (lit : bytes) (v : jvalue) :
  (forall es, v <> JArray es) -> (forall ms, v <> JObject ms) -> is_space b = false ->
  (forall f s', parse_value (S f) (b :: s') = rest ← strip_prefix lit s'; node (b :: s') v rest) ->
  forall f s' w rest, parse_value (S f) (b :: s') = Some (w, rest) ->
    b :: s' = json_text w ++ rest /\ all_readable w.
Proof.
  intros Ha Ho Hb Heq f s' w rest. rewrite Heq.
  destruct (strip_prefix lit s') as [r|] eqn:Es; [|done]. apply strip_prefix_some in Es as ->.
  cbn [mbind option_bind]. change (b :: lit ++ r) with ((b :: lit) ++ r). rewrite node_app.
  intros [= <- <-]. split; [done|].
  eapply leaf_readable; [intros p; by apply leaf_part | done | done |].
  intros f' rest' _. cbn [app]. rewrite Heq, (proj2 (strip_prefix_some lit _ rest')) by done.
  by rewrite <-(node_app (b :: lit)).
Qed.

Lemma value_step f : elems_ok f -> members_ok f -> value_ok (S f).
Proof.
  intros IHe IHm [|b s'] v rest; [done|]. cbn [parse_value].
  case_decide; [subst b|].
  { destruct (scan_string InString s') as [[raw r]|] eqn:Es; [|done].
    apply scan_string_again in Es as (t & -> & Hagain). cbn [mbind option_bind].
    change (quote :: t ++ r) with ((quote :: t) ++ r). rewrite node_app. intros [= <- <-]. split; [done|].
    eapply leaf_readable; [intros p; by apply leaf_part | done | done |].
    intros f' rest' _. cbn [app]. rewrite parse_string, Hagain. cbn [mbind option_bind].
    by rewrite <-(node_app (quote :: t)). }
  case_decide; [subst b; by apply array_ok|]. case_decide; [subst b; by apply object_ok|].
  case_decide; [subst b; by apply (literal_ok "n" ["u"; "l"; "l"]%byte JNull) with (f := f)|].
  case_decide; [subst b; by apply (literal_ok "t" ["r"; "u"; "e"]%byte (JBool true)) with (f := f)|].
  case_decide; [subst b; by apply (literal_ok "f" ["a"; "l"; "s"; "e"]%byte (JBool false)) with (f := f)|].
  destruct (scan_number NumStart (b :: s')) as [[lit r]|] eqn:En; [|done]. cbn [mbind option_bind].
  assert (Hb : is_space b = false /\ exists lit', lit = b :: lit').
  { cbn [scan_number] in En. destruct (num_next NumStart b) as [st|] eqn:Est; [|done].
    split; [by eapply num_start_byte|]. destruct (scan_number st s') as [[l r']|]; [|done].
    injection En as <- _. by eexists. }
  destruct Hb as [Hb [lit' ->]]. apply scan_number_again in En as [E Hagain]. rewrite E, node_app.
  intros [= <- <-]. split; [done|].
  eapply leaf_readable; [intros p; by apply leaf_part | done | done |].
  intros f' rest' Hf. specialize (Hagain rest' Hf).
  assert (Heq : parse_value (S f') (b :: lit' ++ rest')
    = '(lit, rest) ← scan_number NumStart (b :: lit' ++ rest'); node (b :: lit' ++ rest') (JNumber lit) rest).
  { cbn [parse_value]. by rewrite !decide_False by done. }
  cbn [app] in Hagain |- *. rewrite Heq, Hagain. cbn [mbind option_bind].
  by rewrite <-(node_app (b :: lit')).
Qed.

Lemma parsers_ok f : value_ok f /\ elems_ok f /\ members_ok f.
Proof.
  induction f as [|f (IHv & IHe & IHm)].
  - split_and!; [by intros [|] | by intros ? | by intros [|]].
  - split; [by apply value_step | split; [by apply elems_step | by apply members_step]].
Qed.

(** The text of every value in a document is itself a document, of that
    value. *)
Lemma json_parse_part data v p :
  json_parse data = Some v -> part_of p v -> json_parse (json_text p) = Some p.
Proof.
  unfold json_parse. destruct (parse_value _ _) as [[w rest]|] eqn:E; [|done]. cbn [mbind option_bind].
  destruct (skip_ws rest); [|done]. intros [= ->] Hp.
  destruct (proj1 (parsers_ok _) _ _ _ E) as [_ Hv]. destruct (Hv p Hp) as [(b & t & Et & Hb) Hread].
  assert (skip_ws (json_text p) = json_text p) as -> by (rewrite Et; cbn; by rewrite Hb).
  pose proof (Hread (Datatypes.S (length (json_text p))) [] ltac:(lia) I) as Hr. rewrite app_nil_r in Hr.
  by rewrite Hr.
Qed.
