(* ===== verification/Decode.v ===== *)
(** [json.Unmarshal] into the Go types the program decodes: strings, unsigned
    and signed integers, pointers, slices, raw messages and structs. A decoder
    takes the value already there, which Go decodes into. *)

From S2P Require Import Prelude Json.

Definition decoder (T : Type) : Type := T -> json -> result T.

Definition ErrSyntax : GoError := ErrExternal "invalid JSON".
Definition ErrType : GoError := ErrExternal "json: cannot unmarshal".

Definition Unmarshal {T} (dec : decoder T) (data : bytes) (old : T) : result T :=
  match json_parse data with
  | None => Err ErrSyntax
  | Some v => dec old v
  end.

Definition dec_string : decoder string := fun old v =>
  match json_value v with
  | JNull => Ok old
  | JString s => Ok s
  | _ => Err ErrType
  end.

(** Decimal digits ([strconv.ParseUint] and [ParseInt] in base 10). *)
Fixpoint digits_loop (acc : Z) (s : bytes) : option Z :=
  match s with
  | [] => Some acc
  | b :: s' => if is_digit b then digits_loop (acc * 10 + (code b - 48)) s' else None
  end.
Definition digits (s : bytes) : option Z := match s with [] => None | _ => digits_loop 0 s end.

Definition ParseUint (bits : Z) (s : bytes) : option Z :=
  z ← digits s; if z <? 2 ^ bits then Some z else None.

Definition ParseInt64 (s : bytes) : option Z :=
  match s with
  | b :: s' =>
      if decide (b = "-"%byte) then z ← digits s'; if z <=? 2 ^ 63 then Some (- z) else None
      else z ← digits s; if z <? 2 ^ 63 then Some z else None
  | [] => None
  end.

Definition dec_number (parse : bytes -> option Z) : decoder Z := fun old v =>
  match json_value v with
  | JNull => Ok old
  | JNumber lit => match parse lit with Some z => Ok z | None => Err ErrType end
  | _ => Err ErrType
  end.
Definition dec_uint (bits : Z) : decoder Z := dec_number (ParseUint bits).
Definition dec_int : decoder Z := dec_number ParseInt64.

(** Null sets the pointer to nil; another value is decoded into what it
    points to, allocated if needed. *)
Definition dec_ptr {T} (zero : T) (dec : decoder T) : decoder (option T) := fun old v =>
  match json_value v with
  | JNull => Ok None
  | _ => match dec (default zero old) v with Ok x => Ok (Some x) | Err e => Err e end
  end.

(** [json.RawMessage] keeps the text. *)
Definition dec_raw : decoder bytes := fun _ v => Ok (json_text v).

(** Elements are decoded into the ones already there, then into zero values. *)
Fixpoint dec_elems {T} (zero : T) (dec : decoder T) (old : list T) (vs : list json) : result (list T) :=
  match vs with
  | [] => Ok []
  | v :: vs' =>
      match dec (default zero (head old)) v, dec_elems zero dec (tail old) vs' with
      | Ok x, Ok xs => Ok (x :: xs)
      | Err e, _ | _, Err e => Err e
      end
  end.
Definition dec_slice {T} (zero : T) (dec : decoder T) : decoder (list T) := fun old v =>
  match json_value v with
  | JNull => Ok []
  | JArray vs => dec_elems zero dec old vs
  | _ => Err ErrType
  end.

(** Keys match field names up to letter case: [foldName], which also maps the
    Kelvin sign and the long s to their ASCII letters. *)
Fixpoint fold_name (s : bytes) : bytes :=
  match s with
  | [] => []
  | b :: s' =>
      match strip_prefix [xe2; x84; xaa] s, strip_prefix [xc5; xbf] s with
      | Some _, _ => "K"%byte :: match s' with _ :: _ :: s'' => fold_name s'' | _ => [] end
      | _, Some _ => "S"%byte :: match s' with _ :: s'' => fold_name s'' | _ => [] end
      | _, _ => (if (97 <=? code b) && (code b <=? 122) then byte_of (code b - 32) else b) :: fold_name s'
      end
  end.
Definition same_name (a b : string) : bool :=
  bool_decide (fold_name (String.list_byte_of_string a) = fold_name (String.list_byte_of_string b)).

(** The fields of a struct with the decoders that set them. *)
Abbreviation fields T := (list (string * decoder T)).

Fixpoint find_field {T} (fs : fields T) (key : string) : option (decoder T) :=
  match fs with
  | [] => None
  | (name, dec) :: fs' => if same_name name key then Some dec else find_field fs' key
  end.

(** Members are decoded in order; those without a field are skipped. *)
Fixpoint dec_members {T} (fs : fields T) (old : T) (ms : list (string * json)) : result T :=
  match ms with
  | [] => Ok old
  | (key, v) :: ms' =>
      match find_field fs key with
      | None => dec_members fs old ms'
      | Some dec => match dec old v with Ok x => dec_members fs x ms' | Err e => Err e end
      end
  end.
Definition dec_struct {T} (fs : fields T) : decoder T := fun old v =>
  match json_value v with
  | JNull => Ok old
  | JObject ms => dec_members fs old ms
  | _ => Err ErrType
  end.
