(* ===== verification/Registry.v ===== *)
(** The adapter registry (src/adapters/registry.go): providers by type name,
    behind a read-write mutex; and the construction of an adapter from its raw
    configuration. *)

From S2P Require Import Prelude Request Heap Json Decode.

Record Registry {P : Type} := mkRegistry {
  reg_mu : option lockst;
  providers : gmap string P
}.
Arguments Registry P : clear implicits.
Arguments mkRegistry {P} _ _.

Section registry.
Context {W P A : Type} {AP : AdapterProvider W P A}.
Abbreviation M := (GoM (Registry P)).
Implicit Types (r : Registry P) (adapterType : string).

Definition set_mu (m : option lockst) r : Registry P := mkRegistry m (providers r).

(** [r.mu] *)
Definition reg_Lock : M unit := fun r =>
  match reg_mu r with None => Ret (tt, set_mu (Some WLocked) r) | Some _ => Blocked end.
Definition reg_Unlock : M unit := fun r =>
  match reg_mu r with Some WLocked => Ret (tt, set_mu None r) | _ => Panic end.
Definition reg_RLock : M unit := fun r =>
  match reg_mu r with
  | None => Ret (tt, set_mu (Some (RLocked 1)) r)
  | Some (RLocked n) => Ret (tt, set_mu (Some (RLocked (Pos.succ n))) r)
  | Some WLocked => Blocked
  end.
Definition reg_RUnlock : M unit := fun r =>
  match reg_mu r with
  | Some (RLocked n) =>
      Ret (tt, set_mu (if decide (n = 1%positive) then None else Some (RLocked (Pos.pred n))) r)
  | _ => Panic
  end.

Definition NewRegistry : Registry P := {| reg_mu := None; providers := ∅ |}.

(** The first provider of a type stays. *)
Definition Register adapterType (provider : P) : M unit :=
  reg_Lock;;
  r ← get_state;
  (match providers r !! adapterType with
   | Some _ => mret tt
   | None => modify (fun r => mkRegistry (reg_mu r) (<[adapterType := provider]> (providers r)))
   end);;
  reg_Unlock.

Definition ErrNoProvider adapterType : GoError := ErrExternal ("no provider for " +:+ adapterType).

Definition GetProvider adapterType : M (result P) :=
  reg_RLock;;
  r ← get_state;
  reg_RUnlock;;
  mret (match providers r !! adapterType with
        | Some provider => Ok provider
        | None => Err (ErrNoProvider adapterType)
        end).

(** The [type] field alone. *)
Definition dec_type : decoder string := dec_struct [("type", dec_string)].

Definition NewAdapter (rawCfg : bytes) (w : W) : M (result A * W) :=
  match Unmarshal dec_type rawCfg "" with
  | Err e => mret (Err e, w)
  | Ok t =>
      provider ← GetProvider t;
      mret (match provider with
            | Err e => (Err e, w)
            | Ok p => provider_Adapter p rawCfg w
            end)
  end.

(** ** What the methods do *)

(** Nobody holds the mutex for writing. *)
Definition reg_free r : Prop := reg_mu r <> Some WLocked.

Lemma Register_run adapterType provider r :
  reg_mu r = None ->
  Register adapterType provider r
  = Ret (tt, mkRegistry None (providers r ∪ {[adapterType := provider]})).
Proof.
  intros Hmu. unfold Register. rewrite (bind_run _ _ _ tt (set_mu (Some WLocked) r)) by (unfold reg_Lock; by rewrite Hmu).
  rewrite (bind_run get_state _ _ _ _ eq_refl). cbn [providers set_mu].
  destruct (providers r !! adapterType) as [p|] eqn:E.
  - rewrite bind_mret. unfold reg_Unlock; cbn. unfold set_mu; cbn. do 3 f_equal.
    symmetry. apply map_eq. intros k. rewrite lookup_union.
    destruct (decide (k = adapterType)) as [->|Hk]; [by rewrite E, lookup_singleton_eq|].
    rewrite lookup_singleton_ne by done. by rewrite (right_id_L None _).
  - rewrite (bind_run _ _ _ tt _ eq_refl). unfold reg_Unlock; cbn. unfold set_mu; cbn. do 3 f_equal.
    apply map_eq. intros k. rewrite lookup_union.
    destruct (decide (k = adapterType)) as [->|Hk]; [by rewrite lookup_insert_eq, E, lookup_singleton_eq|].
    rewrite lookup_insert_ne, lookup_singleton_ne by done. by rewrite (right_id_L None _).
Qed.

Lemma GetProvider_run adapterType r :
  reg_free r ->
  GetProvider adapterType r
  = Ret (match providers r !! adapterType with
         | Some provider => Ok provider
         | None => Err (ErrNoProvider adapterType)
         end, r).
Proof.
  intros Hfree. unfold GetProvider. destruct r as [mu ps]. unfold reg_free in Hfree. cbn in Hfree.
  destruct mu as [[n|]|]; [|done|]; unfold reg_RLock, reg_RUnlock, mbind, GoM_bind, mret, GoM_ret; cbn.
  - by rewrite decide_False, Pos.pred_succ by lia.
  - done.
Qed.
End registry.
