(* ===== verification/Requests.v ===== *)
(** From JSON node definitions to requests (src/requests/dto.go,
    src/requests/unmarshal.go). *)

From S2P Require Import Prelude Request AdapterPool Heap Json Decode Registry.

(** ** The DTOs *)

Record NodeRequestDTO := mkNodeDTO {
  dto_Path : string;
  dto_Type : string;
  dto_UUID : option string;
  dto_Size : option Z;
  dto_Atime : option Z;
  dto_Mtime : option Z;
  dto_Ctime : option Z;
  dto_Perms : option Z;
  dto_OwnerUID : option Z;
  dto_OwnerGID : option Z;
  dto_Blksize : option Z
}.
Definition node_dto0 : NodeRequestDTO :=
  mkNodeDTO "" "" None None None None None None None None None.

Record SourceConfigDTO := mkSourceDTO { sd_Type : string; sd_Priority : option Z }.
Definition source_dto0 : SourceConfigDTO := mkSourceDTO "" None.

Record FileRequestDTO := mkFileDTO { fd_node : NodeRequestDTO; fd_Sources : list SourceConfigDTO }.
Definition file_dto0 : FileRequestDTO := mkFileDTO node_dto0 [].

(** [time.Time]'s decoding of a JSON value, as nanoseconds since the epoch. *)
Class TimeJSON := Time_UnmarshalJSON : bytes -> option Z.
(** The generator of the uuid package; it draws from the world. *)
Class UUIDs (W : Type) := uuid_New : W -> string * W.

Section requests.
Context {TJ : TimeJSON}.

Definition dec_time : decoder Z := fun _ v =>
  match Time_UnmarshalJSON (json_text v) with Some t => Ok t | None => Err ErrType end.

(** A decoder that acts on one field of a record. *)
Definition on_field {T F} (get : T -> F) (set : F -> T -> T) (dec : decoder F) : decoder T := fun old v =>
  match dec (get old) v with Ok x => Ok (set x old) | Err e => Err e end.

Definition dto_fields : fields NodeRequestDTO := [
  ("path", on_field dto_Path (fun x d => mkNodeDTO x (dto_Type d) (dto_UUID d) (dto_Size d) (dto_Atime d)
     (dto_Mtime d) (dto_Ctime d) (dto_Perms d) (dto_OwnerUID d) (dto_OwnerGID d) (dto_Blksize d)) dec_string);
  ("type", on_field dto_Type (fun x d => mkNodeDTO (dto_Path d) x (dto_UUID d) (dto_Size d) (dto_Atime d)
     (dto_Mtime d) (dto_Ctime d) (dto_Perms d) (dto_OwnerUID d) (dto_OwnerGID d) (dto_Blksize d)) dec_string);
  ("uuid", on_field dto_UUID (fun x d => mkNodeDTO (dto_Path d) (dto_Type d) x (dto_Size d) (dto_Atime d)
     (dto_Mtime d) (dto_Ctime d) (dto_Perms d) (dto_OwnerUID d) (dto_OwnerGID d) (dto_Blksize d)) (dec_ptr "" dec_string));
  ("size", on_field dto_Size (fun x d => mkNodeDTO (dto_Path d) (dto_Type d) (dto_UUID d) x (dto_Atime d)
     (dto_Mtime d) (dto_Ctime d) (dto_Perms d) (dto_OwnerUID d) (dto_OwnerGID d) (dto_Blksize d)) (dec_ptr 0 (dec_uint 64)));
  ("atime", on_field dto_Atime (fun x d => mkNodeDTO (dto_Path d) (dto_Type d) (dto_UUID d) (dto_Size d) x
     (dto_Mtime d) (dto_Ctime d) (dto_Perms d) (dto_OwnerUID d) (dto_OwnerGID d) (dto_Blksize d)) (dec_ptr 0 dec_time));
  ("mtime", on_field dto_Mtime (fun x d => mkNodeDTO (dto_Path d) (dto_Type d) (dto_UUID d) (dto_Size d) (dto_Atime d)
     x (dto_Ctime d) (dto_Perms d) (dto_OwnerUID d) (dto_OwnerGID d) (dto_Blksize d)) (dec_ptr 0 dec_time));
  ("ctime", on_field dto_Ctime (fun x d => mkNodeDTO (dto_Path d) (dto_Type d) (dto_UUID d) (dto_Size d) (dto_Atime d)
     (dto_Mtime d) x (dto_Perms d) (dto_OwnerUID d) (dto_OwnerGID d) (dto_Blksize d)) (dec_ptr 0 dec_time));
  ("perms", on_field dto_Perms (fun x d => mkNodeDTO (dto_Path d) (dto_Type d) (dto_UUID d) (dto_Size d) (dto_Atime d)
     (dto_Mtime d) (dto_Ctime d) x (dto_OwnerUID d) (dto_OwnerGID d) (dto_Blksize d)) (dec_ptr 0 (dec_uint 32)));
  ("owner_uid", on_field dto_OwnerUID (fun x d => mkNodeDTO (dto_Path d) (dto_Type d) (dto_UUID d) (dto_Size d)
     (dto_Atime d) (dto_Mtime d) (dto_Ctime d) (dto_Perms d) x (dto_OwnerGID d) (dto_Blksize d)) (dec_ptr 0 (dec_uint 32)));
  ("owner_gid", on_field dto_OwnerGID (fun x d => mkNodeDTO (dto_Path d) (dto_Type d) (dto_UUID d) (dto_Size d)
     (dto_Atime d) (dto_Mtime d) (dto_Ctime d) (dto_Perms d) (dto_OwnerUID d) x (dto_Blksize d)) (dec_ptr 0 (dec_uint 32)));
  ("blksize", on_field dto_Blksize (fun x d => mkNodeDTO (dto_Path d) (dto_Type d) (dto_UUID d) (dto_Size d)
     (dto_Atime d) (dto_Mtime d) (dto_Ctime d) (dto_Perms d) (dto_OwnerUID d) (dto_OwnerGID d) x) (dec_ptr 0 (dec_uint 32)))
].

Definition source_fields : fields SourceConfigDTO := [
  ("type", on_field sd_Type (fun x d => mkSourceDTO x (sd_Priority d)) dec_string);
  ("priority", on_field sd_Priority (fun x d => mkSourceDTO (sd_Type d) x) (dec_ptr 0 dec_int))
].

(** The fields of the embedded struct are promoted. *)
Definition file_fields : fields FileRequestDTO :=
  (prod_map id (on_field fd_node (fun x d => mkFileDTO x (fd_Sources d))) <$> dto_fields)
  ++ [("sources", on_field fd_Sources (fun x d => mkFileDTO (fd_node d) x)
                    (dec_slice source_dto0 (dec_struct source_fields)))].

Definition dec_file_dto : decoder FileRequestDTO := dec_struct file_fields.
Definition dec_dir_dto : decoder NodeRequestDTO := dec_struct dto_fields.

(** [struct { Sources []json.RawMessage }] *)
Definition dec_raw_sources : decoder (list bytes) := dec_struct [("sources", dec_slice [] dec_raw)].

Definition GetNodeType (data : bytes) : result NodeCreateRequestType :=
  match Unmarshal dec_type data "" with
  | Err e => Err e
  | Ok t => Ok (node_type t)
  end.

Section world.
Context {W P : Type} {clk : Clock W} {UU : UUIDs W}.
Abbreviation M := (GoM (Registry P)).

Definition valueOrDefault {T} (ptr : option T) (defaultVal : T) : T :=
  match ptr with Some v => v | None => defaultVal end.

(** Both defaults are computed whether they are needed or not. 0o644 is 420. *)
Definition convertNodeDTO (dto : NodeRequestDTO) (w : W) : NodeRequest * W :=
  let '(now, w) := time_now w in
  let '(uuid, w) := uuid_New w in
  ({| rq_Path := dto_Path dto;
      rq_Type := node_type (dto_Type dto);
      rq_UUID := valueOrDefault (dto_UUID dto) uuid;
      rq_Size := valueOrDefault (dto_Size dto) 0;
      rq_Atime := valueOrDefault (dto_Atime dto) now;
      rq_Mtime := valueOrDefault (dto_Mtime dto) now;
      rq_Ctime := valueOrDefault (dto_Ctime dto) now;
      rq_Perms := valueOrDefault (dto_Perms dto) 420;
      rq_OwnerUID := valueOrDefault (dto_OwnerUID dto) 1000;
      rq_OwnerGID := valueOrDefault (dto_OwnerGID dto) 1000;
      rq_Blksize := valueOrDefault (dto_Blksize dto) 4096 |}, w).

(** The loop over the raw sources from index [i]; [sourceDTOs[i]] panics when
    there are fewer DTOs. *)
Fixpoint sources_loop (sourceDTOs : list SourceConfigDTO) (i : nat) (raws : list bytes) :
    M (result (list (FileSource P))) :=
  match raws with
  | [] => mret (Ok [])
  | rawSource :: raws' =>
      match Unmarshal dec_type rawSource "" with
      | Err e => mret (Err e)
      | Ok t =>
          p ← GetProvider t;
          match p with
          | Err e => mret (Err e)
          | Ok provider =>
              dto ← deref (sourceDTOs !! i);
              let priority := match sd_Priority dto with Some pr => pr | None => Z.of_nat i end in
              rest ← sources_loop sourceDTOs (1 + i) raws';
              mret (match rest with
                    | Ok sources => Ok (mkSource provider rawSource priority :: sources)
                    | Err e => Err e
                    end)
          end
      end
  end.

Definition unmarshalSources (sourceDTOs : list SourceConfigDTO) (rawData : bytes) :
    M (result (list (FileSource P))) :=
  match Unmarshal dec_raw_sources rawData [] with
  | Err e => mret (Err e)
  | Ok raws => sources_loop sourceDTOs 0 raws
  end.

Definition UnmarshalFileRequest (data : bytes) (w : W) : M (result (FileCreateRequest P) * W) :=
  match Unmarshal dec_file_dto data file_dto0 with
  | Err e => mret (Err e, w)
  | Ok dto =>
      let '(coreNode, w) := convertNodeDTO (fd_node dto) w in
      sources ← unmarshalSources (fd_Sources dto) data;
      mret (match sources with
            | Err e => (Err e, w)
            | Ok sources => (Ok (mkFileRequest coreNode sources), w)
            end)
  end.

Definition UnmarshalDirRequest (data : bytes) (w : W) : result DirCreateRequest * W :=
  match Unmarshal dec_dir_dto data node_dto0 with
  | Err e => (Err e, w)
  | Ok dto => let '(n, w) := convertNodeDTO dto w in (Ok {| dr_node := n |}, w)
  end.
End world.
End requests.
