(* ===== verification/RequestsSpec.v ===== *)
(** What the decoding of node definitions delivers: it never panics, and every
    source carries its own text, its provider and its priority. *)

From S2P Require Import Prelude Request AdapterPool Heap Json Decode Registry Requests.

(** ** Field lookup *)

Lemma find_field_app {T} (fs gs : fields T) key :
  find_field (fs ++ gs) key = match find_field fs key with Some d => Some d | None => find_field gs key end.
Proof. induction fs as [|[n d] fs IH]; cbn; [done|]. by destruct (same_name n key). Qed.

Lemma find_field_map {T U} (f : decoder T -> decoder U) (fs : fields T) key :
  find_field (prod_map id f <$> fs) key = f <$> find_field fs key.
Proof. induction fs as [|[n d] fs IH]; cbn; [done|]. by destruct (same_name n key). Qed.

(** A name that matches one field matches no field with another folded name. *)
Lemma same_name_other a b key :
  same_name a key = true -> same_name a b = false -> same_name b key = false.
Proof.
  unfold same_name. rewrite bool_decide_eq_true, !bool_decide_eq_false. intros -> Hne Heq. by apply Hne.
Qed.

Lemma find_field_none {T} (fs : fields T) a key :
  same_name a key = true -> Forall (fun f => same_name a f.1 = false) fs -> find_field fs key = None.
Proof.
  intros Ha. induction 1 as [|[n d] fs Hn _ IH]; cbn; [done|]. by rewrite (same_name_other a n key).
Qed.

Section spec.
Context {TJ : TimeJSON}.

(** ** The two decodings of the sources run in step *)

Definition dec_sources : decoder FileRequestDTO :=
  on_field fd_Sources (fun x d => mkFileDTO (fd_node d) x) (dec_slice source_dto0 (dec_struct source_fields)).

Lemma find_sources key : same_name "sources" key = true -> find_field file_fields key = Some dec_sources.
Proof.
  intros Hk. unfold file_fields. rewrite find_field_app, find_field_map.
  rewrite (find_field_none dto_fields "sources" key Hk) by (repeat constructor; vm_compute; reflexivity).
  cbn [fmap option_fmap option_map find_field]. by rewrite Hk.
Qed.

Lemma find_other key :
  same_name "sources" key = false ->
  find_field file_fields key
  = on_field fd_node (fun x d => mkFileDTO x (fd_Sources d)) <$> find_field dto_fields key.
Proof.
  intros Hk. unfold file_fields. rewrite find_field_app, find_field_map.
  destruct (find_field dto_fields key); [done|]. cbn. by rewrite Hk.
Qed.

(** A source description that could be decoded has a type that can. *)
Lemma source_type_decodes old e sd t0 :
  dec_struct source_fields old e = Ok sd -> exists t, dec_type t0 e = Ok t.
Proof.
  unfold dec_type, dec_struct. destruct (json_value e) as [| | | | |ms]; try done; [by eexists|].
  revert old t0. induction ms as [|[key v] ms IH]; intros old t0; cbn [dec_members]; [by eexists|].
  cbn [find_field source_fields]. destruct (same_name "type" key) eqn:Et.
  - unfold on_field at 1. unfold dec_string. destruct (json_value v); try done; apply IH.
  - destruct (same_name "priority" key); [|apply IH].
    destruct (on_field _ _ _ old v); [apply IH | done].
Qed.

(** A raw source and its DTO come from one element of the document [doc]. *)
Definition same_source (doc : json) (raw : bytes) (sd : SourceConfigDTO) : Prop :=
  exists e old, raw = json_text e /\ part_of e doc /\ dec_struct source_fields old e = Ok sd.

Lemma elems_in_step doc vs olds sds raws0 :
  (forall e, e ∈ vs -> part_of e doc) ->
  dec_elems source_dto0 (dec_struct source_fields) olds vs = Ok sds ->
  exists raws, dec_elems [] dec_raw raws0 vs = Ok raws /\ Forall2 (same_source doc) raws sds.
Proof.
  revert olds sds raws0. induction vs as [|v vs IH]; intros olds sds raws0 Hin; cbn [dec_elems].
  { intros [= <-]. by exists []. }
  destruct (dec_struct source_fields _ v) as [sd|] eqn:Ev; [|done].
  destruct (dec_elems _ _ (tail olds) vs) as [xs|] eqn:Exs; [|done]. intros [= <-].
  destruct (IH _ _ (tail raws0) (fun e He => Hin e ltac:(by right)) Exs) as (raws & -> & Hall).
  exists (json_text v :: raws). split; [done|]. constructor; [|done].
  exists v. eexists. split; [done|]. split; [apply Hin; by left | exact Ev].
Qed.

Lemma sources_in_step doc ms dto dto' raws :
  (forall k e, (k, e) ∈ ms -> forall p, part_of p e -> part_of p doc) ->
  dec_members file_fields dto ms = Ok dto' -> Forall2 (same_source doc) raws (fd_Sources dto) ->
  exists raws', dec_members [("sources", dec_slice [] dec_raw)] raws ms = Ok raws' /\
    Forall2 (same_source doc) raws' (fd_Sources dto').
Proof.
  revert dto raws. induction ms as [|[key v] ms IH]; intros dto raws Hin; cbn [dec_members find_field].
  { intros [= <-] Hall. by exists raws. }
  assert (Hin' : forall k e, (k, e) ∈ ms -> forall p, part_of p e -> part_of p doc)
    by (intros k e He; apply (Hin k e); by right).
  destruct (same_name "sources" key) eqn:Ek.
  - rewrite (find_sources _ Ek). unfold dec_sources, on_field, dec_slice.
    destruct (json_value v) as [| | | |vs|] eqn:Ev; try done.
    + intros Hrun _. eapply IH; [done | exact Hrun | constructor].
    + destruct (dec_elems source_dto0 _ _ vs) as [sds|] eqn:Eds; [|done]. intros Hrun _.
      edestruct (elems_in_step doc vs) with (raws0 := raws) (2 := Eds) as (raws1 & -> & Hall1).
      { intros e He. apply (Hin key v); [by left|]. destruct v as [t w]. cbn in Ev. subst w.
        eapply part_elem; [exact He | apply part_self]. }
      eapply IH; [done | exact Hrun | exact Hall1].
  - rewrite (find_other _ Ek). destruct (find_field dto_fields key) as [d|]; cbn; [|by apply IH].
    unfold on_field at 1. destruct (d (fd_node dto) v) as [n|]; [|done].
    intros Hrun Hall. by eapply IH; [|exact Hrun|].
Qed.

Lemma unmarshal_in_step data dto :
  Unmarshal dec_file_dto data file_dto0 = Ok dto ->
  exists doc raws, json_parse data = Some doc /\ Unmarshal dec_raw_sources data [] = Ok raws /\
    Forall2 (same_source doc) raws (fd_Sources dto).
Proof.
  unfold Unmarshal. destruct (json_parse data) as [doc|]; [|done]. intros Hdec.
  unfold dec_file_dto, dec_raw_sources, dec_struct in *. exists doc.
  destruct doc as [t [| | | | |ms]]; cbn [json_value] in *; try done.
  - injection Hdec as <-. by exists [].
  - destruct (sources_in_step (Json t (JObject ms)) ms file_dto0 dto []) as (raws & -> & Hall); [|done..|].
    + intros k e He p Hp. by eapply part_member.
    + by exists raws.
Qed.

Lemma same_source_type data doc raw sd :
  json_parse data = Some doc -> same_source doc raw sd -> exists t, Unmarshal dec_type raw "" = Ok t.
Proof.
  intros Hdoc (e & old & -> & Hp & Hdec). unfold Unmarshal. rewrite (json_parse_part _ _ _ Hdoc Hp).
  by eapply source_type_decodes.
Qed.

(** ** The requests *)

Section world.
Context {W P : Type} {clk : Clock W} {UU : UUIDs W}.
Implicit Types (reg : Registry P).

(** The sources built from a prefix of the raw ones, all of registered types. *)
Definition built reg (i : nat) (raws : list bytes) (types : list string) (sds : list SourceConfigDTO)
    (sources : list (FileSource P)) : Prop :=
  length sources = length raws /\
  forall j raw t sd, raws !! j = Some raw -> types !! j = Some t -> sds !! (i + j)%nat = Some sd ->
    exists p, providers reg !! t = Some p /\
      sources !! j = Some (mkSource p raw (valueOrDefault (sd_Priority sd) (Z.of_nat (i + j)))).

Lemma sources_loop_run reg sds i raws types :
  reg_free reg -> (i + length raws <= length sds)%nat ->
  Forall2 (fun raw t => Unmarshal dec_type raw "" = Ok t) raws types ->
  exists r, sources_loop sds i raws reg = Ret (r, reg) /\
    match r with
    | Ok sources => built reg i raws types sds sources
    | Err e => exists t, t ∈ types /\ providers reg !! t = None /\ e = ErrNoProvider t
    end.
Proof.
  intros Hfree Hlen Htypes. revert i Hlen.
  induction Htypes as [|raw t raws types Ht _ IH]; intros i Hlen; cbn [sources_loop length] in *.
  { eexists. split; [done|]. by split. }
  rewrite Ht, (bind_run _ _ _ _ _ (GetProvider_run t reg Hfree)).
  destruct (providers reg !! t) as [p|] eqn:Ep.
  2:{ eexists. split; [done|]. exists t. split; [by left | done]. }
  destruct (lookup_lt_is_Some_2 sds i ltac:(lia)) as [sd Hsd].
  rewrite Hsd. cbn [deref]. rewrite bind_mret.
  destruct (IH (1 + i)%nat ltac:(lia)) as (r & Hr & Hspec). rewrite (bind_run _ _ _ _ _ Hr).
  eexists. split; [done|]. destruct r as [sources|e].
  - destruct Hspec as [Hl Hj]. split; [cbn; by rewrite Hl|].
    intros [|j] raw' t' sd' Hraw Ht' Hsd'; cbn in Hraw, Ht'.
    + injection Hraw as <-. injection Ht' as <-. rewrite Nat.add_0_r in Hsd' |- *.
      exists p. split; [done|]. rewrite Hsd in Hsd'. by injection Hsd' as <-.
    + rewrite <-Nat.add_succ_comm in Hsd' |- *. by apply Hj.
  - destruct Hspec as (t' & Hin & Hnone & ->). exists t'. split; [by right | done].
Qed.

(** What a run of [UnmarshalFileRequest] does. *)
Lemma UnmarshalFileRequest_run data (w : W) reg :
  reg_free reg ->
  exists res w', UnmarshalFileRequest data w reg = Ret ((res, w'), reg) /\
    match Unmarshal dec_file_dto data file_dto0 with
    | Err e => res = Err e /\ w' = w
    | Ok dto => exists raws types,
        w' = (convertNodeDTO (fd_node dto) w).2 /\
        Unmarshal dec_raw_sources data [] = Ok raws /\ length raws = length (fd_Sources dto) /\
        Forall2 (fun raw t => Unmarshal dec_type raw "" = Ok t) raws types /\
        match res with
        | Ok req => fr_node req = (convertNodeDTO (fd_node dto) w).1 /\
                    built reg 0 raws types (fd_Sources dto) (Sources req)
        | Err e => exists t, t ∈ types /\ providers reg !! t = None /\ e = ErrNoProvider t
        end
    end.
Proof.
  intros Hfree. unfold UnmarshalFileRequest.
  destruct (Unmarshal dec_file_dto data file_dto0) as [dto|e] eqn:Edto; [|by eexists _, _].
  destruct (unmarshal_in_step _ _ Edto) as (doc & raws & Hdoc & Hraws & Hall).
  assert (exists types, Forall2 (fun raw t => Unmarshal dec_type raw "" = Ok t) raws types) as [types Ht].
  { apply Forall_exists_Forall2_l. eapply Forall2_Forall_l; [exact Hall|].
    apply Forall_forall. intros sd _ raw Hs.
    by eapply same_source_type. }
  destruct (convertNodeDTO (fd_node dto) w) as [coreNode w1].
  pose proof (Forall2_length _ _ _ Hall) as Hl.
  destruct (sources_loop_run reg (fd_Sources dto) 0 raws types Hfree ltac:(lia) Ht) as (r & Hr & Hspec).
  unfold unmarshalSources. rewrite Hraws, (bind_run _ _ _ _ _ Hr).
  destruct r as [sources|e]; (eexists _, _; split; [done|]; exists raws, types; by split_and!).
Qed.

(** The node request of a DTO: its fields, and the defaults for those that are
    not there. *)
Definition with_defaults (dto : NodeRequestDTO) (r : NodeRequest) : Prop :=
  rq_Path r = dto_Path dto /\ rq_Type r = node_type (dto_Type dto) /\
  rq_Size r = default 0 (dto_Size dto) /\ rq_Perms r = default 420 (dto_Perms dto) /\
  rq_OwnerUID r = default 1000 (dto_OwnerUID dto) /\ rq_OwnerGID r = default 1000 (dto_OwnerGID dto) /\
  rq_Blksize r = default 4096 (dto_Blksize dto) /\
  exists now, rq_Atime r = default now (dto_Atime dto) /\ rq_Mtime r = default now (dto_Mtime dto) /\
    rq_Ctime r = default now (dto_Ctime dto).

Lemma convert_defaults dto (w : W) : with_defaults dto (convertNodeDTO dto w).1.
Proof.
  unfold convertNodeDTO. destruct (time_now w) as [now w1]. destruct (uuid_New w1) as [u w2].
  split_and!; try done. by exists now.
Qed.

Lemma built_registered reg raws types sds sources :
  length raws = length sds -> length raws = length types ->
  built reg 0 raws types sds sources -> Forall (fun t => is_Some (providers reg !! t)) types.
Proof.
  intros Hs Ht [_ Hj]. apply Forall_lookup. intros j t Hjt. pose proof (lookup_lt_Some _ _ _ Hjt).
  destruct (lookup_lt_is_Some_2 raws j) as [raw Hraw]; [lia|].
  destruct (lookup_lt_is_Some_2 sds j) as [sd Hsd]; [lia|].
  destruct (Hj j raw t sd Hraw Hjt Hsd) as (p & Hp & _). by eexists.
Qed.

(** C8: decoding a file definition. [UnmarshalFileRequest] returns on every
    input and leaves the registry alone: it decodes the sources twice, once as
    DTOs and once as raw texts, but the two never get out of step, so indexing
    one by the other cannot panic. It fails exactly when the text does not have
    the request's shape or a source names a type without a provider. Otherwise
    the request has the definition's fields with the defaults filled in, and
    source number [j] has the text of its own element as configuration, the
    provider of the type in that text, and the declared priority or [j]. *)
Theorem UnmarshalFileRequest_spec data (w : W) reg :
  reg_free reg ->
  exists res w', UnmarshalFileRequest data w reg = Ret ((res, w'), reg) /\
    match Unmarshal dec_file_dto data file_dto0 with
    | Err e => res = Err e /\ w' = w
    | Ok dto => exists raws types,
        Unmarshal dec_raw_sources data [] = Ok raws /\ length raws = length (fd_Sources dto) /\
        Forall2 (fun raw t => Unmarshal dec_type raw "" = Ok t) raws types /\
        match res with
        | Ok req => Forall (fun t => is_Some (providers reg !! t)) types /\
            with_defaults (fd_node dto) (fr_node req) /\ built reg 0 raws types (fd_Sources dto) (Sources req)
        | Err e => exists t, t ∈ types /\ providers reg !! t = None /\ e = ErrNoProvider t
        end
    end.
Proof.
  intros Hfree. destruct (UnmarshalFileRequest_run data w reg Hfree) as (res & w' & Hrun & Hspec).
  exists res, w'. split; [done|]. destruct (Unmarshal dec_file_dto data file_dto0) as [dto|e]; [|done].
  destruct Hspec as (raws & types & _ & Hraws & Hl & Htypes & Hres). exists raws, types. split_and!; [done..|].
  destruct res as [req|e]; [|done]. destruct Hres as [Hn Hb]. split.
  - eapply built_registered; [exact Hl | by eapply Forall2_length | exact Hb].
  - split; [rewrite Hn; apply convert_defaults | done].
Qed.
End world.
End spec.
