(* ===== verification/Http.v ===== *)
(** The HTTP adapter (src/adapters/http.go): requests with custom headers and
    a byte range, the reading of a response into the caller's buffer, and the
    metadata of a HEAD request. *)

From stdpp Require Import pretty.
From S2P Require Import Prelude Request AdapterPool Inode Json Decode.

(** ** net/http and io *)

(** [http.CanonicalHeaderKey]: the first letter and those after a hyphen in
    upper case, the others in lower case; a key with a byte that is not a
    token byte stays as it is. *)
Definition is_upper (b : byte) : bool := (65 <=? code b) && (code b <=? 90).
Definition is_lower (b : byte) : bool := (97 <=? code b) && (code b <=? 122).
Definition token_byte (b : byte) : bool :=
  is_upper b || is_lower b || is_digit b ||
  bool_decide (b ∈ ["!"; "#"; "$"; "%"; "&"; "'"; "*"; "+"; "-"; "."; "^"; "_"; "`"; "|"; "~"]%byte).

Fixpoint canonical_loop (upper : bool) (s : bytes) : bytes :=
  match s with
  | [] => []
  | b :: s' =>
      (if upper && is_lower b then byte_of (code b - 32)
       else if negb upper && is_upper b then byte_of (code b + 32) else b)
      :: canonical_loop (bool_decide (b = "-"%byte)) s'
  end.
Definition CanonicalHeaderKey (k : string) : string :=
  let s := String.list_byte_of_string k in
  if forallb token_byte s then String.string_of_list_byte (canonical_loop true s) else k.

Abbreviation Header := (gmap string (list string)).
Definition Header_Set (k v : string) (h : Header) : Header := <[CanonicalHeaderKey k := [v]]> h.
Definition Header_Get (k : string) (h : Header) : string :=
  match h !! CanonicalHeaderKey k with Some (v :: _) => v | _ => "" end.

(** How a stream ends: cleanly, cut off, or with another error. *)
Inductive io_error := io_EOF | io_ErrUnexpectedEOF | io_Other (e : GoError).

(** A response body that is still to be read. *)
Record Body := mkBody { body_data : bytes; body_end : io_error }.

(** [io.CopyN(io.Discard, body, n)], for a positive [n] *)
Definition CopyN_Discard (body : Body) (n : Z) : Z * option io_error * Body :=
  let len := Z.of_nat (length (body_data body)) in
  if n <=? len then (n, None, mkBody (drop (Z.to_nat n) (body_data body)) (body_end body))
  else (len, Some (body_end body), mkBody [] (body_end body)).

(** [io.ReadFull(body, buf)] *)
Definition ReadFull (body : Body) (buf : bytes) : Z * option io_error * bytes :=
  let d := take (length buf) (body_data body) in
  let n := Z.of_nat (length d) in
  let buf' := d ++ drop (length d) buf in
  if (length buf <=? length (body_data body))%nat then (n, None, buf')
  else (n, Some (match body_end body with
                 | io_EOF => if (0 <? n) then io_ErrUnexpectedEOF else io_EOF
                 | e => e
                 end), buf').

Record HttpRequest := mkRequest { req_Method : string; req_URL : string; req_Header : Header }.

Record HttpResponse := mkResponse {
  StatusCode : Z;
  StatusText : string;
  ContentLength : Z;                    (* int64; -1 when unknown *)
  resp_Header : Header;
  resp_Body : Body
}.

(** What the library does with the network and the world: why
    [NewRequestWithContext] refuses a method or a URL, the exchange of
    [http.DefaultClient.Do], the parsing of HTTP dates, and the order in which
    a [range] loop visits a map. *)
Class HttpLib (W : Type) := {
  request_error : string -> string -> option GoError;
  Do : Ctx W -> HttpRequest -> W -> result HttpResponse * W;
  ParseTime : string -> option Z;
  range_map : W -> gmap string string -> list (string * string)
}.

Class HttpLibLaws {W} {HL : HttpLib W} : Prop :=
  range_map_perm : forall w m, range_map w m ≡ₚ map_to_list m.

Definition NewRequestWithContext `{HttpLib W} (method url : string) : result HttpRequest :=
  match request_error method url with
  | Some e => Err e
  | None => Ok (mkRequest (if decide (method = "") then "GET" else method) url ∅)
  end.

(** ** The adapter *)

Record HTTPSource := mkHTTPSource {
  URL : string;
  Method : option string;
  Headers : gmap string string
}.
Definition http_source0 : HTTPSource := mkHTTPSource "" None ∅.

Record HTTPAdapter := mkHTTPAdapter { cfg : HTTPSource }.

Definition ErrBufferTooSmall : GoError := ErrExternal "buffer too small".
Definition ErrStatus (code : Z) : GoError := ErrExternal ("HTTP " +:+ pretty code).
Definition ErrSkip : GoError := ErrExternal "failed to skip to offset".
Definition ErrReadData : GoError := ErrExternal "failed to read data".
Definition ErrReadOnly : GoError := ErrExternal "HTTP sources are read-only".

Section adapter.
Context {W : Type} {HL : HttpLib W}.
Implicit Types (h : HTTPAdapter) (ctx : Ctx W) (w : W).

Definition getMethod h : string :=
  match Method (cfg h) with Some m => m | None => "GET" end.

Definition set_headers (custom : list (string * string)) (hd : Header) : Header :=
  fold_left (fun hd kv => Header_Set kv.1 kv.2 hd) custom hd.

Definition newRequest h (method : string) w : result HttpRequest :=
  match NewRequestWithContext method (URL (cfg h)) with
  | Err e => Err e
  | Ok req => Ok (mkRequest (req_Method req) (req_URL req)
                   (set_headers (range_map w (Headers (cfg h))) (req_Header req)))
  end.

Definition http_Open h ctx : GoM W (result Body) := fun w =>
  match newRequest h (getMethod h) w with
  | Err e => Ret (Err e, w)
  | Ok req =>
      let '(resp, w) := Do ctx req w in
      Ret (match resp with Err e => Err e | Ok resp => Ok (resp_Body resp) end, w)
  end.

(** ["bytes=%d-%d"] with the inclusive end, computed in int64 *)
Definition rangeHeader (offset size : Z) : string :=
  "bytes=" +:+ pretty offset +:+ "-" +:+ pretty (offset +i size -i 1).

(** The bytes before the offset, when the server sent the whole file. *)
Definition skip_to (resp : HttpResponse) (offset : Z) : result Body :=
  if StatusCode resp =? 200 then
    if 0 <? offset then
      match CopyN_Discard (resp_Body resp) offset with
      | (_, Some _, _) => Err ErrSkip
      | (discarded, None, body) => if discarded =? offset then Ok body else Err ErrSkip
      end
    else Ok (resp_Body resp)
  else Ok (resp_Body resp).

(** The request of a read, with the range set last. *)
Definition range_request h (offset size : Z) w : result HttpRequest :=
  match newRequest h (getMethod h) w with
  | Err e => Err e
  | Ok req => Ok (mkRequest (req_Method req) (req_URL req)
                   (Header_Set "Range" (rangeHeader offset size) (req_Header req)))
  end.

Definition http_Read h ctx (offset size : Z) (buf : bytes) : GoM W (Z * option GoError * bytes) := fun w =>
  if Z.of_nat (length buf) <? size then Ret ((0, Some ErrBufferTooSmall, buf), w)
  else
    match range_request h offset size w with
    | Err e => Ret ((0, Some e, buf), w)
    | Ok req =>
        match Do ctx req w with
        | (Err e, w) => Ret ((0, Some e, buf), w)
        | (Ok resp, w) =>
            if negb (StatusCode resp =? 206) && negb (StatusCode resp =? 200)
            then Ret ((0, Some (ErrStatus (StatusCode resp)), buf), w)
            else
              match skip_to resp offset with
              | Err e => Ret ((0, Some e, buf), w)
              | Ok body =>
                  match slice buf 0 size with
                  | None => Panic
                  | Some part =>
                      let '(bytesRead, err, part') := ReadFull body part in
                      let buf' := part' ++ drop (length part') buf in
                      match err with
                      | Some (io_Other _) => Ret ((0, Some ErrReadData, buf'), w)
                      | _ => Ret ((bytesRead, None, buf'), w)
                      end
                  end
              end
        end
    end.

Definition http_Write h ctx (offset : Z) (buf : bytes) : GoM W (Z * option GoError) :=
  mret (0, Some ErrReadOnly).

Definition GetMeta h ctx w : result FileMetadata * W :=
  match newRequest h "HEAD" w with
  | Err e => (Err e, w)
  | Ok req =>
      match Do ctx req w with
      | (Err e, w) => (Err e, w)
      | (Ok resp, w) =>
          if (StatusCode resp <? 200) || (300 <=? StatusCode resp)
          then (Err (ErrStatus (StatusCode resp)), w)
          else
            let lastMod := Header_Get "Last-Modified" (resp_Header resp) in
            let etag := Header_Get "ETag" (resp_Header resp) in
            (Ok (mkMeta (u64 (ContentLength resp))
                   (if decide (lastMod <> "") then ParseTime lastMod else None)
                   (if decide (etag <> "") then etag else "") None), w)
      end
  end.

#[export] Instance http_adapter_ops : FileAdapterOps W HTTPAdapter := {
  fa_Read := http_Read;
  fa_GetMeta := GetMeta
}.
End adapter.

(** ** The provider *)

Inductive HTTPProvider := httpProvider.

(** Null leaves the zero value, which is then stored. *)
Definition dec_string_map : decoder (gmap string string) := fun old v =>
  match json_value v with
  | JNull => Ok ∅
  | JObject ms =>
      foldl (fun acc kv =>
               match acc with
               | Err e => Err e
               | Ok m => match dec_string "" kv.2 with Ok x => Ok (<[kv.1 := x]> m) | Err e => Err e end
               end) (Ok old) ms
  | _ => Err ErrType
  end.

Definition http_source_fields : fields HTTPSource := [
  ("url", fun s v => match dec_string (URL s) v with
                     | Ok x => Ok (mkHTTPSource x (Method s) (Headers s)) | Err e => Err e end);
  ("method", fun s v => match dec_ptr "" dec_string (Method s) v with
                        | Ok x => Ok (mkHTTPSource (URL s) x (Headers s)) | Err e => Err e end);
  ("headers", fun s v => match dec_string_map (Headers s) v with
                         | Ok x => Ok (mkHTTPSource (URL s) (Method s) x) | Err e => Err e end)
].

Definition http_Adapter (p : HTTPProvider) (raw : bytes) : result HTTPAdapter :=
  match Unmarshal (dec_struct http_source_fields) raw http_source0 with
  | Err e => Err e
  | Ok config => Ok (mkHTTPAdapter config)
  end.

#[export] Instance http_provider {W} : AdapterProvider W HTTPProvider HTTPAdapter :=
  fun p raw w => (http_Adapter p raw, w).
