(* ===== verification/HttpSpec.v ===== *)
(** The HTTP adapter against a server that holds a file: what a read delivers,
    the request it sends, and the metadata it reports. *)

From stdpp Require Import pretty.
From S2P Require Import Prelude Request DataCache AdapterPool Inode Json Decode Http.

(** ** The library functions *)

(** A body that carries [full], or a part of it before it breaks off. *)
Definition carries (full : bytes) (b : Body) : Prop :=
  (body_data b = full /\ body_end b = io_EOF) \/
  (body_data b `prefix_of` full /\ body_end b <> io_EOF).

Lemma ReadFull_run body buf :
  exists err, ReadFull body buf
    = (Z.of_nat (length (take (length buf) (body_data body))), err,
       take (length buf) (body_data body)
         ++ drop (length (take (length buf) (body_data body))) buf) /\
    match err with
    | None => (length buf <= length (body_data body))%nat
    | Some (io_Other e) => body_end body = io_Other e
    | Some _ => body_end body = io_EOF \/ body_end body = io_ErrUnexpectedEOF
    end.
Proof.
  unfold ReadFull. destruct (length buf <=? length (body_data body))%nat eqn:E.
  - eexists. split; [done|]. by apply Nat.leb_le in E.
  - eexists. split; [done|]. destruct (body_end body) eqn:Ee; [|by right | done].
    destruct (0 <? _); by left.
Qed.

(** [ReadFull] on a body that carries [full]: the buffer keeps its length, and
    unless a hard error is reported its front is a prefix of [full], all that
    fits unless the stream was cut. *)
Lemma ReadFull_carries full body buf :
  carries full body ->
  exists n err buf', ReadFull body buf = (n, err, buf') /\ length buf' = length buf /\
    match err with
    | Some (io_Other _) => True
    | _ => exists d, 0 <= n /\ slice buf' 0 n = Some d /\ d `prefix_of` take (length buf) full /\
             (body_end body <> io_ErrUnexpectedEOF -> d = take (length buf) full)
    end.
Proof.
  intros Hc. destruct (ReadFull_run body buf) as (err & -> & Herr).
  set (d := take (length buf) (body_data body)) in *.
  assert (Hd : (length d <= length buf)%nat) by (unfold d; rewrite length_take; lia).
  eexists _, err, _. split; [done|]. rewrite length_app, length_drop. split; [lia|].
  assert (Hgoal : d `prefix_of` take (length buf) full /\
    (match err with None => True | _ => body_end body <> io_ErrUnexpectedEOF /\ body_end body = io_EOF end ->
     d = take (length buf) full)).
  { destruct Hc as [[Hd1 He]|[[k Hk] He]]; [unfold d; rewrite Hd1; done|]. unfold d. rewrite Hk, take_app. split.
    - by apply prefix_app_r.
    - intros Hcut. destruct err as [e|]; [by destruct Hcut|].
      replace (length buf - length (body_data body))%nat with 0%nat by lia. by rewrite take_0, app_nil_r. }
  destruct Hgoal as [Hpre Hall].
  assert (Hslice : slice (d ++ drop (length d) buf) 0 (Z.of_nat (length d)) = Some d).
  { rewrite slice_some by (rewrite ?length_app, ?length_drop; lia).
    rewrite Z.sub_0_r, Nat2Z.id, drop_0. by rewrite take_app_length. }
  destruct err as [[| |e]|]; [.. | done |];
    (exists d; split; [lia|]; split; [done|]; split; [done|]; intros Hcut; apply Hall); [.. | done];
    by destruct Herr.
Qed.

Section headers.
Context {W : Type} {HL : HttpLib W} `{!HttpLibLaws}.

Lemma Header_Get_Set_eq k k' v hd :
  CanonicalHeaderKey k = CanonicalHeaderKey k' -> Header_Get k (Header_Set k' v hd) = v.
Proof. intros E. unfold Header_Get, Header_Set. rewrite E. by rewrite lookup_insert_eq. Qed.

Lemma Header_Get_Set_ne k k' v hd :
  CanonicalHeaderKey k <> CanonicalHeaderKey k' -> Header_Get k (Header_Set k' v hd) = Header_Get k hd.
Proof. intros E. unfold Header_Get, Header_Set. by rewrite lookup_insert_ne. Qed.

(** A custom header survives the others when no other key has its canonical
    form, whatever the order of the loop. *)
Lemma set_headers_get custom k v hd :
  (k, v) ∈ custom -> NoDup custom.*1 ->
  (forall k' v', (k', v') ∈ custom -> CanonicalHeaderKey k' = CanonicalHeaderKey k -> k' = k) ->
  Header_Get k (set_headers custom hd) = v.
Proof.
  revert hd. induction custom as [|[k0 v0] custom IH]; intros hd Hin Hnd Huniq; [by apply not_elem_of_nil in Hin|].
  cbn [fmap list_fmap fst] in Hnd. apply NoDup_cons in Hnd as [Hk0 Hnd]. cbn [set_headers fold_left].
  destruct (decide ((k, v) ∈ custom)) as [Hc|Hc].
  - apply IH; [done | done |]. intros k' v' Hk'. apply (Huniq k' v'). by right.
  - apply elem_of_cons in Hin as [[= <- <-]|Hin]; [|done].
    assert (Hrest : forall l hd0, (forall k' v', (k', v') ∈ l -> CanonicalHeaderKey k' <> CanonicalHeaderKey k) ->
      Header_Get k (set_headers l hd0) = Header_Get k hd0).
    { clear. induction l as [|[k1 v1] l IHl]; intros hd0 Hl; [done|]. cbn [set_headers fold_left].
      unfold set_headers in IHl. rewrite IHl; [|intros k' v' Hk'; apply (Hl k' v'); by right].
      apply Header_Get_Set_ne. intros E. by apply (Hl k1 v1); [left|]. }
    unfold set_headers in Hrest. rewrite Hrest; [by apply Header_Get_Set_eq|].
    intros k' v' Hk' E. apply Hk0. rewrite <-(Huniq k' v' ltac:(by right) E).
    change k' with (k', v').1. by apply list_elem_of_fmap_2.
Qed.

Lemma range_map_nodup w m : NoDup (range_map w m).*1.
Proof. rewrite range_map_perm. apply NoDup_fst_map_to_list. Qed.
End headers.

(** ** Reading *)

Section read.
Context {W : Type} {HL : HttpLib W} `{!HttpLibLaws}.
Implicit Types (h : HTTPAdapter) (ctx : Ctx W) (w : W) (c : bytes).

(** A byte range of HTTP, whose last position is included. *)
Definition byte_range (first last : Z) : string := "bytes=" +:+ pretty first +:+ "-" +:+ pretty last.

(** What a request for the [size] bytes at [offset] says. *)
Definition asks_range h offset size (req : HttpRequest) : Prop :=
  req_Method req = (if decide (getMethod h = "") then "GET" else getMethod h) /\
  req_URL req = URL (cfg h) /\
  Header_Get "Range" (req_Header req) = byte_range offset (offset + size - 1).

(** A server that holds the file [c] at the adapter's URL: it answers a range
    request with the range (206) or with the whole file (200), or not with a
    success at all; the transfer may break off. *)
Definition honest c h : Prop :=
  forall ctx req w offset size resp w',
    asks_range h offset size req -> 0 <= offset -> 0 < size ->
    Do ctx req w = (Ok resp, w') ->
    (StatusCode resp = 206 -> carries (file_bytes c offset size) (resp_Body resp)) /\
    (StatusCode resp = 200 -> carries c (resp_Body resp)).

(** No transfer is cut off in a way the client reports as an unexpected end of
    file. *)
Definition never_cut h : Prop :=
  forall ctx req w resp w', req_URL req = URL (cfg h) -> Do ctx req w = (Ok resp, w') ->
    body_end (resp_Body resp) <> io_ErrUnexpectedEOF.

Lemma range_request_asks h offset size w req :
  valid_request offset size -> range_request h offset size w = Ok req -> asks_range h offset size req.
Proof.
  intros (? & ? & ?). unfold range_request, newRequest, NewRequestWithContext. destruct (request_error _ _); [done|].
  intros [= <-]. split_and!; [done | done |]. cbn [req_Header].
  rewrite (Header_Get_Set_eq "Range" "Range") by done.
  unfold rangeHeader, byte_range. by rewrite (wrap64_id (offset + size)), wrap64_id by (unfold in_i64; lia).
Qed.

(** What is left of a body once the bytes before the offset are gone. *)
Lemma skip_to_carries resp offset size c body :
  0 <= offset -> skip_to resp offset = Ok body ->
  (StatusCode resp = 206 -> carries (file_bytes c offset size) (resp_Body resp)) ->
  (StatusCode resp = 200 -> carries c (resp_Body resp)) ->
  StatusCode resp = 206 \/ StatusCode resp = 200 ->
  carries (if decide (StatusCode resp = 206) then file_bytes c offset size else drop (Z.to_nat offset) c) body /\
  body_end body = body_end (resp_Body resp).
Proof.
  intros Ho Hskip H206 H200 [Hs|Hs]; unfold skip_to in Hskip; rewrite Hs in *.
  - injection Hskip as <-. split; [rewrite decide_True by done; by apply H206 | done].
  - rewrite decide_False by done. specialize (H200 eq_refl). cbn in Hskip.
    destruct (0 <? offset) eqn:Eo.
    2:{ injection Hskip as <-. assert (offset = 0) as -> by lia. by rewrite drop_0. }
    unfold CopyN_Discard in Hskip. destruct (offset <=? _) eqn:El; [|done].
    rewrite Z.eqb_refl in Hskip. injection Hskip as <-. split; [|done].
    destruct H200 as [[Hd He]|[Hp He]]; [left|right]; cbn; (split; [|done]).
    + by rewrite Hd.
    + destruct Hp as [k Hk]. exists k. rewrite Hk, drop_app_le by lia. done.
Qed.

(** An empty read asks for no bytes and gets none. *)
Lemma http_Read_empty h ctx offset w :
  exists err w', http_Read h ctx offset 0 [] w = Ret ((0, err, []), w').
Proof.
  unfold http_Read. cbn [length Z.of_nat Z.ltb Z.compare].
  destruct (range_request h offset 0 w) as [req|e]; [|by eexists _, _].
  destruct (Do ctx req w) as [[resp|e] w']; [|by eexists _, _].
  destruct (negb _ && _); [by eexists _, _|]. destruct (skip_to resp offset); [|by eexists _, _].
  rewrite slice_some by (cbn; lia). cbn. by eexists _, _.
Qed.

Lemma ReadFull_bounds body (buf : bytes) :
  let '(n, _, buf') := ReadFull body buf in
  0 <= n <= Z.of_nat (length buf) /\ length buf' = length buf.
Proof.
  unfold ReadFull. destruct (length buf <=? length (body_data body))%nat;
    rewrite ?length_app, ?length_drop, ?length_take; lia.
Qed.

(** Whatever the server answers, an HTTP adapter keeps the bounds of the buffer:
    what the safety of the FUSE adapter asks of adapters. *)
Lemma http_bounded h : bounded h.
Proof.
  intros ctx offset size buf w Hv Hlen. destruct Hv as (_ & Hs & _). cbn. unfold http_Read.
  rewrite (proj2 (Z.ltb_ge _ _)) by lia.
  destruct (range_request h offset size w) as [req|e]; [|by eexists _, _, _, _].
  destruct (Do ctx req w) as [[resp|e] w']; [|by eexists _, _, _, _].
  destruct (negb _ && _); [by eexists _, _, _, _|].
  destruct (skip_to resp offset) as [body|e]; [|by eexists _, _, _, _].
  rewrite slice_some by lia. rewrite Z.sub_0_r. change (Z.to_nat 0) with 0%nat. rewrite drop_0, take_ge by lia.
  pose proof (ReadFull_bounds body buf) as Hb. destruct (ReadFull body buf) as [[n err] buf'].
  destruct Hb as [Hn Hl]. rewrite Hl, drop_all, app_nil_r.
  destruct err as [[]|]; eexists _, _, _, _; (split; [reflexivity|]); (split; [done|]); intros ?; lia || done.
Qed.

(** One read from an honest server: it returns; the buffer keeps its length;
    and with a nil error the bytes in front of it are the file's, all of them
    unless the transfer was cut. *)
Lemma http_Read_run c h ctx offset size buf w :
  honest c h -> valid_request offset size -> Z.of_nat (length buf) = size ->
  exists n err buf' w', http_Read h ctx offset size buf w = Ret ((n, err, buf'), w') /\
    length buf' = length buf /\
    (err = None -> exists d, 0 <= n /\ slice buf' 0 n = Some d /\ d `prefix_of` file_bytes c offset size /\
       (never_cut h -> d = file_bytes c offset size)).
Proof.
  intros Hh Hv Hlen. pose proof Hv as (Ho & Hs & _). destruct (decide (size = 0)) as [->|Hpos].
  { destruct buf; [|done]. destruct (http_Read_empty h ctx offset w) as (err & w' & ->).
    exists 0, err, [], w'. split_and!; [done..|]. intros _. exists [].
    split_and!; [done | by rewrite slice_some | apply prefix_nil | done]. }
  unfold http_Read. rewrite (proj2 (Z.ltb_ge _ _)) by lia.
  destruct (range_request h offset size w) as [req|e] eqn:Ereq; [|by eexists _, _, _, _].
  apply range_request_asks in Ereq; [|done]. destruct (Do ctx req w) as [[resp|e] w'] eqn:Edo; [|by eexists _, _, _, _].
  destruct (Hh ctx req w offset size resp w') as [H206 H200]; [done | done | lia | done |].
  destruct (negb _ && _) eqn:Est; [by eexists _, _, _, _|].
  assert (Hst : StatusCode resp = 206 \/ StatusCode resp = 200).
  { apply andb_false_iff in Est as [E|E]; apply negb_false_iff, Z.eqb_eq in E; tauto. }
  destruct (skip_to resp offset) as [body|e] eqn:Eskip; [|by eexists _, _, _, _].
  destruct (skip_to_carries _ _ size _ _ Ho Eskip H206 H200 Hst) as [Hbody Hend].
  rewrite slice_some by lia. rewrite Z.sub_0_r. change (Z.to_nat 0) with 0%nat. rewrite drop_0.
  assert (take (Z.to_nat size) buf = buf) as -> by (apply take_ge; lia).
  destruct (ReadFull_carries _ _ buf Hbody) as (n & err & buf' & -> & Hl & Herr).
  rewrite Hl, drop_all, app_nil_r.
  assert (Hfull : take (length buf) (if decide (StatusCode resp = 206) then file_bytes c offset size
                                     else drop (Z.to_nat offset) c) = file_bytes c offset size).
  { case_decide; unfold file_bytes; [rewrite take_take|]; f_equal; lia. }
  rewrite Hfull, Hend in Herr.
  assert (Hcut : never_cut h -> body_end (resp_Body resp) <> io_ErrUnexpectedEOF).
  { intros Hcut. eapply (Hcut ctx req w); [apply Ereq | done]. }
  destruct err as [[| |e]|]; (eexists _, _, _, _; split; [done|]; split; [done|]; intros ?);
    [| | done |]; destruct Herr as (d & ? & ? & ? & Hd); exists d; split_and!; auto.
Qed.

(** The HTTP adapter keeps the contract of [FileAdapter.Read]. *)
Lemma honest_serves c h : honest c h -> never_cut h -> serves c h.
Proof.
  intros Hh Hcut ctx offset size buf w Ho Hlen.
  destruct (http_Read_run c h ctx offset size buf w Hh Ho Hlen) as (n & err & buf' & w' & Hrun & Hl & Hok).
  exists n, err, buf', w'. split; [done|]. split; [done|].
  intros He. destruct (Hok He) as (d & Hn & Hs & _ & Hd). split; [done|]. by rewrite Hs, (Hd Hcut).
Qed.

(** C7: reading a file over HTTP. Take an inode on HTTP adapters whose servers
    hold the file [c], with or without support for ranges, and whose transfers
    may fail but are not cut off silently. After any history of reads and
    cache clears a [Read] returns, and a nil error comes with exactly the bytes
    of the file at the requested range, from the cache, the primary or a
    mirror. *)
Theorem http_file_read `{Clock W} c a (hs : list HTTPAdapter) w0 i w ctx offset size :
  Forall (fun h => honest c h /\ never_cut h) hs ->
  rtc inode_step (NewInode a hs, w0) (i, w) ->
  valid_request offset size -> size <= maxAlloc ->
  exists r i' w', Read i ctx offset size w = Ret ((r, i'), w') /\
    forall d, r = Ok d -> d = file_bytes c offset size.
Proof.
  intros Hhs Hsteps Hv Hm.
  assert (Hall : Forall (serves c) hs).
  { eapply Forall_impl; [exact Hhs|]. intros h [? ?]. by apply honest_serves. }
  pose proof (inode_steps_serve c _ _ _ _ _ Hall Hsteps) as Hs.
  destruct (Read_run c i ctx offset size w Hs Hv Hm) as (r & i' & w' & ? & _ & _ & ?).
  by exists r, i', w'.
Qed.

(** C26: a transfer that is cut off is not an error. When the server announces
    the range but the connection ends early, which the client reports as an
    unexpected end of file, [Read] returns the bytes received with a nil
    error, as if the file ended there. *)
Theorem http_Read_truncated h ctx offset size buf w req resp d w' :
  range_request h offset size w = Ok req -> Do ctx req w = (Ok resp, w') ->
  StatusCode resp = 206 -> resp_Body resp = mkBody d io_ErrUnexpectedEOF ->
  Z.of_nat (length buf) = size -> (length d < length buf)%nat ->
  http_Read h ctx offset size buf w
  = Ret ((Z.of_nat (length d), None, d ++ drop (length d) buf), w').
Proof.
  intros Hreq Hdo Hst Hbody Hlen Hd. unfold http_Read. rewrite (proj2 (Z.ltb_ge _ _)) by lia.
  rewrite Hreq, Hdo. unfold skip_to. rewrite Hst. cbn [Z.eqb negb andb Pos.eqb].
  rewrite slice_some by lia. rewrite Z.sub_0_r. change (Z.to_nat 0) with 0%nat. rewrite drop_0.
  assert (take (Z.to_nat size) buf = buf) as -> by (apply take_ge; lia).
  rewrite Hbody. unfold ReadFull. cbn [body_data body_end].
  rewrite (proj2 (Nat.leb_gt _ _)) by lia. rewrite (take_ge d) by lia.
  rewrite length_app, length_drop. replace (length d + (length buf - length d))%nat with (length buf) by lia.
  by rewrite drop_all, app_nil_r.
Qed.

(** C27: the answers that make a read fail. A response with another status
    than 200 or 206 is an error; and when the server ignores the range, a read
    that starts behind the end of the file is an error, not an empty read.
    The buffer is left alone. *)
Theorem http_Read_errors h ctx offset size buf w req resp w' :
  range_request h offset size w = Ok req -> Do ctx req w = (Ok resp, w') ->
  size <= Z.of_nat (length buf) ->
  (StatusCode resp <> 200 -> StatusCode resp <> 206 ->
     http_Read h ctx offset size buf w = Ret ((0, Some (ErrStatus (StatusCode resp)), buf), w')) /\
  (StatusCode resp = 200 -> Z.of_nat (length (body_data (resp_Body resp))) < offset ->
     http_Read h ctx offset size buf w = Ret ((0, Some ErrSkip, buf), w')).
Proof.
  intros Hreq Hdo Hlen. unfold http_Read. rewrite (proj2 (Z.ltb_ge _ _)), Hreq, Hdo by lia. split.
  - intros H200 H206. by rewrite (proj2 (Z.eqb_neq _ _) H200), (proj2 (Z.eqb_neq _ _) H206).
  - intros H200 Hoff. unfold skip_to. rewrite H200. cbn [Z.eqb negb andb Pos.eqb].
    rewrite (proj2 (Z.ltb_lt 0 offset)) by lia. unfold CopyN_Discard.
    by rewrite (proj2 (Z.leb_gt _ _)).
Qed.

(** C16: the request of a read. It has the configured method (GET without
    one) and URL, asks for exactly the bytes [offset] to [offset+size-1], and
    carries every custom header whose canonical name is neither the range's
    nor shared with another custom header, in whatever order the headers are
    set. *)
Theorem range_request_spec h offset size w req :
  valid_request offset size -> range_request h offset size w = Ok req ->
  asks_range h offset size req /\
  forall k v, Headers (cfg h) !! k = Some v -> CanonicalHeaderKey k <> "Range" ->
    (forall k', is_Some (Headers (cfg h) !! k') -> CanonicalHeaderKey k' = CanonicalHeaderKey k -> k' = k) ->
    Header_Get k (req_Header req) = v.
Proof.
  intros Hv Hreq. split; [by eapply range_request_asks|]. intros k v Hk Hrange Huniq. revert Hreq.
  unfold range_request, newRequest, NewRequestWithContext. destruct (request_error _ _); [done|].
  intros [= <-]. cbn [req_Header]. rewrite Header_Get_Set_ne by done.
  apply set_headers_get; [| apply range_map_nodup |].
  - rewrite range_map_perm. by apply elem_of_map_to_list.
  - intros k' v' Hin. apply Huniq. rewrite range_map_perm in Hin. apply elem_of_map_to_list in Hin. by eexists.
Qed.

(** C36: the metadata. [GetMeta] fails when the request or the exchange fails
    or the status is not a success; otherwise the size is the response's
    content length as an unsigned number, which is 2^64-1 when the server does
    not tell the length, and the version is the entity tag. *)
Theorem GetMeta_spec h ctx w :
  match newRequest h "HEAD" w with
  | Err e => GetMeta h ctx w = (Err e, w)
  | Ok req => req_Method req = "HEAD" /\ req_URL req = URL (cfg h) /\
      match Do ctx req w with
      | (Err e, w') => GetMeta h ctx w = (Err e, w')
      | (Ok resp, w') =>
          (~ 200 <= StatusCode resp < 300 -> GetMeta h ctx w = (Err (ErrStatus (StatusCode resp)), w')) /\
          (200 <= StatusCode resp < 300 -> exists meta, GetMeta h ctx w = (Ok meta, w') /\
             Version meta = Header_Get "ETag" (resp_Header resp) /\ TTL meta = None /\
             (in_u64 (ContentLength resp) -> meta_Size meta = ContentLength resp) /\
             (ContentLength resp = -1 -> meta_Size meta = 2 ^ 64 - 1))
      end
  end.
Proof.
  unfold GetMeta. destruct (newRequest h "HEAD" w) as [req|e] eqn:Ereq; [|done].
  unfold newRequest, NewRequestWithContext in Ereq. destruct (request_error _ _); [done|].
  injection Ereq as Ereq. split; [by rewrite <-Ereq|]. split; [by rewrite <-Ereq|].
  destruct (Do ctx req w) as [[resp|e] w']; [|done]. split; intros Hst.
  - destruct (_ || _) eqn:E; [done|]. apply orb_false_iff in E as [E1 E2]. lia.
  - destruct (_ || _) eqn:E; [apply orb_true_iff in E as [E|E]; lia|].
    eexists. split; [done|]. cbn. split; [by case_decide as Hd; [|destruct (decide (Header_Get "ETag" (resp_Header resp) = "")); [|tauto]]|].
    split; [done|]. split; [by apply u64_id | by intros ->].
Qed.
End read.
