(* ===== verification/Loading.v ===== *)
(** The start of the program (src/cmd/wfs/main.go, src/server/webfs.go,
    src/adapters/builtins.go): the registry with the built-in adapters, the
    filesystem behind the server, and the loading of the node definitions. *)

From S2P Require Import Prelude Config Paths Request XSync DataCache AdapterPool Inode Heap.
From S2P Require Import Node NodeContext Tree FileSystem Json Decode Registry Requests Http.

(** ** Built-in adapters *)

Definition HTTPAdapterType : string := "http".

Definition RegisterHTTP : GoM (Registry HTTPProvider) unit := Register "http" httpProvider.

(** Without keys, all built-in adapters; unknown keys are skipped. *)
Fixpoint builtins_loop (adapters : list string) : GoM (Registry HTTPProvider) unit :=
  match adapters with
  | [] => mret tt
  | key :: adapters' =>
      (if decide (key = HTTPAdapterType) then RegisterHTTP else mret tt);; builtins_loop adapters'
  end.
Definition RegisterBuiltins (adapters : list string) : GoM (Registry HTTPProvider) unit :=
  builtins_loop (match adapters with [] => [HTTPAdapterType] | _ => adapters end).

(** ** The server *)

(** [V] is go-fuse's server; [None] is the nil pointer. *)
Record WebFS {X : XSync} {W A P V : Type} := mkWebFS {
  web_fs : FileSystem W A;
  web_cfg : Config;
  web_server : option V;
  web_registry : Registry P
}.
Arguments WebFS {X} W A P V.
Arguments mkWebFS {X W A P V} _ _ _ _.

Section loading.
Context {X : XSync} {W A P V : Type} {FL : FuseLib} {OS : Process} {TJ : TimeJSON}.
Context {clk : Clock W} {UU : UUIDs W} {FA : FileAdapterOps W A} {AP : AdapterProvider W P A}.
Abbreviation M := (GoM (WebFS W A P V)).

Definition New (cfg : Config) (registry : Registry P) (h : heap W A) :
    outcome (WebFS W A P V * heap W A) :=
  '(fs, h') ← NewFS cfg h; Ret (mkWebFS fs cfg None registry, h').

Definition on_filesystem {B} (m : GoM (FileSystem W A) B) : M B :=
  zoom web_fs (fun fs s => mkWebFS fs (web_cfg s) (web_server s) (web_registry s)) m.

(** Code that uses the registry and the world. *)
Definition on_registry {B} (m : W -> GoM (Registry P) (B * W)) : M B := fun s =>
  match m (h_world (fs_heap (web_fs s))) (web_registry s) with
  | Ret ((b, w), r) =>
      Ret (b, mkWebFS (put_heap (set_world w (fs_heap (web_fs s))) (web_fs s)) (web_cfg s) (web_server s) r)
  | Panic => Panic
  | Blocked => Blocked
  | OutOfFuel => OutOfFuel
  end.

(** ** Node definitions *)

(** The definitions file: without a JSON array in it there are no nodes. *)
Definition raw_nodes (defData : bytes) : list bytes :=
  match Unmarshal (dec_slice [] dec_raw) defData [] with Ok raws => raws | Err _ => [] end.

(** Sorts the definitions into requests; a bad one is logged and skipped. *)
Fixpoint requests_loop (rawNodes : list bytes) (fileRequests : list (FileCreateRequest P))
    (dirRequests : list DirCreateRequest) : M (list (FileCreateRequest P) * list DirCreateRequest) :=
  match rawNodes with
  | [] => mret (fileRequests, dirRequests)
  | rawNode :: rawNodes' =>
      match GetNodeType rawNode with
      | Err _ => requests_loop rawNodes' fileRequests dirRequests
      | Ok FileNodeType =>
          fileReq ← on_registry (UnmarshalFileRequest rawNode);
          match fileReq with
          | Err _ => requests_loop rawNodes' fileRequests dirRequests
          | Ok req => requests_loop rawNodes' (fileRequests ++ [req]) dirRequests
          end
      | Ok DirNodeType =>
          dirReq ← on_registry (fun w => mret (UnmarshalDirRequest rawNode w));
          match dirReq with
          | Err _ => requests_loop rawNodes' fileRequests dirRequests
          | Ok req => requests_loop rawNodes' fileRequests (dirRequests ++ [req])
          end
      | Ok (OtherNodeType _) => requests_loop rawNodes' fileRequests dirRequests
      end
  end.

(** The counters are ints; a directory that fails is counted too. *)
Fixpoint dirs_loop (dirRequests : list DirCreateRequest) (dirAddCnt : Z) : GoM (FileSystem W A) Z :=
  match dirRequests with
  | [] => mret dirAddCnt
  | req :: dirRequests' => AddDirNode req;; dirs_loop dirRequests' (dirAddCnt +i 1)
  end.

Fixpoint files_loop (fileRequests : list (FileCreateRequest P)) (fileAddCnt : Z) : GoM (FileSystem W A) Z :=
  match fileRequests with
  | [] => mret fileAddCnt
  | req :: fileRequests' =>
      r ← AddFileNode req;
      match r with
      | Err _ => files_loop fileRequests' fileAddCnt
      | Ok _ => files_loop fileRequests' (fileAddCnt +i 1)
      end
  end.

(** Directories first, then files. *)
Definition load_nodes (defData : bytes) : M (Z * Z) :=
  '(fileRequests, dirRequests) ← requests_loop (raw_nodes defData) [] [];
  dirAddCnt ← on_filesystem (dirs_loop dirRequests 0);
  fileAddCnt ← on_filesystem (files_loop fileRequests 0);
  mret (dirAddCnt, fileAddCnt).
End loading.
