(* ===== verification/LoadingSpec.v ===== *)
(** Loading the node definitions: it always finishes, keeps the filesystem's
    invariant, and decodes the definitions into requests in their order. *)

From S2P Require Import Prelude Config Paths Request XSync DataCache AdapterPool Inode Heap.
From S2P Require Import Node NodeContext Tree FileSystem FileSystemSpec FileCreation Reachable.
From S2P Require Import Json Decode Registry Requests RequestsSpec Http Loading.

(** ** Built-in adapters *)

Lemma builtins_loop_run keys (r : Registry HTTPProvider) :
  reg_mu r = None ->
  exists r', builtins_loop keys r = Ret (tt, r') /\ reg_mu r' = None /\
    forall t, providers r' !! t =
      match providers r !! t with
      | Some p => Some p
      | None => if decide (t = HTTPAdapterType /\ HTTPAdapterType ∈ keys) then Some httpProvider else None
      end.
Proof.
  revert r. induction keys as [|key keys IH]; intros r Hmu; cbn [builtins_loop].
  { exists r. split; [done|]. split; [done|]. intros t. destruct (providers r !! t); [done|].
    rewrite decide_False; [done|]. intros [_ Hin]. by apply not_elem_of_nil in Hin. }
  destruct (decide (key = HTTPAdapterType)) as [Hk|Hk].
  - unfold RegisterHTTP. rewrite (bind_run _ _ _ _ _ (Register_run "http" httpProvider r Hmu)).
    destruct (IH (mkRegistry None (providers r ∪ {["http" := httpProvider]})) eq_refl) as (r' & Hrun & Hmu' & Hp).
    exists r'. split; [done|]. split; [done|]. intros t. rewrite Hp. cbn [providers]. rewrite lookup_union.
    destruct (providers r !! t) as [p|]; [by destruct (decide (t = "http")) as [->|];
      [rewrite lookup_singleton_eq|rewrite lookup_singleton_ne by done]|].
    destruct (decide (t = "http")) as [->|Ht].
    + rewrite lookup_singleton_eq. cbn. rewrite decide_True; [done|]. split; [done|]. rewrite Hk. by left.
    + rewrite lookup_singleton_ne by done. cbn. by rewrite !decide_False by (intros [? _]; done).
  - rewrite bind_mret. destruct (IH r Hmu) as (r' & Hrun & Hmu' & Hp). exists r'. split; [done|]. split; [done|].
    intros t. rewrite Hp. destruct (providers r !! t); [done|]. apply decide_ext.
    rewrite elem_of_cons. naive_solver.
Qed.

(** The built-in adapters. Registered on a new registry without naming
    any, or naming a list with "http" in it, the registry has exactly the HTTP
    provider, under "http"; naming only other keys registers nothing. A second
    registration changes nothing. *)
Theorem RegisterBuiltins_spec keys :
  exists r, RegisterBuiltins keys NewRegistry = Ret (tt, r) /\ reg_free r /\
    providers r = (if decide (keys = [] \/ HTTPAdapterType ∈ keys) then {[HTTPAdapterType := httpProvider]} else ∅) /\
    (keys = [] -> RegisterBuiltins [] r = Ret (tt, r)).
Proof.
  unfold RegisterBuiltins.
  set (ks := match keys with [] => [HTTPAdapterType] | _ => keys end).
  destruct (builtins_loop_run ks NewRegistry eq_refl) as (r & Hrun & Hmu & Hp).
  assert (Hks : HTTPAdapterType ∈ ks <-> (keys = [] \/ HTTPAdapterType ∈ keys)).
  { unfold ks. destruct keys; [|naive_solver]. rewrite list_elem_of_singleton. naive_solver. }
  exists r. split; [done|]. split; [unfold reg_free; by rewrite Hmu|].
  assert (Heq : providers r = if decide (keys = [] \/ HTTPAdapterType ∈ keys)
                              then {[HTTPAdapterType := httpProvider]} else ∅).
  { apply map_eq. intros t. rewrite Hp. cbn [NewRegistry providers]. rewrite lookup_empty.
    destruct (decide (t = HTTPAdapterType /\ HTTPAdapterType ∈ ks)) as [Hd|Hd];
      destruct (decide (keys = [] \/ HTTPAdapterType ∈ keys)) as [Hc|Hc].
    - destruct Hd as [-> _]. by rewrite lookup_singleton_eq.
    - destruct Hd as [_ Hd]. tauto.
    - rewrite lookup_singleton_ne; [done|]. intros <-. tauto.
    - done. }
  split; [done|]. intros ->. cbn [builtins_loop].
  rewrite decide_True by done. unfold RegisterHTTP.
  rewrite (bind_run _ _ _ _ _ (Register_run "http" httpProvider r Hmu)).
  rewrite decide_True in Heq by by left. rewrite Heq. change "http" with HTTPAdapterType.
  rewrite (idemp_L (∪)). destruct r as [mu ps]. cbn in Hmu, Heq. by subst mu ps.
Qed.

Section loading.
Context {X : XSync} `{!XSyncLaws} {W A P V : Type} {FL : FuseLib} `{!FuseLibLaws} {OS : Process}.
Context {TJ : TimeJSON} {clk : Clock W} {UU : UUIDs W} {FA : FileAdapterOps W A} {AP : AdapterProvider W P A}.
Implicit Types (s : FileSystem W A) (req : FileCreateRequest P) (d : DirCreateRequest).

(** ** Growth of the filesystem *)

(** The filesystem has only grown, by at most [n] inode numbers. *)
Definition grown (n : Z) s s' : Prop := fs_wf s' /\ fs_frame s s' /\ lastIno s' <= lastIno s + n.

Lemma grown_trans m n s1 s2 s3 : grown m s1 s2 -> grown n s2 s3 -> grown (m + n) s1 s3.
Proof. intros (_ & F & ?) (? & G & ?). split; [done|]. split; [by etrans | lia]. Qed.

Lemma grown_can_add m n s s' : can_add s (m + n) -> grown m s s' -> can_add s' n.
Proof.
  intros (_ & Hlk & Hw & Hm) (Hwf & F & Hl). split; [done|]. split; [|split; [|lia]].
  - intros x Hx. rewrite (ff_locks _ _ F). apply Hlk. pose proof (ff_next _ _ F). lia.
  - by rewrite (ff_locks _ _ F).
Qed.

(** A list of names resolves from the root. *)
Definition resolves s (names : list string) : Prop := is_Some (walk (fs_heap s) (root s) names).

Lemma resolves_frame s s' names : fs_frame s s' -> resolves s names -> resolves s' names.
Proof. intros F [x Hx]. exists x. rewrite (ff_root _ _ F). by apply (ff_mono _ _ F). Qed.

Definition dir_cost d : Z := Z.of_nat (length (components (rq_Path (dr_node d)))).

Lemma AddDirNode_grows d s :
  can_add s (dir_cost d) ->
  exists l s', AddDirNode d s = Ret (Ok l, s') /\ grown (dir_cost d) s s' /\
    resolves s' (components (rq_Path (dr_node d))).
Proof.
  intros (Hwf & Hlk & Hw & Hm).
  assert (Hnew : new_dirs s (rq_Path (dr_node d)) <= dir_cost d).
  { unfold new_dirs, dir_cost. pose proof (missing_le (fs_heap s) (root s) (components (rq_Path (dr_node d)))). lia. }
  destruct (AddDirNode_run d s Hwf Hlk Hw ltac:(lia)) as (l & s' & Hrun & Htr).
  destruct (mkdirs_wf_frame _ _ _ _ _ _ Htr Hwf) as [Hwf' F].
  exists l, s'. split; [done|]. split.
  - split; [done|]. split; [done|]. rewrite (mkdirs_count _ _ _ _ _ _ Htr). unfold new_dirs in Hnew. lia.
  - exists l. rewrite (ff_root _ _ F). by eapply mkdirs_walk.
Qed.

(** Where a file request puts its file. *)
Definition file_names (path : string) : list string :=
  components (path_Split path).1 ++ [(path_Split path).2].

Definition path_cost (path : string) : Z := Z.of_nat (length (components (path_Split path).1)) + 1.

Definition has_adapter req : Prop := forall w, (adapters_of (Sources req) w).1 <> [].

Lemma fs_frame_same_tree s s' :
  h_nodes (fs_heap s') = h_nodes (fs_heap s) -> h_inodes (fs_heap s') = h_inodes (fs_heap s) ->
  h_next (fs_heap s') = h_next (fs_heap s) -> h_tasks (fs_heap s') = h_tasks (fs_heap s) ->
  h_locks (fs_heap s') = h_locks (fs_heap s) ->
  fs_cfg s' = fs_cfg s -> root s' = root s -> lastNodeID s' = lastNodeID s ->
  nodeRegistry s' = nodeRegistry s -> fs_frame s s'.
Proof.
  intros En Ei Ex Et El. split; try done; rewrite ?En, ?Ei, ?Ex, ?Et; try done.
  - intros l n Hn. exists (n_children n). by destruct n.
  - unfold live. by rewrite En.
  - intros l p x. by rewrite (walk_same (fs_heap s') (fs_heap s)).
Qed.

(** Every call of [AddFileNode] returns, whatever its outcome. *)
Lemma AddFileNode_grows req s :
  let path := rq_Path (fr_node req) in
  can_add s (path_cost path) ->
  exists r s', AddFileNode req s = Ret (r, s') /\ grown (path_cost path) s s' /\
    (has_adapter req -> resolves s' (file_names path)).
Proof.
  cbn zeta. unfold path_cost, file_names. destruct (path_Split _) as [dir name] eqn:Hsplit. cbn [fst snd].
  intros (Hwf & Hlk & Hw & Hm).
  pose proof (missing_le (fs_heap s) (root s) (components dir)) as Hmiss. fold (new_dirs s dir) in *.
  assert (Hnew : new_dirs s dir <= Z.of_nat (length (components dir))) by (unfold new_dirs; lia).
  destruct (AddFileNode_run req s dir name Hwf Hlk Hw Hsplit ltac:(lia)) as (p & s1 & Htr & Hrun).
  destruct (mkdirs_wf_frame _ _ _ _ _ _ Htr Hwf) as [Hwf1 F].
  pose proof (mkdirs_walk _ _ _ _ _ _ Htr Hwf) as Hp. pose proof (mkdirs_count _ _ _ _ _ _ Htr) as Hcnt.
  unfold new_dirs in Hnew.
  destruct (child (fs_heap s1) p name) as [c|] eqn:Ec.
  { exists (Err (ErrFileExists (rq_Path (fr_node req)))), s1. split; [done|]. split; [split; [done|split; [done|lia]]|].
    intros _. exists c. rewrite (ff_root _ _ F). by rewrite (walk_child_path _ _ _ _ name Hp). }
  destruct Hrun as (n & a & w & adapters & w' & Hn & Hino & Ha & Ead & Hrun). destruct adapters as [|ad ads].
  - eexists _, _. split; [exact Hrun|]. split; [|intros Hads; specialize (Hads w); by rewrite Ead in Hads].
    split; [|split; [|cbn; lia]].
    + eapply proj1, proj1, (AddFileNode_ok req); [exact Hw | rewrite Hsplit; cbn; unfold new_dirs; lia | exact Hrun | by split].
    + etrans; [exact F|]. by apply fs_frame_same_tree.
  - eexists _, _. split; [exact Hrun|]. set (s' := fs_attached _ _ _ _ _ _ _ _).
    assert (F' : fs_frame s1 s') by (apply fs_attached_frame; [done.. | set_solver]).
    assert (Hslash : has_slash name = false) by apply (path_Split_spec _ _ _ Hsplit).
    assert (Hmax : lastIno s1 + 1 < 2 ^ 64) by lia.
    split; [split; [by apply fs_attached_wf|split; [by etrans|cbn; lia]]|].
    intros _. eexists. rewrite (ff_root _ _ F'), (ff_root _ _ F). apply walk_snoc. exists p.
    split; [by apply (ff_mono _ _ F')|]. apply fs_attached_child; auto.
Qed.

(** ** The two loops *)

Definition sumZ {B} (f : B -> Z) (l : list B) : Z := foldr (fun x n => f x + n) 0 l.

Lemma sumZ_cons {B} (f : B -> Z) x l : sumZ f (x :: l) = f x + sumZ f l.
Proof. done. Qed.

Lemma sumZ_app {B} (f : B -> Z) l k : sumZ f (l ++ k) = sumZ f l + sumZ f k.
Proof. unfold sumZ. induction l as [|x l IH]; cbn; [done|]. lia. Qed.

Lemma can_add_weaken m n s : can_add s m -> n <= m -> can_add s n.
Proof. intros (? & ? & ? & ?) ?. split_and!; [done..|lia]. Qed.

Lemma sumZ_nonneg {B} (f : B -> Z) l : (forall x, 0 <= f x) -> 0 <= sumZ f l.
Proof. intros Hf. unfold sumZ. induction l as [|x l IH]; cbn; [done|]. specialize (Hf x). lia. Qed.

Lemma grown_refl s : fs_wf s -> grown 0 s s.
Proof. intros Hwf. split; [done|]. split; [done | lia]. Qed.

Lemma dirs_loop_run ds cnt s :
  can_add s (sumZ dir_cost ds) ->
  exists cnt' s', dirs_loop ds cnt s = Ret (cnt', s') /\ grown (sumZ dir_cost ds) s s' /\
    forall d, d ∈ ds -> resolves s' (components (rq_Path (dr_node d))).
Proof.
  revert cnt s. induction ds as [|d ds IH]; intros cnt s Hcan; cbn [dirs_loop].
  { exists cnt, s. split; [done|]. split; [apply grown_refl, Hcan|]. by intros d ?%not_elem_of_nil. }
  cbn [sumZ foldr] in *. fold (sumZ dir_cost ds) in *.
  assert (0 <= sumZ dir_cost ds) by (apply sumZ_nonneg; intros; unfold dir_cost; lia).
  destruct (AddDirNode_grows d s) as (l & s1 & Hrun & Hg1 & Hd); [eapply can_add_weaken; [exact Hcan | lia]|].
  rewrite (bind_run _ _ _ _ _ Hrun).
  destruct (IH (cnt +i 1) s1) as (cnt' & s' & Hrun' & Hg2 & Hds); [by eapply grown_can_add|].
  exists cnt', s'. split; [done|]. split; [by eapply grown_trans|].
  intros d' [->|Hin]%elem_of_cons; [|by apply Hds]. eapply resolves_frame; [apply Hg2 | done].
Qed.

Definition file_cost req : Z := path_cost (rq_Path (fr_node req)).

Lemma files_loop_run fs cnt s :
  can_add s (sumZ file_cost fs) ->
  exists cnt' s', files_loop fs cnt s = Ret (cnt', s') /\ grown (sumZ file_cost fs) s s' /\
    forall req, req ∈ fs -> has_adapter req -> resolves s' (file_names (rq_Path (fr_node req))).
Proof.
  revert cnt s. induction fs as [|req fs IH]; intros cnt s Hcan; cbn [files_loop].
  { exists cnt, s. split; [done|]. split; [apply grown_refl, Hcan|]. by intros d ?%not_elem_of_nil. }
  cbn [sumZ foldr] in *. fold (sumZ file_cost fs) in *.
  assert (0 <= sumZ file_cost fs) by (apply sumZ_nonneg; intros; unfold file_cost, path_cost; lia).
  destruct (AddFileNode_grows req s) as (r & s1 & Hrun & Hg1 & Hd);
    [eapply can_add_weaken; [exact Hcan | fold (file_cost req); lia]|].
  rewrite (bind_run _ _ _ _ _ Hrun).
  assert (Hrest : forall k, exists cnt' s', files_loop fs k s1 = Ret (cnt', s') /\
    grown (file_cost req + sumZ file_cost fs) s s' /\
    forall req', req' ∈ req :: fs -> has_adapter req' -> resolves s' (file_names (rq_Path (fr_node req')))).
  { intros k. destruct (IH k s1) as (cnt' & s' & Hrun' & Hg2 & Hds); [by eapply grown_can_add|].
    exists cnt', s'. split; [done|]. split; [by eapply grown_trans|].
    intros req' [->|Hin]%elem_of_cons Hads; [|by apply Hds]. eapply resolves_frame; [apply Hg2 | by apply Hd]. }
  destruct r; apply Hrest.
Qed.

(** ** From the definitions to the requests *)

(** The path a definition asks for, and what it may cost. *)
Definition asks_dir (raw : bytes) (path : string) : Prop :=
  GetNodeType raw = Ok DirNodeType /\
  exists dto, Unmarshal dec_dir_dto raw node_dto0 = Ok dto /\ dto_Path dto = path.

Definition asks_file (reg : Registry P) (raw : bytes) (path : string) : Prop :=
  GetNodeType raw = Ok FileNodeType /\
  forall w, exists req w', UnmarshalFileRequest raw w reg = Ret ((Ok req, w'), reg) /\
    rq_Path (fr_node req) = path /\ has_adapter req.

Definition node_cost (raw : bytes) : Z :=
  match GetNodeType raw with
  | Ok FileNodeType =>
      match Unmarshal dec_file_dto raw file_dto0 with
      | Ok dto => path_cost (dto_Path (fd_node dto)) | Err _ => 0
      end
  | Ok DirNodeType =>
      match Unmarshal dec_dir_dto raw node_dto0 with
      | Ok dto => Z.of_nat (length (components (dto_Path dto))) | Err _ => 0
      end
  | _ => 0
  end.

(** The requests made of a list of definitions. *)
Definition requests_of (reg : Registry P) (raws : list bytes) files ds : Prop :=
  sumZ file_cost files + sumZ dir_cost ds <= sumZ node_cost raws /\
  (forall raw path, raw ∈ raws -> asks_dir raw path -> exists d, d ∈ ds /\ rq_Path (dr_node d) = path) /\
  (forall raw path, raw ∈ raws -> asks_file reg raw path ->
     exists req, req ∈ files /\ rq_Path (fr_node req) = path /\ has_adapter req) /\
  (forall req, req ∈ files -> exists raw w w', raw ∈ raws /\
     UnmarshalFileRequest raw w reg = Ret ((Ok req, w'), reg)).

Lemma requests_of_origin reg raw raws files ds req :
  requests_of reg raws files ds -> req ∈ files ->
  exists raw' w w', raw' ∈ raw :: raws /\ UnmarshalFileRequest raw' w reg = Ret ((Ok req, w'), reg).
Proof.
  intros (_ & _ & _ & Ho) Hin. destruct (Ho req Hin) as (raw' & w & w' & ? & ?).
  exists raw', w, w'. split; [by right | done].
Qed.

Lemma node_cost_nonneg raw : 0 <= node_cost raw.
Proof. unfold node_cost, path_cost. repeat case_match; lia. Qed.

Lemma convert_path dto (w : W) : rq_Path (convertNodeDTO dto w).1 = dto_Path dto.
Proof. unfold convertNodeDTO. destruct (time_now w) as [t w1]. by destruct (uuid_New w1). Qed.

(** A request is added to the ones of the other definitions. *)
Lemma requests_of_skip reg raw raws files ds :
  (forall path, ~ asks_dir raw path) -> (forall path, ~ asks_file reg raw path) ->
  requests_of reg raws files ds -> requests_of reg (raw :: raws) files ds.
Proof.
  intros Hd Hf Hof. pose proof Hof as (Hc & Hds & Hfs & _). pose proof (node_cost_nonneg raw). split; [rewrite sumZ_cons; lia|]. split.
  - intros r path [->|Hin]%elem_of_cons Ha; [by destruct (Hd path) | by eapply Hds].
  - split; [|by intros req; apply requests_of_origin with (1 := Hof)].
    intros r path [->|Hin]%elem_of_cons Ha; [by destruct (Hf path) | by eapply Hfs].
Qed.

Lemma requests_of_dir reg raw raws files ds d :
  dir_cost d <= node_cost raw -> (forall path, asks_dir raw path -> rq_Path (dr_node d) = path) ->
  (forall path, ~ asks_file reg raw path) ->
  requests_of reg raws files ds -> requests_of reg (raw :: raws) files (d :: ds).
Proof.
  intros Hcost Hd Hf Hof. pose proof Hof as (Hc & Hds & Hfs & _). split; [rewrite !sumZ_cons; lia|]. split.
  - intros r path [->|Hin]%elem_of_cons Ha; [exists d; split; [by left | by apply Hd]|].
    destruct (Hds r path Hin Ha) as (d' & ? & ?). exists d'. split; [by right | done].
  - split; [|by intros req; apply requests_of_origin with (1 := Hof)].
    intros r path [->|Hin]%elem_of_cons Ha; [by destruct (Hf path) | by eapply Hfs].
Qed.

Lemma requests_of_file reg raw raws files ds req w w' :
  UnmarshalFileRequest raw w reg = Ret ((Ok req, w'), reg) ->
  file_cost req <= node_cost raw -> (forall path, ~ asks_dir raw path) ->
  (forall path, asks_file reg raw path -> rq_Path (fr_node req) = path /\ has_adapter req) ->
  requests_of reg raws files ds -> requests_of reg (raw :: raws) (req :: files) ds.
Proof.
  intros Hreq Hcost Hd Hf Hof. pose proof Hof as (Hc & Hds & Hfs & _). split; [rewrite !sumZ_cons; lia|]. split.
  - intros r path [->|Hin]%elem_of_cons Ha; [by destruct (Hd path) | by eapply Hds].
  - split; [|intros r [->|Hin]%elem_of_cons; [exists raw, w, w'; split; [by left | done]|];
               by eapply requests_of_origin].
    intros r path [->|Hin]%elem_of_cons Ha; [exists req; split; [by left | by apply Hf]|].
    destruct (Hfs r path Hin Ha) as (req' & ? & ?). exists req'. split; [by right | done].
Qed.

Definition with_world (w : W) (s : WebFS W A P V) : WebFS W A P V :=
  mkWebFS (put_heap (set_world w (fs_heap (web_fs s))) (web_fs s)) (web_cfg s) (web_server s) (web_registry s).

Lemma with_world_id (s : WebFS W A P V) : with_world (h_world (fs_heap (web_fs s))) s = s.
Proof. by destruct s as [[? ? ? ? ? []] ? ? ?]. Qed.

Lemma on_registry_run {B} (m : W -> GoM (Registry P) (B * W)) (s : WebFS W A P V) b w :
  m (h_world (fs_heap (web_fs s))) (web_registry s) = Ret ((b, w), web_registry s) ->
  on_registry m s = Ret (b, with_world w s).
Proof. intros Hm. unfold on_registry. by rewrite Hm. Qed.

Lemma on_filesystem_run {B} (m : GoM (FileSystem W A) B) (s : WebFS W A P V) b fs :
  m (web_fs s) = Ret (b, fs) -> on_filesystem m s = Ret (b, mkWebFS fs (web_cfg s) (web_server s) (web_registry s)).
Proof. intros Hm. unfold on_filesystem. by erewrite zoom_run by exact Hm. Qed.

(** The path a definition names, when its decoding gets that far. *)
Definition raw_file (raw : bytes) : option string :=
  match GetNodeType raw, Unmarshal dec_file_dto raw file_dto0 with
  | Ok FileNodeType, Ok dto => Some (dto_Path (fd_node dto))
  | _, _ => None
  end.

Definition raw_dir (raw : bytes) : option string :=
  match GetNodeType raw, Unmarshal dec_dir_dto raw node_dto0 with
  | Ok DirNodeType, Ok dto => Some (dto_Path dto)
  | _, _ => None
  end.

(** The requests a list of definitions decodes to, in their order: what each
    definition contributes, in some state of the world, and the definitions
    that contribute nothing. *)
Inductive decoded (reg : Registry P) :
    list bytes -> list (FileCreateRequest P) -> list DirCreateRequest -> Prop :=
  | decoded_nil : decoded reg [] [] []
  | decoded_file raw raws w req w' files ds :
      GetNodeType raw = Ok FileNodeType ->
      UnmarshalFileRequest raw w reg = Ret ((Ok req, w'), reg) ->
      decoded reg raws files ds -> decoded reg (raw :: raws) (req :: files) ds
  | decoded_bad_file raw raws w e w' files ds :
      GetNodeType raw = Ok FileNodeType ->
      UnmarshalFileRequest raw w reg = Ret ((Err e, w'), reg) ->
      decoded reg raws files ds -> decoded reg (raw :: raws) files ds
  | decoded_dir raw raws w d w' files ds :
      GetNodeType raw = Ok DirNodeType -> UnmarshalDirRequest raw w = (Ok d, w') ->
      decoded reg raws files ds -> decoded reg (raw :: raws) files (d :: ds)
  | decoded_bad_dir raw raws w e w' files ds :
      GetNodeType raw = Ok DirNodeType -> UnmarshalDirRequest raw w = (Err e, w') ->
      decoded reg raws files ds -> decoded reg (raw :: raws) files ds
  | decoded_other raw raws files ds :
      GetNodeType raw <> Ok FileNodeType -> GetNodeType raw <> Ok DirNodeType ->
      decoded reg raws files ds -> decoded reg (raw :: raws) files ds.

Lemma file_request_facts reg raw w req w' :
  reg_free reg -> GetNodeType raw = Ok FileNodeType ->
  UnmarshalFileRequest raw w reg = Ret ((Ok req, w'), reg) ->
  file_cost req = node_cost raw /\ raw_file raw = Some (rq_Path (fr_node req)) /\
  forall path, asks_file reg raw path -> rq_Path (fr_node req) = path /\ has_adapter req.
Proof.
  intros Hfree Htype Hrun. destruct (UnmarshalFileRequest_run raw w _ Hfree) as (res & w1 & Hrun1 & Hspec).
  rewrite Hrun in Hrun1. injection Hrun1 as <- _.
  unfold node_cost, file_cost, raw_file. rewrite Htype.
  destruct (Unmarshal dec_file_dto raw file_dto0); [|by destruct Hspec].
  destruct Hspec as (raws & types & _ & _ & _ & _ & Hn & _). rewrite Hn, convert_path.
  split_and!; [done..|]. intros path [_ Ha]. destruct (Ha w) as (req' & w2 & Hrun' & Hp & ?).
  rewrite Hrun in Hrun'. injection Hrun' as <- _. rewrite Hn, convert_path in Hp. by rewrite Hp.
Qed.

Lemma dir_request_facts raw w d w' :
  GetNodeType raw = Ok DirNodeType -> UnmarshalDirRequest raw w = (Ok d, w') ->
  dir_cost d = node_cost raw /\ raw_dir raw = Some (rq_Path (dr_node d)) /\
  forall path, asks_dir raw path -> rq_Path (dr_node d) = path.
Proof.
  intros Htype Hrun. unfold UnmarshalDirRequest in Hrun. unfold asks_dir, node_cost, dir_cost, raw_dir. rewrite Htype.
  destruct (Unmarshal dec_dir_dto raw node_dto0) as [dto|e]; [|done].
  pose proof (convert_path dto w) as Hp. destruct (convertNodeDTO dto w) as [n w1]. cbn in Hp.
  injection Hrun as <- <-. cbn. rewrite Hp. split_and!; [done..|]. by intros path (_ & dto' & [= <-] & <-).
Qed.

Lemma decoded_requests_of reg raws files ds :
  reg_free reg -> decoded reg raws files ds -> requests_of reg raws files ds.
Proof.
  intros Hfree. induction 1 as [|raw raws w req w' files ds Ht Hrun _ IH|raw raws w e w' files ds Ht Hrun _ IH
    |raw raws w d w' files ds Ht Hrun _ IH|raw raws w e w' files ds Ht Hrun _ IH|raw raws files ds Hf Hd _ IH].
  - split; [done|]. split_and!; by intros ? ?%not_elem_of_nil || by intros ? ? ?%not_elem_of_nil.
  - destruct (file_request_facts _ _ _ _ _ Hfree Ht Hrun) as (Hc & _ & Ha).
    eapply requests_of_file; [exact Hrun | lia | intros path [? _]; congruence | done | done].
  - apply requests_of_skip; [intros path [? _]; congruence | | done].
    intros path [_ Ha]. destruct (Ha w) as (req' & w2 & Hrun' & _). congruence.
  - destruct (dir_request_facts _ _ _ _ Ht Hrun) as (Hc & _ & Ha).
    apply requests_of_dir; [lia | done | intros path [? _]; congruence | done].
  - apply requests_of_skip; [ | intros path [? _]; congruence | done].
    intros path (_ & dto & E & _). unfold UnmarshalDirRequest in Hrun. rewrite E in Hrun.
    by destruct (convertNodeDTO dto w).
  - apply requests_of_skip; [intros path [? _]; congruence..|done].
Qed.

(** Where the requests come from. *)
Lemma decoded_files_from reg raws files ds req :
  reg_free reg -> decoded reg raws files ds -> req ∈ files ->
  exists raw, raw ∈ raws /\ raw_file raw = Some (rq_Path (fr_node req)).
Proof.
  intros Hfree. induction 1 as [|raw raws w r w' files ds Ht Hrun _ IH|raw raws w e w' files ds Ht Hrun _ IH
    |raw raws w d w' files ds Ht Hrun _ IH|raw raws w e w' files ds Ht Hrun _ IH|raw raws files ds Hf Hd _ IH];
    intros Hin; [by apply not_elem_of_nil in Hin|apply elem_of_cons in Hin as [->|Hin]|..];
    [exists raw; split; [by left | by eapply file_request_facts]|..];
    destruct (IH Hin) as (raw' & ? & ?); exists raw'; (split; [by right | done]).
Qed.

Lemma decoded_dirs_from reg raws files ds d :
  decoded reg raws files ds -> d ∈ ds -> exists raw, raw ∈ raws /\ raw_dir raw = Some (rq_Path (dr_node d)).
Proof.
  induction 1 as [|raw raws w r w' files ds Ht Hrun _ IH|raw raws w e w' files ds Ht Hrun _ IH
    |raw raws w d' w' files ds Ht Hrun _ IH|raw raws w e w' files ds Ht Hrun _ IH|raw raws files ds Hf Hd _ IH];
    intros Hin; [by apply not_elem_of_nil in Hin|..|apply elem_of_cons in Hin as [->|Hin]| |];
    [..|exists raw; split; [by left | by eapply dir_request_facts]| | |];
    destruct (IH Hin) as (raw' & ? & ?); exists raw'; (split; [by right | done]).
Qed.

Lemma requests_loop_run raws files0 ds0 (s : WebFS W A P V) :
  reg_free (web_registry s) ->
  exists files ds w, requests_loop raws files0 ds0 s = Ret ((files0 ++ files, ds0 ++ ds), with_world w s) /\
    decoded (web_registry s) raws files ds.
Proof.
  intros Hfree. revert files0 ds0 s Hfree. induction raws as [|raw raws IH]; intros files0 ds0 s Hfree; cbn [requests_loop].
  { exists [], [], (h_world (fs_heap (web_fs s))). rewrite !app_nil_r, with_world_id. split; [done | constructor]. }
  set (w0 := h_world (fs_heap (web_fs s))).
  assert (Hnext : forall w newfiles newds,
    (forall files ds, decoded (web_registry s) raws files ds ->
       decoded (web_registry s) (raw :: raws) (newfiles ++ files) (newds ++ ds)) ->
    exists files ds w', requests_loop raws (files0 ++ newfiles) (ds0 ++ newds) (with_world w s)
        = Ret ((files0 ++ files, ds0 ++ ds), with_world w' s) /\
      decoded (web_registry s) (raw :: raws) files ds).
  { intros w newfiles newds Hof.
    destruct (IH (files0 ++ newfiles) (ds0 ++ newds) (with_world w s) Hfree) as (files & ds & w' & Hrun & Hreq).
    exists (newfiles ++ files), (newds ++ ds), w'. rewrite Hrun, <-!app_assoc. split; [done | by apply Hof]. }
  assert (Hskip : forall w, (forall files ds, decoded (web_registry s) raws files ds ->
       decoded (web_registry s) (raw :: raws) files ds) ->
    exists files ds w', requests_loop raws files0 ds0 (with_world w s) = Ret ((files0 ++ files, ds0 ++ ds), with_world w' s) /\
      decoded (web_registry s) (raw :: raws) files ds).
  { intros w Hof. pose proof (Hnext w [] [] Hof) as Hn. by rewrite !app_nil_r in Hn. }
  destruct (GetNodeType raw) as [[| |t]|e] eqn:Htype.
  - destruct (UnmarshalFileRequest_run raw w0 _ Hfree) as (res & w & Hrun & _).
    rewrite (bind_run _ _ _ _ _ (on_registry_run _ s _ _ Hrun)). destruct res as [req|e].
    + pose proof (Hnext w [req] []) as Hn. rewrite app_nil_r in Hn. apply Hn. intros files ds. by eapply decoded_file.
    + apply Hskip. intros files ds. by eapply decoded_bad_file.
  - destruct (UnmarshalDirRequest raw w0) as [res w] eqn:Hrun.
    erewrite bind_run by (apply (on_registry_run _ s res w); fold w0; unfold mret, GoM_ret; by rewrite Hrun).
    destruct res as [d|e].
    + pose proof (Hnext w [] [d]) as Hn. rewrite app_nil_r in Hn. apply Hn. intros files ds. by eapply decoded_dir.
    + apply Hskip. intros files ds. by eapply decoded_bad_dir.
  - pose proof (Hskip w0) as Hn. unfold w0 in Hn. rewrite with_world_id in Hn. apply Hn.
    intros files ds. by apply decoded_other; rewrite Htype.
  - pose proof (Hskip w0) as Hn. unfold w0 in Hn. rewrite with_world_id in Hn. apply Hn.
    intros files ds. by apply decoded_other; rewrite Htype.
Qed.

(** ** Loading *)

Lemma with_world_grown w (s : WebFS W A P V) n :
  can_add (web_fs s) n -> grown 0 (web_fs s) (web_fs (with_world w s)) /\ can_add (web_fs (with_world w s)) n.
Proof.
  intros Hcan. assert (Hg : grown 0 (web_fs s) (web_fs (with_world w s))).
  { split; [|split; [by apply fs_frame_same_tree | cbn; lia]]. apply fs_wf_same; [apply same_world | apply Hcan]. }
  split; [done|]. by apply (grown_can_add 0 n _ _ Hcan).
Qed.

(** A run of [load_nodes]. *)
Lemma load_nodes_run defData (s : WebFS W A P V) :
  reg_free (web_registry s) -> can_add (web_fs s) (sumZ node_cost (raw_nodes defData)) ->
  exists counts (s' : WebFS W A P V), load_nodes defData s = Ret (counts, s') /\
    can_add (web_fs s') 0 /\ grown (sumZ node_cost (raw_nodes defData)) (web_fs s) (web_fs s') /\
    web_cfg s' = web_cfg s /\ web_server s' = web_server s /\ web_registry s' = web_registry s /\
    (forall raw path, raw ∈ raw_nodes defData -> asks_dir raw path -> resolves (web_fs s') (components path)) /\
    (forall raw path, raw ∈ raw_nodes defData -> asks_file (web_registry s) raw path ->
       resolves (web_fs s') (file_names path)).
Proof.
  intros Hfree Hcan. unfold load_nodes.
  destruct (requests_loop_run (raw_nodes defData) [] [] s Hfree) as (files & ds & w & Hrun & Hdec).
  destruct (decoded_requests_of _ _ _ _ Hfree Hdec) as (Hcost & Hds & Hfs & _).
  rewrite (bind_run _ _ _ _ _ Hrun). cbn [app].
  destruct (with_world_grown w s _ Hcan) as [Hg0 Hcan0].
  assert (Hsum : 0 <= sumZ file_cost files /\ 0 <= sumZ dir_cost ds).
  { split; apply sumZ_nonneg; intros; unfold file_cost, path_cost, dir_cost; lia. }
  destruct (dirs_loop_run ds 0 (web_fs (with_world w s))) as (n & s1 & Hrun1 & Hg1 & Hd);
    [eapply can_add_weaken; [exact Hcan0 | lia]|].
  destruct (files_loop_run files 0 s1) as (m & s2 & Hrun2 & Hg2 & Hf).
  { eapply grown_can_add; [|exact Hg1]. eapply can_add_weaken; [exact Hcan0 | lia]. }
  eexists (n, m), (mkWebFS s2 _ _ _).
  rewrite (bind_run _ _ _ _ _ (on_filesystem_run _ (with_world w s) _ _ Hrun1)).
  rewrite (bind_run _ _ _ _ _ (on_filesystem_run _ (mkWebFS s1 _ _ _) _ _ Hrun2)). split; [done|].
  cbn [web_fs web_cfg web_server web_registry].
  pose proof (grown_trans _ _ _ _ _ Hg0 (grown_trans _ _ _ _ _ Hg1 Hg2)) as Hg.
  assert (Hcan' : can_add (web_fs s) (0 + (sumZ dir_cost ds + sumZ file_cost files) + 0))
    by (eapply can_add_weaken; [exact Hcan | lia]).
  split; [by apply (grown_can_add _ 0 _ _ Hcan' Hg)|]. split; [destruct Hg as (? & ? & ?); split_and!; [done..|lia]|].
  split_and!; [done..| |].
  - intros raw path Hraw Ha. destruct (Hds raw path Hraw Ha) as (d & Hin & <-).
    eapply resolves_frame; [apply Hg2 | by apply Hd].
  - intros raw path Hraw Ha. destruct (Hfs raw path Hraw Ha) as (req & Hin & <- & Hads). by apply Hf.
Qed.

End loading.
