(* ===== verification/LoadingTree.v ===== *)
(** Loading against a specification of its own: an abstract tree that maps
    paths to what the requests put there, and the theorem that the filesystem
    represents it after [load_nodes], so that every directory and file a
    definition asks for is found as such. *)

From S2P Require Import Prelude Config Paths Request XSync DataCache AdapterPool Inode Heap.
From S2P Require Import Node NodeContext Tree FileSystem FileSystemSpec FileCreation Reachable.
From S2P Require Import Json Decode Registry Requests RequestsSpec Http Loading LoadingSpec.

(** ** The abstract tree *)

Section abstract_tree.
Context {A P : Type}.
Implicit Types (names : list string) (nreq : NodeRequest) (req : FileCreateRequest P) (ads : list A).

(** What is found at a path: a node that was there before, a directory or a file
    made for a request, the file with the adapters of its pool. *)
Inductive entry :=
  | Old (x : loc)
  | NewDir (nreq : NodeRequest)
  | NewFile (nreq : NodeRequest) (ads : list A).

Definition tree : Type := list string -> option entry.
Implicit Types (T : tree).

(** The missing directories along [names]. *)
Definition put_dirs nreq names T : tree := fun p =>
  match T p with
  | Some e => Some e
  | None => if decide (p `prefix_of` names) then Some (NewDir nreq) else None
  end.

Definition put_dir (d : DirCreateRequest) T : tree :=
  put_dirs (dr_node d) (components (rq_Path (dr_node d))) T.

(** The directories of the path, then the file, when its path is free and some
    adapter could be built. *)
Definition put_file req ads T : tree := fun p =>
  let T1 := put_dirs (fr_node req) (components (path_Split (rq_Path (fr_node req))).1) T in
  match T1 p, ads with
  | None, _ :: _ =>
      if decide (p = file_names (rq_Path (fr_node req))) then Some (NewFile (fr_node req) ads) else None
  | e, _ => e
  end.

(** All directories, then all files, each with the adapters built for it. *)
Definition loaded T (ds : list DirCreateRequest) (files : list (FileCreateRequest P * list A)) : tree :=
  foldl (fun T f => put_file f.1 f.2 T) (foldl (fun T d => put_dir d T) T ds) files.

(** *** Where the entries of the loaded tree come from *)

Lemma put_dirs_some nreq names T p e : T p = Some e -> put_dirs nreq names T p = Some e.
Proof. unfold put_dirs. by intros ->. Qed.

Lemma put_file_taken req ads T p e :
  put_dirs (fr_node req) (components (path_Split (rq_Path (fr_node req))).1) T p = Some e ->
  put_file req ads T p = Some e.
Proof. intros Hp. unfold put_file. by rewrite Hp. Qed.

Lemma put_file_some req ads T p e : T p = Some e -> put_file req ads T p = Some e.
Proof. intros Hp. by apply put_file_taken, put_dirs_some. Qed.

Lemma put_file_free req ads T p :
  put_dirs (fr_node req) (components (path_Split (rq_Path (fr_node req))).1) T p = None -> ads <> [] ->
  put_file req ads T p
  = if decide (p = file_names (rq_Path (fr_node req))) then Some (NewFile (fr_node req) ads) else None.
Proof. intros Hp Hads. unfold put_file. rewrite Hp. by destruct ads. Qed.

Lemma put_all_dirs_some ds T p e : T p = Some e -> foldl (fun T d => put_dir d T) T ds p = Some e.
Proof. revert T. induction ds as [|d ds IH]; intros T Hp; [done|]. by apply IH, put_dirs_some. Qed.

Lemma put_all_files_some files T p e :
  T p = Some e -> foldl (fun T (f : FileCreateRequest P * list A) => put_file f.1 f.2 T) T files p = Some e.
Proof. revert T. induction files as [|f files IH]; intros T Hp; [done|]. by apply IH, put_file_some. Qed.

(** A path that was free belongs to the first directory request that covers
    it. *)
Lemma put_all_dirs_new ds T p d :
  T p = None -> d ∈ ds -> p `prefix_of` components (rq_Path (dr_node d)) ->
  exists d', d' ∈ ds /\ p `prefix_of` components (rq_Path (dr_node d')) /\
    foldl (fun T d => put_dir d T) T ds p = Some (NewDir (dr_node d')).
Proof.
  revert T. induction ds as [|d0 ds IH]; intros T Hp Hin Hpre; [by apply not_elem_of_nil in Hin|]. cbn.
  destruct (decide (p `prefix_of` components (rq_Path (dr_node d0)))) as [H0|Hn].
  - exists d0. split; [by left|]. split; [done|]. apply put_all_dirs_some.
    unfold put_dir, put_dirs. by rewrite Hp, decide_True.
  - apply elem_of_cons in Hin as [->|Hin]; [done|].
    destruct (IH (put_dir d0 T)) as (d' & ? & ? & ?); [|done..|].
    + unfold put_dir, put_dirs. by rewrite Hp, decide_False.
    + exists d'. split; [by right | done].
Qed.

Lemma put_all_dirs_none ds T p :
  T p = None -> (forall d, d ∈ ds -> ~ p `prefix_of` components (rq_Path (dr_node d))) ->
  foldl (fun T d => put_dir d T) T ds p = None.
Proof.
  revert T. induction ds as [|d ds IH]; intros T Hp Hno; [done|]. apply IH.
  - unfold put_dir, put_dirs. rewrite Hp, decide_False; [done|]. apply Hno. by left.
  - intros d' Hd'. apply Hno. by right.
Qed.

(** A path that was free, that no file request needs as a directory, belongs to
    the first file request for it that got an adapter. *)
Lemma put_all_files_new files T p req ads :
  T p = None -> (req, ads) ∈ files -> ads <> [] -> file_names (rq_Path (fr_node req)) = p ->
  (forall f, f ∈ files -> ~ p `prefix_of` components (path_Split (rq_Path (fr_node f.1))).1) ->
  exists f, f ∈ files /\ f.2 <> [] /\ file_names (rq_Path (fr_node f.1)) = p /\
    foldl (fun T (f : FileCreateRequest P * list A) => put_file f.1 f.2 T) T files p
    = Some (NewFile (fr_node f.1) f.2).
Proof.
  revert T. induction files as [|f0 files IH]; intros T Hp Hin Hads Hnames Hno; [by apply not_elem_of_nil in Hin|]. cbn.
  assert (H1 : put_dirs (fr_node f0.1) (components (path_Split (rq_Path (fr_node f0.1))).1) T p = None).
  { unfold put_dirs. rewrite Hp, decide_False; [done|]. apply Hno. by left. }
  destruct (decide (f0.2 <> [] /\ file_names (rq_Path (fr_node f0.1)) = p)) as [[Ha Hf]|Hn].
  - exists f0. split; [by left|]. split; [done|]. split; [done|]. apply put_all_files_some.
    unfold put_file. rewrite H1. destruct f0.2; [done|]. by rewrite decide_True.
  - destruct (IH (put_file f0.1 f0.2 T)) as (f & ? & ? & ? & ?); [| |done..| |].
    + unfold put_file. rewrite H1. destruct f0.2 as [|a l] eqn:E; [done|].
      rewrite decide_False; [done|]. intros ->. by apply Hn.
    + apply elem_of_cons in Hin as [<-|Hin]; [|done]. exfalso. by apply Hn.
    + intros f Hf. apply Hno. by right.
    + exists f. split; [by right | done].
Qed.
End abstract_tree.
Arguments entry A : clear implicits.
Arguments tree A : clear implicits.

(** ** What represents it *)

Section represents.
Context {X : XSync} `{!XSyncLaws} {W A P V : Type} {FL : FuseLib} `{!FuseLibLaws} {OS : Process}.
Context {TJ : TimeJSON} {clk : Clock W} {UU : UUIDs W} {FA : FileAdapterOps W A} {AP : AdapterProvider W P A}.
Implicit Types (s : FileSystem W A) (req : FileCreateRequest P) (d : DirCreateRequest) (T : tree A) (x : loc).

Definition entry_at (h : heap W A) x (e : entry A) : Prop :=
  match e with
  | Old y => x = y
  | NewDir nreq => made_dir nreq h x
  | NewFile nreq ads => made_file nreq ads h x
  end.

Definition represents s T : Prop := forall p,
  match T p with
  | Some e => exists x, walk (fs_heap s) (root s) p = Some x /\ entry_at (fs_heap s) x e
  | None => walk (fs_heap s) (root s) p = None
  end.

(** The tree of a filesystem before loading. *)
Definition tree_of s : tree A := fun p => Old <$> walk (fs_heap s) (root s) p.

Lemma tree_of_represents s s' :
  (forall p, walk (fs_heap s') (root s') p = walk (fs_heap s) (root s) p) -> represents s' (tree_of s).
Proof.
  intros E p. unfold tree_of. rewrite E. destruct (walk (fs_heap s) (root s) p) as [x|]; [by exists x | done].
Qed.

(** The adapters a request's sources gave in some state of the world. *)
Definition built req (ads : list A) : Prop := exists w, ads = (adapters_of (Sources req) w).1.

Lemma made_file_frame nreq ads s s' x :
  fs_frame s s' -> made_file nreq ads (fs_heap s) x -> made_file nreq ads (fs_heap s') x.
Proof.
  intros F (xn & ino & Hx & H1 & H2 & Hi & H3 & H4 & H5 & H6 & H7 & H8 & H9 & H10 & H11).
  destruct (ff_old _ _ F _ _ Hx) as (m & Hm). exists (set_children m xn), ino.
  split_and!; try done; [by apply (ff_inodes _ _ F) | by apply (ff_tasks _ _ F)].
Qed.

Lemma entry_frame e s s' x : fs_frame s s' -> entry_at (fs_heap s) x e -> entry_at (fs_heap s') x e.
Proof. intros F. destruct e; cbn; [done | by apply made_dir_frame | by apply made_file_frame]. Qed.

Lemma prefix_walk h l (names p : list string) c :
  walk (W := W) (A := A) h l names = Some c -> p `prefix_of` names -> is_Some (walk h l p).
Proof.
  intros Hw [rest ->]. rewrite walk_app in Hw. by destruct (walk h l p).
Qed.

Lemma mkdirs_represents nreq names l s s' T :
  mkdirs nreq (root s) names l s s' -> fs_wf s -> represents s T -> represents s' (put_dirs nreq names T).
Proof.
  intros Htr Hwf Hrep p. destruct (mkdirs_wf_frame _ _ _ _ _ _ Htr Hwf) as [Hwf' F].
  pose proof (mkdirs_walk _ _ _ _ _ _ Htr Hwf) as Hl. specialize (Hrep p). unfold put_dirs.
  destruct (T p) as [e|].
  - destruct Hrep as (x & Hx & He). exists x. rewrite (ff_root _ _ F).
    split; [by apply (ff_mono _ _ F) | by eapply entry_frame].
  - rewrite (ff_root _ _ F). case_decide as Hpre.
    + destruct (prefix_walk _ _ _ _ _ Hl Hpre) as [x Hx]. exists x. split; [done|].
      destruct (mkdirs_only _ _ _ _ _ _ [] p x Htr Hwf eq_refl Hx) as [?|(Hle & _)]; [congruence|].
      apply (mkdirs_made _ _ _ _ _ _ _ Htr Hwf Hle).
      apply (walk_dom _ _ _ _ _ (fw_tree _ Hwf')) in Hx; [done|].
      rewrite <-(ff_root _ _ F). apply (root_dom _ _ (fw_tree _ Hwf')).
    + apply eq_None_not_Some. intros [x Hx].
      destruct (mkdirs_only _ _ _ _ _ _ [] p x Htr Hwf eq_refl Hx) as [?|(_ & k & _ & ->)]; [congruence|].
      apply Hpre. cbn. by apply prefix_take.
Qed.

Lemma AddDirNode_represents d s r s' T :
  can_add s (dir_cost d) -> AddDirNode d s = Ret (r, s') -> represents s T -> represents s' (put_dir d T).
Proof.
  intros (Hwf & Hlk & Hw & Hm) Hrun Hrep.
  destruct (AddDirNode_run d s Hwf Hlk Hw) as (l & s1 & Hrun1 & Htr).
  { unfold new_dirs, dir_cost in *. pose proof (missing_le (fs_heap s) (root s) (components (rq_Path (dr_node d)))). lia. }
  rewrite Hrun in Hrun1. injection Hrun1 as _ <-. by eapply mkdirs_represents.
Qed.

Lemma represents_with_path path nreq names s T :
  represents s (put_dirs (with_path path nreq) names T) -> represents s (put_dirs nreq names T).
Proof. intros Hrep p. specialize (Hrep p). unfold put_dirs in *. destruct (T p); [done|]. by case_decide. Qed.

(** No file is added: the directories of the path are there, and the path is
    taken or there is no adapter. *)
Lemma put_file_nothing req ads s T :
  let T1 := put_dirs (fr_node req) (components (path_Split (rq_Path (fr_node req))).1) T in
  represents s T1 -> resolves s (file_names (rq_Path (fr_node req))) \/ ads = [] ->
  represents s (put_file req ads T).
Proof.
  cbn zeta. intros Hrep Hor p. specialize (Hrep p). unfold put_file.
  destruct (put_dirs _ _ T p) as [e|] eqn:Ep; [done|]. destruct ads as [|a ads]; [done|].
  case_decide as Hp; [|done]. subst p. destruct Hor as [[x Hx]|?]; [congruence | done].
Qed.

Lemma AddFileNode_represents req s r s' T :
  can_add s (file_cost req) -> AddFileNode req s = Ret (r, s') -> represents s T ->
  exists ads, built req ads /\ represents s' (put_file req ads T).
Proof.
  unfold file_cost, path_cost. destruct (path_Split (rq_Path (fr_node req))) as [dir name] eqn:Hsplit. cbn [fst snd].
  intros (Hwf & Hlk & Hw & Hm) Hrun Hrep.
  pose proof (missing_le (fs_heap s) (root s) (components dir)) as Hmiss.
  assert (Hroom : lastIno s + new_dirs s dir + 1 < 2 ^ 64) by (unfold new_dirs; lia).
  destruct (AddFileNode_run req s dir name Hwf Hlk Hw Hsplit Hroom) as (p & s1 & Htr & Hend).
  destruct (mkdirs_wf_frame _ _ _ _ _ _ Htr Hwf) as [Hwf1 F].
  pose proof (mkdirs_walk _ _ _ _ _ _ Htr Hwf) as Hp. rewrite <-(ff_root _ _ F) in Hp.
  pose proof (represents_with_path _ _ _ _ _ (mkdirs_represents _ _ _ _ _ _ Htr Hwf Hrep)) as Hrep1.
  assert (Hnames : file_names (rq_Path (fr_node req)) = components dir ++ [name])
    by (unfold file_names; by rewrite Hsplit).
  destruct (child (fs_heap s1) p name) as [c|] eqn:Ec.
  { rewrite Hrun in Hend. injection Hend as _ ->. exists (adapters_of (Sources req) (h_world (fs_heap s1))).1.
    split; [by eexists|]. apply put_file_nothing; [by rewrite Hsplit|]. left. exists c.
    by rewrite Hnames, (walk_child_path _ _ _ _ name Hp). }
  destruct Hend as (n & a & w & adapters & w' & Hn & Hino & Ha & Ead & Hend).
  exists adapters. split; [exists w; by rewrite Ead|].
  destruct adapters as [|ad ads] eqn:Eads; [|rewrite <-Eads in *]; rewrite Hrun in Hend; injection Hend as _ ->.
  - apply put_file_nothing; [rewrite Hsplit|by right]. cbn [fst]. intros q. specialize (Hrep1 q).
    set (s2 := put_lastIno _ _). rewrite (walk_same (fs_heap s1) (fs_heap s2)) by done.
    change (root s2) with (root s1). destruct (put_dirs _ _ T q) as [e|]; [|done].
    destruct Hrep1 as (x & Hx & He). exists x. split; [done|].
    refine (entry_frame e s1 s2 x _ He). by apply fs_frame_same_tree.
  - set (s2 := fs_attached _ _ _ _ _ _ _ _).
    assert (F2 : fs_frame s1 s2) by (apply fs_attached_frame; [done.. | set_solver]).
    intros q. specialize (Hrep1 q). change (root s2) with (root s1).
    destruct (put_dirs _ _ T q) as [e|] eqn:Eq.
    { erewrite put_file_taken by (rewrite Hsplit; exact Eq). destruct Hrep1 as (x & Hx & He). exists x.
      split; [by apply (ff_mono _ _ F2) | by eapply entry_frame]. }
    rewrite put_file_free by (rewrite ?Hsplit, ?Eads; done). rewrite Hnames. case_decide as Hq; [subst q|].
    + eexists. split; [apply walk_snoc; exists p; split; [by apply (ff_mono _ _ F2) | apply fs_attached_child; auto]|].
      eexists _, _. split; [apply (attached_lookup_new p n name a adapters (set_world w' (fs_heap s1)))|].
      do 2 (split; [done|]). cbn [n_inode]. split; [cbn; by rewrite lookup_insert_eq|].
      destruct Ha as (H1 & H2 & H3 & H4 & H5). cbn. rewrite H5. split_and!; try done.
      apply elem_of_app. right. by apply list_elem_of_singleton.
    + apply eq_None_not_Some. intros [x Hx].
      destruct (fs_attached_walk p n name a adapters _ w' s1 Hwf1 Hn Ec _ q x Hp Hx) as [?|[? _]]; congruence.
Qed.

(** ** Loading *)

Lemma dirs_loop_represents ds cnt s cnt' s' T :
  can_add s (sumZ dir_cost ds) -> dirs_loop ds cnt s = Ret (cnt', s') -> represents s T ->
  represents s' (foldl (fun T d => put_dir d T) T ds).
Proof.
  revert cnt s T. induction ds as [|d ds IH]; intros cnt s T Hcan; cbn [dirs_loop]; [by intros [= _ <-]|].
  rewrite sumZ_cons in Hcan. assert (0 <= sumZ dir_cost ds) by (apply sumZ_nonneg; intros; unfold dir_cost; lia).
  assert (Hcan1 : can_add s (dir_cost d)) by (eapply can_add_weaken; [exact Hcan | lia]).
  destruct (AddDirNode_grows d s Hcan1) as (l & s1 & Hrun & Hg & _). rewrite (bind_run _ _ _ _ _ Hrun).
  intros Hrest Hrep. eapply IH; [by eapply grown_can_add | exact Hrest | by eapply AddDirNode_represents].
Qed.

Lemma files_loop_represents fs cnt s cnt' s' T :
  can_add s (sumZ file_cost fs) -> files_loop fs cnt s = Ret (cnt', s') -> represents s T ->
  exists pools, Forall2 built fs pools /\
    represents s' (foldl (fun T (f : FileCreateRequest P * list A) => put_file f.1 f.2 T) T (zip fs pools)).
Proof.
  revert cnt s T. induction fs as [|req fs IH]; intros cnt s T Hcan; cbn [files_loop].
  { intros [= _ <-] Hrep. by exists []. }
  rewrite sumZ_cons in Hcan.
  assert (0 <= sumZ file_cost fs) by (apply sumZ_nonneg; intros; unfold file_cost, path_cost; lia).
  assert (Hcan1 : can_add s (file_cost req)) by (eapply can_add_weaken; [exact Hcan | lia]).
  destruct (AddFileNode_grows req s Hcan1) as (r & s1 & Hrun & Hg & _). rewrite (bind_run _ _ _ _ _ Hrun).
  intros Hrest Hrep. destruct (AddFileNode_represents req s r s1 T Hcan1 Hrun Hrep) as (ads & Hb & Hrep1).
  assert (Hcan2 : can_add s1 (sumZ file_cost fs)) by by eapply grown_can_add.
  destruct r; destruct (IH _ _ _ Hcan2 Hrest Hrep1) as (pools & Hbs & Hrep2);
    exists (ads :: pools); (split; [by constructor | exact Hrep2]).
Qed.

(** A run of [load_nodes], with the requests and the adapters it used. *)
Lemma load_nodes_represents defData (s s' : WebFS W A P V) counts :
  reg_free (web_registry s) -> can_add (web_fs s) (sumZ node_cost (raw_nodes defData)) ->
  load_nodes defData s = Ret (counts, s') ->
  exists files ds pools, decoded (web_registry s) (raw_nodes defData) files ds /\ Forall2 built files pools /\
    represents (web_fs s') (loaded (tree_of (web_fs s)) ds (zip files pools)).
Proof.
  intros Hfree Hcan Hload. unfold load_nodes in Hload.
  destruct (requests_loop_run (raw_nodes defData) [] [] s Hfree) as (files & ds & w & Hrun & Hdec).
  destruct (decoded_requests_of _ _ _ _ Hfree Hdec) as (Hcost & _).
  rewrite (bind_run _ _ _ _ _ Hrun) in Hload. cbn [app] in Hload.
  destruct (with_world_grown w s _ Hcan) as [Hg0 Hcan0].
  assert (Hsum : 0 <= sumZ file_cost files /\ 0 <= sumZ dir_cost ds).
  { split; apply sumZ_nonneg; intros; unfold file_cost, path_cost, dir_cost; lia. }
  assert (Hcan1 : can_add (web_fs (with_world w s)) (sumZ dir_cost ds + sumZ file_cost files))
    by (eapply can_add_weaken; [exact Hcan0 | lia]).
  assert (Hcan1' : can_add (web_fs (with_world w s)) (sumZ dir_cost ds))
    by (eapply can_add_weaken; [exact Hcan1 | lia]).
  destruct (dirs_loop_run ds 0 _ Hcan1') as (n & s1 & Hrun1 & Hg1 & _).
  rewrite (bind_run _ _ _ _ _ (on_filesystem_run _ (with_world w s) _ _ Hrun1)) in Hload.
  pose proof (grown_can_add _ _ _ _ Hcan1 Hg1) as Hcan2.
  destruct (files_loop_run files 0 s1 Hcan2) as (m & s2 & Hrun2 & _).
  rewrite (bind_run _ _ _ _ _ (on_filesystem_run _ (mkWebFS s1 _ _ _) _ _ Hrun2)) in Hload.
  injection Hload as _ <-. cbn [web_fs].
  assert (Hrep0 : represents (web_fs (with_world w s)) (tree_of (web_fs s)))
    by (apply tree_of_represents; intros q; by apply walk_same).
  destruct (files_loop_represents files 0 s1 m s2 _ Hcan2 Hrun2
    (dirs_loop_represents ds 0 _ _ _ _ Hcan1' Hrun1 Hrep0)) as (pools & Hb & Hrep).
  by exists files, ds, pools.
Qed.

(** A path that was free and that no definition needs as a directory. *)
Definition file_path_free s (raws : list bytes) (names : list string) : Prop :=
  walk (fs_heap s) (root s) names = None /\
  (forall raw q, raw ∈ raws -> raw_dir raw = Some q -> ~ names `prefix_of` components q) /\
  (forall raw q, raw ∈ raws -> raw_file raw = Some q -> ~ names `prefix_of` components (path_Split q).1).

(** What is found at the path of a directory definition that was free: a
    directory of the first definition that covers it. *)
Lemma loaded_dir s T0 ds (files : list (FileCreateRequest P * list A)) p d :
  T0 p = None -> d ∈ ds -> p `prefix_of` components (rq_Path (dr_node d)) ->
  represents s (loaded T0 ds files) ->
  exists d' x, d' ∈ ds /\ p `prefix_of` components (rq_Path (dr_node d')) /\
    walk (fs_heap s) (root s) p = Some x /\ made_dir (dr_node d') (fs_heap s) x.
Proof.
  intros Hp Hin Hpre Hrep. destruct (put_all_dirs_new ds T0 p d Hp Hin Hpre) as (d' & Hd' & Hpre' & E).
  specialize (Hrep p). unfold loaded in Hrep. erewrite put_all_files_some in Hrep by exact E.
  destruct Hrep as (x & Hx & He). by exists d', x.
Qed.

Lemma loaded_file (s : FileSystem W A) s0 reg raws ds files pools req :
  reg_free reg -> decoded reg raws files ds -> Forall2 built files pools ->
  represents s (loaded (tree_of s0) ds (zip files pools)) ->
  req ∈ files -> has_adapter req -> file_path_free s0 raws (file_names (rq_Path (fr_node req))) ->
  exists req' ads x, req' ∈ files /\ file_names (rq_Path (fr_node req')) = file_names (rq_Path (fr_node req)) /\
    built req' ads /\ ads <> [] /\
    walk (fs_heap s) (root s) (file_names (rq_Path (fr_node req))) = Some x /\
    made_file (fr_node req') ads (fs_heap s) x.
Proof.
  intros Hreg Hdec Hb Hrep Hin Hads (Hfree & Hnd & Hnf). set (p := file_names _) in *.
  assert (Hfrom : forall f, f ∈ zip files pools -> f.1 ∈ files /\ built f.1 f.2).
  { intros f (i & (r & ads & -> & Hr & Ha)%lookup_zip_with_Some)%list_elem_of_lookup. cbn. split.
    - by eapply list_elem_of_lookup_2.
    - by eapply (Forall2_lookup_lr _ _ _ _ _ _ Hb). }
  apply list_elem_of_lookup in Hin as [i Hi]. destruct (Forall2_lookup_l _ _ _ _ _ Hb Hi) as (ads & Ha & [w ->]).
  destruct (put_all_files_new (zip files pools) (foldl (fun T d => put_dir d T) (tree_of s0) ds) p req
    (adapters_of (Sources req) w).1) as (f & Hf & Hne & Hnames & E).
  - apply put_all_dirs_none; [unfold tree_of; by rewrite Hfree|]. intros d Hd Hpre.
    destruct (decoded_dirs_from _ _ _ _ _ Hdec Hd) as (raw & Hraw & Hq). by eapply Hnd.
  - apply list_elem_of_lookup. exists i. apply lookup_zip_with_Some. by eexists _, _.
  - apply Hads.
  - done.
  - intros f [Hf _]%Hfrom Hpre. destruct (decoded_files_from _ _ _ _ _ Hreg Hdec Hf) as (raw & Hraw & Hq). by eapply Hnf.
  - destruct (Hfrom f Hf) as [Hin' Hb']. specialize (Hrep p). unfold loaded in Hrep. rewrite E in Hrep.
    destruct Hrep as (x & Hx & He). by exists f.1, f.2, x.
Qed.

(** C5: loading the node definitions makes every directory and file they ask
    for. On a well-formed filesystem with enough inode numbers left,
    [load_nodes] returns on every input, whatever the definitions file holds;
    the filesystem stays well-formed, every path that resolved still resolves
    to the same node, no mutex is held and the registry of providers is as
    before.  The tree afterwards is exactly the one the abstract loader
    computes from the tree before, from the requests the definitions decode to
    and from the adapters built for the files: at every path the node that was
    there, a directory or a file made for one of the requests, or nothing.  So
    a directory definition whose path was free is found as a directory, with
    the permissions and the owner of the first definition that covers the path;
    and a file definition that decodes and has a source from which an adapter
    can be built, at a path that was free and that no other definition needs as
    a directory, is found as a regular file made for a request of that path,
    with a pool that has exactly the adapters built for it, at least one. *)
Theorem load_nodes_complete defData (s : WebFS W A P V) :
  reg_free (web_registry s) -> can_add (web_fs s) (sumZ node_cost (raw_nodes defData)) ->
  exists counts (s' : WebFS W A P V) files ds pools, load_nodes defData s = Ret (counts, s') /\
    fs_ok (web_fs s') /\ web_registry s' = web_registry s /\
    h_locks (fs_heap (web_fs s')) = h_locks (fs_heap (web_fs s)) /\
    (forall p x, walk (fs_heap (web_fs s)) (root (web_fs s)) p = Some x ->
       walk (fs_heap (web_fs s')) (root (web_fs s')) p = Some x) /\
    decoded (web_registry s) (raw_nodes defData) files ds /\ Forall2 built files pools /\
    represents (web_fs s') (loaded (tree_of (web_fs s)) ds (zip files pools)) /\
    (forall raw path, raw ∈ raw_nodes defData -> asks_dir raw path ->
       resolves (web_fs s') (components path) /\
       (walk (fs_heap (web_fs s)) (root (web_fs s)) (components path) = None ->
        exists d x, d ∈ ds /\ components path `prefix_of` components (rq_Path (dr_node d)) /\
          walk (fs_heap (web_fs s')) (root (web_fs s')) (components path) = Some x /\
          made_dir (dr_node d) (fs_heap (web_fs s')) x)) /\
    (forall raw path, raw ∈ raw_nodes defData -> asks_file (web_registry s) raw path ->
       resolves (web_fs s') (file_names path) /\
       (file_path_free (web_fs s) (raw_nodes defData) (file_names path) ->
        exists req ads x, req ∈ files /\ file_names (rq_Path (fr_node req)) = file_names path /\
          built req ads /\ ads <> [] /\
          walk (fs_heap (web_fs s')) (root (web_fs s')) (file_names path) = Some x /\
          made_file (fr_node req) ads (fs_heap (web_fs s')) x)).
Proof.
  intros Hfree Hcan. destruct (load_nodes_run defData s Hfree Hcan)
    as (counts & s' & Hrun & (Hwf & Hlk & _) & (_ & F & _) & _ & _ & Hreg & Hds & Hfs).
  destruct (load_nodes_represents defData s s' counts Hfree Hcan Hrun) as (files & ds & pools & Hdec & Hb & Hrep).
  destruct (decoded_requests_of _ _ _ _ Hfree Hdec) as (_ & Hasked & Haskedf & _).
  exists counts, s', files, ds, pools. split_and!; [done | by split | done | apply (ff_locks _ _ F) | | done..| |].
  - intros p x Hx. rewrite (ff_root _ _ F). by apply (ff_mono _ _ F).
  - intros raw path Hraw Ha. split; [by apply (Hds raw)|]. intros Hnone.
    destruct (Hasked raw path Hraw Ha) as (d & Hin & Hp).
    apply (loaded_dir _ _ _ _ _ d) with (4 := Hrep); [unfold tree_of; by rewrite Hnone | done | by rewrite Hp].
  - intros raw path Hraw Ha. split; [by apply (Hfs raw)|]. intros Hpf.
    destruct (Haskedf raw path Hraw Ha) as (req & Hin & Hp & Hads). rewrite <-Hp in *.
    by eapply loaded_file.
Qed.
End represents.
