(* ===== verification/LoadingServes.v ===== *)
(** From the node definitions to the bytes: every file found after loading is
    backed by adapters that serve the content its definition stands for, and
    reads as it. *)

From S2P Require Import Prelude Config Paths Request XSync DataCache AdapterPool Inode Heap.
From S2P Require Import Node NodeContext Tree FileSystem FileSystemSpec FileCreation.
From S2P Require Import Json Decode Registry Requests Http HttpSpec Loading LoadingSpec LoadingTree.

Section serves.
Context {X : XSync} `{!XSyncLaws} {W A P V : Type} {FL : FuseLib} `{!FuseLibLaws} {OS : Process}.
Context {TJ : TimeJSON} {clk : Clock W} {UU : UUIDs W} {FA : FileAdapterOps W A} {AP : AdapterProvider W P A}.
Implicit Types (s : FileSystem W A) (req : FileCreateRequest P) (d : DirCreateRequest).

(** What the files at the paths of the tree contain. *)
Variable content : list string -> bytes.

Definition inode_of s (x : loc) (ino : Inode A) : Prop :=
  exists n, h_nodes (fs_heap s) !! x = Some n /\ h_inodes (fs_heap s) !! n_inode n = Some ino.

(** Every node of the tree serves what belongs at its path. *)
Definition served s : Prop := forall names x ino,
  walk (fs_heap s) (root s) names = Some x -> inode_of s x ino -> inode_serves (content names) ino.

Definition req_serves req : Prop := forall w,
  Forall (serves (content (file_names (rq_Path (fr_node req))))) (adapters_of (Sources req) w).1.

Lemma walk_inode s names x :
  fs_wf s -> walk (fs_heap s) (root s) names = Some x -> exists ino, inode_of s x ino.
Proof.
  intros Hwf Hx. destruct (walk_dom _ _ _ _ _ (fw_tree _ Hwf) (root_dom _ _ (fw_tree _ Hwf)) Hx) as [n Hn].
  destruct (tw_inode _ _ (fw_tree _ Hwf) x n Hn) as [ino Hi]. by exists ino, n.
Qed.

Lemma served_same s s' :
  h_nodes (fs_heap s') = h_nodes (fs_heap s) -> h_inodes (fs_heap s') = h_inodes (fs_heap s) ->
  root s' = root s -> served s -> served s'.
Proof.
  intros En Ei Er Hs names x ino. rewrite Er, (walk_same (fs_heap s) (fs_heap s')) by done.
  intros Hx (n & Hn & Hi). rewrite En in Hn. rewrite Ei in Hi. apply (Hs names x ino Hx). by exists n.
Qed.

(** A new node under a path that was free. *)
Lemma served_attached base cur n name a (adapters : list A) tasks w s :
  fs_wf s -> h_nodes (fs_heap s) !! cur = Some n -> child (fs_heap s) cur name = None ->
  walk (fs_heap s) (root s) base = Some cur ->
  Forall (serves (content (base ++ [name]))) adapters -> served s ->
  served (fs_attached cur n name a adapters tasks w s).
Proof.
  intros Hwf Hn Hfree Hbase Hads Hs names x ino Hx (xn & Hxn & Hi).
  set (s' := fs_attached cur n name a adapters tasks w s) in *.
  destruct (fs_attached_walk cur n name a adapters tasks w s Hwf Hn Hfree base names x Hbase Hx) as [Hold|[-> ->]].
  - apply (Hs names x ino Hold).
    destruct (walk_dom _ _ _ _ _ (fw_tree _ Hwf) (root_dom _ _ (fw_tree _ Hwf)) Hold) as [xn0 Hxn0].
    destruct (fs_attached_old cur n name a adapters tasks w s Hwf Hn x xn0 Hxn0) as [m Hm].
    fold s' in Hm. rewrite Hm in Hxn. injection Hxn as <-. exists xn0. split; [done|].
    destruct (tw_inode _ _ (fw_tree _ Hwf) x xn0 Hxn0) as [ino0 Hi0].
    pose proof (fs_attached_inode cur n name a adapters tasks w s Hwf _ _ Hi0) as Hi'.
    fold s' in Hi'. cbn [n_inode set_children] in Hi. rewrite Hi in Hi'. by injection Hi' as <-.
  - cbn in Hxn. rewrite lookup_insert_eq in Hxn. injection Hxn as <-.
    cbn in Hi. rewrite lookup_insert_eq in Hi. injection Hi as <-.
    by apply (NewInode_serves _ a adapters) in Hads.
Qed.

Lemma served_mkdirs nreq cur names l s s' :
  mkdirs nreq cur names l s s' -> forall base, fs_wf s -> walk (fs_heap s) (root s) base = Some cur ->
  served s -> served s'.
Proof.
  induction 1 as [cur s|cur name names c l s s' Hc _ IH
                 |cur n name names l a w s s' Hn Hfree Hs Hm Hi Hd _ IH]; intros base Hwf Hbase Hserved; [done|..].
  - apply (IH (base ++ [name])); [done | | done]. apply walk_snoc. by exists cur.
  - apply (IH (base ++ [name])).
    + by apply fs_attached_wf.
    + apply walk_snoc. exists cur. split; [by apply fs_attached_mono|].
      apply fs_attached_child; [done | done | done | auto].
    + by eapply served_attached.
Qed.

Lemma AddDirNode_served d s r s' :
  can_add s (dir_cost d) -> AddDirNode d s = Ret (r, s') -> served s -> served s'.
Proof.
  intros (Hwf & Hlk & Hw & Hm) Hrun Hs.
  destruct (AddDirNode_run d s Hwf Hlk Hw) as (l & s1 & Hrun1 & Htr).
  { unfold new_dirs, dir_cost in *. pose proof (missing_le (fs_heap s) (root s) (components (rq_Path (dr_node d)))). lia. }
  rewrite Hrun in Hrun1. injection Hrun1 as _ <-. by eapply (served_mkdirs _ _ _ _ _ _ Htr []).
Qed.

Lemma AddFileNode_served req s r s' :
  can_add s (file_cost req) -> req_serves req -> AddFileNode req s = Ret (r, s') -> served s -> served s'.
Proof.
  unfold file_cost, path_cost, req_serves, file_names. destruct (path_Split _) as [dir name] eqn:Hsplit. cbn [fst snd].
  intros (Hwf & Hlk & Hw & Hm) Hreq Hrun Hs.
  pose proof (missing_le (fs_heap s) (root s) (components dir)) as Hmiss.
  assert (Hroom : lastIno s + new_dirs s dir + 1 < 2 ^ 64) by (unfold new_dirs; lia).
  destruct (AddFileNode_run req s dir name Hwf Hlk Hw Hsplit Hroom) as (p & s1 & Htr & Hend).
  destruct (mkdirs_wf_frame _ _ _ _ _ _ Htr Hwf) as [Hwf1 F].
  pose proof (mkdirs_walk _ _ _ _ _ _ Htr Hwf) as Hp. rewrite <-(ff_root _ _ F) in Hp.
  pose proof (served_mkdirs _ _ _ _ _ _ Htr [] Hwf eq_refl Hs) as Hs1.
  destruct (child (fs_heap s1) p name) as [c|] eqn:Ec.
  { rewrite Hrun in Hend. by injection Hend as _ <-. }
  destruct Hend as (n & a & w & adapters & w' & Hn & _ & _ & Ead & Hend).
  destruct adapters as [|ad ads] eqn:Eads; rewrite Hrun in Hend; injection Hend as _ ->.
  - by apply (served_same s1).
  - eapply served_attached; [done..|exact Hp| |done]. specialize (Hreq w). by rewrite Ead in Hreq.
Qed.

Lemma dirs_loop_served ds cnt s cnt' s' :
  can_add s (sumZ dir_cost ds) -> dirs_loop ds cnt s = Ret (cnt', s') -> served s -> served s'.
Proof.
  revert cnt s. induction ds as [|d ds IH]; intros cnt s Hcan; cbn [dirs_loop]; [by intros [= _ <-]|].
  rewrite sumZ_cons in Hcan. assert (0 <= sumZ dir_cost ds) by (apply sumZ_nonneg; intros; unfold dir_cost; lia).
  assert (Hcan1 : can_add s (dir_cost d)) by (eapply can_add_weaken; [exact Hcan | lia]).
  destruct (AddDirNode_grows d s Hcan1) as (l & s1 & Hrun & Hg & _). rewrite (bind_run _ _ _ _ _ Hrun).
  intros Hrest Hs. eapply IH; [|exact Hrest|by eapply AddDirNode_served]. by eapply grown_can_add.
Qed.

Lemma files_loop_served fs cnt s cnt' s' :
  can_add s (sumZ file_cost fs) -> Forall req_serves fs ->
  files_loop fs cnt s = Ret (cnt', s') -> served s -> served s'.
Proof.
  intros Hcan Hall. revert cnt s Hcan. induction Hall as [|req fs Hreq _ IH]; intros cnt s Hcan; cbn [files_loop];
    [by intros [= _ <-]|].
  rewrite sumZ_cons in Hcan.
  assert (0 <= sumZ file_cost fs) by (apply sumZ_nonneg; intros; unfold file_cost, path_cost; lia).
  assert (Hcan1 : can_add s (file_cost req)) by (eapply can_add_weaken; [exact Hcan | lia]).
  destruct (AddFileNode_grows req s Hcan1) as (r & s1 & Hrun & Hg & _). rewrite (bind_run _ _ _ _ _ Hrun).
  intros Hrest Hs. assert (Hcan2 : can_add s1 (sumZ file_cost fs)) by by eapply grown_can_add.
  assert (Hs1 : served s1) by by eapply AddFileNode_served. destruct r; by eapply IH.
Qed.

Lemma load_nodes_served defData (s s' : WebFS W A P V) counts :
  reg_free (web_registry s) -> can_add (web_fs s) (sumZ node_cost (raw_nodes defData)) ->
  (forall raw w req w', raw ∈ raw_nodes defData ->
     UnmarshalFileRequest raw w (web_registry s) = Ret ((Ok req, w'), web_registry s) -> req_serves req) ->
  load_nodes defData s = Ret (counts, s') -> served (web_fs s) -> served (web_fs s').
Proof.
  intros Hfree Hcan Hreqs Hload Hs. unfold load_nodes in Hload.
  destruct (requests_loop_run (raw_nodes defData) [] [] s Hfree) as (files & ds & w & Hrun & Hdec).
  destruct (decoded_requests_of _ _ _ _ Hfree Hdec) as (Hcost & _ & _ & Horig).
  rewrite (bind_run _ _ _ _ _ Hrun) in Hload. cbn [app] in Hload.
  destruct (with_world_grown w s _ Hcan) as [Hg0 Hcan0].
  assert (Hsum : 0 <= sumZ file_cost files /\ 0 <= sumZ dir_cost ds).
  { split; apply sumZ_nonneg; intros; unfold file_cost, path_cost, dir_cost; lia. }
  assert (Hcan1 : can_add (web_fs (with_world w s)) (sumZ dir_cost ds + sumZ file_cost files))
    by (eapply can_add_weaken; [exact Hcan0 | lia]).
  assert (Hcan1' : can_add (web_fs (with_world w s)) (sumZ dir_cost ds))
    by (eapply can_add_weaken; [exact Hcan1 | lia]).
  destruct (dirs_loop_run ds 0 _ Hcan1') as (n & s1 & Hrun1 & Hg1 & _).
  rewrite (bind_run _ _ _ _ _ (on_filesystem_run _ (with_world w s) _ _ Hrun1)) in Hload.
  pose proof (grown_can_add _ _ _ _ Hcan1 Hg1) as Hcan2.
  destruct (files_loop_run files 0 s1 Hcan2) as (m & s2 & Hrun2 & _).
  rewrite (bind_run _ _ _ _ _ (on_filesystem_run _ (mkWebFS s1 _ _ _) _ _ Hrun2)) in Hload.
  injection Hload as _ <-. cbn [web_fs].
  assert (Hall : Forall req_serves files).
  { apply Forall_forall. intros req Hin. destruct (Horig req Hin) as (raw & w1 & w2 & Hraw & Hu).
    by eapply Hreqs. }
  eapply (files_loop_served files 0 s1); [done | done | exact Hrun2 |].
  eapply (dirs_loop_served ds 0 (web_fs (with_world w s))); [done | exact Hrun1 |].
  by apply (served_same (web_fs s)).
Qed.

(** A new pool tries each of its adapters. *)
Lemma newAdapterPool_has (ads : list A) a :
  a ∈ ads -> exists p r b, newAdapterPool ads = Some p /\ pool_get p r = Some b /\
    FileAdapter b = a /\ isHealthy b = true.
Proof.
  destruct ads as [|a0 rest]; [by intros ?%not_elem_of_nil|].
  intros [->|(i & Hi)%list_elem_of_lookup]%elem_of_cons; eexists.
  - by exists Primary, (newInodeAdapter a0).
  - exists (Backup i), (newInodeAdapter a). split_and!; [done | | done..]. cbn. by rewrite list_lookup_fmap, Hi.
Qed.

(** C4: loading is faithful. Let [content] say what belongs at every path, and
    let every file definition that decodes name sources whose adapters serve
    the content of its path. Then loading returns, and every node found at a
    path afterwards, by whatever definition it was made, is backed by an inode
    that serves the content of that path.  Every file definition that decodes
    and has a source from which an adapter can be built is there: at a path
    that was free and that no other definition needs as a directory, it is a
    regular file whose pool has exactly the adapters built for a request of
    that path, at least one; reading it never panics or blocks, delivers the
    bytes of its content or an error, and delivers the bytes for certain when
    one of those adapters answers reads of that range, whatever the others do. *)
Theorem load_nodes_faithful defData (s : WebFS W A P V) :
  reg_free (web_registry s) -> can_add (web_fs s) (sumZ node_cost (raw_nodes defData)) ->
  (forall raw w req w', raw ∈ raw_nodes defData ->
     UnmarshalFileRequest raw w (web_registry s) = Ret ((Ok req, w'), web_registry s) -> req_serves req) ->
  served (web_fs s) ->
  exists counts (s' : WebFS W A P V), load_nodes defData s = Ret (counts, s') /\ served (web_fs s') /\
    forall raw path, raw ∈ raw_nodes defData -> asks_file (web_registry s) raw path ->
      exists x ino, walk (fs_heap (web_fs s')) (root (web_fs s')) (file_names path) = Some x /\
        inode_of (web_fs s') x ino /\
        (forall ctx offset size w, valid_request offset size -> size <= maxAlloc ->
          exists r ino' w', Read ino ctx offset size w = Ret ((r, ino'), w') /\
            forall data, r = Ok data -> data = file_bytes (content (file_names path)) offset size) /\
        (file_path_free (web_fs s) (raw_nodes defData) (file_names path) ->
         exists req ads, file_names (rq_Path (fr_node req)) = file_names path /\
           built req ads /\ ads <> [] /\ made_file (fr_node req) ads (fs_heap (web_fs s')) x /\
           forall a offset size w, a ∈ ads -> answers a offset size -> valid_request offset size -> size <= maxAlloc ->
             exists ino' w', Read ino Background offset size w
               = Ret ((Ok (file_bytes (content (file_names path)) offset size), ino'), w')).
Proof.
  intros Hfree Hcan Hreqs Hs. destruct (load_nodes_run defData s Hfree Hcan)
    as (counts & s' & Hrun & (Hwf & _) & _ & _ & _ & _ & _ & Hfs).
  pose proof (load_nodes_served _ _ _ _ Hfree Hcan Hreqs Hrun Hs) as Hs'.
  destruct (load_nodes_represents defData s s' counts Hfree Hcan Hrun) as (files & ds & pools & Hdec & Hb & Hrep).
  destruct (decoded_requests_of _ _ _ _ Hfree Hdec) as (_ & _ & Haskedf & _).
  exists counts, s'. split; [done|]. split; [done|]. intros raw path Hraw Ha.
  destruct (Hfs raw path Hraw Ha) as [x Hx]. destruct (walk_inode _ _ _ Hwf Hx) as [ino Hino].
  pose proof (Hs' _ _ _ Hx Hino) as Hserves. exists x, ino. split; [done|]. split; [done|]. split.
  - intros ctx offset size w Hv Hm.
    destruct (Read_run _ ino ctx offset size w Hserves Hv Hm) as (r & ino' & w' & ? & _ & _ & ?).
    by exists r, ino', w'.
  - intros Hpf. destruct (Haskedf raw path Hraw Ha) as (req0 & Hin & Hp & Hads). rewrite <-Hp in *.
    destruct (loaded_file _ _ _ _ _ _ _ req0 Hfree Hdec Hb Hrep Hin Hads Hpf)
      as (req & ads & x' & _ & Hnames & Hbuilt & Hne & Hx' & Hmade).
    rewrite Hx in Hx'. injection Hx' as <-. exists req, ads. split_and!; [done..|].
    intros a offset size w Hina Hans Hv Hm.
    destruct (newAdapterPool_has ads a Hina) as (pool & r & b & Hpool & Hget & <- & Hhealthy).
    destruct Hmade as (n & ino1 & Hn & _ & _ & Hi & Hp1 & _). destruct Hino as (n' & Hn' & Hi').
    assert (ino1 = ino) as -> by congruence.
    eapply (Read_answers _ ino pool r b); [exact Hserves | congruence | done..].
Qed.
End serves.
