(* ===== verification/Session.v ===== *)
(** From the mount to the bytes: a path is looked up name by name through the
    FUSE adapter, opened and read, on a filesystem whose nodes serve the
    contents of their paths. *)

From S2P Require Import Prelude Config Paths Request XSync DataCache AdapterPool Inode Heap.
From S2P Require Import Node NodeContext Tree FileSystem FileSystemSpec FileCreation Reachable.
From S2P Require Import Fuse Bridge FuseSpec FuseFiles LoadingSpec LoadingServes.

Section session.
Context {X : XSync} `{!XSyncLaws} {W A : Type} {clk : Clock W} {FA : FileAdapterOps W A}.
Abbreviation M := (GoM (FuseRaw (FileSystem W A))).
Implicit Types (r : FuseRaw (FileSystem W A)) (s : FileSystem W A) (names : list string).

(** What the kernel does to find a path: one [Lookup] per name. *)
Fixpoint kernel_walk (out : EntryOut) (node : Z) names : M (Status * Z) :=
  match names with
  | [] => mret (OK, node)
  | name :: names' =>
      '(st, entry) ← Lookup node name out;
      match st with OK => kernel_walk out (eo_NodeId entry) names' | _ => mret (st, 0) end
  end.

Lemma child_same_ids h h' l name :
  same_but_ids (W := W) (A := A) h h' -> child h' l name = child h l name.
Proof.
  intros Hs. unfold child. pose proof (sbi_nodes _ _ Hs l) as E.
  destruct (h_nodes h !! l) as [[]|], (h_nodes h' !! l) as [[]|]; cbn in *; try done.
  by injection E as -> -> -> -> ->.
Qed.

Lemma walk_same_ids h h' l names :
  same_but_ids (W := W) (A := A) h h' -> walk h' l names = walk h l names.
Proof.
  intros Hs. revert l. induction names as [|name names IH]; intros l; [done|]. cbn.
  rewrite (child_same_ids h h') by done. destruct (child h l name); cbn; [apply IH | done].
Qed.

Lemma served_same_ids content s s' :
  same_but_ids (fs_heap s) (fs_heap s') -> root s' = root s -> served content s -> served content s'.
Proof.
  intros Hs Hr Hserved names x ino. rewrite Hr, (walk_same_ids (fs_heap s)) by done.
  intros Hx (n & Hn & Hi). apply (Hserved names x ino Hx). rewrite (sbi_inodes _ _ Hs) in Hi.
  pose proof (sbi_nodes _ _ Hs x) as E. rewrite Hn in E.
  destruct (h_nodes (fs_heap s) !! x) as [m|] eqn:Em; [|done].
  exists m. split; [done|]. cbn in E. destruct m, n; cbn in *. by injection E as -> -> -> -> ->.
Qed.

(** Every identifier in use is registered and the adapter is at rest. *)
Definition in_service r : Prop :=
  raw_ok r /\ no_writers (h_locks (fs_heap (raw_fs r))) /\ forall x, not_forgotten (raw_fs r) x.

Lemma kernel_walk_run out names r node p x :
  in_service r -> lastNodeID (raw_fs r) + Z.of_nat (length names) < 2 ^ 64 ->
  Load (nodeRegistry (raw_fs r)) node = Some p -> walk (fs_heap (raw_fs r)) p names = Some x ->
  exists id r1, kernel_walk out node names r = Ret ((OK, id), r1) /\ in_service r1 /\
    same_but_ids (fs_heap (raw_fs r)) (fs_heap (raw_fs r1)) /\ root (raw_fs r1) = root (raw_fs r) /\
    Load (nodeRegistry (raw_fs r1)) id = Some x.
Proof.
  revert r node p. induction names as [|name names IH]; intros r node p Hin Hids Hp Hx; cbn [kernel_walk].
  { injection Hx as <-. by exists node, r. }
  destruct Hin as (Hok & Hw & Hnf). cbn [length] in Hids.
  cbn in Hx. destruct (child (fs_heap (raw_fs r)) p name) as [c|] eqn:Ec; [|done]. cbn in Hx.
  pose proof (proj1 Hok) as Hwf. cbn in Hwf.
  destruct (fw_reg _ Hwf _ _ Hp) as (_ & pn & Hpn & _).
  destruct (tw_down _ _ (fw_tree _ Hwf) _ _ _ Ec) as (_ & _ & n & Hn & _).
  destruct (tw_inode _ _ (fw_tree _ Hwf) _ _ Hn) as [ino Hi].
  destruct (Lookup_child r node name out p c n ino) as (eo & s1 & Hrun & _ & _ & Hwf1 & Hs & Hr & Hl & Hnf1 & _ & Hreg);
    [done | done | lia | done..|].
  rewrite (bind_run _ _ _ _ _ Hrun). destruct (IH (put_fs s1 r) (eo_NodeId eo) c) as (id & r1 & Hrun1 & Hin1 & Hs1 & Hr1 & Hid).
  - split; [by apply (raw_ok_same r)|]. split; [cbn; by rewrite (sbi_locks _ _ Hs)|]. intros y. apply Hnf1, Hnf.
  - cbn. lia.
  - cbn. by apply Hreg.
  - cbn. by rewrite (walk_same_ids (fs_heap (raw_fs r))).
  - exists id, r1. split; [done|]. split; [done|]. split; [by etrans|]. split; [by rewrite Hr1|done].
Qed.

(** A filesystem in which no identifier but the root's has been given out. *)
Definition unnumbered s : Prop := lastNodeID s = FUSE_ROOT_ID /\ Load (nodeRegistry s) FUSE_ROOT_ID = Some (root s).

Lemma unnumbered_not_forgotten s x : fs_wf s -> unnumbered s -> not_forgotten s x.
Proof.
  intros Hwf [Hl Hr] n Hn. destruct (fw_id _ Hwf _ _ Hn) as [?|Hid]; [by left|]. right.
  assert (n_nodeID n = FUSE_ROOT_ID) as Hn1 by (unfold FUSE_ROOT_ID in *; lia). rewrite Hn1, Hr. f_equal.
  destruct (fw_reg _ Hwf _ _ Hr) as (_ & rn & Hrn & Hid').
  eapply (fw_id_inj _ Hwf); [done..| |]; [by rewrite Hid', Hn1 | rewrite Hid'; done].
Qed.

Lemma mounted_in_service s :
  fs_wf s -> unnumbered s -> no_writers (h_locks (fs_heap s)) -> in_service (NewFuseRaw s).
Proof.
  intros Hwf Hu Hw. split; [|split; [done|]].
  - split; [done|]. intros fh snapshot l. cbn. by rewrite Load_NewMap.
  - intros x. by apply unnumbered_not_forgotten.
Qed.

(** Reading a file by its path. On a mounted filesystem whose nodes serve the
    contents of their paths, a path that resolves is found by looking its names
    up one after the other from the root; the node found can be opened, and a
    read at any offset and size in range answers [OK] with exactly the bytes of
    the content of that path, or [EIO]. *)
Lemma mounted_path_run content s names out oout offset size :
  fs_wf s -> unnumbered s -> no_writers (h_locks (fs_heap s)) -> served content s ->
  resolves s names -> 1 + Z.of_nat (length names) < 2 ^ 64 ->
  valid_request offset size -> size <= maxAlloc ->
  exists id r1 fh r2 res r3, kernel_walk out FUSE_ROOT_ID names (NewFuseRaw s) = Ret ((OK, id), r1) /\
    Open id oout r1 = Ret ((OK, fh), r2) /\ raw_Read fh offset size r2 = Ret (res, r3) /\
    (res = (Some (file_bytes (content names) offset size), OK) \/ res = (None, EIO)).
Proof.
  intros Hwf Hu Hw Hs [x Hx] Hlen Hv Hm. pose proof (mounted_in_service s Hwf Hu Hw) as Hin.
  destruct (kernel_walk_run out names (NewFuseRaw s) FUSE_ROOT_ID (root s) x Hin)
    as (id & r1 & Hrun & (Hok1 & Hw1 & _) & Hs1 & Hr1 & Hid); [cbn; destruct Hu as [-> _]; done | apply Hu | done |].
  pose proof (served_same_ids _ _ _ Hs1 Hr1 Hs) as Hserved. pose proof (proj1 Hok1) as Hwf1. cbn in Hwf1.
  assert (Hx1 : walk (fs_heap (raw_fs r1)) (root (raw_fs r1)) names = Some x)
    by by rewrite Hr1, (walk_same_ids _ _ _ _ Hs1).
  destruct (walk_inode _ _ _ Hwf1 Hx1) as (ino & Hino). pose proof (Hserved _ _ _ Hx1 Hino) as Hinode.
  destruct Hino as (n & Hn & Hi).
  destruct (open_read_run r1 id x n ino (content names) oout offset size)
    as (fh & r2 & res & r3 & Hopen & Hread & Hres & _); [done..|].
  exists id, r1, fh, r2, res, r3. by split_and!.
Qed.
End session.
