(* ===== verification/Logger.v ===== *)
(** The loggers (src/internal/util/logger.go): the level the global logger is
    given, and the writer through which the standard library's loggers reach
    it. Where a message ends up is a parameter. *)

From S2P Require Import Prelude Config Json.

(** zerolog: setting the global level, making a new global logger, with or
    without the caller's position, and sending a message of a component. *)
Class Zerolog (W : Type) := {
  SetGlobalLevel : zerologLevel -> W -> W;
  set_global_logger : bool -> W -> W;
  log_Msg : option string -> zerologLevel -> bytes -> W -> W
}.

(** ** strings *)

(** The encodings of the runes that [unicode.IsSpace] accepts. *)
Definition spaces : list bytes :=
  [[x09]; [x0a]; [x0b]; [x0c]; [x0d]; [x20]; [xc2; x85]; [xc2; xa0]; [xe1; x9a; x80]]
  ++ ((fun b => [xe2; x80; b]) <$> [x80; x81; x82; x83; x84; x85; x86; x87; x88; x89; x8a; xa8; xa9; xaf])
  ++ [[xe2; x81; x9f]; [xe3; x80; x80]].

(** What is left behind one of the prefixes [ps]. *)
Fixpoint strip_any (ps : list bytes) (s : bytes) : option bytes :=
  match ps with
  | [] => None
  | p :: ps' => match strip_prefix p s with Some s' => Some s' | None => strip_any ps' s end
  end.

(** No prefix is empty, so the length of the text is enough fuel. *)
Fixpoint trim (ps : list bytes) (fuel : nat) (s : bytes) : bytes :=
  match fuel with
  | O => s
  | S f => match strip_any ps s with Some s' => trim ps f s' | None => s end
  end.

(** [strings.TrimSpace] *)
Definition TrimSpace (s : bytes) : bytes :=
  let l := trim spaces (length s) s in
  reverse (trim (reverse <$> spaces) (length l) (reverse l)).

(** [strings.LastIndex], for a non-empty [sub] *)
Fixpoint LastIndex (sub s : bytes) : option nat :=
  match s with
  | [] => None
  | _ :: s' =>
      match LastIndex sub s' with
      | Some i => Some (S i)
      | None => match strip_prefix sub s with Some _ => Some O | None => None end
      end
  end.

Definition colon_space : bytes := [x3a; x20].

Section logger.
Context {W : Type} {LG : Zerolog W}.

Definition InitializeLogger (level : Z) (w : W) : W :=
  let w := SetGlobalLevel (zerolog_of level) w in
  let w := set_global_logger (level =? TraceLevel) w in
  log_Msg None ZInfo (String.list_byte_of_string "Logger initialized") w.

Record zerologWriter := mkWriter { zw_component : string; zw_level : zerologLevel }.

(** The text [Write] logs. *)
Definition write_msg (p : bytes) : bytes :=
  let msg := TrimSpace p in
  match LastIndex colon_space msg with
  | Some idx => if (Z.of_nat idx <? Z.of_nat (length msg) - 2) then drop (idx + 2) msg else msg
  | None => msg
  end.

Definition zw_Write (z : zerologWriter) (p : bytes) (w : W) : (Z * option GoError) * W :=
  ((Z.of_nat (length p), None), log_Msg (Some (zw_component z)) (zw_level z) (write_msg p) w).

Definition NewLogLogger (component : string) (lvl : Z) : zerologWriter :=
  {| zw_component := component;
     zw_level := if lvl =? TraceLevel then ZTrace
                 else if lvl =? DebugLevel then ZDebug
                 else if lvl =? InfoLevel then ZInfo
                 else if lvl =? WarnLevel then ZWarn
                 else if lvl =? ErrorLevel then ZError
                 else ZInfo |}.

(** [Println] of a standard logger without prefix and flags. *)
Definition Println (z : zerologWriter) (text : bytes) (w : W) : W :=
  (zw_Write z (text ++ [x0a]) w).2.
End logger.

(** ** Properties *)

Lemma trim_fixed ps fuel s : strip_any ps s = None -> trim ps fuel s = s.
Proof. intros E. destruct fuel; cbn; [done | by rewrite E]. Qed.

Lemma strip_any_none ps s : strip_any ps s = None <-> forall p, p ∈ ps -> strip_prefix p s = None.
Proof.
  induction ps as [|p ps IH]; cbn.
  - split; [by intros _ p ?%not_elem_of_nil | done].
  - destruct (strip_prefix p s) eqn:E.
    + split; [done|]. intros Hall. by rewrite (Hall p ltac:(by left)) in E.
    + rewrite IH. split; [intros Hall q [->|Hq]%elem_of_cons; auto|]. intros Hall q Hq. apply Hall. by right.
Qed.

(** The text begins and ends with something that is not a space. *)
Definition trimmed (s : bytes) : Prop :=
  s <> [] /\ strip_any spaces s = None /\ strip_any (reverse <$> spaces) (reverse s) = None.

#[export] Instance trimmed_dec s : Decision (trimmed s).
Proof. unfold trimmed. apply _. Defined.

Lemma spaces_newline p q : p ∈ spaces -> p = q ++ [x0a] -> q = [].
Proof.
  intros Hp ->. assert (Hall : Forall (fun p => last p = Some x0a -> p = [x0a]) spaces)
    by (repeat constructor; vm_compute; congruence).
  rewrite Forall_forall in Hall. specialize (Hall _ Hp (last_snoc _ _)).
  by apply (app_inj_tail q []) in Hall as [? _].
Qed.

(** The newline a standard logger adds is trimmed off again. *)
Lemma TrimSpace_line s : trimmed s -> TrimSpace (s ++ [x0a]) = s.
Proof.
  intros (Hne & Hl & Hr). unfold TrimSpace. cbn zeta. rewrite (trim_fixed spaces).
  - rewrite length_app, Nat.add_comm, reverse_app. change (reverse [x0a]) with [x0a].
    cbn [length Nat.add app trim].
    assert (strip_any (reverse <$> spaces) (x0a :: reverse s) = Some (reverse s)) as -> by reflexivity.
    rewrite trim_fixed by done. by rewrite reverse_involutive.
  - rewrite strip_any_none in Hl |- *. intros p Hp. specialize (Hl p Hp).
    destruct (strip_prefix p (s ++ [x0a])) as [rest|] eqn:E; [|done]. exfalso.
    apply strip_prefix_some in E. destruct rest as [|b rest _] using rev_ind.
    + rewrite app_nil_r in E. apply Hne. by eapply spaces_newline.
    + rewrite app_assoc in E. apply app_inj_tail in E as [E _].
      assert (strip_prefix p s = Some rest) by by apply strip_prefix_some. congruence.
Qed.

Lemma LastIndex_last sub pre post :
  sub <> [] -> (forall t, t <> [] -> t `suffix_of` sub ++ post -> t <> sub ++ post -> strip_prefix sub t = None) ->
  LastIndex sub (pre ++ sub ++ post) = Some (length pre).
Proof.
  intros Hsub Hlast. induction pre as [|b pre IH]; cbn [app length].
  - destruct sub as [|c sub]; [done|]. cbn [app LastIndex].
    assert (LastIndex (c :: sub) (sub ++ post) = None) as ->.
    { assert (Hsuf : forall t, t `suffix_of` sub ++ post -> LastIndex (c :: sub) t = None).
      { induction t as [|b t IH]; intros [k Hk]; [done|]. cbn [LastIndex].
        rewrite IH by (exists (k ++ [b]); by rewrite <-app_assoc).
        rewrite Hlast; [done|done| |].
        - exists (c :: k). cbn. by rewrite Hk.
        - intros E. apply (f_equal length) in E. cbn in E. rewrite Hk, !length_app in E. cbn in E. lia. }
      apply Hsuf. by exists []. }
    assert (strip_prefix (c :: sub) (c :: sub ++ post) = Some post) as -> by by apply strip_prefix_some.
    done.
  - cbn [LastIndex]. by rewrite IH.
Qed.

Section log_properties.
Context {W : Type} {LG : Zerolog W}.

(** C39: what a standard logger's line becomes. A line without a colon and a
    space is logged as it is, at the level asked for; of any other line only
    the part behind the last such pair is logged and the rest is lost, although
    the logger was made without a prefix that could be there. In both cases
    the writer reports the whole line as written. *)
Theorem NewLogLogger_Println component lvl line w :
  trimmed line ->
  (zw_Write (NewLogLogger component lvl) (line ++ [x0a]) w).1 = (Z.of_nat (length line) + 1, None) /\
  (LastIndex colon_space line = None ->
     Println (NewLogLogger component lvl) line w
     = log_Msg (Some component) (zerolog_of lvl) line w) /\
  (forall pre post, line = pre ++ colon_space ++ post -> LastIndex colon_space post = None -> post <> [] ->
     Println (NewLogLogger component lvl) line w
     = log_Msg (Some component) (zerolog_of lvl) post w).
Proof.
  intros Ht. unfold Println, zw_Write, write_msg. rewrite (TrimSpace_line _ Ht), length_app. cbn [fst snd length].
  split; [f_equal; lia|]. split; [by intros ->|].
  intros pre post -> Hpost Hne. rewrite LastIndex_last; [|done|].
  - rewrite !length_app. rewrite (proj2 (Z.ltb_lt _ _)).
    + change 2%nat with (length colon_space). by rewrite <-length_app, app_assoc, drop_app_length.
    + destruct post; [done|]. unfold colon_space. cbn [length]. lia.
  - intros t Htne Hsuf Hneq. assert (Hno : forall u, u `suffix_of` post -> strip_prefix colon_space u = None).
    { revert Hpost. clear. induction post as [|b post IH]; cbn [LastIndex]; intros Hpost u Hu.
      - apply suffix_nil_inv in Hu as ->. done.
      - destruct (LastIndex colon_space post) eqn:E; [done|].
        destruct u as [|c u]; [done|].
        apply suffix_cons_inv in Hu as [[= -> ->]|Hu]; [|by apply IH].
        by destruct (strip_prefix colon_space (b :: post)). }
    destruct t as [|c t]; [done|]. unfold colon_space in Hsuf, Hneq. cbn [app] in Hsuf, Hneq.
    apply suffix_cons_inv in Hsuf as [E|Hsuf]; [by rewrite E in Hneq|].
    apply suffix_cons_inv in Hsuf as [[= -> ->]|Hsuf]; [done | by apply Hno].
Qed.
End log_properties.
