(* ===== verification/Main.v ===== *)
(** The server (src/server/webfs.go) and the program (src/cmd/wfs/main.go):
    from the parsed command line to the mounted filesystem and its end. *)

From S2P Require Import Prelude Config Paths Request XSync DataCache AdapterPool Inode Heap.
From S2P Require Import Node NodeContext Tree FileSystem Fuse Json Decode Registry Requests Http.
From S2P Require Import Loading Logger.

(** ** What is outside the program *)

(** The options of go-fuse's server that [Serve] sets. *)
Record ServerOptions := mkServerOptions {
  so_Name : string;
  so_FsName : string;
  so_Debug : bool;
  so_Logger : zerologWriter
}.

(** go-fuse's server, of type [V]. It gets the handlers with the filesystem
    behind them, which from then on belongs to the requests it serves. *)
Class FuseServers {X : XSync} (W A V : Type) := {
  NewServer : FuseRaw (FileSystem W A) -> string -> ServerOptions -> W -> result V * W;
  go_Serve : V -> W -> W;
  WaitMount : V -> W -> option GoError * W;
  server_Unmount : V -> W -> option GoError * W
}.

(** [os.ReadFile], the run of [fusermount -u] and the wait for a signal. *)
Class System (W : Type) := {
  ReadFile : string -> W -> result bytes * W;
  fusermount : string -> W -> W;
  wait_signal : W -> W
}.

(** The command line, parsed. *)
Record Flags := mkFlags { verbose : Z; nodesDef : string; umount : bool; mnt : string }.

Section server.
Context {X : XSync} {W A P V : Type} {FS : FuseServers W A V} {LG : Zerolog W}.
Abbreviation M := (GoM (WebFS W A P V)).

Definition web_world (s : WebFS W A P V) : W := h_world (fs_heap (web_fs s)).
Definition on_world {B} (f : W -> B * W) : M B := fun s =>
  let '(b, w) := f (web_world s) in
  Ret (b, mkWebFS (put_heap (set_world w (fs_heap (web_fs s))) (web_fs s)) (web_cfg s) (web_server s)
            (web_registry s)).

Definition serve_options (cfg : Config) : ServerOptions :=
  {| so_Name := Config.Name (mountOptions cfg);
     so_FsName := Config.FsName (mountOptions cfg);
     so_Debug := serve_debug cfg;
     so_Logger := NewLogLogger "FuseServer" TraceLevel |}.

Definition Serve (mountPoint : string) : M (option GoError) :=
  s ← get_state;
  let raw := NewFuseRaw (web_fs s) in
  let opts := serve_options (web_cfg s) in
  on_world (fun w => (tt, Println (so_Logger opts) (String.list_byte_of_string "SLOGGER INITIALIZED") w));;
  srv ← on_world (NewServer raw mountPoint opts);
  match srv with
  | Err e => mret (Some e)
  | Ok srv =>
      modify (fun s => mkWebFS (web_fs s) (web_cfg s) (Some srv) (web_registry s));;
      on_world (fun w => (tt, go_Serve srv w));;
      on_world (WaitMount srv)
  end.

Definition Unmount : M (option GoError) :=
  s ← get_state;
  match web_server s with
  | None => mret None
  | Some srv => on_world (server_Unmount srv)
  end.
End server.

(** ** The program *)

Section main.
Context {X : XSync} {W V : Type} {FL : FuseLib} {OS : Process} {TJ : TimeJSON}.
Context {clk : Clock W} {UU : UUIDs W} {HL : HttpLib W} {LG : Zerolog W} {Sys : System W}.
Context {FS : FuseServers W HTTPAdapter V}.
Abbreviation web := (WebFS W HTTPAdapter HTTPProvider V).
Abbreviation M := (GoM web).

(** Loads the definitions file, if there is one; [Some code] ends the program. *)
Definition load_definitions (fl : Flags) : M (option Z) :=
  if decide (nodesDef fl <> "") then
    defData ← on_world (ReadFile (nodesDef fl));
    match defData with
    | Err _ => mret (Some 1)
    | Ok defData => load_nodes defData;; mret None
    end
  else mret None.

(** Mounts, waits for a signal and unmounts; the exit code. *)
Definition serve_until_signal (fl : Flags) : M Z :=
  err ← Serve (mnt fl);
  match err with
  | Some _ => mret 1
  | None => on_world (fun w => (tt, wait_signal w));; Unmount;; mret 0
  end.

(** How the program ends: with its code and, once there is one, the server. *)
Inductive program_end :=
  | Stopped (code : Z) (w : W)
  | Ended (code : Z) (s : web).

Definition main (fl : Flags) (w : W) : outcome program_end :=
  logLvl ← main_logLvl (verbose fl);
  let w := InitializeLogger logLvl w in
  if decide (mnt fl = "") then Ret (Stopped 1 w)
  else
    let w := if umount fl then fusermount (mnt fl) w else w in
    '(_, registry) ← RegisterBuiltins [] NewRegistry;
    cfg ← main_config (verbose fl);
    '(fs, _) ← New cfg registry (empty_heap w);
    '(stop, fs) ← load_definitions fl fs;
    match stop with
    | Some code => Ret (Ended code fs)
    | None => '(code, fs) ← serve_until_signal fl fs; Ret (Ended code fs)
    end.
End main.
