(* ===== verification/MainSpec.v ===== *)
(** The program as a whole: what it mounts, and how it ends. *)

From S2P Require Import Prelude Config Paths Request XSync DataCache AdapterPool Inode Heap.
From S2P Require Import Node NodeContext Tree FileSystem FileSystemSpec FileCreation Reachable.
From S2P Require Import Fuse Bridge FuseSpec FuseFiles Json Decode Registry Requests RequestsSpec Http HttpSpec.
From S2P Require Import Loading LoadingSpec LoadingServes Session Logger Main.

Section main.
Context {X : XSync} `{!XSyncLaws} {W V : Type} {FL : FuseLib} `{!FuseLibLaws} {OS : Process} {TJ : TimeJSON}.
Context {clk : Clock W} {UU : UUIDs W} {HL : HttpLib W} {LG : Zerolog W} {Sys : System W}.
Context {FS : FuseServers W HTTPAdapter V}.
Abbreviation web := (WebFS W HTTPAdapter HTTPProvider V).
Implicit Types (s : web) (fl : Flags) (w : W).

(** ** The server *)

Definition with_server (srv : option V) s : web := mkWebFS (web_fs s) (web_cfg s) srv (web_registry s).

Lemma on_world_run {B} (f : W -> B * W) s :
  on_world f s = Ret ((f (web_world s)).1, with_world (f (web_world s)).2 s).
Proof. unfold on_world. by destruct (f (web_world s)). Qed.

Lemma with_world_twice w w' s : with_world w (with_world w' s) = with_world w s.
Proof. done. Qed.

(** How mounting, serving and unmounting end. An unmount that fails is only
    logged: the code is 0 all the same. *)
Definition served_end fl s : Z * web :=
  let opts := serve_options (web_cfg s) in
  let w := Println (so_Logger opts) (String.list_byte_of_string "SLOGGER INITIALIZED") (web_world s) in
  match NewServer (NewFuseRaw (web_fs s)) (mnt fl) opts w with
  | (Err _, w) => (1, with_world w s)
  | (Ok srv, w) =>
      match WaitMount srv (go_Serve srv w) with
      | (Some _, w) => (1, with_server (Some srv) (with_world w s))
      | (None, w) => (0, with_server (Some srv) (with_world (server_Unmount srv (wait_signal w)).2 s))
      end
  end.

Lemma serve_until_signal_run fl s : serve_until_signal fl s = Ret (served_end fl s).
Proof.
  unfold serve_until_signal, Serve, Unmount, served_end, on_world, modify, mbind, GoM_bind, get_state, mret, GoM_ret,
    web_world. cbn.
  destruct (NewServer _ _ _ _) as [[srv|e] w1]; [|done]. cbn.
  destruct (WaitMount _ _) as [[e|] w2]; [done|]. cbn. by destruct (server_Unmount _ _).
Qed.

(** ** The start *)

Definition builtin_registry : Registry HTTPProvider := mkRegistry None {[HTTPAdapterType := httpProvider]}.

Lemma builtin_registry_run : RegisterBuiltins [] NewRegistry = Ret (tt, builtin_registry).
Proof. reflexivity. Qed.

Lemma main_config_run v : exists cfg, main_config v = Ret cfg /\ serve_options cfg
  = {| so_Name := DefaultName; so_FsName := DefaultFsName; so_Debug := false;
       so_Logger := NewLogLogger "FuseServer" TraceLevel |}.
Proof.
  unfold main_config. rewrite main_logLvl_run. cbn -[verbosity_level].
  unfold NewConfig, merge. cbn -[verbosity_level]. rewrite verbosity_level_run. eexists. split; [done|].
  unfold serve_options, serve_debug. cbn. f_equal. apply Z.eqb_neq. unfold TraceLevel. lia.
Qed.

(** The world once the logger is there and an old mount has been removed. *)
Definition booted fl w : W :=
  let w := InitializeLogger (5 - Z.max 1 (Z.min 5 (verbose fl))) w in
  if umount fl then fusermount (mnt fl) w else w.

Lemma started_served content cfg (a : Attr) w : served content (started (A := HTTPAdapter) cfg a w).
Proof.
  intros names x ino Hx (n & Hn & Hi). cbn [started fs_heap h_nodes h_inodes] in Hn, Hi.
  apply lookup_singleton_Some in Hn as [<- <-]. cbn in Hi.
  apply lookup_singleton_Some in Hi as [_ <-]. split; [constructor | done].
Qed.

(** The server before the definitions are loaded. *)
Definition fresh s : Prop :=
  can_add (web_fs s) (2 ^ 64 - 2) /\ unnumbered (web_fs s) /\ web_server s = None /\
  web_registry s = builtin_registry /\
  serve_options (web_cfg s)
  = {| so_Name := DefaultName; so_FsName := DefaultFsName; so_Debug := false;
       so_Logger := NewLogLogger "FuseServer" TraceLevel |}.

Lemma main_start fl w :
  mnt fl <> "" ->
  exists s, fresh s /\ (forall content, served content (web_fs s)) /\
    main fl w = ('(stop, s) ← load_definitions fl s;
                 match stop with
                 | Some code => Ret (Ended code s)
                 | None => '(code, s) ← serve_until_signal fl s; Ret (Ended code s)
                 end).
Proof.
  intros Hmnt. unfold main. rewrite main_logLvl_run. cbn [mbind outcome_bind].
  rewrite decide_False by done. rewrite builtin_registry_run. cbn [mbind outcome_bind].
  destruct (main_config_run (verbose fl)) as (cfg & -> & Hopts). cbn [mbind outcome_bind].
  unfold New. destruct (NewFS_run (A := HTTPAdapter) cfg (booted fl w)) as (a & w' & h & Hrun & Ha & _).
  unfold booted in Hrun. rewrite Hrun. cbn [mbind outcome_bind].
  exists (mkWebFS (started cfg a w') cfg None builtin_registry). split; [|split; [|done]].
  - split; [|split; [|by split_and!]].
    + split; [by apply started_wf|]. split; [done|]. split; [apply no_writers_empty | done].
    + split; [done|]. cbn. apply Load_Store_eq.
  - intros content. apply started_served.
Qed.

(** ** Loading *)

(** The definitions the program loads: none, or those of a file that can be
    read. *)
Definition definitions_are fl (defs : bytes) : Prop :=
  nodesDef fl = "" /\ defs = [] \/
  nodesDef fl <> "" /\ forall w, exists w', ReadFile (nodesDef fl) w = (Ok defs, w').

(** Every adapter the definitions ask for talks to an honest server. *)
Definition honest_sources (content : list string -> bytes) (defs : bytes) : Prop :=
  forall raw w req w', raw ∈ raw_nodes defs ->
    UnmarshalFileRequest raw w builtin_registry = Ret ((Ok req, w'), builtin_registry) ->
    forall w, Forall (fun h : HTTPAdapter => honest (content (file_names (rq_Path (fr_node req)))) h /\ never_cut h)
                (adapters_of (Sources req) w).1.

Lemma honest_req_serves content (req : FileCreateRequest HTTPProvider) :
  (forall w, Forall (fun h : HTTPAdapter => honest (content (file_names (rq_Path (fr_node req)))) h /\ never_cut h)
               (adapters_of (Sources req) w).1) ->
  req_serves (W := W) content req.
Proof. intros Hall w. eapply Forall_impl; [apply Hall|]. intros h [? ?]. by apply honest_serves. Qed.

Lemma fresh_with_world w s : fresh s -> fresh (with_world w s).
Proof.
  intros (Hcan & Hu & Hsrv & Hreg & Ho). split; [|by split_and!].
  by apply (with_world_grown w s _ Hcan).
Qed.

Lemma grown_unnumbered n (fs fs' : FileSystem W HTTPAdapter) : grown n fs fs' -> unnumbered fs -> unnumbered fs'.
Proof.
  intros (_ & F & _) [Hl Hr]. split; [by rewrite (ff_lastNodeID _ _ F)|].
  by rewrite (ff_registry _ _ F), (ff_root _ _ F).
Qed.

Lemma load_definitions_run fl defs s :
  fresh s -> definitions_are fl defs -> sumZ node_cost (raw_nodes defs) <= 2 ^ 64 - 2 ->
  exists s', load_definitions fl s = Ret (None, s') /\ can_add (web_fs s') 0 /\ unnumbered (web_fs s') /\
    web_server s' = None /\ serve_options (web_cfg s') = serve_options (web_cfg s) /\
    (forall raw path, raw ∈ raw_nodes defs -> asks_dir raw path -> resolves (web_fs s') (components path)) /\
    (forall raw path, raw ∈ raw_nodes defs -> asks_file builtin_registry raw path ->
       resolves (web_fs s') (file_names path)) /\
    (forall content, honest_sources content defs -> served content (web_fs s) -> served content (web_fs s')).
Proof.
  intros Hfresh Hdefs Hcost. unfold load_definitions. destruct Hdefs as [[-> ->]|[Hne Hread]].
  - rewrite decide_False by tauto. destruct Hfresh as (Hcan & Hu & Hsrv & _). exists s.
    split; [done|]. split; [eapply can_add_weaken; [exact Hcan | lia]|].
    split_and!; [done..| | |]; [by intros raw path Hin%not_elem_of_nil.. | done].
  - rewrite decide_True by done. rewrite (bind_run _ _ _ _ _ (on_world_run _ s)).
    destruct (Hread (web_world s)) as [w1 ->]. cbn [fst snd].
    destruct (fresh_with_world w1 s Hfresh) as (Hcan & Hu & Hsrv & Hreg & _).
    assert (Hcan1 : can_add (web_fs (with_world w1 s)) (sumZ node_cost (raw_nodes defs)))
      by (eapply can_add_weaken; [exact Hcan | lia]).
    assert (Hfree : reg_free (web_registry (with_world w1 s))) by (rewrite Hreg; discriminate).
    destruct (load_nodes_run defs _ Hfree Hcan1) as (counts & s' & Hrun & Hcan' & Hg & Hc & Hv & _ & Hds & Hfs).
    exists s'. rewrite Hreg in Hfs. split; [by rewrite (bind_run _ _ _ _ _ Hrun)|]. split; [done|].
    split; [by eapply grown_unnumbered|]. split; [by rewrite Hv|]. split; [by rewrite Hc|]. split_and!; [done..|].
    intros content Hh Hs. eapply (load_nodes_served content); [done | done | | exact Hrun | by apply (served_same content (web_fs s))].
    rewrite Hreg. intros raw w req w' Hraw Hu'. apply honest_req_serves. by eapply Hh.
Qed.

Lemma asks_file_cost (reg : Registry HTTPProvider) raw path :
  reg_free reg -> W -> asks_file (W := W) (A := HTTPAdapter) reg raw path ->
  node_cost raw = Z.of_nat (length (file_names path)).
Proof.
  intros Hfree w [Htype Ha]. destruct (Ha w) as (req & w' & Hrun & Hp & _).
  destruct (UnmarshalFileRequest_run raw w reg Hfree) as (res & w1 & Hrun1 & Hspec).
  rewrite Hrun in Hrun1. injection Hrun1 as <- <-. unfold node_cost. rewrite Htype.
  destruct (Unmarshal dec_file_dto raw file_dto0) as [dto|e]; [|by destruct Hspec].
  destruct Hspec as (raws & types & _ & _ & _ & _ & Hn & _). rewrite Hn, convert_path in Hp. rewrite Hp.
  unfold path_cost, file_names. rewrite length_app. cbn. lia.
Qed.

Lemma sumZ_elem {B} (f : B -> Z) x l : (forall y, 0 <= f y) -> x ∈ l -> f x <= sumZ f l.
Proof.
  intros Hf. induction l as [|y l IH]; [by intros ?%not_elem_of_nil|]. rewrite sumZ_cons.
  pose proof (sumZ_nonneg f l Hf). intros [->|Hin]%elem_of_cons; [lia|]. specialize (IH Hin). specialize (Hf y). lia.
Qed.

(** ** Properties *)

(** C1: from the command line to the bytes. With a mount point and definitions
    that can be read and fit the inode numbers, the program loads them and
    mounts: go-fuse's server is made with the options of the default
    configuration, and the exit code is 1 when it cannot be made or mounted and
    0 after a signal. The filesystem it is given is well formed; every
    directory definition resolves in it; and when the adapters' servers are
    honest, every file definition is found by its path through the FUSE
    adapter, can be opened, and a read of it answers exactly the bytes that
    belong at that path, or [EIO]. *)
Theorem main_mounts content fl w defs :
  mnt fl <> "" -> definitions_are fl defs -> sumZ node_cost (raw_nodes defs) <= 2 ^ 64 - 2 ->
  honest_sources content defs ->
  exists s, main fl w = Ret (Ended (served_end fl s).1 (served_end fl s).2) /\
    fs_ok (web_fs s) /\
    serve_options (web_cfg s) = {| so_Name := "webfs"; so_FsName := "webfs"; so_Debug := false;
                                   so_Logger := NewLogLogger "FuseServer" TraceLevel |} /\
    (forall raw path, raw ∈ raw_nodes defs -> asks_dir raw path -> resolves (web_fs s) (components path)) /\
    (forall raw path out oout offset size, raw ∈ raw_nodes defs -> asks_file builtin_registry raw path ->
       valid_request offset size -> size <= maxAlloc ->
       exists id r1 fh r2 res r3,
         kernel_walk out FUSE_ROOT_ID (file_names path) (NewFuseRaw (web_fs s)) = Ret ((OK, id), r1) /\
         Open id oout r1 = Ret ((OK, fh), r2) /\ raw_Read fh offset size r2 = Ret (res, r3) /\
         (res = (Some (file_bytes (content (file_names path)) offset size), OK) \/ res = (None, EIO))).
Proof.
  intros Hmnt Hdefs Hcost Hh. destruct (main_start fl w Hmnt) as (s0 & Hfresh & Hs0 & ->).
  destruct (load_definitions_run fl defs s0 Hfresh Hdefs Hcost)
    as (s & Hrun & (Hwf & Hlk & Hw & _) & Hu & _ & Ho & Hds & Hfs & Hserved).
  exists s. rewrite Hrun. cbn [mbind outcome_bind]. rewrite serve_until_signal_run. cbn [mbind outcome_bind].
  split; [by destruct (served_end fl s)|]. split; [by split|]. split; [by rewrite Ho; apply Hfresh|].
  split; [done|]. intros raw path out oout offset size Hraw Ha Hv Hm.
  destruct (mounted_path_run content (web_fs s) (file_names path) out oout offset size) as (id & Hreads);
    [done.. | by apply Hserved | by eapply Hfs | | done | done | by exists id].
  rewrite <-(asks_file_cost builtin_registry raw path) by done.
  pose proof (sumZ_elem node_cost raw _ node_cost_nonneg Hraw). lia.
Qed.

(** C28: when the program refuses to start. Without a mount point it ends with
    code 1 before anything but the logger has been set up; when the definitions
    file cannot be read it ends with code 1 and no server, on a filesystem with
    nothing but the root. *)
Theorem main_stops fl w :
  (mnt fl = "" -> main fl w = Ret (Stopped 1 (InitializeLogger (5 - Z.max 1 (Z.min 5 (verbose fl))) w))) /\
  (mnt fl <> "" -> nodesDef fl <> "" -> (forall w, exists e w', ReadFile (nodesDef fl) w = (Err e, w')) ->
   exists s, main fl w = Ret (Ended 1 s) /\ web_server s = None /\ unnumbered (web_fs s)).
Proof.
  split.
  - intros Hmnt. unfold main. rewrite main_logLvl_run. cbn [mbind outcome_bind]. by rewrite decide_True by done.
  - intros Hmnt Hnodes Hread. destruct (main_start fl w Hmnt) as (s0 & Hfresh & _ & ->).
    unfold load_definitions. rewrite decide_True by done.
    rewrite (bind_run _ _ _ _ _ (on_world_run _ s0)). destruct (Hread (web_world s0)) as (e & w1 & ->). cbn.
    exists (with_world w1 s0). split; [done|]. destruct (fresh_with_world w1 s0 Hfresh) as (_ & ? & ? & _). done.
Qed.
End main.
