(* ===== verification/ServeAsync.v ===== *)
(** [WebFS.ServeAsync] (src/server/webfs.go): [Serve] in a goroutine that
    reports through a channel of capacity one and closes it. The goroutine and
    any number of receivers are interleaved. *)

From S2P Require Import Prelude Config XSync Heap Request FileSystem Registry Fuse Loading Logger Main.

Section async.
Context {X : XSync} {W A P V : Type} {FS : FuseServers W A V} {LG : Zerolog W}.

(** [chan error] of capacity one: an error or nil that is waiting. *)
Record Chan := mkChan { waiting : option (option GoError); closed : bool }.

Definition make_chan : Chan := {| waiting := None; closed := false |}.

(** Where the goroutine is: before [Serve], with its result before the send,
    before the close, or at its end. *)
Inductive async_pc := AtServe | AtSend (err : option GoError) | AtClose | AtEnd.

Record Async := mkAsync { async_pc_of : async_pc; done_chan : Chan; async_web : WebFS W A P V }.

Definition ServeAsync (s : WebFS W A P V) : Async := mkAsync AtServe make_chan s.

(** One step of the goroutine; [Blocked] when the channel is full, a panic when
    it is closed. *)
Definition async_next (mountPoint : string) (a : Async) : outcome Async :=
  let c := done_chan a in
  match async_pc_of a with
  | AtServe => '(err, s) ← Serve mountPoint (async_web a); Ret (mkAsync (AtSend err) c s)
  | AtSend err =>
      if closed c then Panic
      else match waiting c with
           | Some _ => Blocked
           | None => Ret (mkAsync AtClose (mkChan (Some err) false) (async_web a))
           end
  | AtClose => if closed c then Panic else Ret (mkAsync AtEnd (mkChan (waiting c) true) (async_web a))
  | AtEnd => Ret a
  end.

(** A receive: the value that waits, or nil from a closed channel. *)
Definition receive (a : Async) : outcome (option GoError * Async) :=
  let c := done_chan a in
  match waiting c with
  | Some err => Ret (err, mkAsync (async_pc_of a) (mkChan None (closed c)) (async_web a))
  | None => if closed c then Ret (None, a) else Blocked
  end.

(** An interleaving, with the values received so far. *)
Inductive async_step (mountPoint : string) : list (option GoError) * Async -> list (option GoError) * Async -> Prop :=
  | step_go got a a' : async_next mountPoint a = Ret a' -> async_step mountPoint (got, a) (got, a')
  | step_receive got a v a' : receive a = Ret (v, a') -> async_step mountPoint (got, a) (got ++ [v], a').

(** ** Properties *)

(** What has been received and what waits, at every point of the goroutine. *)
Definition async_inv (err : option GoError) (s' : WebFS W A P V) (x : list (option GoError) * Async) : Prop :=
  let '(got, a) := x in
  match async_pc_of a with
  | AtServe => False
  | AtSend e => e = err /\ got = [] /\ done_chan a = make_chan /\ async_web a = s'
  | AtClose => closed (done_chan a) = false /\ async_web a = s' /\
      (got = [] /\ waiting (done_chan a) = Some err \/ got = [err] /\ waiting (done_chan a) = None)
  | AtEnd => closed (done_chan a) = true /\ async_web a = s' /\
      (got = [] /\ waiting (done_chan a) = Some err \/
       exists k, got = err :: replicate k None /\ waiting (done_chan a) = None)
  end.

Lemma async_step_inv mp err s' x y : async_inv err s' x -> async_step mp x y -> async_inv err s' y.
Proof.
  intros Hinv Hstep. destruct Hstep as [got [pc c w] a' Hrun|got [pc [wait cl] w] v a' Hrun].
  - cbn in Hinv. destruct pc as [|e| |]; [done| | |]; unfold async_next in Hrun; cbn in Hrun.
    + destruct Hinv as (-> & -> & -> & ->). injection Hrun as <-. cbn. auto.
    + destruct Hinv as (Hcl & -> & Hor). rewrite Hcl in Hrun. injection Hrun as <-. cbn.
      split; [done|]. split; [done|]. destruct Hor as [Hor|[-> Hw]]; [by left|right].
      by exists 0%nat.
    + by injection Hrun as <-.
  - cbn in Hinv. unfold receive in Hrun. cbn in Hrun. destruct wait as [e|].
    + injection Hrun as <- <-. destruct pc as [|e'| |]; cbn in *; [done| | |].
      * by destruct Hinv as (_ & _ & [=] & _).
      * destruct Hinv as (Hcl & Hs & [[-> [= ->]]|[_ [=]]]). split_and!; [done..|]. by right.
      * destruct Hinv as (Hcl & Hs & [[-> [= ->]]|(k & _ & [=])]). split_and!; [done..|]. right. by exists 0%nat.
    + destruct cl; [|done]. injection Hrun as <- <-. destruct pc as [|e'| |]; cbn in *; [done| | |].
      * by destruct Hinv as (_ & _ & [=] & _).
      * by destruct Hinv as ([=] & _).
      * destruct Hinv as (Hcl & Hs & [[_ [=]]|(k & -> & _)]). split_and!; [done..|]. right.
        exists (S k). split; [|done]. cbn. by rewrite <-replicate_cons_app.
Qed.

(** C17: [ServeAsync] reports exactly once. However the goroutine and the
    receivers are interleaved, the goroutine never panics or blocks, even if
    nobody receives; it leaves the server as [Serve] does; the first value
    received is the result of [Serve], and every later one is nil: a second
    reader is told of no error even when the mount failed. Once the goroutine
    has ended no receive blocks. *)
Theorem ServeAsync_reports mountPoint s err s' got a :
  Serve mountPoint s = Ret (err, s') ->
  rtc (async_step mountPoint) ([], ServeAsync s) (got, a) ->
  (exists a', async_next mountPoint a = Ret a') /\
  (got = [] \/ exists k, got = err :: replicate k None) /\
  (async_pc_of a = AtEnd -> async_web a = s' /\ exists v a', receive a = Ret (v, a')) /\
  (async_pc_of a = AtServe -> a = ServeAsync s).
Proof.
  intros Hserve Hsteps.
  assert (Hinv : (got, a) = ([], ServeAsync s) \/ async_inv err s' (got, a)).
  { remember ([], ServeAsync s) as x eqn:Hx. remember (got, a) as y eqn:Hy. rewrite Hx. clear Hy.
    assert (Hgo : forall x y, rtc (async_step mountPoint) x y -> async_inv err s' x -> async_inv err s' y).
    { clear. induction 1; eauto using async_step_inv. }
    destruct Hsteps as [x|x y z Hstep Hrest]; [by left|]. right. subst x. apply (Hgo _ _ Hrest).
    inversion Hstep as [? ? a' Hrun|? ? ? ? Hrun]; subst; [|done].
    unfold async_next in Hrun. cbn in Hrun. rewrite Hserve in Hrun. injection Hrun as <-. by cbn. }
  destruct Hinv as [[= -> ->]|Hinv].
  - split; [|split; [by left | by split]]. eexists. unfold async_next. cbn. by rewrite Hserve.
  - destruct a as [pc [wait cl] w]. cbn in *. unfold async_next, receive. cbn.
    destruct pc as [|e| |]; [done|..].
    + destruct Hinv as (-> & -> & [= -> ->] & ->). split_and!; [by eexists | by left | done | done].
    + destruct Hinv as (-> & -> & Hor). split_and!; [by eexists | | done | done].
      destruct Hor as [[-> _]|[-> _]]; [by left | right; by exists 0%nat].
    + destruct Hinv as (-> & -> & Hor). split_and!; [by eexists | | | done].
      * destruct Hor as [[-> _]|(k & -> & _)]; [by left | right; by exists k].
      * intros _. split; [done|]. destruct wait; by eexists _, _.
Qed.
End async.
