(* ===== verification/HttpSamples.v ===== *)
(** Concrete HTTP servers on which the theorems about the adapter apply: one
    that ignores ranges and sends the whole file, one that answers ranges and
    is cut off, one that does not tell the length. *)

From S2P Require Import Prelude Request DataCache AdapterPool Inode Json Decode Http HttpSpec.

Module HttpSample.

(** A text with its single quotes as double quotes. *)
Definition text (s : string) : bytes :=
  (fun b : byte => if decide (b = "'"%byte) then quote else b) <$> String.list_byte_of_string s.

(** A server that answers every request alike; the world is a clock. *)
Definition server (resp : HttpResponse) : HttpLib Z := {|
  request_error method url := if decide (url = "") then Some (ErrExternal "empty url") else None;
  Do ctx req w := (Ok resp, w + 1);
  ParseTime s := Some 0;
  range_map w m := map_to_list m
|}.

Lemma server_laws resp : HttpLibLaws (HL := server resp).
Proof. by intros w m. Qed.

Definition whole : HttpResponse :=
  mkResponse 200 "200 OK" (-1) {["Etag" := ["v1"]]} (mkBody sample_file io_EOF).
Definition cut : HttpResponse :=
  mkResponse 206 "206 Partial Content" 4 ∅ (mkBody [x62; x63]%byte io_ErrUnexpectedEOF).

Definition adapter : HTTPAdapter :=
  Eval vm_compute in
  match http_Adapter httpProvider
          (text "{'type':'http','url':'http://host/f','headers':{'x-token':'t','accept':'*/*'}}") with
  | Ok a => a
  | Err _ => mkHTTPAdapter http_source0
  end.

Lemma whole_honest h : honest (HL := server whole) sample_file h.
Proof.
  intros ctx req w offset size resp w' _ _ _ [= <- _]. split; [done|]. intros _. by left.
Qed.

Lemma whole_never_cut h : never_cut (HL := server whole) h.
Proof. by intros ctx req w resp w' _ [= <- _]. Qed.

Definition buf : bytes := replicate 4 x00.

(** The request of a read of four bytes at offset 1. *)
Definition request (resp : HttpResponse) : HttpRequest :=
  match range_request (HL := server resp) adapter 1 4 0 with Ok req => req | Err _ => mkRequest "" "" ∅ end.
End HttpSample.

Import HttpSample.

Lemma http_file_read_witness :
  exists r i' w', Read (clk := Sample.clock) (FA := http_adapter_ops (HL := server whole))
      (NewInode Sample.attr0 [adapter; adapter]) Background 1 4 0 = Ret ((r, i'), w') /\
    forall d, r = Ok d -> d = file_bytes sample_file 1 4.
Proof.
  apply (http_file_read (HL := server whole) sample_file Sample.attr0 [adapter; adapter] 0).
  - repeat (apply Forall_cons; split; [exact (conj (whole_honest adapter) (whole_never_cut adapter))|]). apply Forall_nil_2.
  - apply rtc_refl.
  - exact Sample.valid14.
  - exact Sample.small4.
Defined.

Lemma http_Read_truncated_witness :
  http_Read (HL := server cut) adapter Background 1 4 buf 0
  = Ret ((2, None, [x62; x63; x00; x00]%byte), 1).
Proof.
  apply (http_Read_truncated (HL := server cut) adapter Background 1 4 buf 0 (request cut) cut [x62; x63]%byte 1);
    [vm_compute; reflexivity | reflexivity | reflexivity | reflexivity | reflexivity | cbn; lia].
Defined.

Lemma http_Read_errors_witness :
  (StatusCode whole <> 200 -> StatusCode whole <> 206 ->
     http_Read (HL := server whole) adapter Background 100 4 buf 0
     = Ret ((0, Some (ErrStatus (StatusCode whole)), buf), 1)) /\
  (StatusCode whole = 200 -> Z.of_nat (length (body_data (resp_Body whole))) < 100 ->
     http_Read (HL := server whole) adapter Background 100 4 buf 0 = Ret ((0, Some ErrSkip, buf), 1)).
Proof.
  apply (http_Read_errors (HL := server whole) adapter Background 100 4 buf 0
           (match range_request (HL := server whole) adapter 100 4 0 with Ok req => req | Err _ => request whole end)
           whole 1); [vm_compute; reflexivity | reflexivity | cbn; lia].
Defined.

Lemma range_request_spec_witness :
  asks_range adapter 1 4 (request whole) /\
  forall k v, Headers (cfg adapter) !! k = Some v -> CanonicalHeaderKey k <> "Range" ->
    (forall k', is_Some (Headers (cfg adapter) !! k') -> CanonicalHeaderKey k' = CanonicalHeaderKey k -> k' = k) ->
    Header_Get k (req_Header (request whole)) = v.
Proof.
  apply (range_request_spec (HL := server whole) (H := server_laws whole) adapter 1 4 0).
  - exact Sample.valid14.
  - vm_compute. reflexivity.
Defined.

(** The size of a file whose server does not tell the length. *)
Example unknown_length :
  match GetMeta (HL := server whole) adapter Background 0 with
  | (Ok meta, _) => meta_Size meta = 2 ^ 64 - 1 /\ Version meta = "v1"
  | (Err _, _) => False
  end.
Proof. vm_compute. split; reflexivity. Qed.

Example adapter_headers : Header_Get "X-Token" (req_Header (request whole)) = "t".
Proof. vm_compute. reflexivity. Qed.

Lemma GetMeta_spec_witness :
  exists meta, GetMeta (HL := server whole) adapter Background 0 = (Ok meta, 1) /\ meta_Size meta = 2 ^ 64 - 1.
Proof.
  pose proof (GetMeta_spec (HL := server whole) adapter Background 0) as Hm.
  destruct Hm as (_ & _ & _ & Hok). destruct Hok as (meta & Hrun & _ & _ & _ & Hsize); [cbn; lia|].
  exists meta. split; [exact Hrun | apply Hsize; reflexivity].
Defined.
