(* ===== verification/LoadingSamples.v ===== *)
(** A definitions file, the registry with the built-in adapters and the
    filesystem they are loaded into. *)

From S2P Require Import Prelude Config Paths Request XSync DataCache AdapterPool Inode Heap.
From S2P Require Import Node NodeContext Tree FileSystem FileSystemSpec FileCreation NodeRegistry.
From S2P Require Import Reachable FileSystemSamples Json Decode Registry Requests RequestsSpec.
From S2P Require Import Http HttpSpec HttpSamples Loading LoadingSpec LoadingTree LoadingServes.

Module LoadSample.
Import FSSample HttpSample.

#[global] Instance time_json : TimeJSON := fun t => Some 0.
#[global] Instance uuids : UUIDs Z := fun w => ("uuid", w + 1).
#[global] Instance http_lib : HttpLib Z := server whole.

Abbreviation web := (WebFS Z HTTPAdapter HTTPProvider unit).

Definition definitions : bytes := text
  "[ {'type':'dir', 'path':'/docs', 'perms':493},
     {'type':'file', 'path':'/docs/f', 'Size':9,
      'sources':[ {'type':'http', 'url':'http://host/f', 'priority':5}, {'type':'http','url':'http://mirror/f'} ]},
     {'type':'file', 'path':'/g', 'sources':[ {'type':'ftp'} ]},
     {'type':'link'}, 7 ]".

Definition registry : Registry HTTPProvider :=
  match RegisterBuiltins [] NewRegistry with Ret (_, r) => r | _ => NewRegistry end.

Definition fs0 : FileSystem Z HTTPAdapter :=
  match NewFS defaultConfig (empty_heap 0) with Ret (s, _) => s | _ => started defaultConfig Sample.attr0 0 end.

Definition web0 : web := mkWebFS fs0 defaultConfig None registry.

Definition dir_def : bytes := text "{'type':'dir', 'path':'/docs', 'perms':493}".
Definition file_def : bytes := text
  "{'type':'file', 'path':'/docs/f', 'Size':9,
      'sources':[ {'type':'http', 'url':'http://host/f', 'priority':5}, {'type':'http','url':'http://mirror/f'} ]}".

Lemma raw_definitions : exists others, raw_nodes definitions = dir_def :: file_def :: others.
Proof.
  exists (drop 2 (raw_nodes definitions)). vm_compute. reflexivity.
Qed.

Lemma fs0_ok : fs_ok fs0.
Proof.
  destruct (NewFS_run (A := HTTPAdapter) defaultConfig 0) as (a & w & h & Hrun & _).
  eapply (fs_steps_ok (P := HTTPProvider)); [|apply rtc_refl]. unfold fs0. by rewrite Hrun.
Qed.

Lemma can_load : can_add (web_fs web0) (sumZ node_cost (raw_nodes definitions)).
Proof.
  destruct fs0_ok as [Hwf Hlk]. split; [exact Hwf|]. split; [exact Hlk|]. split.
  - change (no_writers (h_locks (fs_heap fs0))). replace (h_locks (fs_heap fs0)) with (∅ : locktable).
    + apply no_writers_empty.
    + vm_compute. reflexivity.
  - vm_compute. reflexivity.
Qed.

Lemma registry_free : reg_free (web_registry web0).
Proof. vm_compute. discriminate. Qed.

Lemma dir_asked : asks_dir dir_def "/docs".
Proof.
  split; [vm_compute; reflexivity|].
  exists (match Unmarshal dec_dir_dto dir_def node_dto0 with Ok d => d | Err _ => node_dto0 end).
  split; vm_compute; reflexivity.
Qed.

(** The two sources of the file. *)
Definition src (i : Z) (s : string) : FileSource HTTPProvider := mkSource httpProvider (text s) i.
Definition file_sources : list (FileSource HTTPProvider) :=
  [src 5 "{'type':'http', 'url':'http://host/f', 'priority':5}"; src 1 "{'type':'http','url':'http://mirror/f'}"].

Lemma file_decodes w : exists n, UnmarshalFileRequest file_def w registry
  = Ret ((Ok (mkFileRequest n file_sources), w + Second + 1), registry) /\ rq_Path n = "/docs/f".
Proof. eexists. split; [vm_compute; reflexivity | reflexivity]. Qed.

Lemma file_asked : asks_file registry file_def "/docs/f".
Proof.
  split; [vm_compute; reflexivity|]. intros w. destruct (file_decodes w) as (n & Hrun & Hp).
  eexists _, _. split; [exact Hrun|]. split; [exact Hp|]. intros w'. vm_compute. discriminate.
Qed.

(** Nothing else is in the way of the file. *)
Lemma docs_f_free : file_path_free (web_fs web0) (raw_nodes definitions) ["docs"; "f"].
Proof.
  assert (Hd : Forall (fun raw => match raw_dir raw with
                                  | Some q => bool_decide (["docs"; "f"] `prefix_of` components q)
                                  | None => false end = false) (raw_nodes definitions)).
  { apply (bool_decide_eq_true_1 _). vm_compute. reflexivity. }
  assert (Hf : Forall (fun raw => match raw_file raw with
                                  | Some q => bool_decide (["docs"; "f"] `prefix_of` components (path_Split q).1)
                                  | None => false end = false) (raw_nodes definitions)).
  { apply (bool_decide_eq_true_1 _). vm_compute. reflexivity. }
  split; [vm_compute; reflexivity|]. rewrite Forall_forall in Hd, Hf.
  split; intros raw q Hraw E; [specialize (Hd raw Hraw) | specialize (Hf raw Hraw)];
    rewrite E in *; by eapply bool_decide_eq_false_1.
Qed.
End LoadSample.

Import LoadSample.

Lemma UnmarshalFileRequest_spec_witness :
  exists req w', UnmarshalFileRequest file_def 0 registry = Ret ((Ok req, w'), registry) /\
    Sources req = file_sources /\ rq_Path (fr_node req) = "/docs/f".
Proof.
  destruct (UnmarshalFileRequest_spec (P := HTTPProvider) file_def 0 registry registry_free)
    as (res & w' & Hrun & _).
  destruct (file_decodes 0) as (n & Hrun' & Hp). exists (mkFileRequest n file_sources), (0 + Second + 1).
  split; [exact Hrun' | split; [reflexivity | exact Hp]].
Defined.

Lemma RegisterBuiltins_spec_witness :
  exists r, RegisterBuiltins [] NewRegistry = Ret (tt, r) /\ RegisterBuiltins [] r = Ret (tt, r).
Proof.
  destruct (RegisterBuiltins_spec []) as (r & Hrun & _ & _ & Hagain).
  exists r. split; [exact Hrun | apply Hagain; reflexivity].
Defined.

Lemma load_nodes_complete_witness :
  exists counts (s' : web), load_nodes definitions web0 = Ret (counts, s') /\ fs_ok (web_fs s') /\
    (exists (d : DirCreateRequest) x, ["docs"] `prefix_of` components (rq_Path (dr_node d)) /\
       walk (fs_heap (web_fs s')) (root (web_fs s')) ["docs"] = Some x /\
       made_dir (dr_node d) (fs_heap (web_fs s')) x) /\
    (exists (req : FileCreateRequest HTTPProvider) ads x, built (W := Z) req ads /\ ads <> [] /\
       walk (fs_heap (web_fs s')) (root (web_fs s')) ["docs"; "f"] = Some x /\
       made_file (fr_node req) ads (fs_heap (web_fs s')) x).
Proof.
  destruct (load_nodes_complete definitions web0 registry_free can_load)
    as (counts & s' & files & ds & pools & Hrun & Hok & _ & _ & _ & _ & _ & _ & Hdirs & Hfiles).
  exists counts, s'. destruct raw_definitions as [others Hraw].
  split; [exact Hrun|]. split; [exact Hok|]. split.
  - destruct (Hdirs dir_def "/docs") as [_ Hdir]; [rewrite Hraw; left | exact dir_asked |].
    destruct Hdir as (d & x & _ & Hpre & Hx & Hmade); [vm_compute; reflexivity|].
    exists d, x. split; [exact Hpre|]. split; [exact Hx | exact Hmade].
  - destruct (Hfiles file_def "/docs/f") as [_ Hfile]; [rewrite Hraw; right; left | exact file_asked |].
    destruct Hfile as (req & ads & x & _ & _ & Hb & Hne & Hx & Hmade); [exact docs_f_free|].
    exists req, ads, x. split; [exact Hb|]. split; [exact Hne|]. split; [exact Hx | exact Hmade].
Defined.

(** Every source of a definition is served by the sample server. *)
Lemma all_serve (req : FileCreateRequest HTTPProvider) : req_serves (fun _ => sample_file) req.
Proof.
  intros w. generalize (Sources req). intros sources. revert w.
  induction sources as [|source sources IH]; intros w; [constructor|].
  cbn [adapters_of]. destruct (source_Adapter source w) as [r w1].
  specialize (IH w1). destruct (adapters_of sources w1) as [adapters w2]. cbn in *.
  destruct r as [h|e]; [|exact IH]. constructor; [|exact IH].
  apply honest_serves; [apply HttpSample.whole_honest | apply HttpSample.whole_never_cut].
Qed.

Lemma served0 : served (fun _ => sample_file) (web_fs web0).
Proof.
  destruct (NewFS_run (A := HTTPAdapter) defaultConfig 0) as (a & w & h & Hrun & _).
  unfold web0, fs0. cbn [web_fs]. rewrite Hrun. intros names x ino Hx (n & Hn & Hi). cbn in Hi.
  apply lookup_singleton_Some in Hi as [_ <-]. split; [constructor | done].
Qed.

Lemma load_nodes_faithful_witness :
  exists counts (s' : web) x ino, load_nodes definitions web0 = Ret (counts, s') /\
    walk (fs_heap (web_fs s')) (root (web_fs s')) ["docs"; "f"] = Some x /\
    inode_of (web_fs s') x ino /\
    (exists r ino' w', Read ino Background 2 3 0 = Ret ((r, ino'), w') /\
      forall d, r = Ok d -> d = file_bytes sample_file 2 3) /\
    exists (req : FileCreateRequest HTTPProvider) ads, built (W := Z) req ads /\ ads <> [] /\
      made_file (fr_node req) ads (fs_heap (web_fs s')) x /\
      forall a w, a ∈ ads -> answers a 2 3 ->
        exists ino' w', Read ino Background 2 3 w = Ret ((Ok (file_bytes sample_file 2 3), ino'), w').
Proof.
  destruct (load_nodes_faithful (fun _ => sample_file) definitions web0 registry_free can_load
           (fun raw w req w' _ _ => all_serve req) served0) as (counts & s' & Hload & _ & Hfiles).
  destruct raw_definitions as [others Hraw].
  destruct (Hfiles file_def "/docs/f") as (x & ino & Hx & Hino & Hread & Hfile);
    [rewrite Hraw; right; left | exact file_asked |].
  assert (Hv : valid_request 2 3) by (split_and!; vm_compute; congruence).
  assert (Hm : 3 <= maxAlloc) by (vm_compute; congruence).
  exists counts, s', x, ino. split; [exact Hload|]. split; [exact Hx|]. split; [exact Hino|].
  split; [exact (Hread Background 2 3 0 Hv Hm)|].
  destruct (Hfile docs_f_free) as (req & ads & _ & Hb & Hne & Hmade & Hans).
  exists req, ads. split; [exact Hb|]. split; [exact Hne|]. split; [exact Hmade|].
  intros a w Hin Ha. exact (Hans a 2 3 w Hin Ha Hv Hm).
Defined.

(** The sample server answers that read. *)
Example whole_answers : answers HttpSample.adapter 2 3.
Proof.
  intros [|b1 [|b2 [|b3 [|b4 rest]]]] w Hlen; try (cbn in Hlen; lia).
  eexists _, _, _. vm_compute. reflexivity.
Qed.
