(* ===== verification/MainSamples.v ===== *)
(** A command line, a definitions file and a server that mounts: the program
    on concrete inputs. *)

From S2P Require Import Prelude Config Paths Request XSync DataCache AdapterPool Inode Heap.
From S2P Require Import Node NodeContext Tree FileSystem FileSystemSpec FileCreation NodeRegistry.
From S2P Require Import Reachable FileSystemSamples Fuse Bridge FuseSpec FuseFiles.
From S2P Require Import Json Decode Registry Requests RequestsSpec Http HttpSpec.
From S2P Require Import HttpSamples Loading LoadingSpec LoadingServes LoadingSamples Session.
From S2P Require Import Logger Main MainSpec ServeAsync.

Module MainSample.
Import FSSample HttpSample LoadSample.

(** The world is a clock; log lines do not change it. *)
#[global] Instance zerolog : Zerolog Z := {
  SetGlobalLevel _ w := w;
  set_global_logger _ w := w;
  log_Msg _ _ _ w := w
}.
#[global] Instance system : System Z := {
  ReadFile path w := (if decide (path = "nodes.json") then Ok definitions else Err (ErrExternal "no such file"), w);
  fusermount _ w := w;
  wait_signal w := w + 1
}.
#[global] Instance servers : FuseServers Z HTTPAdapter unit := {
  NewServer _ _ _ w := (Ok tt, w);
  go_Serve _ w := w;
  WaitMount _ w := (None, w);
  server_Unmount _ w := (None, w)
}.

Definition flags : Flags := mkFlags 3 "nodes.json" false "/mnt".
Definition out0 : EntryOut := mkEntryOut 0 0 Sample.attr0 0 0.

Lemma sources_honest : honest_sources (fun _ => sample_file) definitions.
Proof.
  intros raw w req w' _ _ w0. generalize (Sources req). intros sources. revert w0.
  induction sources as [|source sources IH]; intros w0; [constructor|].
  cbn [adapters_of]. destruct (source_Adapter source w0) as [r w1].
  specialize (IH w1). destruct (adapters_of sources w1) as [adapters w2]. cbn in *.
  destruct r as [h|e]; [|exact IH]. constructor; [|exact IH].
  split; [apply whole_honest | apply whole_never_cut].
Qed.

(** A log that keeps its messages, and a line of a library's logger. *)
#[global] Instance messages : Zerolog (list bytes) := {
  SetGlobalLevel _ w := w;
  set_global_logger _ w := w;
  log_Msg _ _ msg w := w ++ [msg]
}.

Definition line : bytes := String.list_byte_of_string "rx 4: LOOKUP n1: no such file".

(** A server that cannot be mounted. *)
Definition no_mount : GoError := ErrExternal "fusermount failed".
#[global] Instance broken_servers : FuseServers Z HTTPAdapter bool := {
  NewServer _ _ _ w := (Err no_mount, w);
  go_Serve _ w := w;
  WaitMount _ w := (None, w);
  server_Unmount _ w := (None, w)
}.
Definition unmounted : WebFS Z HTTPAdapter HTTPProvider bool := mkWebFS fs0 defaultConfig None registry.
Definition reported : Async := mkAsync (V := bool) AtEnd (mkChan None true) unmounted.

(** The goroutine runs to its end and two receivers follow. *)
Lemma reported_run : rtc (async_step "/mnt") ([], ServeAsync unmounted) ([Some no_mount; None], reported).
Proof.
  eapply rtc_l; [apply step_go; reflexivity|].
  eapply rtc_l; [apply step_go; reflexivity|].
  eapply rtc_l; [apply step_go; reflexivity|].
  eapply rtc_l; [apply step_receive; reflexivity|].
  eapply rtc_l; [apply step_receive; reflexivity|].
  apply rtc_refl.
Qed.
End MainSample.

Import FSSample HttpSample LoadSample MainSample.

Lemma NewLogLogger_Println_witness :
  Println (NewLogLogger "FuseServer" TraceLevel) line [] = [String.list_byte_of_string "no such file"].
Proof.
  refine (proj2 (proj2 (NewLogLogger_Println "FuseServer" TraceLevel line [] _))
            (String.list_byte_of_string "rx 4: LOOKUP n1") (String.list_byte_of_string "no such file") _ _ _).
  - apply (bool_decide_unpack _). vm_compute. exact I.
  - vm_compute. reflexivity.
  - vm_compute. reflexivity.
  - discriminate.
Defined.

Lemma main_mounts_witness :
  exists s, main flags 0 = Ret (Ended (served_end flags s).1 (served_end flags s).2) /\
    exists id r1 fh r2 res r3,
      kernel_walk out0 FUSE_ROOT_ID (file_names "/docs/f") (NewFuseRaw (web_fs s)) = Ret ((OK, id), r1) /\
      Open id 0 r1 = Ret ((OK, fh), r2) /\ raw_Read fh 2 3 r2 = Ret (res, r3) /\
      (res = (Some (file_bytes sample_file 2 3), OK) \/ res = (None, EIO)).
Proof.
  destruct (main_mounts (fun _ => sample_file) flags 0 definitions) as (s & Hrun & _ & _ & _ & Hreads).
  - discriminate.
  - right. split; [discriminate|]. intros w. exists w. reflexivity.
  - vm_compute. congruence.
  - exact sources_honest.
  - exists s. split; [exact Hrun|]. destruct raw_definitions as [others Hraw].
    apply (Hreads file_def "/docs/f"); [rewrite Hraw; right; left | exact file_asked | |].
    + split_and!; vm_compute; congruence.
    + vm_compute. congruence.
Defined.

Lemma main_stops_witness :
  main (mkFlags 3 "nodes.json" false "") 0 = Ret (Stopped 1 0) /\
  exists s, main (mkFlags 9 "missing.json" true "/mnt") 0 = Ret (Ended 1 s) /\ web_server s = None.
Proof.
  split.
  - rewrite (proj1 (main_stops (mkFlags 3 "nodes.json" false "") 0) eq_refl). reflexivity.
  - destruct (proj2 (main_stops (mkFlags 9 "missing.json" true "/mnt") 0)) as (s & Hrun & Hsrv & _).
    + discriminate.
    + discriminate.
    + intros w. exists (ErrExternal "no such file"), w. reflexivity.
    + exists s. split; [exact Hrun | exact Hsrv].
Defined.

Lemma ServeAsync_reports_witness :
  Serve "/mnt" unmounted = Ret (Some no_mount, unmounted) /\
  ([Some no_mount; None] = [] \/ exists k, [Some no_mount; None] = Some no_mount :: replicate k None).
Proof.
  assert (Hserve : Serve "/mnt" unmounted = Ret (Some no_mount, unmounted)) by reflexivity.
  split; [exact Hserve|].
  destruct (ServeAsync_reports "/mnt" unmounted (Some no_mount) unmounted _ _ Hserve reported_run) as (_ & Hgot & _).
  exact Hgot.
Defined.
